(* ===== verification/_CoqProject ===== *)
-Q . S2P
Prelude.v
CLib.v
Posix.v
Sim.v
Utility.v
Network.v
Link.v
Response.v
Request.v
Service.v
Handlers.v
Wire.v
RequestThread.v
Command.v
Console.v
Session.v
Threads.v
Netfs.v
Fsclient.v
Resetcheck.v
Ps2client.v
System.v
Addr2line.v
Symbolize.v
