(* ===== verification/Prelude.v ===== *)
(** * ps2client: a verification development

    ps2client talks to a PlayStation 2 that runs ps2link (commands, console
    output and the host: file service) or ps2netfs (its file systems). This
    library models its programs in Rocq, function by function, and proves what
    makes them correct.

    ** The program

    - src/utility.c: flags, pathnames, argument packing, the clock.
    - src/network.c: sockets, and sends and receives that finish.
    - src/ps2link.c: the core. The main thread connects, sends commands and
      waits ([ps2link_connect], [ps2link_handshake], [ps2link_mainloop]); a
      request thread serves the files of the host to the PS2; a console thread
      prints what the PS2 prints and looks for the end marker. The threads
      share the module's globals under one lock.
    - src/ps2client.c: the command line and main; src/resetcheck.c: a reset,
      watched by running ps2client as a child process.
    - src/ps2netfs.c and src/fsclient.c: the client of the PS2's file systems.
    - tools/ps2symbolize.c: symbols for the exceptions in a log.

    ** How it is modelled

    Functions are computations of the monad [M G W]: [G] is the globals of a
    module (the record [link] for ps2link.c, [netfs] for ps2netfs.c), [W] the
    world outside. A computation returns a result and a state, does something
    C leaves undefined ([Fault], with its kind), or the model runs out of the
    fuel of a loop ([OutOfFuel]). A specification is a weakest precondition
    [wp E m Q s] that allows the faults in [E] only and never [OutOfFuel], so
    every property is total: it says that the code returns.

    The world is the class [Posix]: the system calls as functions on an
    abstract state, with the histories of what was sent, received and
    printed. [PosixLaws] is what the theorems use of it, which is documented
    behaviour; [sim] in Sim is a small operating system that satisfies it, and
    on which the witnesses of the theorems run. [Processes] and [ProcessLaws]
    do the same for child processes, [Subprocess] and [SubprocessLaws] for
    the pipe and the child of ps2symbolize ([shell] is their instance).

    The threads that run beside the main thread are the class [OtherThreads],
    what they promise it [Interference]: from globals in order ([ready]) the
    flags only rise, a marker keeps its status, the activity time only changes
    to a later time, and the globals stay in order ([interferes]).
    [PrivateCommands] is a promise of its own, that they send nothing on the
    command socket: it holds as long as no request names that descriptor,
    which the code does not check ([polite_step]). Threads shows that the two
    threads of the program keep the promises, and System composes them with
    main: its world holds the kernel, the local objects of the threads and a
    schedule that says which thread takes how many iterations each time the
    main thread waits.

    A status or result is specified by the calls that led to it: [exit_status],
    [handshake_result], [connect_result] and [run_status] are relations between
    the states of a run that name the clock readings ([time_ms] of a state),
    the call that failed, and the last look at the shared flags.
    Integers are [Z], cut to their width where C does; bytes are [Z]; memory
    objects are byte lists whose initial contents are unknown.

    ** Files

    - Prelude: words, big-endian fields, memory, the monad, [wp], tactics.
    - CLib: strings, numbers and formats of the C library.
    - Posix, Sim: the system calls, their laws, and an instance.
    - Utility, Network: utility.c and network.c.
    - Link: the globals, constants and flags of ps2link.c.
    - Response, Request: ps2link_response_ and ps2link_request_ functions.
    - Service: the host: file service as an abstract specification (requests,
      replies, the relation [serves]); Handlers: the handlers of the source refine it.
    - Wire: request packets, as the structs of ps2link.c lay them out
      ([encode_request]) and as doc/ps2link-protocol.txt describes them
      ([documented]), and what they are taken for.
    - RequestThread: ps2link_thread_request; Console: ps2link_check_line,
      ps2link_scan_console, ps2link_thread_console; Command: the thirteen
      ps2link_command_ functions; Session: connect, handshake, main loop,
      disconnect; Threads: interleavings of the two threads.
    - Netfs, Fsclient: ps2netfs.c and fsclient.c.
    - Resetcheck, Ps2client: resetcheck.c and ps2client.c.
    - System: main and the two threads as one program.
    - Addr2line: resolve_symbol of ps2symbolize.c; Symbolize: the rest of it.

    ** What the theorems show

    - The file service (RequestThread, Wire): every handler does the step of
      the abstract service and sends exactly one reply; the thread holds a
      conversation until the connection ends; replies come in order. A packet
      of the protocol document is served as [taken_for] says: the document and
      the code disagree on the numbers of dread and dclose and on the flags of
      remove and rmdir, and the code gets the mode of mkdir and negative seeks
      wrong.
    - The session (Session, Threads, Ps2client, System): the exit status of
      the main loop and of main is the documented one for the reason that the
      calls of the run give, under any interleaving with the threads, first for any threads that keep
      the promise, then for the composed program under any schedule; the
      globals and the threads' objects keep their types; the handshake and the
      idle timeout end in bounded time and do not flood the PS2; commands that
      do not wait never wait.
    - The console (Console): every byte is printed and scanned, the marker is
      found in lines of up to 4095 bytes and in the last 256 bytes of any line,
      however packets cut the output; the line buffer never overflows.
    - Packets (Command, Netfs): read by the protocol documents, what is sent
      is the command or call, up to the widths of the integers and 255 bytes of
      a pathname. The exceptions are in the statements: gsexec ([as_read]), and
      sync, mount and umount, which carry the numbers of other calls ([heard]).
    - Transfers (Network, Fsclient): sends, receives and copies end, and
      report success only for complete data; copyto cuts the size of the local
      file to an int, which shows from 2 GiB on.
    - resetcheck (Resetcheck): bounded, one reset, the right exit status.
    - ps2symbolize (Addr2line, Symbolize): a log without null bytes is kept,
      with annotations that are lines of their own behind its lines (inside one
      only if it is longer than the buffer), and can be had back
      from the output; an exception gets the symbol that addr2line has for its
      address; the right question is asked, and no descriptor and no child is
      left behind.
    - Pure routines (Utility, Ps2client): pathnames, arguments, options,
      numbers.

    ** Fuel and bounds

    A loop of network.c gets as fuel the bytes it has to move plus the signals
    that can still interrupt it ([pending_signals]), plus one: each iteration
    uses one of these. Copy loops get the bytes left. Loops that wait for the
    PS2 or the user (handshake, main loop, threads, the watching loop of
    resetcheck, a directory listing) have no bound in the code: they are
    modelled as their state after at most [n] iterations, the safety theorems
    hold for every [n], and the liveness theorems give an [n] that is enough.

    ** What is not modelled

    The _WIN32 and Cygwin branches, the messages on stderr and the places that
    print the usage text (the text itself is [usage]), and pthread creation
    and cancellation: the threads run from connect to disconnect. An iteration
    of a thread is one step, and so is each access of main to the shared
    state: interleavings below an iteration are not modelled. A composed
    program whose thread has crashed stands for undefined behaviour. stat,
    directory entries and localtime are what the system returns. The test
    programs are left out.

    ** Left to do

    A model of the ps2netfs server, whose code is not here, as an interface
    with laws, to compose with fsclient (a copy there and back is the file);
    the messages on stderr; steps of the threads below an iteration. *)

From stdpp Require Export base tactics numbers list list_numbers option strings gmap.
From Stdlib Require Export ZArith Lia.

#[global] Open Scope list_scope.
#[global] Open Scope Z_scope.

(** The hints that close the routine side conditions. *)
Create HintDb ps2link discriminated.

(** ** Machine integers

    A C integer is a [Z]; the conversions between widths are written out. *)

Definition u8 (z : Z) : Z := z mod 2 ^ 8.
Definition u16 (z : Z) : Z := z mod 2 ^ 16.
Definition u32 (z : Z) : Z := z mod 2 ^ 32.
(** Conversion to [int] (two's complement, 32 bits). *)
Definition s32 (z : Z) : Z := (z + 2 ^ 31) mod 2 ^ 32 - 2 ^ 31.

Definition is_byte (b : Z) : Prop := 0 <= b < 256.
Definition is_s32 (z : Z) : Prop := - 2 ^ 31 <= z < 2 ^ 31.
Definition is_u32 (z : Z) : Prop := 0 <= z < 2 ^ 32.

#[global] Instance is_byte_dec b : Decision (is_byte b).
Proof. unfold is_byte. apply _. Defined.
#[global] Instance is_s32_dec z : Decision (is_s32 z).
Proof. unfold is_s32. apply _. Defined.
#[global] Instance is_u32_dec z : Decision (is_u32 z).
Proof. unfold is_u32. apply _. Defined.

(** Hypotheses about ranges, widths and [mod]/[div] by constants. *)
Ltac word_lia :=
  unfold u8, u16, u32, s32, is_byte, is_s32, is_u32 in *;
  change (2 ^ 8) with 256 in *; change (2 ^ 16) with 65536 in *;
  change (2 ^ 31) with 2147483648 in *; change (2 ^ 32) with 4294967296 in *;
  Z.div_mod_to_equations; lia.

Lemma u8_range z : is_byte (u8 z).
Proof. word_lia. Qed.
Lemma u32_range z : is_u32 (u32 z).
Proof. word_lia. Qed.
Lemma s32_range z : is_s32 (s32 z).
Proof. word_lia. Qed.
Lemma u8_small z : is_byte z -> u8 z = z.
Proof. intros; word_lia. Qed.
Lemma u16_small z : 0 <= z < 65536 -> u16 z = z.
Proof. intros; word_lia. Qed.
Lemma u32_small z : is_u32 z -> u32 z = z.
Proof. intros; word_lia. Qed.
Lemma s32_small z : is_s32 z -> s32 z = z.
Proof. intros; word_lia. Qed.
Lemma s32_u32 z : s32 (u32 z) = s32 z.
Proof. word_lia. Qed.
Lemma u32_s32 z : u32 (s32 z) = u32 z.
Proof. word_lia. Qed.
Lemma u32_idemp z : u32 (u32 z) = u32 z.
Proof. word_lia. Qed.

(** Split a [Forall] goal over the structure of its list. *)
Ltac forall_split := rewrite ?Forall_app, ?Forall_cons, ?Forall_nil; split_and?.

(** ** Integers in memory and on the wire

    [be16]/[be32] are what [htons]/[htonl] leave in a packed field;
    [get_be16]/[get_be32] are [ntohs]/[ntohl] of the field at an offset. The
    host itself is little-endian ([le32], [get_le32]). *)

Definition be16 (z : Z) : list Z := [u8 (z / 256); u8 z].
Definition be32 (z : Z) : list Z :=
  [u8 (z / 16777216); u8 (z / 65536); u8 (z / 256); u8 z].
Definition le32 (z : Z) : list Z :=
  [u8 z; u8 (z / 256); u8 (z / 65536); u8 (z / 16777216)].

(** The byte at an index; every use is inside the object. *)
Definition byte_at (buf : list Z) (i : nat) : Z := nth i buf 0.

Definition get_be16 (buf : list Z) (off : nat) : Z :=
  byte_at buf off * 256 + byte_at buf (off + 1).
Definition get_be32 (buf : list Z) (off : nat) : Z :=
  byte_at buf off * 16777216 + byte_at buf (off + 1) * 65536
  + byte_at buf (off + 2) * 256 + byte_at buf (off + 3).
Definition get_le32 (buf : list Z) (off : nat) : Z :=
  byte_at buf off + byte_at buf (off + 1) * 256
  + byte_at buf (off + 2) * 65536 + byte_at buf (off + 3) * 16777216.

Lemma length_be16 z : length (be16 z) = 2%nat.
Proof. reflexivity. Qed.
Lemma length_be32 z : length (be32 z) = 4%nat.
Proof. reflexivity. Qed.
Lemma length_le32 z : length (le32 z) = 4%nat.
Proof. reflexivity. Qed.

Lemma be32_is_bytes z : Forall is_byte (be32 z).
Proof. repeat constructor; apply u8_range. Qed.
Lemma be16_is_bytes z : Forall is_byte (be16 z).
Proof. repeat constructor; apply u8_range. Qed.

Lemma get_be16_be16 z rest : get_be16 (be16 z ++ rest) 0 = u16 z.
Proof. unfold get_be16, be16, byte_at. simpl. word_lia. Qed.

Lemma get_be32_be32 z rest : get_be32 (be32 z ++ rest) 0 = u32 z.
Proof. unfold get_be32, be32, byte_at. simpl. word_lia. Qed.

Lemma get_le32_le32 z rest : get_le32 (le32 z ++ rest) 0 = u32 z.
Proof. unfold get_le32, le32, byte_at. simpl. word_lia. Qed.

Lemma byte_at_app_r a b i :
  byte_at (a ++ b) (length a + i) = byte_at b i.
Proof. unfold byte_at. rewrite app_nth2 by lia. f_equal. lia. Qed.

Lemma byte_at_app_l a b i :
  (i < length a)%nat -> byte_at (a ++ b) i = byte_at a i.
Proof. intros. unfold byte_at. by rewrite app_nth1. Qed.

(** A field behind a prefix of known length. *)
Lemma get_be32_app pre buf off :
  get_be32 (pre ++ buf) (length pre + off) = get_be32 buf off.
Proof. unfold get_be32. by rewrite <- !Nat.add_assoc, !byte_at_app_r. Qed.

Lemma get_be16_app pre buf off :
  get_be16 (pre ++ buf) (length pre + off) = get_be16 buf off.
Proof. unfold get_be16. by rewrite <- !Nat.add_assoc, !byte_at_app_r. Qed.

Lemma get_be32_app_l buf rest off :
  (off + 4 <= length buf)%nat ->
  get_be32 (buf ++ rest) off = get_be32 buf off.
Proof. intros. unfold get_be32. by rewrite !byte_at_app_l by lia. Qed.

Lemma get_be16_app_l buf rest off :
  (off + 2 <= length buf)%nat ->
  get_be16 (buf ++ rest) off = get_be16 buf off.
Proof. intros. unfold get_be16. by rewrite !byte_at_app_l by lia. Qed.

Lemma byte_at_range buf i : Forall is_byte buf -> is_byte (byte_at buf i).
Proof.
  intros HF. unfold byte_at. destruct (decide (i < length buf)%nat) as [Hi|Hi].
  - rewrite Forall_nth in HF. by apply HF.
  - rewrite nth_overflow by lia. split; lia.
Qed.

Lemma get_be32_range buf off : Forall is_byte buf -> is_u32 (get_be32 buf off).
Proof.
  intros HF. unfold get_be32.
  pose proof (byte_at_range _ off HF). pose proof (byte_at_range _ (off + 1) HF).
  pose proof (byte_at_range _ (off + 2) HF). pose proof (byte_at_range _ (off + 3) HF).
  word_lia.
Qed.

Lemma get_be16_range buf off : Forall is_byte buf -> 0 <= get_be16 buf off < 65536.
Proof.
  intros HF. unfold get_be16.
  pose proof (byte_at_range _ off HF). pose proof (byte_at_range _ (off + 1) HF).
  word_lia.
Qed.

(** ** Storing into an object

    [mem_store buf off data] is the object [buf] after [data] was copied to
    offset [off]; the uses are in bounds, which [mem_store_length] needs. *)

Definition mem_store (buf : list Z) (off : nat) (data : list Z) : list Z :=
  take off buf ++ data ++ drop (off + length data) buf.

Lemma mem_store_length buf off data :
  (off + length data <= length buf)%nat ->
  length (mem_store buf off data) = length buf.
Proof.
  intros. unfold mem_store. rewrite !length_app, length_take, length_drop. lia.
Qed.

Lemma mem_store_nil buf off : mem_store buf off [] = buf.
Proof. unfold mem_store. simpl. by rewrite Nat.add_0_r, take_drop. Qed.

Lemma mem_store_0 buf data :
  mem_store buf 0 data = data ++ drop (length data) buf.
Proof. reflexivity. Qed.

Lemma take_mem_store_0 buf data :
  take (length data) (mem_store buf 0 data) = data.
Proof. rewrite mem_store_0. by rewrite take_app_length. Qed.

(** What lies before the end of a store. *)
Lemma take_mem_store buf off data :
  (off <= length buf)%nat ->
  take (off + length data) (mem_store buf off data) = take off buf ++ data.
Proof.
  intros. unfold mem_store. rewrite app_assoc.
  replace (off + length data)%nat with (length (take off buf ++ data))
    by (rewrite length_app, length_take; lia).
  apply take_app_length.
Qed.

(** Two adjacent stores are one store of the concatenation. *)
Lemma mem_store_app buf off d1 d2 :
  (off + length d1 + length d2 <= length buf)%nat ->
  mem_store (mem_store buf off d1) (off + length d1) d2 =
  mem_store buf off (d1 ++ d2).
Proof.
  intros Hlen. unfold mem_store.
  rewrite length_app.
  assert (Htl : length (take off buf) = off) by (rewrite length_take; lia).
  rewrite (app_assoc (take off buf) d1).
  rewrite take_app_le, drop_app_ge by (rewrite length_app, Htl; lia).
  rewrite length_app, Htl, drop_drop.
  rewrite take_ge by (rewrite length_app, Htl; lia).
  rewrite <- !app_assoc. do 3 f_equal. f_equal. lia.
Qed.

(** Storing into the object from an offset on. *)
Lemma mem_store_drop buf off data :
  (off + length data <= length buf)%nat ->
  mem_store buf off (mem_store (drop off buf) 0 data) = mem_store buf off data.
Proof.
  intros Hlen. assert (Hd : length (drop off buf) = (length buf - off)%nat) by apply length_drop.
  assert (Hl : length (mem_store (drop off buf) 0 data) = length (drop off buf))
    by (apply mem_store_length; lia).
  unfold mem_store at 1. rewrite Hl, (drop_ge buf (off + length (drop off buf))), app_nil_r by lia.
  rewrite mem_store_0, drop_drop. done.
Qed.

Lemma mem_store_bytes buf off data :
  Forall is_byte buf -> Forall is_byte data -> Forall is_byte (mem_store buf off data).
Proof.
  intros Hb Hd. unfold mem_store. rewrite !Forall_app.
  split; [by apply Forall_take|]. split; [done|by apply Forall_drop].
Qed.

(** ** Program outcomes

    A C function either returns, does something the C standard leaves
    undefined ([Fault], with what went wrong), or the model ran out of the
    fuel of one of its unbounded loops. *)

Inductive fault :=
| Unterminated   (* a string function ran off an object without a null *)
| Overflow       (* a read or write outside an object *)
| NullDeref      (* a null pointer was dereferenced *)
| SignedOverflow. (* an int operation left the range of int *)

#[global] Instance fault_eq_dec : EqDecision fault.
Proof. solve_decision. Defined.

Inductive outcome (A : Type) :=
| Ret (a : A)
| Fault (f : fault)
| OutOfFuel.
Arguments Ret {A} a.
Arguments Fault {A} f.
Arguments OutOfFuel {A}.

(** The state a function runs in: the program's globals and the world
    outside the program (kernel, other machine, memory allocator, clock). *)
#[projections(primitive)]
Record st (G W : Type) := mk_st { glob : G; world : W }.
Arguments mk_st {G W} glob world.
Arguments glob {G W} s.
Arguments world {G W} s.

Definition M (G W A : Type) : Type := st G W -> outcome (A * st G W).

Section monad.
Context {G W : Type}.

Definition ret {A} (a : A) : M G W A := fun s => Ret (a, s).
Definition bind {A B} (m : M G W A) (k : A -> M G W B) : M G W B :=
  fun s => match m s with
           | Ret (a, s') => k a s'
           | Fault f => Fault f
           | OutOfFuel => OutOfFuel
           end.
Definition fail {A} (f : fault) : M G W A := fun _ => Fault f.
Definition stuck {A} : M G W A := fun _ => OutOfFuel.
(** A call into the world. *)
Definition hcall {A} (f : W -> A * W) : M G W A :=
  fun s => let '(a, w') := f (world s) in Ret (a, mk_st (glob s) w').
Definition gget : M G W G := fun s => Ret (glob s, s).
Definition gmod (f : G -> G) : M G W unit :=
  fun s => Ret (tt, mk_st (f (glob s)) (world s)).
Definition of_option {A} (f : fault) (o : option A) : M G W A :=
  match o with Some a => ret a | None => fail f end.
(** A pure computation that can fault. *)
Definition of_outcome {A} (o : outcome A) : M G W A :=
  fun s => match o with
           | Ret a => Ret (a, s)
           | Fault f => Fault f
           | OutOfFuel => OutOfFuel
           end.
End monad.

Declare Scope prog_scope.
Delimit Scope prog_scope with prog.
Notation "'let!' x ':=' m 'in' k" := (bind m (fun x => k))
  (at level 10, x binder, m at level 100, k at level 200) : prog_scope.
Notation "m ';;;' k" := (bind m (fun _ => k))
  (at level 199, right associativity) : prog_scope.
#[global] Open Scope prog_scope.

(** ** Weakest preconditions

    [wp E m Q s]: run from [s], [m] returns with a result and state in [Q],
    or faults with a fault in [E]. It never runs out of fuel: every use is a
    total-correctness statement. *)

Section wp.
Context {G W : Type}.

Definition wp {A} (E : fault -> Prop) (m : M G W A)
    (Q : A -> st G W -> Prop) (s : st G W) : Prop :=
  match m s with
  | Ret (a, s') => Q a s'
  | Fault f => E f
  | OutOfFuel => False
  end.

Lemma wp_ret {A} E (a : A) Q s : Q a s -> wp E (ret a) Q s.
Proof. done. Qed.

Lemma wp_bind {A B} E (m : M G W A) (k : A -> M G W B) Q s :
  wp E m (fun a s' => wp E (k a) Q s') s -> wp E (bind m k) Q s.
Proof. unfold wp, bind. by destruct (m s) as [[a s']| |]. Qed.

Lemma wp_mono {A} (E E' : fault -> Prop) (m : M G W A) Q Q' s :
  wp E m Q s ->
  (forall f, E f -> E' f) -> (forall a s', Q a s' -> Q' a s') ->
  wp E' m Q' s.
Proof. unfold wp. destruct (m s) as [[a s']| |]; eauto. Qed.

(** Sequencing through a known specification of the first part. *)
Lemma wp_bind_spec {A B} E (m : M G W A) (k : A -> M G W B) R Q s :
  wp E m R s -> (forall a s', R a s' -> wp E (k a) Q s') ->
  wp E (bind m k) Q s.
Proof. intros Hm Hk. apply wp_bind. eapply wp_mono; eauto. Qed.

Lemma wp_hcall {A} E (f : W -> A * W) Q s :
  (forall a w', f (world s) = (a, w') -> Q a (mk_st (glob s) w')) ->
  wp E (hcall f) Q s.
Proof. unfold wp, hcall. intros H. destruct (f (world s)); eauto. Qed.

Lemma wp_gget E Q (s : st G W) : Q (glob s) s -> wp E gget Q s.
Proof. done. Qed.

Lemma wp_gmod E f Q (s : st G W) :
  Q tt (mk_st (f (glob s)) (world s)) -> wp E (gmod f) Q s.
Proof. done. Qed.

Lemma wp_of_option {A} (E : fault -> Prop) f (o : option A) Q (s : st G W) :
  match o with Some a => Q a s | None => E f end ->
  wp E (of_option f o) Q s.
Proof. by destruct o. Qed.

Lemma wp_of_outcome {A} (E : fault -> Prop) (o : outcome A) Q (s : st G W) :
  match o with Ret a => Q a s | Fault f => E f | OutOfFuel => False end ->
  wp E (of_outcome o) Q s.
Proof. by destruct o. Qed.

Lemma wp_fail {A} (E : fault -> Prop) f (Q : A -> st G W -> Prop) s :
  E f -> wp E (fail f) Q s.
Proof. done. Qed.

(** What a [wp] says about an actual run. *)
Lemma wp_run {A} (m : M G W A) Q s :
  wp (fun _ => False) m Q s -> exists a s', m s = Ret (a, s') /\ Q a s'.
Proof. unfold wp. destruct (m s) as [[a s']| |]; [eauto|done|done]. Qed.

(** A specification may use that its result is the one of the run. *)
Lemma wp_remember {A} E (m : M G W A) (Q : A -> st G W -> Prop) s :
  wp E m (fun a s' => m s = Ret (a, s') -> Q a s') s -> wp E m Q s.
Proof. unfold wp. destruct (m s) as [[a s']|f|]; auto. Qed.

Lemma wp_intro {A} E (m : M G W A) (Q : A -> st G W -> Prop) s a s' :
  m s = Ret (a, s') -> Q a s' -> wp E m Q s.
Proof. unfold wp. by intros ->. Qed.
End wp.

(** What holds of the result of every run that returns. *)
Section ensures.
Context {G W : Type}.

Definition ensures {A} (m : M G W A) (P : A -> Prop) : Prop :=
  forall s a s', m s = Ret (a, s') -> P a.

Lemma ensures_ret {A} (a : A) (P : A -> Prop) : P a -> ensures (ret a) P.
Proof. intros Ha s b s' Hb. unfold ret in Hb. by simplify_eq. Qed.

Lemma ensures_fail {A} f (P : A -> Prop) : ensures (fail f) P.
Proof. by intros s b s' Hb. Qed.

Lemma ensures_bind {A B} (m : M G W A) (k : A -> M G W B) R P :
  ensures m R -> (forall a, R a -> ensures (k a) P) -> ensures (bind m k) P.
Proof.
  intros Hm Hk s b s'. unfold bind. destruct (m s) as [[a s1]| |] eqn:Hms; try done.
  apply Hk. by eapply Hm.
Qed.

(** Whatever the first part returned. *)
Lemma ensures_bind_any {A B} (m : M G W A) (k : A -> M G W B) P :
  (forall a, ensures (k a) P) -> ensures (bind m k) P.
Proof. intros Hk. apply (ensures_bind _ _ (fun _ => True)); [done|auto]. Qed.

Lemma ensures_of_outcome {A} (o : outcome A) (P : A -> Prop) :
  (forall a, o = Ret a -> P a) -> ensures (of_outcome o) P.
Proof. intros Ho s a s'. unfold of_outcome. destruct o; intros; simplify_eq. by apply Ho. Qed.

Lemma wp_ensures {A} E (m : M G W A) Q P s :
  ensures m P -> wp E m Q s -> wp E m (fun a s' => Q a s' /\ P a) s.
Proof.
  unfold wp. intros Hm. destruct (m s) as [[a s']| |] eqn:Hms; try done. eauto.
Qed.
End ensures.

(** No fault is allowed. *)
Abbreviation safe := (fun _ : fault => False).

(** One step of symbolic execution of a [wp] goal. *)
Ltac wp_step :=
  cbv beta;
  lazymatch goal with
  | |- wp _ (bind _ _) _ _ => apply wp_bind; wp_step
  | |- wp _ (ret _) _ _ => apply wp_ret
  | |- wp _ gget _ _ => apply wp_gget; cbn [glob world]
  | |- wp _ (gmod _) _ _ => apply wp_gmod; cbn [glob world]
  | |- wp _ (of_option _ _) _ _ => apply wp_of_option
  | |- wp _ (fail _) _ _ => apply wp_fail
  | |- wp _ (hcall _) _ _ => apply wp_hcall; cbn [glob world]
  end.
