(* ===== verification/CLib.v ===== *)
(** * The C library functions the program calls

    Strings in memory are null-terminated byte lists: [cstr] is the string an
    object holds, [None] when no null is inside the object (reading on is
    undefined behaviour in C). A [char *] argument that is known to be a
    proper string is the list of its bytes without the null. *)

From S2P Require Import Prelude.


(** ** Literals *)

Definition bytes_of (s : string) : list Z :=
  map (fun a => Z.of_N (Ascii.N_of_ascii a)) (String.list_ascii_of_string s).
Arguments bytes_of s%_string_scope.

(** A string without its null: bytes, none of them 0. *)
Definition is_string (s : list Z) : Prop := Forall (fun b => 0 < b < 256) s.

#[global] Instance is_string_dec s : Decision (is_string s).
Proof. unfold is_string. apply _. Defined.

(** ** strlen and the string of an object *)

Fixpoint strlen (buf : list Z) : option nat :=
  match buf with
  | [] => None
  | b :: rest => if b =? 0 then Some 0%nat else S <$> strlen rest
  end.

Definition cstr (buf : list Z) : option (list Z) :=
  (fun n => take n buf) <$> strlen buf.

(** strcmp(a, b) == 0 on proper strings. *)
Definition strcmp_eq (a b : list Z) : bool := bool_decide (a = b).

(** strncmp(a, b, n) == 0 for a string [b] of length [n]: [b] begins [a]. *)
Definition strncmp_eq (a b : list Z) (n : nat) : bool :=
  bool_decide (take n a = take n b).

(** strstr: the offset of the first occurrence. *)
Fixpoint strstr (hay needle : list Z) : option nat :=
  if bool_decide (take (length needle) hay = needle) then Some 0%nat
  else match hay with
       | [] => None
       | _ :: rest => S <$> strstr rest needle
       end.

(** ** snprintf(dst, size, "%s", s)

    [dst] receives as much of [s] as fits and always a null; what is behind
    the null stays. The result is the length [s] needs. *)
Definition snprintf_s (dst : list Z) (size : nat) (s : list Z) : Z * list Z :=
  (Z.of_nat (length s), mem_store dst 0 (take (size - 1) s ++ [0])).

(** sprintf(dst, "%s/%s", a, b): [None] when it does not fit in [dst]. *)
Definition sprintf_slash (dst : list Z) (a b : list Z) : option (list Z) :=
  let text := a ++ bytes_of "/" ++ b ++ [0] in
  if bool_decide (length text <= length dst)%nat then Some (mem_store dst 0 text)
  else None.

(** ** Numbers *)

(** isspace in the C locale. *)
Definition isspace (c : Z) : bool := (c =? 32) || ((9 <=? c) && (c <=? 13)).

Definition digit_value (c : Z) : option Z :=
  if (48 <=? c) && (c <=? 57) then Some (c - 48)
  else if (97 <=? c) && (c <=? 122) then Some (c - 87)
  else if (65 <=? c) && (c <=? 90) then Some (c - 55)
  else None.

(** The digits of a base at the start of a string: value and count. *)
Fixpoint digits (base : Z) (acc : Z) (n : nat) (s : list Z) : Z * nat :=
  match s with
  | [] => (acc, n)
  | c :: rest =>
      match digit_value c with
      | Some d => if d <? base then digits base (acc * base + d) (S n) rest else (acc, n)
      | None => (acc, n)
      end
  end.

Fixpoint skip_spaces (s : list Z) : nat :=
  match s with
  | c :: rest => if isspace c then S (skip_spaces rest) else 0%nat
  | [] => 0%nat
  end.

(** An optional sign: is it a minus, and how many characters it takes. *)
Definition sign_of (s : list Z) : bool * nat :=
  match s with
  | c :: _ => if c =? 45 then (true, 1%nat) else if c =? 43 then (false, 1%nat) else (false, 0%nat)
  | [] => (false, 0%nat)
  end.

(** The base and the length of the prefix "0x" for base 0. The prefix counts
    only when a hexadecimal digit follows it. *)
Definition base_of (s : list Z) : Z * nat :=
  match s with
  | c0 :: c1 :: c2 :: _ =>
      if (c0 =? 48) && ((c1 =? 120) || (c1 =? 88))
         && match digit_value c2 with Some d => d <? 16 | None => false end
      then (16, 2%nat)
      else if c0 =? 48 then (8, 0%nat) else (10, 0%nat)
  | c0 :: _ => if c0 =? 48 then (8, 0%nat) else (10, 0%nat)
  | [] => (10, 0%nat)
  end.

(** What strtol and strtoul read: is there a number, its sign, its magnitude
    and where it ends. *)
Record scanned := mk_scanned { sc_neg : bool; sc_mag : Z; sc_end : nat }.

Definition scan_number (base0 : Z) (s : list Z) : scanned :=
  let ws := skip_spaces s in
  let s1 := drop ws s in
  let '(neg, sg) := sign_of s1 in
  let s2 := drop sg s1 in
  let '(base, pre) := if base0 =? 0 then base_of s2 else (base0, 0%nat) in
  let '(mag, n) := digits base 0 0%nat (drop pre s2) in
  if bool_decide (n = 0%nat) then mk_scanned false 0 0%nat
  else mk_scanned neg mag (ws + sg + pre + n)%nat.

Definition LONG_MAX : Z := 2 ^ 63 - 1.
Definition LONG_MIN : Z := - 2 ^ 63.
Definition ULONG_MAX : Z := 2 ^ 64 - 1.

(** strtol(s, NULL, 10): out of range values are clamped. *)
Definition strtol10 (s : list Z) : Z :=
  let r := scan_number 10 s in
  let v := if sc_neg r then - sc_mag r else sc_mag r in
  Z.max LONG_MIN (Z.min LONG_MAX v).

(** strtoul(s, &end, 0): the value and the offset of [end]. A minus sign
    negates the value in unsigned long. *)
Definition strtoul0 (s : list Z) : Z * nat :=
  let r := scan_number 0 s in
  if ULONG_MAX <? sc_mag r then (ULONG_MAX, sc_end r)
  else ((if sc_neg r then (- sc_mag r) mod 2 ^ 64 else sc_mag r), sc_end r).

(** atoi(s) is (int)strtol(s, NULL, 10). *)
Definition atoi (s : list Z) : Z := s32 (strtol10 s).

(** ** Facts *)

Lemma strlen_app_null s rest :
  Forall (fun b => b <> 0) s -> strlen (s ++ 0 :: rest) = Some (length s).
Proof.
  induction 1 as [|b s Hb Hs IH]; [done|]. simpl.
  destruct (Z.eqb_spec b 0); [done|]. by rewrite IH.
Qed.

Lemma strlen_Some buf n :
  strlen buf = Some n ->
  exists s rest, buf = s ++ 0 :: rest /\ length s = n /\ Forall (fun b => b <> 0) s.
Proof.
  revert n. induction buf as [|b buf IH]; intros n Hn; simpl in Hn; [done|].
  destruct (Z.eqb_spec b 0) as [->|Hb].
  - simplify_eq. exists [], buf. by split_and!.
  - destruct (strlen buf) as [m|] eqn:Hm; simplify_eq/=.
    destruct (IH m eq_refl) as (s & rest & -> & <- & Hs).
    exists (b :: s), rest. split_and!; [done|done|by constructor].
Qed.

Lemma strlen_lt buf n : strlen buf = Some n -> (n < length buf)%nat.
Proof.
  intros (s & rest & -> & <- & _)%strlen_Some. rewrite length_app. simpl. lia.
Qed.

Lemma cstr_app_null s rest :
  Forall (fun b => b <> 0) s -> cstr (s ++ 0 :: rest) = Some s.
Proof.
  intros Hs. unfold cstr. rewrite strlen_app_null by done. simpl.
  by rewrite take_app_length.
Qed.

Lemma cstr_Some buf s :
  cstr buf = Some s ->
  exists rest, buf = s ++ 0 :: rest /\ Forall (fun b => b <> 0) s.
Proof.
  unfold cstr. intros Hc. destruct (strlen buf) as [n|] eqn:Hn; simplify_eq/=.
  apply strlen_Some in Hn as (s & rest & -> & <- & Hs).
  exists rest. rewrite take_app_length. done.
Qed.

Lemma cstr_app_l a b s : cstr a = Some s -> cstr (a ++ b) = Some s.
Proof.
  intros (rest & -> & Hs)%cstr_Some. rewrite <- app_assoc. by apply cstr_app_null.
Qed.

Lemma is_string_nonzero s : is_string s -> Forall (fun b => b <> 0) s.
Proof. intros H. eapply Forall_impl; [exact H|]. simpl. lia. Qed.

Lemma is_string_bytes s : is_string s -> Forall is_byte s.
Proof. intros H. eapply Forall_impl; [exact H|]. unfold is_byte. simpl. lia. Qed.

(** strstr finds the first occurrence, and [None] means there is none. *)
Lemma strstr_Some hay needle n :
  strstr hay needle = Some n ->
  take (length needle) (drop n hay) = needle.
Proof.
  revert n. induction hay as [|c hay IH]; intros n; simpl.
  - case_bool_decide as Ht; intros; simplify_eq/=. done.
  - case_bool_decide as Ht; intros Hn; simplify_eq/=; [done|].
    destruct (strstr hay needle) as [m|] eqn:Hm; simplify_eq/=. by apply IH.
Qed.

Lemma strstr_is_Some hay needle :
  is_Some (strstr hay needle) <-> exists a b, hay = a ++ needle ++ b.
Proof.
  split.
  - intros [n Hn]. exists (take n hay), (drop (length needle) (drop n hay)).
    rewrite <- (take_drop n hay) at 1. f_equal.
    rewrite <- (take_drop (length needle) (drop n hay)) at 1. f_equal.
    by apply strstr_Some.
  - intros (a & b & ->). induction a as [|c a IH]; simpl.
    + destruct (needle ++ b) eqn:E; simpl; case_bool_decide as Ht; try done;
        exfalso; apply Ht; rewrite <- E; apply take_app_length.
    + case_bool_decide; [done|]. destruct IH as [n ->]. done.
Qed.

Lemma snprintf_s_length dst size s :
  (0 < size <= length dst)%nat -> length (snd (snprintf_s dst size s)) = length dst.
Proof.
  intros. simpl. apply mem_store_length.
  rewrite length_app, length_take. simpl. lia.
Qed.

(** A string that fits is the string the field holds. *)
Lemma snprintf_s_cstr dst size s :
  Forall (fun b => b <> 0) s ->
  cstr (snd (snprintf_s dst size s)) = Some (take (size - 1) s).
Proof.
  intros Hs. simpl. rewrite mem_store_0, <- app_assoc. apply cstr_app_null.
  by apply Forall_take.
Qed.

(** ** Numerals *)

Definition digit_char (d : Z) : Z := if d <? 10 then 48 + d else 87 + d.
Definition numeral (ds : list Z) : list Z := map digit_char ds.
Definition value_of (base : Z) (ds : list Z) (acc : Z) : Z :=
  fold_left (fun acc d => acc * base + d) ds acc.

(** What stands behind a numeral does not go on with a digit. *)
Definition stops (base : Z) (rest : list Z) : Prop :=
  match rest with
  | [] => True
  | c :: _ => forall d, digit_value c = Some d -> base <= d
  end.

Lemma digit_value_char d : 0 <= d < 16 -> digit_value (digit_char d) = Some d.
Proof.
  intros Hd. unfold digit_char, digit_value. destruct (Z.ltb_spec d 10).
  - rewrite (proj2 (Z.leb_le 48 _)), (proj2 (Z.leb_le _ 57)) by lia. simpl. f_equal. lia.
  - rewrite (proj2 (Z.leb_gt _ 57)) by lia. rewrite andb_false_r.
    rewrite (proj2 (Z.leb_le 97 _)), (proj2 (Z.leb_le _ 122)) by lia. simpl. f_equal. lia.
Qed.

Lemma digits_numeral_app base ds rest :
  base <= 16 -> Forall (fun d => 0 <= d < base) ds -> stops base rest ->
  forall acc n, digits base acc n (numeral ds ++ rest) = (value_of base ds acc, (n + length ds)%nat).
Proof.
  intros Hb Hds Hrest. induction Hds as [|d ds Hd Hds IH]; intros acc n; simpl.
  - rewrite Nat.add_0_r. destruct rest as [|c rest]; [done|]. simpl in *.
    destruct (digit_value c) as [d|]; [|done]. by rewrite (proj2 (Z.ltb_ge d base)) by auto.
  - rewrite digit_value_char by lia. rewrite (proj2 (Z.ltb_lt d base)) by lia.
    rewrite IH. f_equal. lia.
Qed.

Lemma digits_numeral base ds : base <= 16 -> Forall (fun d => 0 <= d < base) ds ->
  forall acc n, digits base acc n (numeral ds) = (value_of base ds acc, (n + length ds)%nat).
Proof.
  intros Hb Hds acc n. rewrite <- (app_nil_r (numeral ds)). by apply digits_numeral_app.
Qed.

Lemma value_of_nonneg base ds : 0 <= base -> Forall (fun d => 0 <= d < base) ds ->
  forall acc, 0 <= acc -> 0 <= value_of base ds acc.
Proof. intros Hb. induction 1 as [|d ds Hd Hds IH]; intros acc Ha; simpl; [done|]. apply IH. nia. Qed.

Lemma digit_char_range d : 0 <= d < 16 -> 48 <= digit_char d <= 57 \/ 97 <= digit_char d <= 102.
Proof. intros Hd. unfold digit_char. destruct (Z.ltb_spec d 10); lia. Qed.

(** A numeral has no white space and no sign before it. *)
Lemma isspace_digit d : 0 <= d < 16 -> isspace (digit_char d) = false.
Proof.
  intros Hd. pose proof (digit_char_range d Hd). unfold isspace. apply orb_false_iff. split.
  - apply Z.eqb_neq. lia.
  - apply andb_false_iff. right. apply Z.leb_gt. lia.
Qed.

Lemma sign_of_digit d s : 0 <= d < 16 -> sign_of (digit_char d :: s) = (false, 0%nat).
Proof.
  intros Hd. pose proof (digit_char_range d Hd). simpl.
  by rewrite (proj2 (Z.eqb_neq _ 45)), (proj2 (Z.eqb_neq _ 43)) by lia.
Qed.

Example strtol_example : strtol10 (bytes_of " -42 rest") = -42.
Proof. reflexivity. Qed.
Example strtoul_hex : strtoul0 (bytes_of "0x1F") = (31, 4%nat).
Proof. reflexivity. Qed.
Example strtoul_bare_0x : strtoul0 (bytes_of "0x") = (0, 1%nat).
Proof. reflexivity. Qed.
Example strstr_example : strstr (bytes_of "ab@@END@@") (bytes_of "@@END") = Some 2%nat.
Proof. reflexivity. Qed.
