(* ===== verification/Posix.v ===== *)
(** * The operating system the program runs on

    Sockets, files, memory and the clock are not code of the repository: they
    are the parameter [Posix] of the model, a class of operations on an
    abstract world [W]. What the program's theorems rely on about them is the
    class [PosixLaws], documented behaviour of the calls: how many bytes a
    call may move, that nothing is sent or received by a call that does
    neither, that time does not run backwards and that signals do not
    interrupt calls forever.

    [tx w s] and [rx w s] are histories: the bytes the kernel has accepted
    from, and delivered to, the program on descriptor [s] so far, by send and
    write and by recvfrom and read. *)

From S2P Require Import Prelude.

(** ** Constants of the platform (Linux) *)

Definition EINTR : Z := 4.
Definition EINPROGRESS : Z := 115.
Definition SOCK_STREAM : Z := 1.
Definition SOCK_DGRAM : Z := 2.

Definition O_RDONLY : Z := 0.
Definition O_WRONLY : Z := 1.
Definition O_RDWR : Z := 2.
Definition O_CREAT : Z := 64.
Definition O_TRUNC : Z := 512.
Definition O_APPEND : Z := 1024.
Definition O_NONBLOCK : Z := 2048.
Definition SEEK_SET : Z := 0.
Definition SEEK_END : Z := 2.

Definition S_IFMT : Z := 61440.
Definition S_ISDIR (mode : Z) : bool := Z.land mode S_IFMT =? 16384.
Definition S_ISLNK (mode : Z) : bool := Z.land mode S_IFMT =? 40960.
Definition S_ISREG (mode : Z) : bool := Z.land mode S_IFMT =? 32768.

(** The status word of waitpid. *)
Definition WIFEXITED (status : Z) : bool := Z.land status 127 =? 0.
Definition WEXITSTATUS (status : Z) : Z := Z.land (Z.shiftr status 8) 255.

(** ** Data the calls exchange *)

(** A result and errno. *)
Record sysret := SysRet { sr_val : Z; sr_errno : Z }.

Record statbuf := mk_stat {
  st_mode : Z; st_size : Z; st_ctime : Z; st_atime : Z; st_mtime : Z }.

Record tm := mk_tm {
  tm_year : Z; tm_mon : Z; tm_mday : Z; tm_hour : Z; tm_min : Z; tm_sec : Z }.

(** ** The operations *)

Class Posix (W : Type) := {
  (* sockets *)
  sys_gethostbyname : list Z -> W -> option Z * W;
  sys_socket : Z -> W -> Z * W;
  sys_nodelay : Z -> W -> Z * W;                  (* setsockopt TCP_NODELAY *)
  sys_connect : Z -> Z -> Z -> W -> sysret * W;   (* socket, address, port *)
  sys_bind : Z -> Z -> W -> Z * W;                (* socket, port *)
  sys_select_read : Z -> option Z -> W -> Z * W;  (* socket, seconds *)
  sys_select_connect : Z -> Z -> Z -> W -> Z * W; (* socket, seconds, microseconds *)
  sys_so_error : Z -> W -> (Z * Z) * W;           (* getsockopt SO_ERROR *)
  sys_getfl : Z -> W -> Z * W;
  sys_setfl : Z -> Z -> W -> Z * W;
  sys_send : Z -> list Z -> W -> sysret * W;
  sys_recvfrom : Z -> Z -> W -> (sysret * list Z) * W;
  sys_close : Z -> W -> Z * W;
  (* files *)
  sys_open : list Z -> Z -> Z -> W -> Z * W;      (* path, flags, mode *)
  sys_read : Z -> Z -> W -> (Z * list Z) * W;
  sys_write : Z -> list Z -> W -> Z * W;
  sys_lseek : Z -> Z -> Z -> W -> Z * W;
  sys_stat : list Z -> W -> option statbuf * W;   (* None: -1 *)
  sys_opendir : list Z -> W -> option Z * W;      (* a DIR pointer or null *)
  sys_readdir : Z -> W -> option (list Z) * W;    (* d_name or null *)
  sys_closedir : Z -> W -> Z * W;
  sys_remove : list Z -> W -> Z * W;
  sys_mkdir : list Z -> Z -> W -> Z * W;
  sys_rmdir : list Z -> W -> Z * W;
  sys_localtime : Z -> W -> option tm * W;
  sys_stdout : list Z -> W -> unit * W;           (* fwrite to stdout *)
  sys_stderr : list Z -> W -> unit * W;           (* fprintf to stderr *)
  (* memory: what a new object holds is not specified *)
  sys_malloc : Z -> W -> option (list Z) * W;
  sys_auto : nat -> W -> list Z * W;              (* bytes on the stack *)
  sys_auto_stat : W -> statbuf * W;               (* a struct stat on the stack *)
  (* the clock *)
  sys_clock_gettime : W -> (Z * Z) * W;           (* seconds, nanoseconds *)
  sys_nanosleep : Z -> Z -> W -> Z * W;
  (* histories *)
  tx : W -> Z -> list Z;
  rx : W -> Z -> list Z;
  out : W -> list Z;                              (* written to stdout *)
  err : W -> list Z;                              (* written to stderr *)
  now : W -> Z;                                   (* nanoseconds *)
  pending_signals : W -> nat                      (* interruptions still to come *)
}.

Section relations.
Context {W : Type} `{Posix W}.

(** Nothing was sent, received or printed, except perhaps on [fd]. *)
Definition quiet_but (fd : option Z) (w w' : W) : Prop :=
  (forall s, Some s <> fd -> tx w' s = tx w s /\ rx w' s = rx w s)
  /\ (pending_signals w' <= pending_signals w)%nat
  /\ now w <= now w' /\ out w' = out w.

Definition quiet : W -> W -> Prop := quiet_but None.

#[export] Instance quiet_but_preorder fd : PreOrder (quiet_but fd).
Proof.
  split.
  - intros w. by split_and!.
  - intros w1 w2 w3 (H1 & H2 & H3 & H3') (H4 & H5 & H6 & H6').
    split_and!; [|lia|lia|congruence].
    intros s Hs. destruct (H1 s Hs), (H4 s Hs). split; congruence.
Qed.

Lemma quiet_weaken fd w w' : quiet w w' -> quiet_but fd w w'.
Proof. intros (H1 & H2 & H3 & H4). split_and!; [|done|done|done]. intros. by apply H1. Qed.

Lemma quiet_tx w w' s : quiet w w' -> tx w' s = tx w s.
Proof. intros [Hq _]. by apply Hq. Qed.
Lemma quiet_rx w w' s : quiet w w' -> rx w' s = rx w s.
Proof. intros [Hq _]. by apply Hq. Qed.
Lemma quiet_but_tx fd w w' s : quiet_but (Some fd) w w' -> fd <> s -> tx w' s = tx w s.
Proof. intros [Hq _] ?. apply Hq. congruence. Qed.
Lemma quiet_but_rx fd w w' s : quiet_but (Some fd) w w' -> fd <> s -> rx w' s = rx w s.
Proof. intros [Hq _] ?. apply Hq. congruence. Qed.

(** Nothing was sent on [other]; time and signals went on. *)
Definition holds (other : Z) (w w' : W) : Prop :=
  tx w' other = tx w other /\ (pending_signals w' <= pending_signals w)%nat /\ now w <= now w'.

#[export] Instance holds_preorder other : PreOrder (holds other).
Proof.
  split; [by intros w|]. intros w1 w2 w3 (H1 & H2 & H3) (H4 & H5 & H6).
  refine (conj _ (conj _ _)); [congruence|lia|lia].
Qed.

Lemma quiet_holds other w w' : quiet w w' -> holds other w w'.
Proof. intros Hq. split; [by apply quiet_tx|]. destruct Hq as (_ & ? & ? & _). done. Qed.

Lemma quiet_but_holds fd other w w' : quiet_but (Some fd) w w' -> fd <> other -> holds other w w'.
Proof.
  intros Hq Hfd. split; [by apply (quiet_but_tx fd)|]. destruct Hq as (_ & ? & ? & _). done.
Qed.
End relations.

(** ** What the calls guarantee *)

Class PosixLaws (W : Type) `{Posix W} : Prop := {
  (* send takes a prefix of the buffer, or nothing *)
  send_law : forall s buf w r w', sys_send s buf w = (r, w') ->
    quiet_but (Some s) w w' /\ rx w' s = rx w s /\ sr_val r <= Z.of_nat (length buf)
    /\ tx w' s = tx w s ++ take (Z.to_nat (sr_val r)) buf
    /\ (sr_val r < 0 -> sr_errno r = EINTR -> (pending_signals w' < pending_signals w)%nat);
  (* recvfrom delivers at most the bytes asked for *)
  recvfrom_law : forall s n w r data w', sys_recvfrom s n w = ((r, data), w') ->
    quiet_but (Some s) w w' /\ tx w' s = tx w s
    /\ length data = Z.to_nat (sr_val r) /\ sr_val r <= Z.max 0 n /\ Forall is_byte data
    /\ rx w' s = rx w s ++ data
    /\ (sr_val r < 0 -> sr_errno r = EINTR -> (pending_signals w' < pending_signals w)%nat);
  (* a read delivers at most the bytes asked for, and never 2 GiB or more *)
  read_law : forall fd n w r data w', sys_read fd n w = ((r, data), w') ->
    quiet_but (Some fd) w w' /\ length data = Z.to_nat r /\ -1 <= r <= Z.max 0 n /\ r < 2 ^ 31
    /\ Forall is_byte data /\ tx w' fd = tx w fd /\ rx w' fd = rx w fd ++ data;
  write_law : forall fd buf w r w', sys_write fd buf w = (r, w') ->
    quiet_but (Some fd) w w' /\ -1 <= r <= Z.of_nat (length buf)
    /\ tx w' fd = tx w fd ++ take (Z.to_nat r) buf /\ rx w' fd = rx w fd;
  malloc_law : forall n w o w', sys_malloc n w = (o, w') ->
    quiet w w' /\ forall mem, o = Some mem -> length mem = Z.to_nat n;
  auto_law : forall n w mem w', sys_auto n w = (mem, w') ->
    quiet w w' /\ length mem = n /\ Forall is_byte mem;
  clock_law : forall w sec ns w', sys_clock_gettime w = ((sec, ns), w') ->
    quiet w w' /\ 0 <= ns < 1000000000 /\ now w <= sec * 1000000000 + ns <= now w';
  nanosleep_law : forall sec ns w r w', sys_nanosleep sec ns w = (r, w') ->
    quiet w w' /\ (r = 0 -> now w + sec * 1000000000 + ns <= now w')
    /\ (r <> 0 -> (pending_signals w' < pending_signals w)%nat);
  gethostbyname_law : forall h w o w', sys_gethostbyname h w = (o, w') -> quiet w w';
  socket_law : forall t w r w', sys_socket t w = (r, w') -> quiet w w';
  nodelay_law : forall s w r w', sys_nodelay s w = (r, w') -> quiet w w';
  connect_law : forall s a p w r w', sys_connect s a p w = (r, w') -> quiet w w';
  bind_law : forall s p w r w', sys_bind s p w = (r, w') -> quiet w w';
  select_read_law : forall s t w r w', sys_select_read s t w = (r, w') -> quiet w w';
  select_connect_law : forall s t u w r w', sys_select_connect s t u w = (r, w') -> quiet w w';
  so_error_law : forall s w r w', sys_so_error s w = (r, w') -> quiet w w';
  getfl_law : forall s w r w', sys_getfl s w = (r, w') -> quiet w w';
  setfl_law : forall s f w r w', sys_setfl s f w = (r, w') -> quiet w w';
  close_law : forall fd w r w', sys_close fd w = (r, w') -> quiet w w';
  open_law : forall p f m w r w', sys_open p f m w = (r, w') -> quiet w w';
  lseek_law : forall fd o wh w r w', sys_lseek fd o wh w = (r, w') -> quiet w w';
  stat_law : forall p w o w', sys_stat p w = (o, w') -> quiet w w';
  opendir_law : forall p w o w', sys_opendir p w = (o, w') -> quiet w w';
  readdir_law : forall d w o w', sys_readdir d w = (o, w') -> quiet w w'
    /\ forall name, o = Some name -> Forall (fun b => 0 < b < 256) name /\ (length name <= 255)%nat;
  closedir_law : forall d w r w', sys_closedir d w = (r, w') -> quiet w w';
  remove_law : forall p w r w', sys_remove p w = (r, w') -> quiet w w';
  mkdir_law : forall p m w r w', sys_mkdir p m w = (r, w') -> quiet w w';
  rmdir_law : forall p w r w', sys_rmdir p w = (r, w') -> quiet w w';
  localtime_law : forall t w o w', sys_localtime t w = (o, w') -> quiet w w';
  stdout_law : forall b w u w', sys_stdout b w = (u, w') ->
    (forall s, tx w' s = tx w s /\ rx w' s = rx w s)
    /\ (pending_signals w' <= pending_signals w)%nat /\ now w <= now w' /\ out w' = out w ++ b;
  stderr_law : forall b w u w', sys_stderr b w = (u, w') -> quiet w w' /\ err w' = err w ++ b;
  auto_stat_law : forall w o w', sys_auto_stat w = (o, w') -> quiet w w'
}.
