(* ===== verification/Sim.v ===== *)
(** * A small operating system

    A concrete instance of [Posix] that satisfies [PosixLaws]: the hypotheses
    of the development can be met, and its theorems run on concrete inputs.
    The network delivers scripted chunks, interrupts calls with signals as
    long as it has some, and takes at most 100 bytes per send; there is one
    tree of files with scripted names, and the clock ticks. *)

From S2P Require Import Prelude CLib Posix.

Record sim := mk_sim {
  sim_inbound : list (list Z);            (* what recvfrom delivers *)
  sim_tx : list (Z * list Z);             (* sent, per socket *)
  sim_rx : list (Z * list Z);             (* delivered, per socket *)
  sim_signals : nat;
  sim_clock : Z;                          (* nanoseconds *)
  sim_files : list (list Z * statbuf);    (* by pathname *)
  sim_content : list Z;                   (* what every file holds *)
  sim_names : list (list Z);              (* what readdir finds *)
  sim_out : list Z;                       (* printed *)
  sim_exits : list Z;                     (* exit statuses of the children to come *)
  sim_spawned : list (list (list Z));     (* their arguments *)
  sim_err : list Z }.                     (* printed to stderr *)

Definition sim_start (inbound : list (list Z)) (signals : nat)
    (files : list (list Z * statbuf)) (content : list Z) (names : list (list Z)) : sim :=
  mk_sim inbound [] [] signals 1000000000 files content names [] [] [] [].

Definition set_network (inbound : list (list Z)) (t r : list (Z * list Z)) (w : sim) : sim :=
  mk_sim inbound t r (sim_signals w) (sim_clock w) (sim_files w) (sim_content w) (sim_names w) (sim_out w)
    (sim_exits w) (sim_spawned w) (sim_err w).
Definition set_clock (n : nat) (t : Z) (w : sim) : sim :=
  mk_sim (sim_inbound w) (sim_tx w) (sim_rx w) n t (sim_files w) (sim_content w) (sim_names w) (sim_out w)
    (sim_exits w) (sim_spawned w) (sim_err w).
Definition set_names (names : list (list Z)) (w : sim) : sim :=
  mk_sim (sim_inbound w) (sim_tx w) (sim_rx w) (sim_signals w) (sim_clock w) (sim_files w)
    (sim_content w) names (sim_out w) (sim_exits w) (sim_spawned w) (sim_err w).
Definition add_out (b : list Z) (w : sim) : sim :=
  mk_sim (sim_inbound w) (sim_tx w) (sim_rx w) (sim_signals w) (sim_clock w) (sim_files w)
    (sim_content w) (sim_names w) (sim_out w ++ b) (sim_exits w) (sim_spawned w) (sim_err w).
Definition set_children (exits : list Z) (spawned : list (list (list Z))) (w : sim) : sim :=
  mk_sim (sim_inbound w) (sim_tx w) (sim_rx w) (sim_signals w) (sim_clock w) (sim_files w)
    (sim_content w) (sim_names w) (sim_out w) exits spawned (sim_err w).
Definition add_err (b : list Z) (w : sim) : sim :=
  mk_sim (sim_inbound w) (sim_tx w) (sim_rx w) (sim_signals w) (sim_clock w) (sim_files w)
    (sim_content w) (sim_names w) (sim_out w) (sim_exits w) (sim_spawned w) (sim_err w ++ b).

(** What a log holds for a socket. *)
Definition log_of (log : list (Z * list Z)) (s : Z) : list Z :=
  concat (map (fun e => if e.1 =? s then e.2 else []) log).

Definition sim_stat (p : list Z) (w : sim) : option statbuf :=
  snd <$> list_find (fun e => e.1 = p) (sim_files w) ≫= (fun e => Some (snd e)).

Definition sim_send (s : Z) (buf : list Z) (w : sim) : sysret * sim :=
  match sim_signals w with
  | S n => (SysRet (-1) EINTR, set_clock n (sim_clock w) w)
  | O =>
      let out := take 100 buf in
      (SysRet (Z.of_nat (length out)) 0,
       set_network (sim_inbound w) (sim_tx w ++ [(s, out)]) (sim_rx w) w)
  end.

Definition sim_recv (s n : Z) (w : sim) : (sysret * list Z) * sim :=
  match sim_signals w with
  | S m => ((SysRet (-1) EINTR, []), set_clock m (sim_clock w) w)
  | O =>
      match sim_inbound w with
      | [] => ((SysRet 0 0, []), w)
      | chunk :: rest =>
          let data := map u8 (take (Z.to_nat n) chunk) in
          let left := drop (Z.to_nat n) chunk in
          ((SysRet (Z.of_nat (length data)) 0, data),
           set_network (if bool_decide (left = []) then rest else left :: rest)
             (sim_tx w) (sim_rx w ++ [(s, data)]) w)
      end
  end.

Definition name_ok (name : list Z) : Prop :=
  Forall (fun b => 0 < b < 256) name /\ (length name <= 255)%nat.

#[global] Instance name_ok_dec name : Decision (name_ok name).
Proof. unfold name_ok. apply _. Defined.

Definition sim_readdir (w : sim) : option (list Z) * sim :=
  match sim_names w with
  | [] => (None, w)
  | name :: names => (if decide (name_ok name) then Some name else None, set_names names w)
  end.

#[global] Instance sim_posix : Posix sim := {|
  sys_gethostbyname := fun _ w => (Some 1, w);
  sys_socket := fun _ w => (3, w);
  sys_nodelay := fun _ w => (0, w);
  sys_connect := fun _ _ _ w => (SysRet 0 0, w);
  sys_bind := fun _ _ w => (0, w);
  sys_select_read := fun _ _ w => (1, w);
  sys_select_connect := fun _ _ _ w => (1, w);
  sys_so_error := fun _ w => ((0, 0), w);
  sys_getfl := fun _ w => (0, w);
  sys_setfl := fun _ _ w => (0, w);
  sys_send := sim_send;
  sys_recvfrom := sim_recv;
  sys_close := fun _ w => (0, w);
  sys_open := fun p f _ w =>
    (if bool_decide (is_Some (sim_stat p w)) || negb (Z.land f O_CREAT =? 0)
        || bool_decide (p = bytes_of "/dev/null") then 5 else -1, w);
  sys_read := fun fd n w =>
    let data := map u8 (take (Z.to_nat (Z.min n 1000000)) (sim_content w)) in
    ((Z.of_nat (length data), data),
     set_network (sim_inbound w) (sim_tx w) (sim_rx w ++ [(fd, data)]) w);
  sys_write := fun fd buf w =>
    (Z.of_nat (length buf), set_network (sim_inbound w) (sim_tx w ++ [(fd, buf)]) (sim_rx w) w);
  sys_lseek := fun _ o wh w => (if wh =? 2 then Z.of_nat (length (sim_content w)) + o else o, w);
  sys_stat := fun p w => (sim_stat p w, w);
  sys_opendir := fun _ w => (Some 7, w);
  sys_readdir := fun _ w => sim_readdir w;
  sys_closedir := fun _ w => (0, w);
  sys_remove := fun p w => (if bool_decide (is_Some (sim_stat p w)) then 0 else -1, w);
  sys_mkdir := fun _ _ w => (0, w);
  sys_rmdir := fun _ w => (-1, w);
  sys_localtime := fun _ w => (Some (mk_tm 100 0 1 12 30 15), w);
  sys_stdout := fun b w => (tt, add_out b w);
  sys_stderr := fun b w => (tt, add_err b w);
  sys_malloc := fun n w => (if n <=? 1048576 then Some (replicate (Z.to_nat n) 0) else None, w);
  sys_auto := fun n w => (replicate n 204, w);
  sys_auto_stat := fun w => (mk_stat 0 0 0 0 0, w);
  sys_clock_gettime := fun w =>
    let t := sim_clock w + 1000000 in
    ((t / 1000000000, t mod 1000000000), set_clock (sim_signals w) t w);
  sys_nanosleep := fun sec ns w =>
    (0, set_clock (sim_signals w) (sim_clock w + Z.max 0 (sec * 1000000000 + ns)) w);
  tx := fun w s => log_of (sim_tx w) s;
  rx := fun w s => log_of (sim_rx w) s;
  out := sim_out;
  err := sim_err;
  now := sim_clock;
  pending_signals := sim_signals |}.

Lemma log_of_app log s data t :
  log_of (log ++ [(s, data)]) t = log_of log t ++ (if s =? t then data else []).
Proof. unfold log_of. rewrite map_app, concat_app. simpl. by rewrite app_nil_r. Qed.

Lemma u8_bytes l : Forall is_byte (map u8 l).
Proof. apply Forall_map, Forall_true. intros b. apply u8_range. Qed.

Lemma log_of_other log s data t : Some t <> Some s -> log_of (log ++ [(s, data)]) t = log_of log t.
Proof.
  intros Ht. rewrite log_of_app. destruct (Z.eqb_spec s t); [congruence|]. apply app_nil_r.
Qed.

Lemma sim_send_law s buf w r w' :
  sim_send s buf w = (r, w') ->
  quiet_but (Some s) w w' /\ rx w' s = rx w s /\ sr_val r <= Z.of_nat (length buf)
  /\ tx w' s = tx w s ++ take (Z.to_nat (sr_val r)) buf
  /\ (sr_val r < 0 -> sr_errno r = EINTR -> (pending_signals w' < pending_signals w)%nat).
Proof.
  unfold sim_send. destruct (sim_signals w) as [|n] eqn:Hs; intros; simplify_eq/=.
  - assert (Hq : quiet_but (Some s) w (set_network (sim_inbound w) (sim_tx w ++ [(s, take 100 buf)]) (sim_rx w) w)).
    { split; [|by split_and!]. intros t Ht. simpl. by rewrite log_of_other. }
    rewrite Nat2Z.id, log_of_app, Z.eqb_refl, length_take.
    refine (conj Hq (conj eq_refl (conj _ (conj _ _)))); [lia| |lia].
    f_equal. destruct (decide (length buf <= 100)%nat).
    + rewrite !take_ge by lia. done.
    + replace (100 `min` length buf)%nat with 100%nat by lia. done.
  - rewrite app_nil_r.
    refine (conj (conj (fun _ _ => conj eq_refl eq_refl) _) (conj eq_refl (conj _ (conj eq_refl _))));
      simpl; try lia. split_and!; [lia|lia|done].
Qed.

Lemma sim_recv_law s n w r data w' :
  sim_recv s n w = ((r, data), w') ->
  quiet_but (Some s) w w' /\ tx w' s = tx w s
  /\ length data = Z.to_nat (sr_val r) /\ sr_val r <= Z.max 0 n /\ Forall is_byte data
  /\ rx w' s = rx w s ++ data
  /\ (sr_val r < 0 -> sr_errno r = EINTR -> (pending_signals w' < pending_signals w)%nat).
Proof.
  unfold sim_recv. destruct (sim_signals w) as [|m] eqn:Hs.
  - destruct (sim_inbound w) as [|chunk rest]; intros; simplify_eq/=.
    + rewrite app_nil_r. refine (conj _ (conj eq_refl _)); [reflexivity|]. split_and!; try done; lia.
    + rewrite log_of_app, Z.eqb_refl, length_map, length_take.
      refine (conj (conj _ _) (conj eq_refl (conj _ (conj _ (conj (u8_bytes _) (conj eq_refl _))))));
        simpl; try lia; [|by split_and!].
      intros t Ht. simpl. by rewrite log_of_other.
  - intros; simplify_eq/=. rewrite app_nil_r.
    refine (conj (conj (fun _ _ => conj eq_refl eq_refl) _) (conj eq_refl (conj eq_refl _)));
      [split_and!; simpl; try done; lia|]. split_and!; try done; simpl; lia.
Qed.

Lemma quiet_clock n t w :
  (n <= sim_signals w)%nat -> sim_clock w <= t -> quiet w (set_clock n t w).
Proof. intros. by split. Qed.

#[global] Instance sim_laws : PosixLaws sim.
Proof.
  split; try (intros; simpl in *; simplify_eq; reflexivity).
  - intros. by apply sim_send_law.
  - intros. by apply sim_recv_law.
  - intros fd n w r data w' Hr. simpl in Hr. simplify_eq.
    simpl. rewrite Nat2Z.id, log_of_app, Z.eqb_refl, length_map, length_take.
    refine (conj (conj _ _) _); [|by split_and!|split_and!; try done; try lia; apply u8_bytes].
    intros t Ht. simpl. by rewrite log_of_other.
  - intros fd buf w r w' Hr. simpl in Hr. simplify_eq. simpl.
    rewrite log_of_app, Z.eqb_refl, Nat2Z.id, firstn_all.
    refine (conj (conj _ _) _); [|by split_and!|split_and!; try done; lia].
    intros t Ht. simpl. by rewrite log_of_other.
  - intros n w o w' Hm. simpl in Hm. simplify_eq. split; [reflexivity|].
    intros mem. case_match; intros; simplify_eq. by rewrite length_replicate.
  - intros n w mem w' Hm. simpl in Hm. simplify_eq. rewrite length_replicate.
    split_and!; [reflexivity|done|]. apply Forall_replicate. by unfold is_byte.
  - intros w sec ns w' Hc. simpl in Hc. simplify_eq. simpl.
    pose proof (Z.mod_pos_bound (sim_clock w + 1000000) 1000000000 ltac:(lia)).
    pose proof (Z.div_mod (sim_clock w + 1000000) 1000000000 ltac:(lia)).
    split; [apply quiet_clock; lia|]. lia.
  - intros sec ns w r w' Hc. simpl in Hc. simplify_eq. simpl.
    split; [apply quiet_clock; lia|]. lia.
  - intros d w o w'. simpl. unfold sim_readdir.
    destruct (sim_names w) as [|name names]; intros; simplify_eq.
    + split; [reflexivity|done].
    + split; [by split_and!|]. intros n Hn. case_decide; by simplify_eq.
  - intros b w u w' Ho. simpl in Ho. simplify_eq. by split_and!.
  - intros b w u w' Ho. simpl in Ho. simplify_eq. by split.
Qed.
