(* ===== verification/Utility.v ===== *)
(** * src/utility.c: flags, pathnames, argument vectors, time *)

From S2P Require Import Prelude CLib Posix.

(** ** Definitions *)

(** The open flags of ps2link, converted to those of the host. *)
Definition fix_flags (flags : Z) : Z :=
  let result := 0 in
  let result :=
    match Z.land flags 3 with
    | 1 => Z.lor result O_RDONLY
    | 2 => Z.lor result (Z.lor O_WRONLY O_TRUNC)
    | 3 => Z.lor result O_RDWR
    | _ => result
    end in
  let result := if Z.land flags 16 =? 0 then result else Z.lor result O_NONBLOCK in
  let result := if Z.land flags 256 =? 0 then result else Z.lor result O_APPEND in
  let result := if Z.land flags 512 =? 0 then result else Z.lor result O_CREAT in
  if Z.land flags 1024 =? 0 then result else Z.lor result O_TRUNC.

Definition backslash : Z := 92.
Definition slash : Z := 47.

(** for (loop0=0; loop0<strlen(pathname); loop0++): '\\' becomes '/'. *)
Fixpoint backslash_loop (fuel loop0 : nat) (pathname : list Z) : outcome (list Z) :=
  match fuel with
  | O => OutOfFuel
  | S fuel =>
      match strlen pathname with
      | None => Fault Unterminated
      | Some n =>
          if (loop0 <? n)%nat then
            backslash_loop fuel (S loop0)
              (if byte_at pathname loop0 =? backslash then <[loop0 := slash]> pathname
               else pathname)
          else Ret pathname
      end
  end.

(** for(loop0=0; loop0<strlen(pathname)-1; loop0++): the string moves down.
    Returns the final loop0 as well. *)
Fixpoint shift_loop (fuel loop0 : nat) (pathname : list Z) : outcome (nat * list Z) :=
  match fuel with
  | O => OutOfFuel
  | S fuel =>
      match strlen pathname with
      | None => Fault Unterminated
      | Some n =>
          if (loop0 <? n - 1)%nat then
            shift_loop fuel (S loop0) (<[loop0 := byte_at pathname (loop0 + 1)]> pathname)
          else Ret (loop0, pathname)
      end
  end.

(** fix_pathname, in place: [pathname] is the object from the pointer on. *)
Definition fix_pathname {G W} (pathname : list Z) : M G W (Z * list Z) :=
  let! pathname :=
    (if byte_at pathname 0 =? 0
     then if (length pathname <? 2)%nat then fail Overflow
          else ret (mem_store pathname 0 (bytes_of "." ++ [0]))
     else ret pathname) in
  let! pathname := of_outcome (backslash_loop (S (length pathname)) 0 pathname) in
  if (byte_at pathname 0 =? slash) && negb (byte_at pathname 1 =? 0) then
    let! r := of_outcome (shift_loop (S (length pathname)) 0 pathname) in
    ret (0, <[r.1 := 0]> r.2)
  else ret (0, pathname).

(** The loop of fix_argv from argument [argv] on, [used] bytes written. *)
Fixpoint fix_argv_loop (destination : list Z) (size used : Z) (argv : list (list Z))
    : Z * list Z :=
  match argv with
  | [] => (0, mem_store destination (Z.to_nat used) (replicate (Z.to_nat (size - used)) 0))
  | arg :: argv =>
      let length := Z.of_nat (length arg) + 1 in
      if used + length >? size then (-1, destination)
      else fix_argv_loop (mem_store destination (Z.to_nat used) (arg ++ [0])) size
             (used + length) argv
  end.

Definition fix_argv (destination : list Z) (size : Z) (argv : list (list Z)) : Z * list Z :=
  fix_argv_loop destination size 0 argv.

Section time.
Context {G W : Type} `{Posix W}.

(** Monotonic time in milliseconds. *)
Definition time_ms : M G W Z :=
  let! ts := hcall sys_clock_gettime in
  ret (ts.1 * 1000 + Z.quot ts.2 1000000).

Definition sleep_ms (ms : Z) : M G W Z :=
  hcall (sys_nanosleep (Z.quot ms 1000) (Z.rem ms 1000 * 1000000)).
End time.

(** ** The usage text *)

(** A string that ends with a newline, and with two. *)
Definition text_line (s : string) : list Z := bytes_of s ++ [10].
Definition text_par (s : string) : list Z := bytes_of s ++ [10; 10].
Arguments text_line s%_string_scope.
Arguments text_par s%_string_scope.

(** The strings that print_usage prints, in order. *)
Definition usage : list (list Z) :=
  [[10];
   text_par " Usage: ps2client [-h hostname] [-t timeout] [-e marker] <command> [arguments]";
   text_par " Options:";
   text_line "   -h hostname  address of the ps2 (default: $PS2HOSTNAME, else 192.168.0.10)";
   text_line "   -t timeout   exit after <timeout> seconds without console output or requests";
   text_line "                (ping: give up after <timeout> seconds, default 2)";
   text_line "   -e marker    exit when a console line contains <marker>; the exit status is the";
   text_par "                number after 'status=' on that line (0 if there is none)";
   text_par " Available commands:";
   text_line "   reset";
   text_line "   resetcheck  preflight EE ping, send RESET, observe loss and recovery (-t default 10)";
   text_line "   execiop <filename> [arguments]";
   text_line "   execee <filename> [arguments]";
   text_line "   poweroff";
   text_line "   scrdump";
   text_line "   netdump";
   text_line "   dumpmem <offset> <size> <filename>";
   text_line "   startvu <vu>";
   text_line "   stopvu <vu>";
   text_line "   dumpreg <type> <filename>  (type: number, or dma intc timer gs sif fifo gif";
   text_line "                              vif0 vif1 ipu all vu0 vu1)";
   text_line "   gsexec <size> <filename>";
   text_line "   writemem <offset> <size> <filename>";
   text_line "   iopexcep";
   text_line "   listen";
   text_line "   console  (UDP-only logging without host: service)";
   text_par "   ping";
   text_line " Exit status: 0 ok, 64 usage error, 69 ps2link not answering, 74 ps2link closed";
   text_line " the connection, 75 console port in use (another ps2client running?), 124 timeout";
   text_par " before the -e marker. With -e: the status from the marker line.";
   text_par " Usage: fsclient [-h hostname] <command> [arguments]";
   text_par " Available commands:";
   text_line "   copyfrom <source> <destination>";
   text_line "   copyto <source> <destination>";
   text_line "   delete <pathname>";
   text_line "   devlist";
   text_line "   dir <pathname>";
   text_line "   mkdir <pathname>";
   text_line "   mount <device> <fsname>";
   text_line "   rmdir <pathname>";
   text_line "   sync <device>";
   text_par "   umount <device>"].

Definition print_usage {G W} `{Posix W} : M G W Z :=
  hcall (sys_stderr (concat usage)) ;;; ret 0.

(** ** Specifications *)

(** What fix_pathname makes of a pathname. *)
Definition to_slash (c : Z) : Z := if c =? backslash then slash else c.

Definition path_spec (s : list Z) : list Z :=
  let s1 := if bool_decide (s = []) then bytes_of "." else s in
  let s2 := map to_slash s1 in
  match s2 with
  | c :: (_ :: _) as rest => if c =? slash then rest else s2
  | _ => s2
  end.

(** Arguments packed one after the other, each with its null, and the reader
    on the other side that takes [argc] of them back. *)
Definition pack_argv (argv : list (list Z)) : list Z :=
  concat (map (fun a => a ++ [0]) argv).

Fixpoint unpack_argv (argc : nat) (buf : list Z) : option (list (list Z)) :=
  match argc with
  | O => Some []
  | S argc =>
      match cstr buf with
      | None => None
      | Some a => cons a <$> unpack_argv argc (drop (length a + 1) buf)
      end
  end.

(** ** fix_flags *)

(** What each bit of the result means. *)
Definition flags_spec (flags result : Z) : Prop :=
  Z.land result 3 = match Z.land flags 3 with 2 => O_WRONLY | 3 => O_RDWR | _ => O_RDONLY end
  /\ (Z.testbit result 6 = Z.testbit flags 9)                       (* O_CREAT *)
  /\ (Z.testbit result 9 = Z.testbit flags 10 || (Z.land flags 3 =? 2)) (* O_TRUNC *)
  /\ (Z.testbit result 10 = Z.testbit flags 8)                      (* O_APPEND *)
  /\ (Z.testbit result 11 = Z.testbit flags 4)                      (* O_NONBLOCK *)
  /\ Z.land result (Z.lnot (2 ^ 6 + 2 ^ 9 + 2 ^ 10 + 2 ^ 11 + 3)) = 0.

Lemma land_pow2_eqb z n : 0 <= n -> (Z.land z (2 ^ n) =? 0) = negb (Z.testbit z n).
Proof.
  intros Hn. destruct (Z.testbit z n) eqn:E; simpl.
  - apply Z.eqb_neq. intros H0. apply (f_equal (fun v => Z.testbit v n)) in H0.
    rewrite Z.land_spec, Z.pow2_bits_true, E, Z.bits_0 in H0 by done. done.
  - apply Z.eqb_eq. apply Z.bits_inj'. intros m Hm.
    rewrite Z.land_spec, Z.bits_0. destruct (decide (m = n)) as [->|].
    + by rewrite E.
    + rewrite Z.pow2_bits_false by lia. by rewrite andb_false_r.
Qed.

Lemma land_3_cases z : Z.land z 3 = 0 \/ Z.land z 3 = 1 \/ Z.land z 3 = 2 \/ Z.land z 3 = 3.
Proof.
  replace (Z.land z 3) with (z mod 2 ^ 2) by (change 3 with (Z.ones 2); by rewrite Z.land_ones).
  pose proof (Z.mod_pos_bound z (2 ^ 2) ltac:(lia)). lia.
Qed.

Lemma fix_flags_bits flags : flags_spec flags (fix_flags flags).
Proof.
  unfold flags_spec, fix_flags.
  replace (Z.land flags 16 =? 0) with (negb (Z.testbit flags 4))
    by (symmetry; by apply (land_pow2_eqb flags 4)).
  replace (Z.land flags 256 =? 0) with (negb (Z.testbit flags 8))
    by (symmetry; by apply (land_pow2_eqb flags 8)).
  replace (Z.land flags 512 =? 0) with (negb (Z.testbit flags 9))
    by (symmetry; by apply (land_pow2_eqb flags 9)).
  replace (Z.land flags 1024 =? 0) with (negb (Z.testbit flags 10))
    by (symmetry; by apply (land_pow2_eqb flags 10)).
  destruct (land_3_cases flags) as [-> | [-> | [-> | ->]]];
    destruct (Z.testbit flags 4), (Z.testbit flags 8),
      (Z.testbit flags 9), (Z.testbit flags 10); by vm_compute.
Qed.

(** ** fix_pathname *)

Lemma strlen_split a b rest :
  Forall (fun c => c <> 0) a -> Forall (fun c => c <> 0) b ->
  strlen (a ++ b ++ 0 :: rest) = Some (length a + length b)%nat.
Proof.
  intros. rewrite app_assoc, strlen_app_null by (by apply Forall_app).
  by rewrite length_app.
Qed.

Lemma to_slash_nonzero c : c <> 0 -> to_slash c <> 0.
Proof. unfold to_slash, slash, backslash. intros. case_match; lia. Qed.

Lemma backslash_loop_spec b : forall fuel a rest,
  Forall (fun c => c <> 0) a -> Forall (fun c => c <> 0) b -> (length b < fuel)%nat ->
  backslash_loop fuel (length a) (a ++ b ++ 0 :: rest)
  = Ret (a ++ map to_slash b ++ 0 :: rest).
Proof.
  induction b as [|c b IH]; intros [|fuel] a rest Ha Hb Hf; simpl in Hf; try lia; simpl.
  - rewrite (strlen_app_null a rest) by done.
    destruct (Nat.ltb_spec (length a) (length a)); [lia|done].
  - inversion_clear Hb as [|? ? Hc Hb'].
    pose proof (strlen_split a (c :: b) rest Ha ltac:(forall_split; by auto)) as Hs.
    simpl in Hs. rewrite Hs.
    destruct (Nat.ltb_spec (length a) (length a + S (length b))) as [_|]; [|lia].
    replace (byte_at (a ++ c :: b ++ 0 :: rest) (length a)) with c
      by (rewrite <- (Nat.add_0_r (length a)); by rewrite byte_at_app_r).
    replace (if c =? backslash then _ else _) with ((a ++ [to_slash c]) ++ b ++ 0 :: rest).
    + replace (S (length a)) with (length (a ++ [to_slash c])) by (rewrite length_app; simpl; lia).
      rewrite IH by (try lia; forall_split; by auto using to_slash_nonzero).
      by rewrite <- app_assoc.
    + unfold to_slash. rewrite <- app_assoc. simpl. case_match; [|done].
      rewrite insert_app_r_alt by lia. by rewrite Nat.sub_diag.
Qed.

Lemma last_cons (b : list Z) : forall y x, List.last (y :: b) x = List.last b y.
Proof.
  induction b as [|z b IH]; intros y x; [done|].
  change (List.last (z :: b) x = List.last (z :: b) y). by rewrite !IH.
Qed.

Lemma shift_loop_spec b : forall fuel a x rest,
  Forall (fun c => c <> 0) a -> x <> 0 -> Forall (fun c => c <> 0) b ->
  (length b < fuel)%nat ->
  shift_loop fuel (length a) (a ++ x :: b ++ 0 :: rest)
  = Ret ((length a + length b)%nat, a ++ b ++ List.last b x :: 0 :: rest).
Proof.
  induction b as [|y b IH]; intros [|fuel] a x rest Ha Hx Hb Hf; simpl in Hf; try lia; simpl.
  - pose proof (strlen_split a [x] rest Ha ltac:(forall_split; by auto)) as Hs. simpl in Hs. rewrite Hs.
    destruct (Nat.ltb_spec (length a) (length a + 1 - 1)); [lia|]. by rewrite Nat.add_0_r.
  - inversion_clear Hb as [|? ? Hy Hb'].
    pose proof (strlen_split a (x :: y :: b) rest Ha ltac:(forall_split; by auto)) as Hs.
    simpl in Hs. rewrite Hs.
    destruct (Nat.ltb_spec (length a) (length a + S (S (length b)) - 1)) as [_|]; [|lia].
    replace (byte_at _ (length a + 1)) with y by (by rewrite byte_at_app_r).
    rewrite insert_app_r_alt by lia. rewrite Nat.sub_diag. simpl.
    replace (a ++ y :: y :: b ++ 0 :: rest) with ((a ++ [y]) ++ y :: b ++ 0 :: rest)
      by (by rewrite <- app_assoc).
    replace (S (length a)) with (length (a ++ [y])) by (rewrite length_app; simpl; lia).
    rewrite IH by (try lia; forall_split; by auto).
    rewrite length_app, <- !app_assoc. simpl. do 2 f_equal; [lia|].
    do 3 f_equal. f_equal. symmetry. apply last_cons.
Qed.

Lemma byte_at_0_cstr p s : cstr p = Some s -> (byte_at p 0 =? 0) = bool_decide (s = []).
Proof.
  intros (rest & -> & Hs)%cstr_Some. destruct s as [|c s]; simpl; [done|].
  inversion Hs. unfold byte_at. simpl. by apply Z.eqb_neq.
Qed.

(** The part of fix_pathname behind the default: [s] is not empty. *)
Lemma fix_pathname_body {G W} (E : fault -> Prop) (s rest : list Z) (st0 : st G W) Q :
  Forall (fun c => c <> 0) s -> s <> [] ->
  (forall p', cstr p' = Some (path_spec s) -> length p' = length (s ++ 0 :: rest) -> Q (0, p') st0) ->
  wp E (let! pathname := of_outcome (backslash_loop (S (length (s ++ 0 :: rest))) 0 (s ++ 0 :: rest)) in
        if (byte_at pathname 0 =? slash) && negb (byte_at pathname 1 =? 0) then
          let! r := of_outcome (shift_loop (S (length pathname)) 0 pathname) in
          ret (0, <[r.1 := 0]> r.2)
        else ret (0, pathname)) Q st0.
Proof.
  intros Hs Hne HQ. apply wp_bind, wp_of_outcome.
  rewrite (backslash_loop_spec s _ [] rest) by (try done; rewrite length_app; simpl; lia).
  rewrite app_nil_l. revert HQ. unfold path_spec. rewrite bool_decide_eq_false_2 by done.
  assert (Hms : Forall (fun c => c <> 0) (map to_slash s)).
  { apply Forall_map. eapply Forall_impl; [exact Hs|]. apply to_slash_nonzero. }
  rewrite length_app. replace (length s) with (length (map to_slash s)) by apply length_map.
  destruct (map to_slash s) as [|c [|d t]]; intros HQ.
  - apply wp_ret, HQ; [by apply (cstr_app_null [])|done].
  - unfold byte_at. simpl. rewrite andb_false_r.
    apply wp_ret, HQ; [by apply (cstr_app_null [c])|done].
  - inversion_clear Hms as [|? ? Hc Hms']. pose proof Hms' as Hdt.
    inversion_clear Hms' as [|? ? Hd Ht].
    unfold byte_at. simpl nth. rewrite (proj2 (Z.eqb_neq d 0) Hd), andb_true_r.
    destruct (c =? slash) eqn:Ec.
    + apply wp_bind, wp_of_outcome.
      rewrite (shift_loop_spec (d :: t) _ [] c rest) by (try done; rewrite length_app; simpl; lia).
      apply wp_ret.
      change (Q (0, <[length (d :: t) := 0]> ((d :: t) ++ List.last (d :: t) c :: 0 :: rest)) st0).
      rewrite insert_app_r_alt, Nat.sub_diag by lia. apply HQ.
      * by apply (cstr_app_null (d :: t)).
      * rewrite !length_app. simpl. lia.
    + apply wp_ret, HQ; [apply (cstr_app_null (c :: d :: t)); by constructor|].
      by rewrite length_app.
Qed.

(** fix_pathname on an object that holds a string. *)
Lemma fix_pathname_wp {G W} (E : fault -> Prop) p s (st0 : st G W) Q :
  cstr p = Some s -> (2 <= length p)%nat ->
  (forall p', cstr p' = Some (path_spec s) -> length p' = length p -> Q (0, p') st0) ->
  wp E (fix_pathname p) Q st0.
Proof.
  intros Hp Hlen HQ. unfold fix_pathname. apply wp_bind.
  rewrite (byte_at_0_cstr _ _ Hp). case_bool_decide as Hs; subst.
  - destruct (Nat.ltb_spec (length p) 2); [lia|]. apply wp_ret.
    rewrite mem_store_0. simpl. eapply (fix_pathname_body _ [46]); [by repeat constructor|done|].
    intros p' Hp' Hl. apply HQ; [exact Hp'|]. rewrite Hl.
    rewrite length_app. simpl. rewrite length_drop. lia.
  - apply wp_ret. apply cstr_Some in Hp as (rest & -> & Hnz).
    by apply fix_pathname_body.
Qed.

(** An object without a null makes strlen run off it. *)
Lemma fix_pathname_unterminated {G W} p (st0 : st G W) :
  cstr p = None -> (0 < length p)%nat -> fix_pathname p st0 = Fault Unterminated.
Proof.
  intros Hp Hlen. assert (Hn : strlen p = None).
  { unfold cstr in Hp. by destruct (strlen p). }
  unfold fix_pathname, bind. destruct (byte_at p 0 =? 0) eqn:E0.
  - destruct p as [|b p]; simpl in *; [lia|].
    unfold byte_at in E0. simpl in E0. by rewrite E0 in Hn.
  - unfold ret, of_outcome. simpl. by rewrite Hn.
Qed.

(** fix_pathname leaves bytes behind. *)
Lemma insert_bytes p i b : Forall is_byte p -> is_byte b -> Forall is_byte (<[i := b]> p).
Proof. intros. by apply Forall_insert. Qed.

Lemma backslash_loop_bytes : forall fuel i p p',
  Forall is_byte p -> backslash_loop fuel i p = Ret p' -> Forall is_byte p'.
Proof.
  induction fuel as [|fuel IH]; intros i p p' Hp Hr; simpl in Hr; [done|].
  destruct (strlen p) as [n|]; [|done]. destruct (i <? n)%nat; [|by simplify_eq].
  eapply IH; [|exact Hr]. case_match; [|done]. by apply insert_bytes.
Qed.

Lemma shift_loop_bytes : forall fuel i p r,
  Forall is_byte p -> shift_loop fuel i p = Ret r -> Forall is_byte r.2.
Proof.
  induction fuel as [|fuel IH]; intros i p r Hp Hr; simpl in Hr; [done|].
  destruct (strlen p) as [n|]; [|done]. destruct (i <? n - 1)%nat; [|by simplify_eq].
  eapply IH; [|exact Hr]. by apply insert_bytes, byte_at_range.
Qed.

Lemma fix_pathname_bytes {G W} p :
  Forall is_byte p -> ensures (G := G) (W := W) (fix_pathname p) (fun r => Forall is_byte r.2).
Proof.
  intros Hp. unfold fix_pathname.
  apply (ensures_bind _ _ (Forall is_byte)).
  { case_match; [case_match|]; [apply ensures_fail| |by apply ensures_ret].
    apply ensures_ret, mem_store_bytes; [done|]. by repeat constructor. }
  clear p Hp. intros p Hp. apply (ensures_bind _ _ (Forall is_byte)).
  { apply ensures_of_outcome. intros p'. by apply backslash_loop_bytes. }
  clear p Hp. intros p Hp. case_match; [|by apply ensures_ret].
  apply (ensures_bind _ _ (fun r => Forall is_byte r.2)).
  { apply ensures_of_outcome. intros p'. by apply shift_loop_bytes. }
  intros r Hr. by apply ensures_ret, insert_bytes.
Qed.

(** ** fix_argv *)

Lemma length_pack_argv argv :
  Z.of_nat (length (pack_argv argv)) = foldr (fun a n => Z.of_nat (length a) + 1 + n) 0 argv.
Proof.
  unfold pack_argv. induction argv as [|a argv IH]; [done|]. simpl.
  rewrite !length_app, !Nat2Z.inj_add, IH. simpl. lia.
Qed.

Lemma fix_argv_loop_spec argv : forall dest used,
  0 <= used <= Z.of_nat (length dest) ->
  let size := Z.of_nat (length dest) in
  let packed := pack_argv argv in
  if bool_decide (used + Z.of_nat (length packed) <= size) then
    fix_argv_loop dest size used argv
    = (0, take (Z.to_nat used) dest ++ packed
          ++ replicate (Z.to_nat (size - used) - length packed) 0)
  else (fix_argv_loop dest size used argv).1 = -1
       /\ length (fix_argv_loop dest size used argv).2 = length dest.
Proof.
  induction argv as [|a argv IH]; intros dest used Hu size packed.
  - rewrite bool_decide_eq_true_2 by (simpl; lia). simpl.
    unfold mem_store. rewrite length_replicate, Nat.sub_0_r. do 2 f_equal.
    rewrite (drop_ge dest) by (subst size; lia). apply app_nil_r.
  - assert (Hp : packed = (a ++ [0]) ++ pack_argv argv) by done.
    assert (Hl : Z.of_nat (length packed) = Z.of_nat (length a) + 1 + Z.of_nat (length (pack_argv argv)))
      by (rewrite Hp, !length_app; simpl; lia).
    simpl. destruct (Z.gtb_spec (used + (Z.of_nat (length a) + 1)) size) as [Hgt|Hle].
    + rewrite bool_decide_eq_false_2 by lia. done.
    + set (dest' := mem_store dest (Z.to_nat used) (a ++ [0])).
      assert (Hd : length dest' = length dest)
        by (apply mem_store_length; rewrite length_app; simpl; lia).
      specialize (IH dest' (used + (Z.of_nat (length a) + 1)) ltac:(lia)). simpl in IH.
      rewrite Hd in IH. fold size in IH. rewrite Hl.
      case_bool_decide as H1; case_bool_decide as H2; try lia.
      rewrite IH. f_equal.
      replace (Z.to_nat (used + _)) with (Z.to_nat used + length (a ++ [0%Z]))%nat
        by (rewrite length_app; simpl; lia).
      subst dest'. rewrite take_mem_store, Hp, <- !app_assoc by lia.
      do 4 f_equal. f_equal. rewrite !length_app. simpl. lia.
Qed.

Lemma unpack_pack_argv argv rest :
  Forall is_string argv ->
  unpack_argv (length argv) (pack_argv argv ++ rest) = Some argv.
Proof.
  induction 1 as [|a argv Ha Hargv IH]; [done|]. simpl.
  change (pack_argv (a :: argv)) with ((a ++ [0]) ++ pack_argv argv).
  rewrite <- !app_assoc. simpl.
  rewrite cstr_app_null by (by apply is_string_nonzero).
  replace (drop (length a + 1) _) with (pack_argv argv ++ rest).
  - by rewrite IH.
  - rewrite cons_middle, app_assoc.
    rewrite drop_app_length' by (rewrite length_app; done). done.
Qed.

(** ** Time *)

Section time_facts.
Context {G W : Type} `{PosixLaws W}.

Lemma time_ms_wp (E : fault -> Prop) (s : st G W) Q :
  (forall t w', quiet (world s) w' -> now (world s) / 1000000 <= t <= now w' / 1000000 ->
                Q t (mk_st (glob s) w')) ->
  wp E time_ms Q s.
Proof.
  intros HQ. apply wp_bind, wp_hcall. intros [sec ns] w' Hc. apply wp_ret.
  apply clock_law in Hc as (Hq & Hns & Hb). apply HQ; [done|]. simpl.
  rewrite Z.quot_div_nonneg by lia. Z.div_mod_to_equations. lia.
Qed.

Lemma sleep_ms_wp (E : fault -> Prop) ms (s : st G W) Q :
  0 <= ms ->
  (forall r w', quiet (world s) w' ->
     now (world s) + ms * 1000000 <= now w'
     \/ (pending_signals w' < pending_signals (world s))%nat ->
     Q r (mk_st (glob s) w')) ->
  wp E (sleep_ms ms) Q s.
Proof.
  intros Hms HQ. apply wp_hcall. intros r w' Hc.
  apply nanosleep_law in Hc as (Hq & Hok & Hint). apply HQ; [done|].
  destruct (decide (r = 0)) as [->|]; [left|right; auto].
  specialize (Hok eq_refl).
  rewrite Z.quot_div_nonneg, Z.rem_mod_nonneg in Hok by lia.
  Z.div_mod_to_equations. lia.
Qed.

(** Enough iterations of a loop that waits for a deadline (in ms): one per
    [step] ns left and one per signal. *)
Definition enough (step : Z) (n : nat) (deadline : Z) (w : W) : Prop :=
  exists m, deadline * 1000000 - now w <= step * Z.of_nat m
            /\ (m + pending_signals w < n)%nat.

Lemma enough_zero step deadline w : ~ enough step 0 deadline w.
Proof. intros (m & _ & Hm). lia. Qed.

(** An iteration before the deadline that has reached it, has slept for
    [step], or was cut short by a signal. *)
Lemma enough_step step n deadline w w' :
  0 <= step -> enough step (S n) deadline w -> now w < deadline * 1000000 -> now w <= now w' ->
  (pending_signals w' <= pending_signals w)%nat ->
  deadline * 1000000 <= now w' \/ now w + step <= now w'
  \/ (pending_signals w' < pending_signals w)%nat ->
  enough step n deadline w'.
Proof.
  intros Hs (m & Hm & Hn) Hlt Hnow Hsig [Hd|[Hd|Hd]];
    [exists (m - 1)%nat|exists (m - 1)%nat|exists m]; nia.
Qed.
End time_facts.

(** ** The properties of src/utility.c *)

Lemma path_spec_clean s :
  Forall (fun c => c <> backslash) (path_spec s) /\ path_spec s <> [].
Proof.
  unfold path_spec. set (s1 := if bool_decide (s = []) then bytes_of "." else s).
  assert (Hc : Forall (fun c => c <> backslash) (map to_slash s1)).
  { apply Forall_map, Forall_true. intros c. unfold to_slash. case_match; [done|]. lia. }
  assert (Hne : map to_slash s1 <> []).
  { unfold s1. case_bool_decide; [done|]. by destruct s. }
  destruct (map to_slash s1) as [|c [|d t]]; [done|done|].
  case_match; [|done]. split; [by inversion Hc|done].
Qed.

(** C31: fix_pathname, run on an object that holds a null-terminated string,
    returns 0 and leaves the pathname of [path_spec] in the object: "." for
    the empty string, slashes for backslashes, one leading slash removed. It
    never runs off the object, and the result has no backslash and is not
    empty. *)
Theorem fix_pathname_correct (G W : Type) (p s : list Z) (s0 : st G W) :
  cstr p = Some s -> (2 <= length p)%nat ->
  exists p', fix_pathname p s0 = Ret ((0, p'), s0) /\ cstr p' = Some (path_spec s)
    /\ length p' = length p
    /\ Forall (fun c => c <> backslash) (path_spec s) /\ path_spec s <> [].
Proof.
  intros Hp Hl.
  destruct (wp_run (fix_pathname p) (fun r s' => s' = s0 /\ exists p', r = (0, p')
    /\ cstr p' = Some (path_spec s) /\ length p' = length p) s0) as (r & s' & Hr & -> & p' & -> & ?).
  { apply (fix_pathname_wp _ _ s); eauto. }
  exists p'. destruct (path_spec_clean s). tauto.
Qed.

Lemma fix_pathname_correct_witness :
  let p := bytes_of "\dir\file.elf" ++ replicate 20 0 in
  exists p', fix_pathname p (mk_st tt tt) = Ret ((0, p'), mk_st tt tt)
    /\ cstr p' = Some (bytes_of "dir/file.elf").
Proof.
  intros p. destruct (fix_pathname_correct unit unit p (bytes_of "\dir\file.elf") (mk_st tt tt))
    as (p' & Hr & Hc & _); [reflexivity|simpl; lia|].
  exists p'. split; [exact Hr|exact Hc].
Defined.

(** C32: fix_argv packs the arguments, each with its null, and clears the rest
    of the destination when they fit; a reader that takes as many strings as
    there are arguments gets them back. When they do not fit it returns -1. *)
Theorem fix_argv_round_trip (destination : list Z) (argv : list (list Z)) :
  Forall is_string argv ->
  let size := Z.of_nat (length destination) in
  if bool_decide (length (pack_argv argv) <= length destination)%nat
  then fix_argv destination size argv
       = (0, pack_argv argv ++ replicate (length destination - length (pack_argv argv)) 0)
       /\ unpack_argv (length argv) (fix_argv destination size argv).2 = Some argv
  else (fix_argv destination size argv).1 = -1.
Proof.
  intros Hs size. pose proof (fix_argv_loop_spec argv destination 0) as Hspec.
  specialize (Hspec ltac:(lia)). cbv zeta in Hspec. unfold fix_argv, size.
  destruct (decide (length (pack_argv argv) <= length destination)%nat) as [Hfit|Hfit].
  - rewrite bool_decide_eq_true_2 in Hspec |- * by lia.
    rewrite Z.sub_0_r, Nat2Z.id in Hspec. rewrite Hspec. split; [done|]. by apply unpack_pack_argv.
  - rewrite bool_decide_eq_false_2 in Hspec |- * by lia. apply Hspec.
Qed.

Lemma fix_argv_round_trip_witness :
  let argv := [bytes_of "host:a.elf"; bytes_of "-v"] in
  unpack_argv 2 (fix_argv (replicate 20 7) 20 argv).2 = Some argv.
Proof.
  intros argv. pose proof (fix_argv_round_trip (replicate 20 7) argv
    ltac:(repeat constructor; vm_compute; lia)) as Hrt.
  simpl length in Hrt. cbv zeta in Hrt. apply Hrt.
Defined.

(** Fix_flags translates the open flags of ps2link to the flags of open(2)
    bit by bit: the access mode from the two low bits, O_NONBLOCK, O_APPEND,
    O_CREAT and O_TRUNC from theirs, and nothing else. *)
Theorem fix_flags_correct (flags : Z) : flags_spec flags (fix_flags flags).
Proof. exact (fix_flags_bits flags). Qed.
