(* ===== verification/Network.v ===== *)
(** * src/network.c: sockets, and transfers that finish

    [network_send] and [network_receive_all] repeat a system call until every
    byte has moved, the connection is gone, or forever while signals
    interrupt them: their fuel is the bytes to move plus the interruptions
    still to come, one more than the loop can take. *)

From S2P Require Import Prelude CLib Posix Sim.

Section defs.
Context {G W : Type} `{Posix W}.

(** SIGPIPE is ignored from here on, so a send on a closed connection fails
    instead of ending the process; that is how [sys_send] behaves. *)
Definition network_startup : M G W Z := ret 0.

Definition network_disconnect (sock : Z) : M G W Z :=
  let! r := hcall (sys_close sock) in
  if r <? 0 then ret (-1) else ret 0.

Definition network_set_blocking (sock : Z) (blocking : bool) : M G W Z :=
  let! flags := hcall (sys_getfl sock) in
  if flags <? 0 then ret (-1)
  else
    let flags := if blocking then Z.land flags (Z.lnot O_NONBLOCK)
                 else Z.lor flags O_NONBLOCK in
    hcall (sys_setfl sock flags).

(** A non-blocking connect that is not done at once: wait for it. The
    result is whether the socket is connected. *)
Definition connect_pending (sock timeout_ms errno : Z) : M G W bool :=
  if negb (errno =? EINPROGRESS) then ret false
  else
    let! n := hcall (sys_select_connect sock (Z.quot timeout_ms 1000)
                       (Z.rem timeout_ms 1000 * 1000)) in
    if n <=? 0 then ret false
    else
      let! r := hcall (sys_so_error sock) in
      ret (negb ((r.1 <? 0) || negb (r.2 =? 0))).

Definition network_connect_timeout (hostname : list Z) (port type timeout_ms : Z)
    : M G W Z :=
  let! host := hcall (sys_gethostbyname hostname) in
  match host with
  | None => ret (-1)
  | Some addr =>
      let! sock := hcall (sys_socket type) in
      if sock <? 0 then ret (-1)
      else
        (if type =? SOCK_STREAM then let! _ := hcall (sys_nodelay sock) in ret tt
         else ret tt) ;;;
        if timeout_ms <? 0 then
          let! r := hcall (sys_connect sock addr port) in
          if sr_val r <? 0 then network_disconnect sock ;;; ret (-2)
          else ret sock
        else
          let! b := network_set_blocking sock false in
          if b <? 0 then network_disconnect sock ;;; ret (-1)
          else
            let! r := hcall (sys_connect sock addr port) in
            let! connected :=
              (if sr_val r <? 0 then connect_pending sock timeout_ms (sr_errno r)
               else ret true) in
            if connected : bool then
              let! b := network_set_blocking sock true in
              if b <? 0 then network_disconnect sock ;;; ret (-1)
              else ret sock
            else network_disconnect sock ;;; ret (-2)
  end.

Definition network_connect (hostname : list Z) (port type : Z) : M G W Z :=
  network_connect_timeout hostname port type (-1).

Definition network_listen (port type : Z) : M G W Z :=
  let! sock := hcall (sys_socket type) in
  if sock <? 0 then ret (-1)
  else
    let! r := hcall (sys_bind sock port) in
    if r <? 0 then network_disconnect sock ;;; ret (-2)
    else ret sock.

(** The bytes of [buffer] from [total] up to [size]. *)
Definition rest_of (buffer : list Z) (size total : Z) : list Z :=
  take (Z.to_nat (size - total)) (drop (Z.to_nat total) buffer).

Fixpoint network_send_loop (fuel : nat) (sock : Z) (buffer : list Z) (size total : Z)
    : M G W Z :=
  match fuel with
  | O => stuck
  | S fuel =>
      if total <? size then
        let! r := hcall (sys_send sock (rest_of buffer size total)) in
        let sent := sr_val r in
        if sent <=? 0 then
          if (sent <? 0) && (sr_errno r =? EINTR)
          then network_send_loop fuel sock buffer size total
          else ret (-1)
        else network_send_loop fuel sock buffer size (total + sent)
      else ret total
  end.

Definition network_send (sock : Z) (buffer : list Z) (size : Z) : M G W Z :=
  if Z.of_nat (length buffer) <? size then fail Overflow
  else fun s =>
    network_send_loop (S (Z.to_nat size + pending_signals (world s))) sock buffer size 0 s.

Definition network_wait (sock timeout : Z) : M G W Z :=
  if timeout <? 0 then hcall (sys_select_read sock None)
  else hcall (sys_select_read sock (Some timeout)).

(** The result of recvfrom and the buffer afterwards. *)
Definition network_receive (sock : Z) (buffer : list Z) (size : Z) : M G W (Z * list Z) :=
  if Z.of_nat (length buffer) <? size then fail Overflow
  else
    let! r := hcall (sys_recvfrom sock size) in
    ret (sr_val r.1, mem_store buffer 0 r.2).

Fixpoint network_receive_all_loop (fuel : nat) (sock : Z) (buffer : list Z) (size total : Z)
    : M G W (Z * list Z) :=
  match fuel with
  | O => stuck
  | S fuel =>
      if total <? size then
        let! r := hcall (sys_recvfrom sock (size - total)) in
        let received := sr_val r.1 in
        let buffer := mem_store buffer (Z.to_nat total) r.2 in
        if received <=? 0 then
          if (received <? 0) && (sr_errno r.1 =? EINTR)
          then network_receive_all_loop fuel sock buffer size total
          else ret (-1, buffer)
        else network_receive_all_loop fuel sock buffer size (total + received)
      else ret (total, buffer)
  end.

Definition network_receive_all (sock : Z) (buffer : list Z) (size : Z)
    : M G W (Z * list Z) :=
  if Z.of_nat (length buffer) <? size then fail Overflow
  else fun s =>
    network_receive_all_loop (S (Z.to_nat size + pending_signals (world s)))
      sock buffer size 0 s.
End defs.

(** ** Specifications of the transfers *)

Section facts.
Context {G W : Type} `{PosixLaws W}.
Implicit Types (s : st G W) (w : W).

(** A connection on which send fails only because of a signal. *)
Definition reliable (sock : Z) : Prop :=
  forall buf w r w', buf <> [] -> sys_send sock buf w = (r, w') ->
    sr_val r <= 0 -> sr_val r < 0 /\ sr_errno r = EINTR.

(** The last thing that happened was a call of send for [rest] that failed,
    and not because of a signal. *)
Definition send_failed (sock : Z) (rest : list Z) w' : Prop :=
  rest <> [] /\ exists w r, sys_send sock rest w = (r, w') /\ sr_val r <= 0
    /\ ~ (sr_val r < 0 /\ sr_errno r = EINTR).

Lemma send_failed_reliable sock rest w' : send_failed sock rest w' -> ~ reliable sock.
Proof. intros (Hne & w & r & Hs & Hle & Hr) Hrel. by apply Hr, (Hrel _ _ _ _ Hne Hs). Qed.

(** [packet] went out on [sock], with result [r]: all of it, or, on a
    connection that failed, -1 and only a part of it. *)
Record sent (sock : Z) (packet : list Z) (r : Z) w w' : Prop := {
  sent_quiet : quiet_but (Some sock) w w';
  sent_rx : rx w' sock = rx w sock;
  sent_tx : exists n, tx w' sock = tx w sock ++ take n packet
    /\ (r = Z.of_nat (length packet) /\ n = length packet
        \/ r = -1 /\ (n < length packet)%nat /\ send_failed sock (drop n packet) w') }.

(** [data] came in on [sock], with result [r] for [size] bytes wanted. *)
Record received (sock : Z) (size : Z) (data : list Z) (r : Z) w w' : Prop := {
  received_quiet : quiet_but (Some sock) w w';
  received_tx : tx w' sock = tx w sock;
  received_rx : rx w' sock = rx w sock ++ data;
  received_bytes : Forall is_byte data;
  received_result :
    r = Z.max 0 size /\ Z.of_nat (length data) = Z.max 0 size
    \/ r = -1 /\ Z.of_nat (length data) < size }.

Lemma sent_refl sock w : sent sock [] 0 w w.
Proof. split; [reflexivity|done|]. exists 0%nat. rewrite app_nil_r. auto. Qed.

(** One more call of send, which took the first [k] bytes. *)
Lemma sent_step sock k packet r w w1 w2 :
  quiet_but (Some sock) w w1 -> rx w1 sock = rx w sock ->
  tx w1 sock = tx w sock ++ take k packet -> (k <= length packet)%nat ->
  sent sock (drop k packet) r w1 w2 ->
  sent sock packet (if decide (r = -1) then -1 else Z.of_nat k + r) w w2.
Proof.
  intros Hq Hrx Htx Hk [Hq' Hrx' (n & Htx' & Hr)]. rewrite length_drop in Hr.
  split; [by etrans|congruence|]. exists (k + n)%nat. split.
  - by rewrite Htx', Htx, <- app_assoc, take_take_drop.
  - destruct Hr as [[-> ->]|(-> & Hn & Hrel)].
    + left. rewrite decide_False by lia. lia.
    + right. rewrite decide_True by done. rewrite drop_drop in Hrel. split_and!; [done|lia|done].
Qed.

Lemma sent_reliable sock packet r w w' :
  reliable sock -> sent sock packet r w w' ->
  r = Z.of_nat (length packet) /\ tx w' sock = tx w sock ++ packet.
Proof.
  intros Hrel [_ _ (n & Htx & [[-> ->]|(_ & _ & Hn%send_failed_reliable)])]; [|done].
  split; [done|]. by rewrite Htx, firstn_all.
Qed.

Lemma rest_of_length buffer size total :
  size <= Z.of_nat (length buffer) -> 0 <= total ->
  length (rest_of buffer size total) = Z.to_nat (size - total).
Proof. intros. unfold rest_of. rewrite length_take, length_drop. lia. Qed.

Lemma rest_of_drop buffer size total k :
  0 <= total -> 0 <= k ->
  drop (Z.to_nat k) (rest_of buffer size total) = rest_of buffer size (total + k).
Proof.
  intros. unfold rest_of. rewrite skipn_firstn_comm, drop_drop.
  f_equal; [lia|]. f_equal. lia.
Qed.

Lemma received_holds sock size data r other w w' :
  received sock size data r w w' -> holds other w w'.
Proof.
  intros [Hq Htx _ _ _]. destruct (decide (sock = other)) as [<-|].
  - split; [done|]. destruct Hq as (_ & ? & ? & _). done.
  - by eapply quiet_but_holds.
Qed.

Lemma network_send_loop_wp (E : fault -> Prop) sock buffer size : forall fuel total s Q,
  0 <= total <= size -> size <= Z.of_nat (length buffer) ->
  (Z.to_nat (size - total) + pending_signals (world s) < fuel)%nat ->
  (forall r w', sent sock (rest_of buffer size total) r (world s) w' ->
     Q (if decide (r = -1) then -1 else total + r) (mk_st (glob s) w')) ->
  wp E (network_send_loop fuel sock buffer size total) Q s.
Proof.
  induction fuel as [|fuel IH]; intros total s Q Ht Hb Hf HQ; [lia|]. simpl.
  pose proof (rest_of_length buffer size total Hb ltac:(lia)) as Hlen.
  destruct (Z.ltb_spec total size) as [Hlt|Hge].
  - apply wp_bind, wp_hcall. intros r w1 Hs.
    pose proof (send_law _ _ _ _ _ Hs) as (Hq & Hrx & Hle & Htx & Hint).
    destruct (Z.leb_spec (sr_val r) 0) as [Hle0|Hpos].
    + replace (Z.to_nat (sr_val r)) with 0%nat in Htx by lia.
      assert (Hfail : (sr_val r < 0 -> sr_errno r = EINTR -> False) ->
                      Q (-1) (mk_st (glob s) w1)).
      { intros Hno. apply (HQ (-1)). split; [done|done|]. exists 0%nat. split; [done|].
        right. split_and!; [done|lia|]. rewrite drop_0. split; [intros Hnil; rewrite Hnil in Hlen; simpl in Hlen; lia|].
        exists (world s), r. split_and!; [done|done|]. intros []. auto. }
      destruct (Z.ltb_spec (sr_val r) 0) as [Hneg|]; simpl; [|apply wp_ret, Hfail; lia].
      destruct (Z.eqb_spec (sr_errno r) EINTR) as [Hei|]; simpl; [|by apply wp_ret, Hfail].
      apply IH; simpl; [done|done|specialize (Hint Hneg Hei); lia|].
      intros r' w' Hs'. pose proof (sent_step sock 0 _ r' _ _ _ Hq Hrx Htx ltac:(lia) Hs') as Hs''.
      rewrite Z.add_0_l in Hs''. apply HQ in Hs''. by case_decide; case_decide.
    + rewrite Hlen in Hle.
      apply IH; simpl; [lia|done|destruct Hq as (_ & Hp & _); lia|].
      intros r' w' Hs'. rewrite <- rest_of_drop in Hs' by lia.
      pose proof (sent_step sock _ _ r' _ _ _ Hq Hrx Htx ltac:(lia) Hs') as Hs''.
      apply HQ in Hs''. rewrite Z2Nat.id in Hs'' by lia.
      destruct Hs' as [_ _ (n & _ & Hr')].
      repeat case_decide; try done; [lia|]. by rewrite <- Z.add_assoc.
  - apply wp_ret. replace total with (if decide (0 = -1) then -1 else total + 0)
      by (rewrite decide_False; lia).
    apply HQ. replace (rest_of buffer size total) with (@nil Z); [apply sent_refl|].
    symmetry. apply nil_length_inv. lia.
Qed.

(** network_send: the first [size] bytes of the buffer. *)
Lemma network_send_wp (E : fault -> Prop) sock buffer size s Q :
  size <= Z.of_nat (length buffer) ->
  (forall r w', sent sock (take (Z.to_nat size) buffer) r (world s) w' ->
     Q r (mk_st (glob s) w')) ->
  wp E (network_send sock buffer size) Q s.
Proof.
  intros Hb HQ. unfold network_send.
  destruct (Z.ltb_spec (Z.of_nat (length buffer)) size); [lia|].
  destruct (Z.leb_spec 0 size) as [Hp|Hn].
  - apply network_send_loop_wp; [lia|lia|lia|].
    replace (rest_of buffer size 0) with (take (Z.to_nat size) buffer)
      by (unfold rest_of; by rewrite Z.sub_0_r).
    intros r w' Hs. apply HQ in Hs. by case_decide; subst.
  - simpl. destruct (Z.ltb_spec 0 size); [lia|]. apply wp_ret, HQ.
    replace (Z.to_nat size) with 0%nat by lia. apply sent_refl.
Qed.

(** The common call: a whole packet. *)
Lemma network_send_packet_wp (E : fault -> Prop) sock packet size s Q :
  Z.of_nat (length packet) = size ->
  (forall r w', sent sock packet r (world s) w' -> Q r (mk_st (glob s) w')) ->
  wp E (network_send sock packet size) Q s.
Proof.
  intros <- HQ. apply network_send_wp; [lia|]. by rewrite Nat2Z.id, firstn_all.
Qed.

Lemma network_receive_all_loop_wp (E : fault -> Prop) sock size : forall fuel total buffer s Q,
  0 <= total <= Z.max 0 size -> size <= Z.of_nat (length buffer) ->
  (Z.to_nat (size - total) + pending_signals (world s) < fuel)%nat ->
  (forall r data w', received sock (size - total) data r (world s) w' ->
     Q (if decide (r = -1) then -1 else total + r, mem_store buffer (Z.to_nat total) data)
       (mk_st (glob s) w')) ->
  wp E (network_receive_all_loop fuel sock buffer size total) Q s.
Proof.
  induction fuel as [|fuel IH]; intros total buffer s Q Ht Hb Hf HQ; [lia|]. simpl.
  destruct (Z.ltb_spec total size) as [Hlt|Hge].
  - apply wp_bind, wp_hcall. intros [r data] w1 Hs.
    apply recvfrom_law in Hs as (Hq & Htx & Hlen & Hle & Hby & Hrx & Hint). simpl.
    destruct (Z.leb_spec (sr_val r) 0) as [Hle0|Hpos].
    + assert (data = []) as -> by (apply nil_length_inv; lia).
      rewrite mem_store_nil.
      assert (Hfail : Q (-1, buffer) (mk_st (glob s) w1)).
      { rewrite <- (mem_store_nil buffer (Z.to_nat total)).
        apply (HQ (-1)). split; [done|done|done|done|]. right. simpl. lia. }
      destruct (Z.ltb_spec (sr_val r) 0) as [Hneg|]; simpl; [|done].
      destruct (Z.eqb_spec (sr_errno r) EINTR) as [Hei|]; simpl; [|done].
      apply IH; simpl; [done|done|specialize (Hint Hneg Hei); lia|].
      intros r' data w' [Hq' Htx' Hrx' Hby' Hr]. apply HQ.
      split; [by etrans|congruence|by rewrite Hrx', Hrx, app_nil_r|done|done].
    + assert (Hl : length (mem_store buffer (Z.to_nat total) data) = length buffer)
        by (apply mem_store_length; lia).
      apply IH; simpl; [lia|lia|destruct Hq as (_ & Hp & _); lia|].
      intros r' data' w' [Hq' Htx' Hrx' Hby' Hr].
      replace (Z.to_nat (total + sr_val r)) with (Z.to_nat total + length data)%nat by lia.
      rewrite mem_store_app by lia.
      specialize (HQ (if decide (r' = -1) then -1 else sr_val r + r') (data ++ data') w').
      replace (if decide (r' = -1) then -1 else total + sr_val r + r')
        with (if decide ((if decide (r' = -1) then -1 else sr_val r + r') = -1)
              then -1 else total + (if decide (r' = -1) then -1 else sr_val r + r'))
        by (repeat case_decide; lia).
      apply HQ. split; [by etrans|congruence|by rewrite Hrx', Hrx, app_assoc|by apply Forall_app|].
      rewrite length_app. case_decide; lia.
  - apply wp_ret. rewrite <- (mem_store_nil buffer (Z.to_nat total)).
    replace total with (if decide (0 = -1) then -1 else total + 0) at 1
      by (rewrite decide_False; lia).
    apply HQ. split; [reflexivity|done|by rewrite app_nil_r|done|left; simpl; lia].
Qed.

(** network_receive_all: the next [size] bytes of the connection are at the
    start of the buffer, or -1 after fewer. *)
Lemma network_receive_all_wp (E : fault -> Prop) sock buffer size s Q :
  size <= Z.of_nat (length buffer) ->
  (forall r data w', received sock size data r (world s) w' ->
     Q (r, mem_store buffer 0 data) (mk_st (glob s) w')) ->
  wp E (network_receive_all sock buffer size) Q s.
Proof.
  intros Hb HQ. unfold network_receive_all.
  destruct (Z.ltb_spec (Z.of_nat (length buffer)) size); [lia|].
  apply network_receive_all_loop_wp; [lia|lia|lia|].
  rewrite Z.sub_0_r. intros r data w' Hr. apply HQ in Hr. by case_decide; subst.
Qed.

(** ** Setting up and closing connections: nothing is sent or received *)

Lemma network_disconnect_wp (E : fault -> Prop) sock s Q :
  (forall r w', quiet (world s) w' -> r = 0 \/ r = -1 -> Q r (mk_st (glob s) w')) ->
  wp E (network_disconnect sock) Q s.
Proof.
  intros HQ. unfold network_disconnect. wp_step. intros r w1 Hq%close_law.
  destruct (r <? 0); apply wp_ret, HQ; auto.
Qed.

Lemma set_blocking_wp (E : fault -> Prop) sock blocking s Q :
  (forall r w', quiet (world s) w' -> Q r (mk_st (glob s) w')) ->
  wp E (network_set_blocking sock blocking) Q s.
Proof.
  intros HQ. unfold network_set_blocking. wp_step. intros fl w1 Hq1%getfl_law.
  destruct (fl <? 0); [by apply wp_ret, HQ|]. wp_step. intros r w2 Hq2%setfl_law.
  apply HQ. by etrans.
Qed.

Lemma connect_pending_wp (E : fault -> Prop) sock timeout_ms errno s Q :
  (forall r w', quiet (world s) w' -> Q r (mk_st (glob s) w')) ->
  wp E (connect_pending sock timeout_ms errno) Q s.
Proof.
  intros HQ. unfold connect_pending. case_match; [apply wp_ret, HQ; reflexivity|].
  wp_step. intros n w1 Hq1%select_connect_law. case_match; [by apply wp_ret, HQ|].
  wp_step. intros r w2 Hq2%so_error_law. apply wp_ret, HQ. by etrans.
Qed.

Lemma network_listen_wp (E : fault -> Prop) port type s Q :
  (forall r w', quiet (world s) w' -> r = -1 \/ r = -2 \/ 0 <= r -> Q r (mk_st (glob s) w')) ->
  wp E (network_listen port type) Q s.
Proof.
  intros HQ. unfold network_listen. wp_step. intros sock w1 Hq1%socket_law.
  destruct (Z.ltb_spec sock 0); [apply wp_ret, HQ; auto|].
  wp_step. intros r w2 Hq2%bind_law.
  assert (Hq : quiet (world s) w2) by (by etrans). destruct (r <? 0).
  - apply wp_bind, network_disconnect_wp. intros x w3 Hq3 _. apply wp_ret, HQ; [by etrans|auto].
  - apply wp_ret, HQ; auto.
Qed.

Lemma network_connect_timeout_wp (E : fault -> Prop) hostname port type timeout_ms s Q :
  (forall r w', quiet (world s) w' -> r = -1 \/ r = -2 \/ 0 <= r -> Q r (mk_st (glob s) w')) ->
  wp E (network_connect_timeout hostname port type timeout_ms) Q s.
Proof.
  intros HQ. unfold network_connect_timeout. wp_step. intros [addr|] w1 Hq1%gethostbyname_law.
  2: { apply wp_ret, HQ; auto. }
  wp_step. intros sock w2 Hq2%socket_law. assert (Hq : quiet (world s) w2) by (by etrans).
  destruct (Z.ltb_spec sock 0) as [|Hsock]; [apply wp_ret, HQ; auto|].
  assert (Hclose : forall w3 r, quiet (world s) w3 -> r = -1 \/ r = -2 ->
    wp E (network_disconnect sock ;;; ret r) Q (mk_st (glob s) w3)).
  { intros w3 r Hq3 Hr. apply wp_bind, network_disconnect_wp. intros x w4 Hq4 _.
    apply wp_ret, HQ; [by etrans|tauto]. }
  apply wp_bind. apply wp_mono with (E := E) (Q := fun _ s' => glob s' = glob s /\ quiet (world s) (world s'));
    [|done|].
  { case_match; [|by apply wp_ret]. wp_step. intros r w3 Hq3%nodelay_law. apply wp_ret.
    split; [done|by etrans]. }
  clear w1 w2 Hq1 Hq2 Hq. intros _ [g w3] [Hg Hq3]. simpl in Hg, Hq3. subst g.
  destruct (timeout_ms <? 0).
  - wp_step. intros r w4 Hq4%connect_law. assert (quiet (world s) w4) by (by etrans).
    destruct (sr_val r <? 0); [apply Hclose; auto|apply wp_ret, HQ; auto].
  - apply wp_bind, set_blocking_wp. intros b w4 Hq4. assert (quiet (world s) w4) by (by etrans).
    destruct (b <? 0); [apply Hclose; auto|]. wp_step. intros r w5 Hq5%connect_law.
    assert (Hq5' : quiet (world s) w5) by (by etrans). apply wp_bind.
    apply wp_mono with (E := E) (Q := fun _ s' => glob s' = glob s /\ quiet (world s) (world s'));
      [|done|].
    { case_match; [|by apply wp_ret]. apply connect_pending_wp. intros x w6 Hq6.
      split; [done|by etrans]. }
    intros c [g w6] [Hg Hq6]. simpl in Hg, Hq6. subst g.
    destruct c; [|apply Hclose; auto]. apply wp_bind, set_blocking_wp. intros b' w7 Hq7.
    assert (quiet (world s) w7) by (by etrans).
    destruct (b' <? 0); [apply Hclose; auto|apply wp_ret, HQ; auto].
Qed.
End facts.

(** Nothing but signals makes a send fail. *)
Lemma sim_reliable sock : reliable (W := sim) sock.
Proof.
  intros buf w r w' Hb Hs Hr. simpl in Hs. unfold sim_send in Hs.
  destruct (sim_signals w); simplify_eq/=; [|done].
  rewrite length_take in Hr. destruct buf; [done|]. simpl in Hr. lia.
Qed.

(** ** The properties of the transfers *)

(** C22: network_send never faults and never loops forever: it returns either
    the size, with exactly the buffer sent in order, or -1 with a proper
    prefix sent, and then send(2) has just failed for the rest of it, not for
    a signal; on a connection where only signals interrupt send(2) that
    cannot be. *)
Theorem network_send_total (G W : Type) `{PosixLaws W} (sock : Z) (buffer : list Z) (s : st G W) :
  exists r w' n, network_send sock buffer (Z.of_nat (length buffer)) s = Ret (r, mk_st (glob s) w')
    /\ quiet_but (Some sock) (world s) w' /\ tx w' sock = tx (world s) sock ++ take n buffer
    /\ (r = Z.of_nat (length buffer) /\ n = length buffer
        \/ r = -1 /\ (n < length buffer)%nat /\ send_failed sock (drop n buffer) w' /\ ~ reliable sock).
Proof.
  destruct (wp_run (network_send sock buffer (Z.of_nat (length buffer)))
    (fun r s' => glob s' = glob s /\ sent sock buffer r (world s) (world s')) s)
    as (r & [g w'] & Hr & Hg & [Hq Hrx (n & Htx & Hres)]).
  { apply network_send_packet_wp; [done|]. by intros. }
  simpl in *. subst g. exists r, w', n. split_and!; [done|done|done|].
  destruct Hres as [?|(? & ? & Hf)]; [by left|right]. split_and!; [done|done|done|by eapply send_failed_reliable].
Qed.

Lemma network_send_total_witness :
  exists r w' n, network_send 3 (replicate 250 65) 250 (mk_st tt (sim_start [] 2 [] [] []))
      = Ret (r, mk_st tt w')
    /\ tx w' 3 = take n (replicate 250 65) /\ (r = 250 /\ n = 250%nat \/ ~ reliable (W := sim) 3).
Proof.
  destruct (network_send_total unit sim 3 (replicate 250 65) (mk_st tt (sim_start [] 2 [] [] [])))
    as (r & w' & n & Hr & _ & Htx & Hres).
  exists r, w', n. split; [exact Hr|]. split; [exact Htx|].
  destruct Hres as [[H1 H2]|(_ & _ & _ & H3)]; [left; split; [exact H1|exact H2]|right; exact H3].
Defined.

(** C23: network_receive_all never faults and never loops forever when the
    buffer has room: it returns either the size, with exactly the next bytes
    of the connection at the start of the buffer and the rest of the buffer
    unchanged, or -1 after fewer bytes. *)
Theorem network_receive_all_total (G W : Type) `{PosixLaws W} (sock : Z) (buffer : list Z) (size : Z)
    (s : st G W) :
  size <= Z.of_nat (length buffer) ->
  exists r w' data,
    network_receive_all sock buffer size s = Ret ((r, mem_store buffer 0 data), mk_st (glob s) w')
    /\ rx w' sock = rx (world s) sock ++ data /\ tx w' sock = tx (world s) sock
    /\ (r = Z.max 0 size /\ Z.of_nat (length data) = Z.max 0 size
        \/ r = -1 /\ Z.of_nat (length data) < size).
Proof.
  intros Hsize.
  destruct (wp_run (network_receive_all sock buffer size)
    (fun r s' => glob s' = glob s /\ exists data, r.2 = mem_store buffer 0 data
       /\ received sock size data r.1 (world s) (world s')) s)
    as ([r buf] & [g w'] & Hr & Hg & data & Hd & [Hq Htx Hrx Hby Hres]).
  { apply network_receive_all_wp; [done|]. intros r data w' Hr. split; [done|]. by exists data. }
  simpl in *. subst. by exists r, w', data.
Qed.

Lemma network_receive_all_total_witness :
  exists r w' data,
    network_receive_all 3 (replicate 8 0) 6 (mk_st tt (sim_start [[1; 2]; [3; 4; 5; 6; 7]] 1 [] [] []))
      = Ret ((r, mem_store (replicate 8 0) 0 data), mk_st tt w').
Proof.
  destruct (network_receive_all_total unit sim 3 (replicate 8 0) 6
    (mk_st tt (sim_start [[1; 2]; [3; 4; 5; 6; 7]] 1 [] [] []))) as (r & w' & data & Hr & _);
    [simpl; lia|].
  exists r, w', data. exact Hr.
Defined.

(** The same transfer, computed. *)
Example network_receive_all_runs :
  (fun o => match o with Ret (r, _) => Some r | _ => None end)
    (network_receive_all 3 (replicate 8 0) 6
       (mk_st tt (sim_start [[1; 2]; [3; 4; 5; 6; 7]] 1 [] [] [])))
  = Some (6, [1; 2; 3; 4; 5; 6; 0; 0]).
Proof. vm_compute. reflexivity. Qed.
