(* ===== verification/Link.v ===== *)
(** * The state of src/ps2link.c and the numbers of its protocol

    [link] is the module's global variables: the three sockets, the state the
    threads share under [ps2link_lock], the console line being scanned, the
    handshake's descriptor and the table of open directories. *)

From S2P Require Import Prelude CLib Posix Utility Network.

(** ** Exit statuses and connection options *)

Definition PS2CLIENT_EXIT_OK : Z := 0.
Definition PS2CLIENT_EXIT_USAGE : Z := 64.
Definition PS2CLIENT_EXIT_NOCONNECT : Z := 69.
Definition PS2CLIENT_EXIT_CONNLOST : Z := 74.
Definition PS2CLIENT_EXIT_PORTBUSY : Z := 75.
Definition PS2CLIENT_EXIT_TIMEOUT : Z := 124.

Definition PS2LINK_CONNECT_CONSOLE : Z := 1.
Definition PS2LINK_CONNECT_REQUEST : Z := 2.
Definition PS2LINK_CONNECT_COMMAND : Z := 4.

(** ** Packet numbers *)

Definition PS2LINK_COMMAND_RESET : Z := 0xBABE0201.
Definition PS2LINK_COMMAND_EXECIOP : Z := 0xBABE0202.
Definition PS2LINK_COMMAND_EXECEE : Z := 0xBABE0203.
Definition PS2LINK_COMMAND_POWEROFF : Z := 0xBABE0204.
Definition PS2LINK_COMMAND_SCRDUMP : Z := 0xBABE0205.
Definition PS2LINK_COMMAND_NETDUMP : Z := 0xBABE0206.
Definition PS2LINK_COMMAND_DUMPMEM : Z := 0xBABE0207.
Definition PS2LINK_COMMAND_STARTVU : Z := 0xBABE0208.
Definition PS2LINK_COMMAND_STOPVU : Z := 0xBABE0209.
Definition PS2LINK_COMMAND_DUMPREG : Z := 0xBABE020A.
Definition PS2LINK_COMMAND_GSEXEC : Z := 0xBABE020B.
Definition PS2LINK_COMMAND_WRITEMEM : Z := 0xBABE020C.
Definition PS2LINK_COMMAND_IOPEXCEP : Z := 0xBABE020D.

Definition PS2LINK_REQUEST_OPEN : Z := 0xBABE0111.
Definition PS2LINK_REQUEST_CLOSE : Z := 0xBABE0121.
Definition PS2LINK_REQUEST_READ : Z := 0xBABE0131.
Definition PS2LINK_REQUEST_WRITE : Z := 0xBABE0141.
Definition PS2LINK_REQUEST_LSEEK : Z := 0xBABE0151.
Definition PS2LINK_REQUEST_OPENDIR : Z := 0xBABE0161.
Definition PS2LINK_REQUEST_CLOSEDIR : Z := 0xBABE0171.
Definition PS2LINK_REQUEST_READDIR : Z := 0xBABE0181.
Definition PS2LINK_REQUEST_REMOVE : Z := 0xBABE0191.
Definition PS2LINK_REQUEST_MKDIR : Z := 0xBABE01A1.
Definition PS2LINK_REQUEST_RMDIR : Z := 0xBABE01B1.
Definition PS2LINK_REQUEST_GETSTAT : Z := 0xBABE01C1.

Definition PS2LINK_RESPONSE_OPEN : Z := 0xBABE0112.
Definition PS2LINK_RESPONSE_CLOSE : Z := 0xBABE0122.
Definition PS2LINK_RESPONSE_READ : Z := 0xBABE0132.
Definition PS2LINK_RESPONSE_WRITE : Z := 0xBABE0142.
Definition PS2LINK_RESPONSE_LSEEK : Z := 0xBABE0152.
Definition PS2LINK_RESPONSE_OPENDIR : Z := 0xBABE0162.
Definition PS2LINK_RESPONSE_CLOSEDIR : Z := 0xBABE0172.
Definition PS2LINK_RESPONSE_READDIR : Z := 0xBABE0182.
Definition PS2LINK_RESPONSE_REMOVE : Z := 0xBABE0192.
Definition PS2LINK_RESPONSE_MKDIR : Z := 0xBABE01A2.
Definition PS2LINK_RESPONSE_RMDIR : Z := 0xBABE01B2.
Definition PS2LINK_RESPONSE_GETSTAT : Z := 0xBABE01C2.

(** ** The globals *)

(** An entry of ps2link_dd: the name to free and the open directory. *)
Record dd_slot := mk_dd { dd_pathname : option (list Z); dd_dir : option Z }.

Record link := mk_link {
  console_socket : Z;
  request_socket : Z;
  command_socket : Z;
  ps2link_activity : Z;
  ps2link_lost : bool;
  ps2link_ping_answered : bool;
  ps2link_marker_seen : bool;
  ps2link_marker_status : Z;
  ps2link_marker : option (list Z);
  ps2link_line : list Z;
  ps2link_line_length : nat;
  ps2link_ping_fd : Z;
  ps2link_dd : list dd_slot }.

(** sizeof(ps2link_line) and the size of ps2link_dd. *)
Definition LINE_SIZE : nat := 4096.
Definition DD_SIZE : nat := 10.

Definition link_init : link :=
  {| console_socket := -1; request_socket := -1; command_socket := -1;
     ps2link_activity := 0; ps2link_lost := false; ps2link_ping_answered := false;
     ps2link_marker_seen := false; ps2link_marker_status := 0;
     ps2link_marker := None; ps2link_line := replicate LINE_SIZE 0;
     ps2link_line_length := 0; ps2link_ping_fd := -1;
     ps2link_dd := replicate DD_SIZE (mk_dd None None) |}.

(** Assignments. *)
Definition set_sockets (c r m : Z) (g : link) : link :=
  mk_link c r m (ps2link_activity g) (ps2link_lost g) (ps2link_ping_answered g)
    (ps2link_marker_seen g) (ps2link_marker_status g) (ps2link_marker g) (ps2link_line g)
    (ps2link_line_length g) (ps2link_ping_fd g) (ps2link_dd g).
Definition set_console_socket (v : Z) (g : link) : link :=
  set_sockets v (request_socket g) (command_socket g) g.
Definition set_request_socket (v : Z) (g : link) : link :=
  set_sockets (console_socket g) v (command_socket g) g.
Definition set_command_socket (v : Z) (g : link) : link :=
  set_sockets (console_socket g) (request_socket g) v g.
Definition set_activity (v : Z) (g : link) : link :=
  mk_link (console_socket g) (request_socket g) (command_socket g) v (ps2link_lost g)
    (ps2link_ping_answered g) (ps2link_marker_seen g) (ps2link_marker_status g)
    (ps2link_marker g) (ps2link_line g) (ps2link_line_length g) (ps2link_ping_fd g) (ps2link_dd g).
Definition set_lost (v : bool) (g : link) : link :=
  mk_link (console_socket g) (request_socket g) (command_socket g) (ps2link_activity g) v
    (ps2link_ping_answered g) (ps2link_marker_seen g) (ps2link_marker_status g)
    (ps2link_marker g) (ps2link_line g) (ps2link_line_length g) (ps2link_ping_fd g) (ps2link_dd g).
Definition set_ping_answered (v : bool) (g : link) : link :=
  mk_link (console_socket g) (request_socket g) (command_socket g) (ps2link_activity g)
    (ps2link_lost g) v (ps2link_marker_seen g) (ps2link_marker_status g)
    (ps2link_marker g) (ps2link_line g) (ps2link_line_length g) (ps2link_ping_fd g) (ps2link_dd g).
Definition set_marker_found (status : Z) (g : link) : link :=
  mk_link (console_socket g) (request_socket g) (command_socket g) (ps2link_activity g)
    (ps2link_lost g) (ps2link_ping_answered g) true status
    (ps2link_marker g) (ps2link_line g) (ps2link_line_length g) (ps2link_ping_fd g) (ps2link_dd g).
Definition set_marker (v : option (list Z)) (g : link) : link :=
  mk_link (console_socket g) (request_socket g) (command_socket g) (ps2link_activity g)
    (ps2link_lost g) (ps2link_ping_answered g) (ps2link_marker_seen g) (ps2link_marker_status g)
    v (ps2link_line g) (ps2link_line_length g) (ps2link_ping_fd g) (ps2link_dd g).
Definition set_line (line : list Z) (length : nat) (g : link) : link :=
  mk_link (console_socket g) (request_socket g) (command_socket g) (ps2link_activity g)
    (ps2link_lost g) (ps2link_ping_answered g) (ps2link_marker_seen g) (ps2link_marker_status g)
    (ps2link_marker g) line length (ps2link_ping_fd g) (ps2link_dd g).
Definition set_ping_fd (v : Z) (g : link) : link :=
  mk_link (console_socket g) (request_socket g) (command_socket g) (ps2link_activity g)
    (ps2link_lost g) (ps2link_ping_answered g) (ps2link_marker_seen g) (ps2link_marker_status g)
    (ps2link_marker g) (ps2link_line g) (ps2link_line_length g) v (ps2link_dd g).
Definition set_dd (v : list dd_slot) (g : link) : link :=
  mk_link (console_socket g) (request_socket g) (command_socket g) (ps2link_activity g)
    (ps2link_lost g) (ps2link_ping_answered g) (ps2link_marker_seen g) (ps2link_marker_status g)
    (ps2link_marker g) (ps2link_line g) (ps2link_line_length g) (ps2link_ping_fd g) v.

(** ** The flags and the activity time, each access under ps2link_lock *)

Inductive flag := Lost | PingAnswered.

Definition read_flag (f : flag) (g : link) : bool :=
  match f with Lost => ps2link_lost g | PingAnswered => ps2link_ping_answered g end.

Section access.
Context {W : Type} `{Posix W}.

Definition ps2link_set_activity : M link W unit :=
  let! t := time_ms in gmod (set_activity t).

Definition ps2link_get_flag (f : flag) : M link W bool :=
  let! g := gget in ret (read_flag f g).

Definition ps2link_set_flag (f : flag) : M link W unit :=
  gmod (match f with Lost => set_lost true | PingAnswered => set_ping_answered true end).

Definition ps2link_set_marker (marker : option (list Z)) : M link W unit :=
  gmod (set_marker marker).
End access.

(** The activity time is as before, or it was noted since. *)
Definition noted {W} `{Posix W} (s s' : st link W) : Prop :=
  ps2link_activity (glob s') = ps2link_activity (glob s)
  \/ now (world s) / 1000000 <= ps2link_activity (glob s').

Lemma noted_trans {W} `{Posix W} (s1 s2 s3 : st link W) :
  now (world s1) <= now (world s2) -> noted s1 s2 -> noted s2 s3 -> noted s1 s3.
Proof.
  intros Hn%(fun Hn => Z.div_le_mono _ _ 1000000 ltac:(lia) Hn) [H1|H1] [H2|H2]; unfold noted; lia.
Qed.

(** What was noted since a moment stays so. *)
Lemma noted_since {W} `{Posix W} (since : Z) (s s' : st link W) :
  noted s s' -> since <= now (world s) / 1000000 -> since <= ps2link_activity (glob s) ->
  since <= ps2link_activity (glob s').
Proof. intros [->|Ha]; lia. Qed.

Lemma set_activity_wp {W} `{PosixLaws W} (E : fault -> Prop) (s : st link W) Q :
  (forall t w', quiet (world s) w' -> now (world s) / 1000000 <= t <= now w' / 1000000 ->
     Q tt (mk_st (set_activity t (glob s)) w')) ->
  wp E ps2link_set_activity Q s.
Proof.
  intros HQ. unfold ps2link_set_activity. apply wp_bind, time_ms_wp. intros. wp_step. by apply HQ.
Qed.
