(* ===== verification/Response.v ===== *)
(** * The ps2link_response_ functions of src/ps2link.c

    A packed struct is the concatenation of its fields; a field the code does
    not assign keeps what the automatic object held ([sys_auto]). *)

From S2P Require Import Prelude CLib Posix Utility Network Link.

(** The bytes of an object from [off] on. *)
Definition slice (obj : list Z) (off len : nat) : list Z := take len (drop off obj).

(** memcpy(field, p, 8) unless p is null. *)
Definition copy_field (src : option (list Z)) (old : list Z) : list Z :=
  match src with Some b => b | None => old end.

(** struct { unsigned int number; unsigned short length; int result; } *)
Definition sizeof_result : Z := 10.
Definition result_packet (number result : Z) : list Z :=
  be32 number ++ be16 sizeof_result ++ be32 result.

(** struct { ...; int result; int size; } *)
Definition sizeof_read : Z := 14.
Definition read_packet (result size : Z) : list Z :=
  be32 PS2LINK_RESPONSE_READ ++ be16 sizeof_read ++ be32 result ++ be32 size.

(** The fields dread and getstat share, from result to hisize. *)
Definition stat_fields (obj : list Z) (result mode attr size : Z)
    (ctime atime mtime : option (list Z)) (hisize : Z) : list Z :=
  be32 result ++ be32 mode ++ be32 attr ++ be32 size
  ++ copy_field ctime (slice obj 22 8) ++ copy_field atime (slice obj 30 8)
  ++ copy_field mtime (slice obj 38 8) ++ be32 hisize.

Definition sizeof_readdir : Z := 306.
Definition readdir_packet (obj : list Z) (result mode attr size : Z)
    (ctime atime mtime : option (list Z)) (hisize : Z) (name : option (list Z)) : list Z :=
  be32 PS2LINK_RESPONSE_READDIR ++ be16 sizeof_readdir
  ++ stat_fields obj result mode attr size ctime atime mtime hisize
  ++ match name with
     | Some name => snd (snprintf_s (slice obj 50 256) 256 name)
     | None => slice obj 50 256
     end.

Definition sizeof_getstat : Z := 50.
Definition getstat_packet (obj : list Z) (result mode attr size : Z)
    (ctime atime mtime : option (list Z)) (hisize : Z) : list Z :=
  be32 PS2LINK_RESPONSE_GETSTAT ++ be16 sizeof_getstat
  ++ stat_fields obj result mode attr size ctime atime mtime hisize.

Section defs.
Context {W : Type} `{Posix W}.

Definition send_response (packet : list Z) (size : Z) : M link W Z :=
  let! g := gget in network_send (request_socket g) packet size.

Definition ps2link_response_open (result : Z) : M link W Z :=
  send_response (result_packet PS2LINK_RESPONSE_OPEN result) sizeof_result.
Definition ps2link_response_close (result : Z) : M link W Z :=
  send_response (result_packet PS2LINK_RESPONSE_CLOSE result) sizeof_result.
Definition ps2link_response_read (result size : Z) : M link W Z :=
  send_response (read_packet result size) sizeof_read.
Definition ps2link_response_write (result : Z) : M link W Z :=
  send_response (result_packet PS2LINK_RESPONSE_WRITE result) sizeof_result.
Definition ps2link_response_lseek (result : Z) : M link W Z :=
  send_response (result_packet PS2LINK_RESPONSE_LSEEK result) sizeof_result.
Definition ps2link_response_opendir (result : Z) : M link W Z :=
  send_response (result_packet PS2LINK_RESPONSE_OPENDIR result) sizeof_result.
Definition ps2link_response_closedir (result : Z) : M link W Z :=
  send_response (result_packet PS2LINK_RESPONSE_CLOSEDIR result) sizeof_result.
Definition ps2link_response_remove (result : Z) : M link W Z :=
  send_response (result_packet PS2LINK_RESPONSE_REMOVE result) sizeof_result.
Definition ps2link_response_mkdir (result : Z) : M link W Z :=
  send_response (result_packet PS2LINK_RESPONSE_MKDIR result) sizeof_result.
Definition ps2link_response_rmdir (result : Z) : M link W Z :=
  send_response (result_packet PS2LINK_RESPONSE_RMDIR result) sizeof_result.

Definition ps2link_response_readdir (result mode attr size : Z)
    (ctime atime mtime : option (list Z)) (hisize : Z) (name : option (list Z))
    : M link W Z :=
  let! response := hcall (sys_auto (Z.to_nat sizeof_readdir)) in
  send_response (readdir_packet response result mode attr size ctime atime mtime hisize name)
    sizeof_readdir.

Definition ps2link_response_getstat (result mode attr size : Z)
    (ctime atime mtime : option (list Z)) (hisize : Z) : M link W Z :=
  let! response := hcall (sys_auto (Z.to_nat sizeof_getstat)) in
  send_response (getstat_packet response result mode attr size ctime atime mtime hisize)
    sizeof_getstat.
End defs.

(** ** Lengths: every packet is as long as its length field says *)

Lemma length_slice obj off len :
  (off + len <= length obj)%nat -> length (slice obj off len) = len.
Proof. intros. unfold slice. rewrite length_take, length_drop. lia. Qed.

(** The eight bytes of a time field. *)
Definition time_ok (t : option (list Z)) : Prop :=
  match t with Some b => length b = 8%nat | None => True end.

Lemma length_result_packet number result :
  Z.of_nat (length (result_packet number result)) = sizeof_result.
Proof. reflexivity. Qed.

Lemma length_read_packet result size :
  Z.of_nat (length (read_packet result size)) = sizeof_read.
Proof. reflexivity. Qed.

Lemma length_copy_field t obj off :
  time_ok t -> (off + 8 <= length obj)%nat -> length (copy_field t (slice obj off 8)) = 8%nat.
Proof. destruct t; simpl; [done|]. intros. by apply length_slice. Qed.

Lemma length_stat_fields obj result mode attr size c a m hisize :
  time_ok c -> time_ok a -> time_ok m -> (46 <= length obj)%nat ->
  length (stat_fields obj result mode attr size c a m hisize) = 44%nat.
Proof.
  intros. unfold stat_fields. rewrite !length_app, !length_be32, !length_copy_field by (done || lia).
  done.
Qed.

Lemma length_readdir_packet obj result mode attr size c a m hisize name :
  time_ok c -> time_ok a -> time_ok m -> length obj = Z.to_nat sizeof_readdir ->
  Z.of_nat (length (readdir_packet obj result mode attr size c a m hisize name)) = sizeof_readdir.
Proof.
  intros Hc Ha Hm Hobj. change (Z.to_nat sizeof_readdir) with 306%nat in Hobj.
  assert (Hs : length (slice obj 50 256) = 256%nat) by (apply length_slice; lia).
  unfold readdir_packet. rewrite !length_app, length_stat_fields by (done || lia).
  destruct name as [n|].
  - rewrite snprintf_s_length by lia. by rewrite Hs.
  - by rewrite Hs.
Qed.

Lemma length_getstat_packet obj result mode attr size c a m hisize :
  time_ok c -> time_ok a -> time_ok m -> length obj = Z.to_nat sizeof_getstat ->
  Z.of_nat (length (getstat_packet obj result mode attr size c a m hisize)) = sizeof_getstat.
Proof.
  intros Hc Ha Hm Hobj. change (Z.to_nat sizeof_getstat) with 50%nat in Hobj.
  unfold getstat_packet. by rewrite !length_app, length_stat_fields by (done || lia).
Qed.
