(* ===== verification/Request.v ===== *)
(** * The ps2link_request_ functions of src/ps2link.c

    A handler gets the packet object of the request thread: 518 bytes, of
    which the current request filled a prefix. It changes the object in place
    (pathnames, open flags), so it returns it with its result. *)

From S2P Require Import Prelude CLib Posix Utility Network Link Response.

Definition PS2LINK_PING_PATHNAME : list Z := bytes_of "ps2client.ping".
Definition PS2LINK_NULL_DEVICE : list Z := bytes_of "/dev/null".

(** struct { unsigned int number; unsigned short length; char buffer[512]; } *)
Definition PACKET_SIZE : nat := 518.

(** sizeof(buffer) in the read and write handlers, sizeof(tname). *)
Definition BUFFER_SIZE : Z := 65536.
Definition TNAME_SIZE : nat := 512.

(** The mode bits of a directory entry. *)
Definition convert_mode (st_mode : Z) : Z :=
  let mode := Z.land st_mode 7 in
  let mode := if S_ISDIR st_mode then Z.lor mode 32 else mode in
  let mode := if S_ISLNK st_mode then Z.lor mode 8 else mode in
  if S_ISREG st_mode then Z.lor mode 16 else mode.

(** Bytes 1 to 6 of a time field; the others stay. *)
Definition convert_time (field : list Z) (t : tm) : list Z :=
  <[1%nat := u8 (tm_sec t)]> (<[2%nat := u8 (tm_min t)]> (<[3%nat := u8 (tm_hour t)]>
  (<[4%nat := u8 (tm_mday t)]> (<[5%nat := u8 (u8 (tm_mon t) + 1)]>
  (<[6%nat := u8 (tm_year t)]> field))))).

(** The first entry of ps2link_dd that is free. *)
Fixpoint find_slot (i : nat) (dd : list dd_slot) : option nat :=
  match dd with
  | [] => None
  | slot :: dd => match dd_dir slot with None => Some i | Some _ => find_slot (S i) dd end
  end.

(** The open directory a descriptor of the other side names. *)
Definition dd_lookup (number : Z) (dd : list dd_slot) : option (dd_slot * Z) :=
  if number >=? Z.of_nat DD_SIZE then None
  else match dd !! Z.to_nat number with
       | Some slot => match dd_dir slot with Some dir => Some (slot, dir) | None => None end
       | None => None
       end.

Section defs.
Context {W : Type} `{Posix W}.

(** fix_pathname on the field at [off], and the string it holds then. *)
Definition fix_field (packet : list Z) (off : nat) : M link W (list Z * list Z) :=
  let! r := fix_pathname (drop off packet) in
  let packet := mem_store packet off r.2 in
  let! name := of_option Unterminated (cstr (drop off packet)) in
  ret (packet, name).

Definition finish (packet : list Z) (m : M link W Z) : M link W (Z * list Z) :=
  let! r := m in ret (r, packet).

Definition ps2link_request_open (packet : list Z) : M link W (Z * list Z) :=
  let! f := fix_field packet 10 in
  let '(packet, pathname) := f in
  let flags := fix_flags (s32 (get_be32 packet 6)) in
  let packet := mem_store packet 6 (le32 flags) in
  if strcmp_eq pathname PS2LINK_PING_PATHNAME then
    let! result := hcall (sys_open PS2LINK_NULL_DEVICE O_WRONLY 0) in
    gmod (set_ping_fd result) ;;;
    finish packet (ps2link_response_open result)
  else
    let! stats := hcall (sys_stat pathname) in
    let! result :=
      (if match stats with Some stats => negb (S_ISDIR (st_mode stats)) | None => false end
          || negb (Z.land flags O_CREAT =? 0)
       then hcall (sys_open pathname flags 420)
       else ret (-1)) in
    finish packet (ps2link_response_open result).

Definition ps2link_request_close (packet : list Z) : M link W (Z * list Z) :=
  let fd := s32 (get_be32 packet 6) in
  let! result := hcall (sys_close fd) in
  let! g := gget in
  (if (ps2link_ping_fd g >=? 0) && (fd =? ps2link_ping_fd g) then
     gmod (set_ping_fd (-1)) ;;; ps2link_set_flag PingAnswered
   else ret tt) ;;;
  finish packet (ps2link_response_close result).

(** read, the response and the data, with a buffer of the right size. *)
Definition read_into (buffer : list Z) (fd size : Z) : M link W Z :=
  let! r := hcall (sys_read fd size) in
  let buffer := mem_store buffer 0 r.2 in
  let result := s32 r.1 in
  ps2link_response_read result result ;;;
  let! g := gget in
  network_send (request_socket g) buffer result ;;;
  ret 0.

Definition ps2link_request_read (packet : list Z) : M link W (Z * list Z) :=
  let fd := s32 (get_be32 packet 6) in
  let size := get_be32 packet 10 in
  finish packet
    (if size >? BUFFER_SIZE then
       let! bigbuffer := hcall (sys_malloc size) in
       match bigbuffer with
       | None => ps2link_response_read (-1) (-1) ;;; ret (-1)
       | Some bigbuffer => read_into bigbuffer fd size
       end
     else
       let! buffer := hcall (sys_auto (Z.to_nat BUFFER_SIZE)) in
       read_into buffer fd size).

(** The data, write and the response. network_receive_all takes an int. *)
Definition write_from (buffer : list Z) (fd size : Z) : M link W Z :=
  let! g := gget in
  let! r := network_receive_all (request_socket g) buffer (s32 size) in
  if r.1 <? 0 then ret (-1)
  else
    let! result := hcall (sys_write fd (take (Z.to_nat size) r.2)) in
    ps2link_response_write (s32 result) ;;;
    ret 0.

Definition ps2link_request_write (packet : list Z) : M link W (Z * list Z) :=
  let fd := s32 (get_be32 packet 6) in
  let size := get_be32 packet 10 in
  finish packet
    (if size >? BUFFER_SIZE then
       let! bigbuffer := hcall (sys_malloc size) in
       match bigbuffer with
       | None => ret (-1)
       | Some bigbuffer => write_from bigbuffer fd size
       end
     else
       let! buffer := hcall (sys_auto (Z.to_nat BUFFER_SIZE)) in
       write_from buffer fd size).

(** lseek takes an off_t (64 bits): the unsigned offset is not negative. *)
Definition ps2link_request_lseek (packet : list Z) : M link W (Z * list Z) :=
  let! result := hcall (sys_lseek (s32 (get_be32 packet 6)) (get_be32 packet 10)
                          (s32 (get_be32 packet 14))) in
  finish packet (ps2link_response_lseek (s32 result)).

Definition ps2link_request_opendir (packet : list Z) : M link W (Z * list Z) :=
  let! f := fix_field packet 10 in
  let '(packet, pathname) := f in
  let! stats := hcall (sys_stat pathname) in
  let! result :=
    (if match stats with Some stats => S_ISDIR (st_mode stats) | None => false end then
       let! g := gget in
       match find_slot 0 (ps2link_dd g) with
       | None => ret (-1)
       | Some i =>
           let! copy := hcall (sys_malloc (Z.of_nat (length pathname) + 1)) in
           match copy with
           | None => fail NullDeref
           | Some _ =>
               let! dir := hcall (sys_opendir pathname) in
               gmod (fun g => set_dd (<[i := mk_dd (Some pathname) dir]> (ps2link_dd g)) g) ;;;
               ret (Z.of_nat i)
           end
       end
     else ret (-1)) in
  finish packet (ps2link_response_opendir result).

Definition ps2link_request_closedir (packet : list Z) : M link W (Z * list Z) :=
  let dd := get_be32 packet 6 in
  let! g := gget in
  match dd_lookup dd (ps2link_dd g) with
  | None => finish packet (ps2link_response_closedir (-1))
  | Some (_, dir) =>
      let! result := hcall (sys_closedir dir) in
      gmod (fun g => set_dd (<[Z.to_nat dd := mk_dd None None]> (ps2link_dd g)) g) ;;;
      finish packet (ps2link_response_closedir result)
  end.

(** localtime of one of the three times, stored into its field. *)
Definition time_field (field : list Z) (t : Z) : M link W (list Z) :=
  let! loctime := hcall (sys_localtime t) in
  match loctime with
  | None => fail NullDeref
  | Some loctime => ret (convert_time field loctime)
  end.

(** A name of an open directory: its statistics and the response. *)
Definition readdir_entry (pathname d_name : list Z) : M link W Z :=
  let! ctime := hcall (sys_auto 8) in
  let! atime := hcall (sys_auto 8) in
  let! mtime := hcall (sys_auto 8) in
  let! tname := hcall (sys_auto TNAME_SIZE) in
  let! tname := of_option Overflow (sprintf_slash tname pathname d_name) in
  let! tname := of_option Unterminated (cstr tname) in
  let! old := hcall sys_auto_stat in
  let! r := hcall (sys_stat tname) in
  let stats := default old r in
  let mode := convert_mode (st_mode stats) in
  let! ctime := time_field ctime (st_ctime stats) in
  let! atime := time_field atime (st_atime stats) in
  let! mtime := time_field mtime (st_mtime stats) in
  ps2link_response_readdir 1 mode 0 (u32 (st_size stats))
    (Some ctime) (Some atime) (Some mtime) 0 (Some d_name).

Definition ps2link_request_readdir (packet : list Z) : M link W (Z * list Z) :=
  let dd := get_be32 packet 6 in
  let! g := gget in
  finish packet
    match dd_lookup dd (ps2link_dd g) with
    | None => ps2link_response_readdir (-1) 0 0 0 None None None 0 None
    | Some (slot, dir) =>
        let! dirent := hcall (sys_readdir dir) in
        match dirent with
        | None => ps2link_response_readdir 0 0 0 0 None None None 0 None
        | Some d_name =>
            match dd_pathname slot with
            | None => fail NullDeref
            | Some pathname => readdir_entry pathname d_name
            end
        end
    end.

Definition ps2link_request_remove (packet : list Z) : M link W (Z * list Z) :=
  let! f := fix_field packet 6 in
  let '(packet, name) := f in
  let! result := hcall (sys_remove name) in
  finish packet (ps2link_response_remove result).

(** The mode is passed as it is in memory, not converted with ntohl. *)
Definition ps2link_request_mkdir (packet : list Z) : M link W (Z * list Z) :=
  let! f := fix_field packet 10 in
  let '(packet, name) := f in
  let! result := hcall (sys_mkdir name (get_le32 packet 6)) in
  finish packet (ps2link_response_mkdir result).

Definition ps2link_request_rmdir (packet : list Z) : M link W (Z * list Z) :=
  let! f := fix_field packet 6 in
  let '(packet, name) := f in
  let! result := hcall (sys_rmdir name) in
  finish packet (ps2link_response_rmdir result).

Definition ps2link_request_getstat (packet : list Z) : M link W (Z * list Z) :=
  let! f := fix_field packet 6 in
  let '(packet, name) := f in
  let zero := replicate 8 0 in
  let! r := hcall (sys_stat name) in
  match r with
  | Some stats =>
      let mode := convert_mode (st_mode stats) in
      let! ctime := time_field zero (st_ctime stats) in
      let! atime := time_field zero (st_atime stats) in
      let! mtime := time_field zero (st_mtime stats) in
      finish packet (ps2link_response_getstat 0 mode 0 (u32 (st_size stats))
                       (Some ctime) (Some atime) (Some mtime) 0)
  | None =>
      finish packet (ps2link_response_getstat (-1) 0 0 0 (Some zero) (Some zero) (Some zero) 0)
  end.
End defs.
