(* ===== verification/Service.v ===== *)
(** * The host: service, as a specification

    What the other side may rely on: a request, the state the service keeps
    between requests (an abstract table of open directories, the handshake's
    descriptor), and for each request the system calls it stands for and the
    reply it gets. [serves] is a relation: between the calls it names the
    world may take [quiet] steps, in which nothing is sent or received. *)

From S2P Require Import Prelude CLib Posix Utility Network Link Response Request.

(** ** Requests *)

Inductive request :=
| ReqOpen (flags : Z) (path : list Z)
| ReqClose (fd : Z)
| ReqRead (fd size : Z)
| ReqWrite (fd size : Z)
| ReqLseek (fd offset whence : Z)
| ReqOpendir (path : list Z)
| ReqClosedir (dd : Z)
| ReqReaddir (dd : Z)
| ReqRemove (path : list Z)
| ReqMkdir (mode : Z) (path : list Z)
| ReqRmdir (path : list Z)
| ReqGetstat (path : list Z).

Definition request_number (req : request) : Z :=
  match req with
  | ReqOpen _ _ => PS2LINK_REQUEST_OPEN
  | ReqClose _ => PS2LINK_REQUEST_CLOSE
  | ReqRead _ _ => PS2LINK_REQUEST_READ
  | ReqWrite _ _ => PS2LINK_REQUEST_WRITE
  | ReqLseek _ _ _ => PS2LINK_REQUEST_LSEEK
  | ReqOpendir _ => PS2LINK_REQUEST_OPENDIR
  | ReqClosedir _ => PS2LINK_REQUEST_CLOSEDIR
  | ReqReaddir _ => PS2LINK_REQUEST_READDIR
  | ReqRemove _ => PS2LINK_REQUEST_REMOVE
  | ReqMkdir _ _ => PS2LINK_REQUEST_MKDIR
  | ReqRmdir _ => PS2LINK_REQUEST_RMDIR
  | ReqGetstat _ => PS2LINK_REQUEST_GETSTAT
  end.

(** The string that starts at an offset. The field has 256 bytes, but the code
    only looks for the null, so it may be anywhere behind. *)
Definition path_field (packet : list Z) (off : nat) (path : list Z) : Prop :=
  cstr (drop off packet) = Some path.

(** The packet object holds a request. *)
Definition carries (packet : list Z) (req : request) : Prop :=
  length packet = PACKET_SIZE /\ get_be32 packet 0 = request_number req
  /\ match req with
     | ReqOpen flags path => s32 (get_be32 packet 6) = flags /\ path_field packet 10 path
     | ReqClose fd => s32 (get_be32 packet 6) = fd
     | ReqRead fd size | ReqWrite fd size =>
         s32 (get_be32 packet 6) = fd /\ get_be32 packet 10 = size
     | ReqLseek fd offset whence =>
         s32 (get_be32 packet 6) = fd /\ get_be32 packet 10 = offset
         /\ s32 (get_be32 packet 14) = whence
     | ReqClosedir dd | ReqReaddir dd => get_be32 packet 6 = dd
     | ReqOpendir path => path_field packet 10 path
     | ReqMkdir mode path => get_le32 packet 6 = mode /\ path_field packet 10 path
     | ReqRemove path | ReqRmdir path | ReqGetstat path => path_field packet 6 path
     end.

(** ** Replies *)

Record entry := mk_entry {
  e_mode : Z; e_size : Z; e_ctime : tm; e_atime : tm; e_mtime : tm }.

Inductive reply :=
| RepResult (number r : Z)
| RepRead (r : Z) (data : list Z)
| RepDirent (r : Z) (e : option (entry * list Z))
| RepStat (r : Z) (e : option entry)
| RepNone.

(** Bytes 1 to 6 of a time field. *)
Definition time_bytes (t : tm) : list Z :=
  [u8 (tm_sec t); u8 (tm_min t); u8 (tm_hour t); u8 (tm_mday t); u8 (u8 (tm_mon t) + 1);
   u8 (tm_year t)].

Definition entry_at (bytes : list Z) (e : entry) : Prop :=
  get_be32 bytes 10 = e_mode e /\ get_be32 bytes 14 = 0 /\ get_be32 bytes 18 = u32 (e_size e)
  /\ slice bytes 23 6 = time_bytes (e_ctime e)
  /\ slice bytes 31 6 = time_bytes (e_atime e)
  /\ slice bytes 39 6 = time_bytes (e_mtime e)
  /\ get_be32 bytes 46 = 0.

(** The bytes of a reply. *)
Definition reply_bytes (rep : reply) (bytes : list Z) : Prop :=
  match rep with
  | RepResult number r => bytes = result_packet number r
  | RepRead r data => bytes = read_packet r r ++ data
  | RepDirent r e =>
      length bytes = 306%nat /\ get_be32 bytes 0 = PS2LINK_RESPONSE_READDIR
      /\ get_be16 bytes 4 = sizeof_readdir /\ get_be32 bytes 6 = u32 r
      /\ match e with
         | Some (e, name) => entry_at bytes e /\ cstr (drop 50 bytes) = Some name
         | None => True
         end
  | RepStat r e =>
      length bytes = 50%nat /\ get_be32 bytes 0 = PS2LINK_RESPONSE_GETSTAT
      /\ get_be16 bytes 4 = sizeof_getstat /\ get_be32 bytes 6 = u32 r
      /\ match e with Some e => entry_at bytes e | None => True end
  | RepNone => bytes = []
  end.

(** ** The service's state *)

Record svc := mk_svc {
  svc_ping_fd : Z;
  svc_answered : bool;
  svc_dirs : gmap nat (list Z * Z) }.

(** May the file be opened: it exists and is no directory, or it is created. *)
Definition openable (stats : option statbuf) (flags : Z) : bool :=
  match stats with Some stats => negb (S_ISDIR (st_mode stats)) | None => false end
  || negb (Z.land flags O_CREAT =? 0).

Definition is_dir (stats : option statbuf) : bool :=
  match stats with Some stats => S_ISDIR (st_mode stats) | None => false end.

(** [i] is the lowest free directory descriptor. *)
Definition lowest_free (dirs : gmap nat (list Z * Z)) (i : nat) : Prop :=
  (i < DD_SIZE)%nat /\ dirs !! i = None /\ forall j, (j < i)%nat -> is_Some (dirs !! j).

Section spec.
Context {W : Type} `{Posix W}.

Definition entry_of (stats : statbuf) (c a m : tm) : entry :=
  mk_entry (convert_mode (st_mode stats)) (st_size stats) c a m.

(** The three local times of a file, looked up one after the other. *)
Inductive times (stats : statbuf) (w : W) (c a m : tm) : W -> Prop :=
| times_intro w1 w2 w3 :
    sys_localtime (st_ctime stats) w = (Some c, w1) ->
    sys_localtime (st_atime stats) w1 = (Some a, w2) ->
    sys_localtime (st_mtime stats) w2 = (Some m, w3) ->
    times stats w c a m w3.

Inductive serves (sock : Z) (w : W) : request -> svc -> reply -> svc -> W -> Prop :=
| S_open_ping flags path v r w2 :
    path_spec path = PS2LINK_PING_PATHNAME ->
    sys_open PS2LINK_NULL_DEVICE O_WRONLY 0 w = (r, w2) ->
    serves sock w (ReqOpen flags path) v (RepResult PS2LINK_RESPONSE_OPEN r)
      (mk_svc r (svc_answered v) (svc_dirs v)) w2
| S_open flags path v stats w1 r w2 :
    path_spec path <> PS2LINK_PING_PATHNAME ->
    sys_stat (path_spec path) w = (stats, w1) ->
    openable stats (fix_flags flags) = true ->
    sys_open (path_spec path) (fix_flags flags) 420 w1 = (r, w2) ->
    serves sock w (ReqOpen flags path) v (RepResult PS2LINK_RESPONSE_OPEN r) v w2
| S_open_refused flags path v stats w1 :
    path_spec path <> PS2LINK_PING_PATHNAME ->
    sys_stat (path_spec path) w = (stats, w1) ->
    openable stats (fix_flags flags) = false ->
    serves sock w (ReqOpen flags path) v (RepResult PS2LINK_RESPONSE_OPEN (-1)) v w1
| S_close fd v r w1 :
    sys_close fd w = (r, w1) ->
    serves sock w (ReqClose fd) v (RepResult PS2LINK_RESPONSE_CLOSE r)
      (if (svc_ping_fd v >=? 0) && (fd =? svc_ping_fd v)
       then mk_svc (-1) true (svc_dirs v) else v) w1
| S_read fd size v w1 r data w2 :
    quiet w w1 -> sys_read fd size w1 = ((r, data), w2) ->
    serves sock w (ReqRead fd size) v (RepRead r data) v w2
| S_read_no_memory fd size v w1 :
    BUFFER_SIZE < size -> sys_malloc size w = (None, w1) ->
    serves sock w (ReqRead fd size) v (RepRead (-1) []) v w1
| S_write fd size v data w1 w2 buffer r w3 :
    quiet w w1 -> received sock (s32 size) data (Z.max 0 (s32 size)) w1 w2 ->
    length buffer = Z.to_nat size -> take (length data) buffer = data ->
    sys_write fd buffer w2 = (r, w3) ->
    serves sock w (ReqWrite fd size) v (RepResult PS2LINK_RESPONSE_WRITE (s32 r)) v w3
| S_write_lost fd size v data w1 w2 :
    quiet w w1 -> received sock (s32 size) data (-1) w1 w2 ->
    serves sock w (ReqWrite fd size) v RepNone v w2
| S_write_no_memory fd size v w1 :
    BUFFER_SIZE < size -> sys_malloc size w = (None, w1) ->
    serves sock w (ReqWrite fd size) v RepNone v w1
| S_lseek fd offset whence v r w1 :
    sys_lseek fd offset whence w = (r, w1) ->
    serves sock w (ReqLseek fd offset whence) v
      (RepResult PS2LINK_RESPONSE_LSEEK (s32 r)) v w1
| S_opendir path v stats w1 i w2 dir w3 :
    sys_stat (path_spec path) w = (stats, w1) -> is_dir stats = true ->
    lowest_free (svc_dirs v) i -> quiet w1 w2 ->
    sys_opendir (path_spec path) w2 = (dir, w3) ->
    serves sock w (ReqOpendir path) v (RepResult PS2LINK_RESPONSE_OPENDIR (Z.of_nat i))
      (mk_svc (svc_ping_fd v) (svc_answered v)
         (match dir with
          | Some dir => <[i := (path_spec path, dir)]> (svc_dirs v)
          | None => svc_dirs v
          end)) w3
| S_opendir_refused path v stats w1 :
    sys_stat (path_spec path) w = (stats, w1) ->
    is_dir stats = false \/ (forall i, (i < DD_SIZE)%nat -> is_Some (svc_dirs v !! i)) ->
    serves sock w (ReqOpendir path) v (RepResult PS2LINK_RESPONSE_OPENDIR (-1)) v w1
| S_closedir dd v path dir r w1 :
    svc_dirs v !! Z.to_nat dd = Some (path, dir) -> sys_closedir dir w = (r, w1) ->
    serves sock w (ReqClosedir dd) v (RepResult PS2LINK_RESPONSE_CLOSEDIR r)
      (mk_svc (svc_ping_fd v) (svc_answered v) (delete (Z.to_nat dd) (svc_dirs v))) w1
| S_closedir_bad dd v :
    svc_dirs v !! Z.to_nat dd = None ->
    serves sock w (ReqClosedir dd) v (RepResult PS2LINK_RESPONSE_CLOSEDIR (-1)) v w
| S_readdir dd v path dir name w1 w2 old stats w3 c a m w4 w5 :
    svc_dirs v !! Z.to_nat dd = Some (path, dir) -> sys_readdir dir w = (Some name, w1) ->
    quiet w1 w2 -> sys_stat (path ++ bytes_of "/" ++ name) w2 = (stats, w3) ->
    times (default old stats) w3 c a m w4 -> quiet w4 w5 ->
    serves sock w (ReqReaddir dd) v
      (RepDirent 1 (Some (entry_of (default old stats) c a m, name))) v w5
| S_readdir_end dd v path dir w1 w2 :
    svc_dirs v !! Z.to_nat dd = Some (path, dir) -> sys_readdir dir w = (None, w1) ->
    quiet w1 w2 -> serves sock w (ReqReaddir dd) v (RepDirent 0 None) v w2
| S_readdir_bad dd v w1 :
    svc_dirs v !! Z.to_nat dd = None -> quiet w w1 ->
    serves sock w (ReqReaddir dd) v (RepDirent (-1) None) v w1
| S_remove path v r w1 :
    sys_remove (path_spec path) w = (r, w1) ->
    serves sock w (ReqRemove path) v (RepResult PS2LINK_RESPONSE_REMOVE r) v w1
| S_mkdir mode path v r w1 :
    sys_mkdir (path_spec path) mode w = (r, w1) ->
    serves sock w (ReqMkdir mode path) v (RepResult PS2LINK_RESPONSE_MKDIR r) v w1
| S_rmdir path v r w1 :
    sys_rmdir (path_spec path) w = (r, w1) ->
    serves sock w (ReqRmdir path) v (RepResult PS2LINK_RESPONSE_RMDIR r) v w1
| S_getstat path v stats w1 c a m w2 w3 :
    sys_stat (path_spec path) w = (Some stats, w1) -> times stats w1 c a m w2 -> quiet w2 w3 ->
    serves sock w (ReqGetstat path) v (RepStat 0 (Some (entry_of stats c a m))) v w3
| S_getstat_fails path v w1 w2 :
    sys_stat (path_spec path) w = (None, w1) -> quiet w1 w2 ->
    serves sock w (ReqGetstat path) v (RepStat (-1) None) v w2.
End spec.
