(* ===== verification/Handlers.v ===== *)
(** * The request handlers implement the host: service

    For every request the handler of src/ps2link.c, run on the packet object
    that carries it, takes a step of [serves] and sends the bytes of its
    reply. No handler reads or writes outside an object or off the end of a
    string when the request's pathname is a string inside its field; the one
    fault left is a null pointer from malloc or localtime, which opendir,
    readdir and getstat do not check. *)

From S2P Require Import Prelude CLib Posix Utility Network Link Response Request Service.

(** ** The globals a handler changes, and how they stand for the service *)

Definition svc_frame (g g' : link) : Prop :=
  g' = set_dd (ps2link_dd g')
         (set_ping_answered (ps2link_ping_answered g') (set_ping_fd (ps2link_ping_fd g') g)).

(** An open directory has a name. *)
Definition slot_ok (slot : dd_slot) : Prop :=
  dd_dir slot <> None ->
  exists p, dd_pathname slot = Some p /\ Forall (fun b => b <> 0) p.

Definition slot_abs (slot : dd_slot) : option (list Z * Z) :=
  match dd_dir slot with
  | Some dir => Some (default [] (dd_pathname slot), dir)
  | None => None
  end.

Record svc_rel (g : link) (v : svc) : Prop := {
  rel_ping_fd : ps2link_ping_fd g = svc_ping_fd v;
  rel_answered : ps2link_ping_answered g = svc_answered v;
  rel_dd_length : length (ps2link_dd g) = DD_SIZE;
  rel_dd_ok : Forall slot_ok (ps2link_dd g);
  rel_dirs : forall i, svc_dirs v !! i = ps2link_dd g !! i ≫= slot_abs }.

Lemma svc_frame_refl g : svc_frame g g.
Proof. by destruct g. Qed.
Lemma svc_frame_socket g g' : svc_frame g g' -> request_socket g' = request_socket g.
Proof. by intros ->. Qed.
#[export] Hint Resolve svc_frame_refl : ps2link.

Lemma svc_rel_init : svc_rel link_init (mk_svc (-1) false ∅).
Proof.
  split; try done.
  - repeat constructor; by intros [].
  - intros i. simpl. rewrite lookup_empty. do 10 (destruct i as [|i]; [done|]). done.
Qed.

(** ** Path fields *)

Lemma get_be32_take p p' n off :
  (off + 4 <= n)%nat -> (n <= length p)%nat -> (n <= length p')%nat ->
  take n p' = take n p -> get_be32 p' off = get_be32 p off.
Proof.
  intros Hoff Hp Hp' Ht. rewrite <- (take_drop n p), <- (take_drop n p').
  rewrite !get_be32_app_l by (rewrite length_take; lia). by rewrite Ht.
Qed.

Lemma get_le32_take p p' n off :
  (off + 4 <= n)%nat -> (n <= length p)%nat -> (n <= length p')%nat ->
  take n p' = take n p -> get_le32 p' off = get_le32 p off.
Proof.
  intros Hoff Hp Hp' Ht. rewrite <- (take_drop n p), <- (take_drop n p').
  unfold get_le32. rewrite !byte_at_app_l by (rewrite length_take; lia). by rewrite Ht.
Qed.

Lemma path_spec_nonzero s :
  Forall (fun b => b <> 0) s -> Forall (fun b => b <> 0) (path_spec s).
Proof.
  intros Hs. unfold path_spec.
  assert (Hm : Forall (fun b => b <> 0) (map to_slash (if bool_decide (s = []) then bytes_of "." else s))).
  { apply Forall_map. case_bool_decide; [by repeat constructor|].
    eapply Forall_impl; [exact Hs|]. apply to_slash_nonzero. }
  destruct (map _ _) as [|c [|d t]]; try done. case_match; [|done]. by inversion Hm.
Qed.

Section facts.
Context {W : Type} `{PosixLaws W}.
Implicit Types (s : st link W) (w : W).

(** ** Replies on the wire *)

(** [bytes] went out on [sock], unless the connection failed. *)
Record replied (sock : Z) (bytes : list Z) w w' : Prop := {
  replied_quiet : quiet_but (Some sock) w w';
  replied_rx : rx w' sock = rx w sock;
  replied_tx : reliable sock -> tx w' sock = tx w sock ++ bytes }.

Lemma sent_replied sock packet r w w' : sent sock packet r w w' -> replied sock packet w w'.
Proof.
  intros Hs. split; [by eapply sent_quiet|by eapply sent_rx|].
  intros Hrel. by eapply sent_reliable.
Qed.

Lemma replied_trans sock a b w1 w2 w3 :
  replied sock a w1 w2 -> replied sock b w2 w3 -> replied sock (a ++ b) w1 w3.
Proof.
  intros [Hq Hr Ht] [Hq' Hr' Ht']. split; [by etrans|congruence|].
  intros Hrel. by rewrite Ht', Ht, app_assoc.
Qed.

Lemma send_response_wp (E : fault -> Prop) packet size s Q :
  Z.of_nat (length packet) = size ->
  (forall r w', replied (request_socket (glob s)) packet (world s) w' ->
                Q r (mk_st (glob s) w')) ->
  wp E (send_response packet size) Q s.
Proof.
  intros Hl HQ. unfold send_response. wp_step.
  apply network_send_packet_wp; [done|]. intros r w' Hs. by eapply HQ, sent_replied.
Qed.

(** ** What a handler achieves *)

Definition refines (req : request) (v : svc) (s : st link W)
    (r : Z * list Z) (s' : st link W) : Prop :=
  length r.2 = PACKET_SIZE /\ svc_frame (glob s) (glob s')
  /\ exists rep v' w1 bytes,
       serves (request_socket (glob s)) (world s) req v rep v' w1
       /\ svc_rel (glob s') v' /\ reply_bytes rep bytes
       /\ replied (request_socket (glob s)) bytes w1 (world s').

(** What the code does not check: null pointers, and that the name of a
    directory entry fits behind the name of its directory. *)
Definition may_fault (req : request) (v : svc) (f : fault) : Prop :=
  match req with
  | ReqOpendir _ | ReqGetstat _ => f = NullDeref
  | ReqReaddir dd => f = NullDeref
      \/ f = Overflow
         /\ exists path dir, svc_dirs v !! Z.to_nat dd = Some (path, dir) /\ (255 < length path)%nat
  | _ => False
  end.

(** The last step of most handlers. *)
Lemma finish_result_wp (E : fault -> Prop) req v v' s number r packet s1 :
  length packet = PACKET_SIZE -> svc_frame (glob s) (glob s1) ->
  serves (request_socket (glob s)) (world s) req v (RepResult number r) v' (world s1) ->
  svc_rel (glob s1) v' ->
  wp E (finish packet (send_response (result_packet number r) sizeof_result))
     (refines req v s) s1.
Proof.
  intros Hl Hf Hs Hr. apply wp_bind, send_response_wp; [apply length_result_packet|].
  intros r' w' Hrep. apply wp_ret. split_and!; [done|done|].
  rewrite (svc_frame_socket _ _ Hf) in Hrep.
  by exists (RepResult number r), v', (world s1), (result_packet number r).
Qed.

Lemma fix_field_wp (E : fault -> Prop) packet off path s Q :
  length packet = PACKET_SIZE -> (off + 2 <= PACKET_SIZE)%nat -> path_field packet off path ->
  (forall packet', length packet' = PACKET_SIZE -> take off packet' = take off packet ->
     Q (packet', path_spec path) s) ->
  wp E (fix_field packet off) Q s.
Proof.
  intros Hl Hoff Hc HQ.
  assert (Hld : length (drop off packet) = (PACKET_SIZE - off)%nat) by (rewrite length_drop; lia).
  apply wp_bind. apply (fix_pathname_wp _ _ path); [done|lia|].
  intros p' Hp' Hl'. apply wp_bind, wp_of_option. simpl.
  assert (Hd : drop off (mem_store packet off p') = p').
  { unfold mem_store. rewrite Hl', Hld, (drop_ge packet), app_nil_r by lia.
    rewrite drop_app_length'; [done|]. rewrite length_take. lia. }
  rewrite Hd, Hp'. apply wp_ret, HQ.
  - rewrite mem_store_length; lia.
  - unfold mem_store. rewrite take_app_length'; [done|]. rewrite length_take. lia.
Qed.
End facts.

(** ** The state of the service under assignments *)

Lemma svc_rel_ping_fd g v r :
  svc_rel g v -> svc_rel (set_ping_fd r g) (mk_svc r (svc_answered v) (svc_dirs v)).
Proof. intros []. by split. Qed.

Lemma svc_rel_answered g v :
  svc_rel g v -> svc_rel (set_ping_answered true g) (mk_svc (svc_ping_fd v) true (svc_dirs v)).
Proof. intros []. by split. Qed.

Lemma svc_rel_dirs g v i slot :
  svc_rel g v -> (i < DD_SIZE)%nat -> slot_ok slot ->
  svc_rel (set_dd (<[i := slot]> (ps2link_dd g)) g)
    (mk_svc (svc_ping_fd v) (svc_answered v) (partial_alter (fun _ => slot_abs slot) i (svc_dirs v))).
Proof.
  intros [Hp Ha Hl Hok Hd] Hi Hs. split; simpl; [done|done| | |].
  - by rewrite length_insert.
  - by apply Forall_insert.
  - intros j. destruct (decide (i = j)) as [<-|Hij].
    + rewrite lookup_partial_alter_eq, list_lookup_insert_eq by lia. done.
    + rewrite lookup_partial_alter_ne, list_lookup_insert_ne by done. apply Hd.
Qed.

(** ** Files *)

Section files.
Context {W : Type} `{PosixLaws W}.
Implicit Types (s : st link W) (w : W).

Lemma request_open_ok (E : fault -> Prop) packet flags path s v :
  carries packet (ReqOpen flags path) -> svc_rel (glob s) v ->
  wp E (ps2link_request_open packet) (refines (ReqOpen flags path) v s) s.
Proof.
  intros (Hl & _ & Hflags & Hpath) Hrel. apply wp_bind.
  eapply fix_field_wp; [done|unfold PACKET_SIZE; lia|exact Hpath|].
  intros packet' Hl' Htake.
  rewrite (get_be32_take packet packet' 10 6) by (done || (unfold PACKET_SIZE in *; lia)).
  rewrite Hflags.
  assert (Hlst : length (mem_store packet' 6 (le32 (fix_flags flags))) = PACKET_SIZE)
    by (rewrite mem_store_length; rewrite ?length_le32, Hl'; unfold PACKET_SIZE; lia).
  unfold strcmp_eq. case_bool_decide as Hping.
  - wp_step. intros r w1 Hopen. wp_step.
    eapply finish_result_wp; [done|done|by eapply S_open_ping|by apply svc_rel_ping_fd].
  - wp_step. intros stats w1 Hstat. apply wp_bind.
    fold (openable stats (fix_flags flags)). destruct (openable stats _) eqn:Ho.
    + wp_step. intros r w2 Hopen.
      eapply finish_result_wp; [done|apply svc_frame_refl|by eapply S_open|done].
    + wp_step. eapply finish_result_wp; [done|apply svc_frame_refl|by eapply S_open_refused|done].
Qed.

Lemma request_close_ok (E : fault -> Prop) packet fd s v :
  carries packet (ReqClose fd) -> svc_rel (glob s) v ->
  wp E (ps2link_request_close packet) (refines (ReqClose fd) v s) s.
Proof.
  intros (Hl & _ & Hfd) Hrel. unfold ps2link_request_close. rewrite Hfd.
  wp_step. intros r w1 Hclose. wp_step. simpl.
  pose proof (S_close (request_socket (glob s)) (world s) fd v r w1 Hclose) as Hs.
  rewrite <- (rel_ping_fd _ _ Hrel) in Hs. apply wp_bind.
  destruct (_ && _).
  - wp_step. unfold ps2link_set_flag. wp_step.
    eapply finish_result_wp; [done|done|exact Hs|].
    apply (svc_rel_answered _ (mk_svc (-1) (svc_answered v) (svc_dirs v))).
    by apply svc_rel_ping_fd.
  - wp_step. eapply finish_result_wp; [done|apply svc_frame_refl|exact Hs|done].
Qed.

(** read, then the header and the data of the reply. *)
Lemma read_into_wp (E : fault -> Prop) buffer fd size s Q :
  size <= Z.of_nat (length buffer) ->
  (forall r data w1 w', sys_read fd size (world s) = ((r, data), w1) ->
     replied (request_socket (glob s)) (read_packet r r ++ data) w1 w' ->
     Q 0 (mk_st (glob s) w')) ->
  wp E (read_into buffer fd size) Q s.
Proof.
  intros Hb HQ. unfold read_into. wp_step. intros [r data] w1 Hread.
  pose proof (read_law _ _ _ _ _ _ Hread) as (_ & Hlen & Hle & H31 & _).
  assert (Hs32 : s32 r = r) by (apply s32_small; unfold is_s32; lia).
  simpl. rewrite Hs32. apply wp_bind, send_response_wp; [apply length_read_packet|].
  intros r1 w2 Hrep1. wp_step. apply wp_bind. simpl.
  assert (Hbuf : (length data <= length buffer)%nat) by lia.
  apply network_send_wp.
  { rewrite mem_store_length by (simpl; lia). lia. }
  rewrite <- Hlen, take_mem_store_0. intros r2 w3 Hsent. wp_step.
  eapply (HQ r data w1); [done|]. by eapply replied_trans, sent_replied.
Qed.

Lemma request_read_ok (E : fault -> Prop) packet fd size s v :
  carries packet (ReqRead fd size) -> svc_rel (glob s) v ->
  wp E (ps2link_request_read packet) (refines (ReqRead fd size) v s) s.
Proof.
  intros (Hl & _ & Hfd & Hsize) Hrel. unfold ps2link_request_read. rewrite Hfd, Hsize.
  apply wp_bind. destruct (Z.gtb_spec size BUFFER_SIZE) as [Hbig|Hsmall].
  - wp_step. intros [mem|] w1 Hmalloc; pose proof (malloc_law _ _ _ _ Hmalloc) as [Hq Hmem].
    + specialize (Hmem mem eq_refl). apply read_into_wp; [simpl; lia|].
      simpl. intros r data w2 w3 Hread Hrep. wp_step.
      split_and!; [done|apply svc_frame_refl|].
      eexists (RepRead r data), v, w2, _. split_and!; [by eapply S_read|done|done|done].
    + apply wp_bind, send_response_wp; [apply length_read_packet|]. simpl.
      intros r w2 Hrep. do 2 wp_step.
      split_and!; [done|apply svc_frame_refl|].
      eexists (RepRead (-1) []), v, w1, _.
      split_and!; [by eapply S_read_no_memory|done|done|by rewrite app_nil_r].
  - wp_step. intros buffer w1 Hauto. pose proof (auto_law _ _ _ _ Hauto) as (Hq & Hlen & _).
    apply read_into_wp; [lia|]. simpl. intros r data w2 w3 Hread Hrep. wp_step.
    split_and!; [done|apply svc_frame_refl|].
    eexists (RepRead r data), v, w2, _. split_and!; [by eapply S_read|done|done|done].
Qed.

(** The data of a write, then the call and the reply. *)
Lemma write_from_wp (E : fault -> Prop) buffer fd size s Q :
  Z.of_nat (length buffer) >= size -> 0 <= size -> s32 size <= size ->
  (forall data w1 w2 r w',
     received (request_socket (glob s)) (s32 size) data (Z.max 0 (s32 size)) (world s) w1 ->
     length (take (Z.to_nat size) (mem_store buffer 0 data)) = Z.to_nat size ->
     take (length data) (take (Z.to_nat size) (mem_store buffer 0 data)) = data ->
     sys_write fd (take (Z.to_nat size) (mem_store buffer 0 data)) w1 = (r, w2) ->
     replied (request_socket (glob s)) (result_packet PS2LINK_RESPONSE_WRITE (s32 r)) w2 w' ->
     Q 0 (mk_st (glob s) w')) ->
  (forall data w1, received (request_socket (glob s)) (s32 size) data (-1) (world s) w1 ->
     Q (-1) (mk_st (glob s) w1)) ->
  wp E (write_from buffer fd size) Q s.
Proof.
  intros Hb H0s Hs32 HQ HQlost. unfold write_from. wp_step. apply wp_bind.
  apply network_receive_all_wp; [lia|]. intros r data w1 Hrec. simpl.
  destruct (Z.ltb_spec r 0) as [Hneg|Hpos].
  - wp_step. pose proof (received_result _ _ _ _ _ _ Hrec) as [[-> _]|[-> _]]; [lia|].
    by eapply HQlost.
  - pose proof (received_result _ _ _ _ _ _ Hrec) as [[-> Hlen]|[-> _]]; [|lia].
    wp_step. intros r w2 Hwrite. simpl.
    apply wp_bind, send_response_wp; [apply length_result_packet|]. simpl.
    intros r' w3 Hrep. wp_step.
    eapply HQ; [exact Hrec| | |exact Hwrite|exact Hrep].
    + rewrite length_take, mem_store_length; [lia|]. lia.
    + rewrite take_take, Nat.min_l by lia. apply take_mem_store_0.
Qed.

Lemma request_write_ok (E : fault -> Prop) packet fd size s v :
  carries packet (ReqWrite fd size) -> Forall is_byte packet -> svc_rel (glob s) v ->
  wp E (ps2link_request_write packet) (refines (ReqWrite fd size) v s) s.
Proof.
  intros (Hl & _ & Hfd & Hsize) Hbytes Hrel. unfold ps2link_request_write. rewrite Hfd, Hsize.
  assert (Hu : is_u32 size) by (rewrite <- Hsize; by apply get_be32_range).
  assert (Hs32 : s32 size <= size) by (unfold is_u32 in Hu; word_lia).
  assert (Hrun : forall buffer w1, quiet (world s) w1 -> Z.of_nat (length buffer) >= size ->
    wp E (write_from buffer fd size)
      (fun a s' => wp E (ret (a, packet)) (refines (ReqWrite fd size) v s) s')
      (mk_st (glob s) w1)).
  { intros buffer w1 Hq Hb. apply write_from_wp; [done|apply Hu|done| |].
    - intros data w2 w3 r w4 Hrec Hlen Htake Hwrite Hrep. wp_step.
      split_and!; [done|apply svc_frame_refl|].
      eexists (RepResult _ _), v, w3, _.
      split_and!; [by eapply S_write|done|done|done].
    - intros data w2 Hrec. wp_step. split_and!; [done|apply svc_frame_refl|].
      eexists RepNone, v, w2, _. split_and!; [by eapply S_write_lost|done|done|].
      split; [reflexivity|done|by rewrite app_nil_r]. }
  apply wp_bind. destruct (Z.gtb_spec size BUFFER_SIZE) as [Hbig|Hsmall].
  - wp_step. intros [mem|] w1 Hmalloc; pose proof (malloc_law _ _ _ _ Hmalloc) as [Hq Hmem].
    + apply Hrun; [done|]. rewrite (Hmem mem eq_refl). lia.
    + do 2 wp_step. split_and!; [done|apply svc_frame_refl|].
      eexists RepNone, v, w1, _. split_and!; [by eapply S_write_no_memory|done|done|].
      split; [reflexivity|done|by rewrite app_nil_r].
  - wp_step. intros buffer w1 Hauto. pose proof (auto_law _ _ _ _ Hauto) as (Hq & Hlen & _).
    apply Hrun; [done|lia].
Qed.

Lemma request_lseek_ok (E : fault -> Prop) packet fd offset whence s v :
  carries packet (ReqLseek fd offset whence) -> svc_rel (glob s) v ->
  wp E (ps2link_request_lseek packet) (refines (ReqLseek fd offset whence) v s) s.
Proof.
  intros (Hl & _ & <- & <- & <-) Hrel. unfold ps2link_request_lseek.
  wp_step. intros r w1 Hseek.
  eapply finish_result_wp; [done|apply svc_frame_refl|by eapply S_lseek|done].
Qed.

(** remove, mkdir and rmdir are one system call on the pathname. *)
Lemma request_remove_ok (E : fault -> Prop) packet path s v :
  carries packet (ReqRemove path) -> svc_rel (glob s) v ->
  wp E (ps2link_request_remove packet) (refines (ReqRemove path) v s) s.
Proof.
  intros (Hl & _ & Hp) Hrel. apply wp_bind.
  eapply fix_field_wp; [done|unfold PACKET_SIZE; lia|exact Hp|]. intros packet' Hl' _.
  wp_step. intros r w1 Hcall.
  eapply finish_result_wp; [done|apply svc_frame_refl|by eapply S_remove|done].
Qed.

Lemma request_rmdir_ok (E : fault -> Prop) packet path s v :
  carries packet (ReqRmdir path) -> svc_rel (glob s) v ->
  wp E (ps2link_request_rmdir packet) (refines (ReqRmdir path) v s) s.
Proof.
  intros (Hl & _ & Hp) Hrel. apply wp_bind.
  eapply fix_field_wp; [done|unfold PACKET_SIZE; lia|exact Hp|]. intros packet' Hl' _.
  wp_step. intros r w1 Hcall.
  eapply finish_result_wp; [done|apply svc_frame_refl|by eapply S_rmdir|done].
Qed.

Lemma request_mkdir_ok (E : fault -> Prop) packet mode path s v :
  carries packet (ReqMkdir mode path) -> svc_rel (glob s) v ->
  wp E (ps2link_request_mkdir packet) (refines (ReqMkdir mode path) v s) s.
Proof.
  intros (Hl & _ & <- & Hp) Hrel. apply wp_bind.
  eapply fix_field_wp; [done|unfold PACKET_SIZE; lia|exact Hp|]. intros packet' Hl' Ht.
  wp_step. intros r w1 Hcall.
  rewrite (get_le32_take packet packet' 10 6) in Hcall
    by (done || (unfold PACKET_SIZE in *; lia)).
  eapply finish_result_wp; [done|apply svc_frame_refl|by eapply S_mkdir|done].
Qed.
End files.

(** ** Directory slots *)

Lemma find_slot_Some dd : forall k i,
  find_slot k dd = Some i ->
  (k <= i < k + length dd)%nat
  /\ (exists slot, dd !! (i - k)%nat = Some slot /\ dd_dir slot = None)
  /\ forall j, (j < i - k)%nat -> exists slot, dd !! j = Some slot /\ dd_dir slot <> None.
Proof.
  induction dd as [|slot dd IH]; intros k i Hf; simpl in Hf; [done|].
  destruct (dd_dir slot) eqn:Hd.
  - apply IH in Hf as (Hb & (slot' & Hs & Hn) & Hlt).
    replace (i - k)%nat with (S (i - S k)) by lia. split_and!; [simpl; lia|simpl; lia| |].
    + by exists slot'.
    + intros [|j] Hj; [exists slot; by rewrite Hd|]. apply Hlt. lia.
  - simplify_eq. rewrite Nat.sub_diag. split_and!; [lia|simpl; lia|by exists slot|lia].
Qed.

Lemma find_slot_None dd : forall k,
  find_slot k dd = None -> Forall (fun slot => dd_dir slot <> None) dd.
Proof.
  induction dd as [|slot dd IH]; intros k Hf; simpl in Hf; [done|].
  destruct (dd_dir slot) eqn:Hd; [|done]. constructor; [by rewrite Hd|by eapply IH].
Qed.

Lemma slot_abs_is_Some slot : dd_dir slot <> None -> is_Some (slot_abs slot).
Proof. unfold slot_abs. by destruct (dd_dir slot). Qed.

Lemma find_slot_lowest g v i :
  svc_rel g v -> find_slot 0 (ps2link_dd g) = Some i -> lowest_free (svc_dirs v) i.
Proof.
  intros Hrel (Hb & (slot & Hs & Hn) & Hlt)%find_slot_Some. rewrite Nat.sub_0_r in *.
  split_and!.
  - rewrite (rel_dd_length _ _ Hrel) in Hb. lia.
  - rewrite (rel_dirs _ _ Hrel), Hs. simpl. unfold slot_abs. by rewrite Hn.
  - intros j (slot' & Hs' & Hn')%Hlt. rewrite (rel_dirs _ _ Hrel), Hs'. by apply slot_abs_is_Some.
Qed.

Lemma find_slot_full g v :
  svc_rel g v -> find_slot 0 (ps2link_dd g) = None ->
  forall i, (i < DD_SIZE)%nat -> is_Some (svc_dirs v !! i).
Proof.
  intros Hrel Hf%find_slot_None i Hi. rewrite <- (rel_dd_length _ _ Hrel) in Hi.
  apply lookup_lt_is_Some in Hi as [slot Hs]. rewrite (rel_dirs _ _ Hrel), Hs.
  apply slot_abs_is_Some. eapply (Forall_lookup_1 _ _ _ _ Hf Hs).
Qed.

(** The bounds check and the table agree with the abstract table. *)
Lemma dd_lookup_abs g v number :
  svc_rel g v ->
  match dd_lookup number (ps2link_dd g) with
  | Some (slot, dir) => exists path, dd_pathname slot = Some path
      /\ Forall (fun b => b <> 0) path
      /\ svc_dirs v !! Z.to_nat number = Some (path, dir) /\ (Z.to_nat number < DD_SIZE)%nat
  | None => svc_dirs v !! Z.to_nat number = None
  end.
Proof.
  intros Hrel. unfold dd_lookup. rewrite (rel_dirs _ _ Hrel).
  destruct (Z.geb_spec number (Z.of_nat DD_SIZE)) as [Hge|Hlt].
  - rewrite lookup_ge_None_2; [done|]. rewrite (rel_dd_length _ _ Hrel). lia.
  - destruct (ps2link_dd g !! Z.to_nat number) as [slot|] eqn:Hs; [|done]. simpl. unfold slot_abs. destruct (dd_dir slot) as [dir|] eqn:Hd; [|done].
    destruct (Forall_lookup_1 _ _ _ _ (rel_dd_ok _ _ Hrel) Hs ltac:(by rewrite Hd))
      as (path & Hp & Hnz).
    exists path. rewrite Hp. split_and!; try done. unfold DD_SIZE in *; lia.
Qed.

(** ** Statistics on the wire *)

Lemma convert_mode_range m : 0 <= convert_mode m < 64.
Proof.
  unfold convert_mode.
  assert (Hr : 0 <= Z.land m 7 < 8).
  { replace (Z.land m 7) with (m mod 2 ^ 3) by (change 7 with (Z.ones 3); by rewrite Z.land_ones).
    by apply Z.mod_pos_bound. }
  assert (Hc : exists n, Z.land m 7 = Z.of_nat n /\ (n < 8)%nat)
    by (exists (Z.to_nat (Z.land m 7)); lia).
  destruct Hc as (n & -> & Hn). do 8 (destruct n as [|n]; [
    destruct (S_ISDIR m), (S_ISLNK m), (S_ISREG m); by vm_compute |]). lia.
Qed.

Lemma convert_time_bytes field t :
  length field = 8%nat ->
  length (convert_time field t) = 8%nat /\ slice (convert_time field t) 1 6 = time_bytes t.
Proof.
  intros Hl. do 8 (destruct field as [|? field]; [done|]). destruct field; done.
Qed.

(** The fields of a packet with statistics. *)
Lemma stat_packet_entry number len obj result stats c a m c' a' m' rest :
  length c' = 8%nat -> slice c' 1 6 = time_bytes c ->
  length a' = 8%nat -> slice a' 1 6 = time_bytes a ->
  length m' = 8%nat -> slice m' 1 6 = time_bytes m ->
  entry_at (be32 number ++ be16 len ++
    stat_fields obj result (convert_mode (st_mode stats)) 0 (u32 (st_size stats))
      (Some c') (Some a') (Some m') 0 ++ rest) (entry_of stats c a m).
Proof.
  intros Hc Hct Ha Hat Hm Hmt.
  do 8 (destruct c' as [|? c']; [done|]). destruct c'; [|done].
  do 8 (destruct a' as [|? a']; [done|]). destruct a'; [|done].
  do 8 (destruct m' as [|? m']; [done|]). destruct m'; [|done].
  unfold slice in Hct, Hat, Hmt. simpl in Hct, Hat, Hmt.
  pose proof (convert_mode_range (st_mode stats)) as Hr.
  unfold entry_at, entry_of, stat_fields, slice, get_be32, byte_at, be32, be16. simpl.
  generalize (convert_mode (st_mode stats)) as mode, Hr. intros mode Hmode.
  split_and!; [word_lia|word_lia|word_lia|done|done|done|word_lia].
Qed.

Lemma packet_header number len result rest :
  is_u32 number -> 0 <= len < 65536 ->
  let bytes := be32 number ++ be16 len ++ be32 result ++ rest in
  get_be32 bytes 0 = number /\ get_be16 bytes 4 = len /\ get_be32 bytes 6 = u32 result.
Proof.
  intros Hn Hl bytes. split_and!.
  - unfold bytes. rewrite get_be32_be32. by apply u32_small.
  - change 4%nat with (length (be32 number) + 0)%nat. unfold bytes.
    rewrite get_be16_app, get_be16_be16. by apply u16_small.
  - change 6%nat with (length (be32 number ++ be16 len) + 0)%nat. unfold bytes.
    by rewrite app_assoc, get_be32_app, get_be32_be32.
Qed.

(** ** Directories and statistics *)

Section directories.
Context {W : Type} `{PosixLaws W}.
Implicit Types (s : st link W) (w : W).

(** A handler whose reply is already on its way. *)
Lemma refines_reply req v s packet rep v' w1 bytes s' a :
  length packet = PACKET_SIZE -> svc_frame (glob s) (glob s') ->
  serves (request_socket (glob s)) (world s) req v rep v' w1 ->
  svc_rel (glob s') v' -> reply_bytes rep bytes ->
  replied (request_socket (glob s)) bytes w1 (world s') ->
  refines req v s (a, packet) s'.
Proof. intros. split_and!; [done|done|]. by exists rep, v', w1, bytes. Qed.

Lemma request_opendir_ok packet path s v :
  carries packet (ReqOpendir path) -> svc_rel (glob s) v ->
  wp (may_fault (ReqOpendir path) v) (ps2link_request_opendir packet)
    (refines (ReqOpendir path) v s) s.
Proof.
  intros (Hl & _ & Hp) Hrel. apply wp_bind.
  eapply fix_field_wp; [done|unfold PACKET_SIZE; lia|exact Hp|]. intros packet' Hl' _.
  wp_step. intros stats w1 Hstat. fold (is_dir stats). apply wp_bind.
  destruct (is_dir stats) eqn:Hd.
  - wp_step. simpl. destruct (find_slot 0 _) as [i|] eqn:Hf.
    + pose proof (find_slot_lowest _ _ _ Hrel Hf) as Hlow.
      wp_step. intros [mem|] w2 Hmalloc; [|by wp_step].
      pose proof (malloc_law _ _ _ _ Hmalloc) as [Hq _].
      wp_step. intros dir w3 Hopen. wp_step. simpl. wp_step.
      pose proof (S_opendir (request_socket (glob s)) (world s) path v _ _ _ _ dir w3 Hstat Hd Hlow Hq Hopen) as Hs.
      eapply finish_result_wp; [done|by destruct s as [[] ?]|exact Hs|].
      apply cstr_Some in Hp as (rest & _ & Hnz).
      replace (match dir with Some dir => _ | None => _ end) with
        (partial_alter (fun _ => slot_abs (mk_dd (Some (path_spec path)) dir)) i (svc_dirs v)).
      * apply svc_rel_dirs; [done|by destruct Hlow|]. intros _.
        exists (path_spec path). split; [done|by apply path_spec_nonzero].
      * destruct dir; [done|]. destruct Hlow as (_ & Hnone & _).
        rewrite <- (partial_alter_self (svc_dirs v) i) at 2. by rewrite Hnone.
    + wp_step. eapply finish_result_wp; [done|apply svc_frame_refl| |done].
      eapply S_opendir_refused; [done|]. right. by eapply find_slot_full.
  - wp_step. eapply finish_result_wp; [done|apply svc_frame_refl| |done].
    eapply S_opendir_refused; [done|]. by left.
Qed.

Lemma request_closedir_ok (E : fault -> Prop) packet dd s v :
  carries packet (ReqClosedir dd) -> svc_rel (glob s) v ->
  wp E (ps2link_request_closedir packet) (refines (ReqClosedir dd) v s) s.
Proof.
  intros (Hl & _ & Hdd) Hrel. unfold ps2link_request_closedir. rewrite Hdd.
  wp_step. pose proof (dd_lookup_abs _ _ dd Hrel) as Hlook.
  destruct (dd_lookup dd _) as [[slot dir]|].
  - destruct Hlook as (path & _ & _ & Hdir & Hlt).
    wp_step. intros r w1 Hclose. wp_step.
    eapply finish_result_wp; [done|by destruct s as [[] ?]|by eapply S_closedir|].
    by apply (svc_rel_dirs _ _ _ (mk_dd None None)); [done|done|intros []].
  - eapply finish_result_wp; [done|apply svc_frame_refl|by eapply S_closedir_bad|done].
Qed.

Lemma time_field_wp (E : fault -> Prop) field t s Q :
  E NullDeref -> length field = 8%nat ->
  (forall lt f w', sys_localtime t (world s) = (Some lt, w') ->
     length f = 8%nat -> slice f 1 6 = time_bytes lt -> Q f (mk_st (glob s) w')) ->
  wp E (time_field field t) Q s.
Proof.
  intros HE Hl HQ. unfold time_field. wp_step. intros [lt|] w1 Ht.
  - wp_step. destruct (convert_time_bytes field lt Hl). by eapply HQ.
  - by wp_step.
Qed.

(** The three time fields, in order. *)
Lemma times_wp {A} (E : fault -> Prop) fc fa fm stats s (k : _ -> _ -> _ -> M link W A) Q :
  E NullDeref -> length fc = 8%nat -> length fa = 8%nat -> length fm = 8%nat ->
  (forall c a m fc fa fm w', times stats (world s) c a m w' ->
     length fc = 8%nat -> slice fc 1 6 = time_bytes c ->
     length fa = 8%nat -> slice fa 1 6 = time_bytes a ->
     length fm = 8%nat -> slice fm 1 6 = time_bytes m ->
     wp E (k fc fa fm) Q (mk_st (glob s) w')) ->
  wp E (let! fc := time_field fc (st_ctime stats) in
        let! fa := time_field fa (st_atime stats) in
        let! fm := time_field fm (st_mtime stats) in k fc fa fm) Q s.
Proof.
  intros HE Hc Ha Hm HQ.
  apply wp_bind, time_field_wp; [done|done|]. intros c fc' w1 ? ? ?.
  apply wp_bind, time_field_wp; [done|done|]. intros a fa' w2 ? ? ?.
  apply wp_bind, time_field_wp; [done|done|]. intros m fm' w3 ? ? ?.
  eapply HQ; try done. by econstructor.
Qed.

(** The response of readdir without an entry. *)
Lemma readdir_none_wp (E : fault -> Prop) r s Q :
  (forall a w1 w' bytes, quiet (world s) w1 -> reply_bytes (RepDirent r None) bytes ->
     replied (request_socket (glob s)) bytes w1 w' -> Q a (mk_st (glob s) w')) ->
  wp E (ps2link_response_readdir r 0 0 0 None None None 0 None) Q s.
Proof.
  intros HQ. unfold ps2link_response_readdir. wp_step. intros obj w1 Hauto.
  apply auto_law in Hauto as (Hq & Hlen & _).
  pose proof (length_readdir_packet obj r 0 0 0 None None None 0 None I I I Hlen) as Hl.
  apply send_response_wp; [done|]. intros a w2 Hrep. eapply HQ; [done| |exact Hrep].
  split; [unfold sizeof_readdir in Hl; lia|].
  unfold readdir_packet, stat_fields. rewrite <- !app_assoc.
  match goal with |- context [be32 r ++ ?rest] =>
    destruct (packet_header PS2LINK_RESPONSE_READDIR sizeof_readdir r rest) as (? & ? & ?)
  end; [by vm_compute|by vm_compute|done].
Qed.

Lemma readdir_entry_wp (E : fault -> Prop) path name s Q :
  E NullDeref -> Forall (fun b => b <> 0) path -> ((255 < length path)%nat -> E Overflow) ->
  is_string name -> (length name <= 255)%nat ->
  (forall w1 old stats w2 c a m w3 w4 w' bytes r, quiet (world s) w1 ->
     sys_stat (path ++ bytes_of "/" ++ name) w1 = (stats, w2) ->
     times (default old stats) w2 c a m w3 -> quiet w3 w4 ->
     reply_bytes (RepDirent 1 (Some (entry_of (default old stats) c a m, name))) bytes ->
     replied (request_socket (glob s)) bytes w4 w' -> Q r (mk_st (glob s) w')) ->
  wp E (readdir_entry path name) Q s.
Proof.
  intros HE Hpath Hplen Hname Hnlen HQ. unfold readdir_entry.
  wp_step. intros fc w1 (Hq1 & Hfc & _)%auto_law. wp_step. intros fa w2 (Hq2 & Hfa & _)%auto_law.
  wp_step. intros fm w3 (Hq3 & Hfm & _)%auto_law. wp_step. intros tname w4 (Hq4 & Htn & _)%auto_law.
  wp_step. unfold sprintf_slash. case_bool_decide as Hfit.
  2: { apply Hplen. rewrite Htn, !length_app in Hfit. unfold TNAME_SIZE in Hfit. simpl in Hfit. lia. }
  wp_step.
  assert (Hc : cstr (mem_store tname 0 (path ++ bytes_of "/" ++ name ++ [0]))
               = Some (path ++ bytes_of "/" ++ name)).
  { rewrite mem_store_0.
    replace ((path ++ bytes_of "/" ++ name ++ [0]) ++ _) with
      ((path ++ bytes_of "/" ++ name) ++ 0 :: drop (length (path ++ bytes_of "/" ++ name ++ [0])) tname)
      by (by rewrite <- !app_assoc).
    apply cstr_app_null. forall_split; [done| |by apply is_string_nonzero].
    by apply (Forall_singleton (fun b => b <> 0) 47). }
  rewrite Hc. wp_step. intros old w5 Hq5%auto_stat_law. wp_step. intros stats w6 Hstat.
  apply times_wp; [done|done|done|done|]. clear fc fa fm Hfc Hfa Hfm.
  intros c a m fc fa fm w7 Ht Hfc Hct Hfa Hat Hfm Hmt.
  unfold ps2link_response_readdir. wp_step. intros obj w8 (Hq8 & Hobj & _)%auto_law.
  set (packet := readdir_packet _ _ _ _ _ _ _ _ _ _).
  assert (Hl : Z.of_nat (length packet) = sizeof_readdir) by (by apply length_readdir_packet).
  apply send_response_wp; [done|]. intros r w9 Hrep.
  assert (Hq : quiet (world s) w5) by (repeat (etrans; [eassumption|]); reflexivity).
  eapply HQ; [exact Hq|exact Hstat|exact Ht|exact Hq8| |exact Hrep].
  assert (Hhead : length (be32 PS2LINK_RESPONSE_READDIR ++ be16 sizeof_readdir ++
     stat_fields obj 1 (convert_mode (st_mode (default old stats))) 0
       (u32 (st_size (default old stats))) (Some fc) (Some fa) (Some fm) 0) = 50%nat).
  { rewrite !length_app, length_stat_fields; try done. rewrite Hobj. unfold sizeof_readdir. lia. }
  split; [unfold sizeof_readdir in Hl; lia|].
  unfold packet, readdir_packet. split_and!.
  - unfold stat_fields. rewrite <- !app_assoc. apply packet_header; by vm_compute.
  - unfold stat_fields. rewrite <- !app_assoc. apply packet_header; by vm_compute.
  - unfold stat_fields. rewrite <- !app_assoc. apply packet_header; by vm_compute.
  - by apply stat_packet_entry.
  - rewrite (app_assoc (be16 _)), (app_assoc (be32 PS2LINK_RESPONSE_READDIR)).
    rewrite drop_app_length' by (symmetry; exact Hhead).
    rewrite snprintf_s_cstr by (by apply is_string_nonzero). f_equal. apply take_ge. lia.
Qed.

Lemma request_readdir_ok packet dd s v :
  carries packet (ReqReaddir dd) -> svc_rel (glob s) v ->
  wp (may_fault (ReqReaddir dd) v) (ps2link_request_readdir packet)
    (refines (ReqReaddir dd) v s) s.
Proof.
  intros (Hl & _ & Hdd) Hrel. unfold ps2link_request_readdir. rewrite Hdd.
  wp_step. apply wp_bind. pose proof (dd_lookup_abs _ _ dd Hrel) as Hlook.
  destruct (dd_lookup dd _) as [[slot dir]|].
  - destruct Hlook as (path & Hp & Hnz & Hdir & _).
    wp_step. intros [name|] w1 Hread; pose proof (readdir_law _ _ _ _ Hread) as [_ Hname].
    + rewrite Hp. destruct (Hname name eq_refl) as [Hstr Hnlen].
      apply readdir_entry_wp; try done; [by left|intros; right; by eauto|]. simpl.
      intros w2 old stats w3 c a m w4 w5 w' bytes r Hq Hstat Ht Hq' Hb Hrep. wp_step.
      eapply refines_reply; [done|apply svc_frame_refl|by eapply S_readdir|done|exact Hb|done].
    + apply readdir_none_wp. simpl. intros r w2 w' bytes Hq Hb Hrep. wp_step.
      eapply refines_reply; [done|apply svc_frame_refl|by eapply S_readdir_end|done|exact Hb|done].
  - apply readdir_none_wp. intros r w2 w' bytes Hq Hb Hrep. wp_step.
    eapply refines_reply; [done|apply svc_frame_refl|by eapply S_readdir_bad|done|exact Hb|done].
Qed.

Lemma getstat_reply_wp (E : fault -> Prop) packet result stats c a m fc fa fm s Q :
  length fc = 8%nat -> length fa = 8%nat -> length fm = 8%nat ->
  (forall w1 w' bytes r, quiet (world s) w1 ->
     length bytes = 50%nat -> get_be32 bytes 0 = PS2LINK_RESPONSE_GETSTAT ->
     get_be16 bytes 4 = sizeof_getstat -> get_be32 bytes 6 = u32 result ->
     (slice fc 1 6 = time_bytes c -> slice fa 1 6 = time_bytes a -> slice fm 1 6 = time_bytes m ->
      entry_at bytes (entry_of stats c a m)) ->
     replied (request_socket (glob s)) bytes w1 w' -> Q (r, packet) (mk_st (glob s) w')) ->
  wp E (finish packet (ps2link_response_getstat result (convert_mode (st_mode stats)) 0
          (u32 (st_size stats)) (Some fc) (Some fa) (Some fm) 0)) Q s.
Proof.
  intros Hfc Hfa Hfm HQ. unfold finish, ps2link_response_getstat. apply wp_bind.
  wp_step. intros obj w1 (Hq & Hobj & _)%auto_law.
  set (bytes := getstat_packet _ _ _ _ _ _ _ _ _).
  assert (Hl : Z.of_nat (length bytes) = sizeof_getstat) by (by apply length_getstat_packet).
  apply send_response_wp; [done|]. intros r w2 Hrep. wp_step.
  apply (HQ w1 w2 bytes); [exact Hq|unfold sizeof_getstat in Hl; lia| | | | |exact Hrep];
    unfold bytes, getstat_packet.
  - apply packet_header; by vm_compute.
  - apply packet_header; by vm_compute.
  - apply packet_header; by vm_compute.
  - intros. rewrite <- (app_nil_r (stat_fields _ _ _ _ _ _ _ _ _)). by apply stat_packet_entry.
Qed.

Lemma request_getstat_ok packet path s v :
  carries packet (ReqGetstat path) -> svc_rel (glob s) v ->
  wp (may_fault (ReqGetstat path) v) (ps2link_request_getstat packet)
    (refines (ReqGetstat path) v s) s.
Proof.
  intros (Hl & _ & Hp) Hrel. apply wp_bind.
  eapply fix_field_wp; [done|unfold PACKET_SIZE; lia|exact Hp|]. intros packet' Hl' _.
  cbv zeta. wp_step. intros [stats|] w1 Hstat.
  - apply times_wp; [done|done|done|done|].
    intros c a m fc fa fm w2 Ht Hfc Hct Hfa Hat Hfm Hmt.
    eapply (getstat_reply_wp _ _ _ stats c a m); [done|done|done|]. simpl.
    intros w3 w' bytes r Hq Hlen H1 H2 H3 He Hrep.
    eapply refines_reply; [done|apply svc_frame_refl|by eapply S_getstat|done| |done].
    split_and!; auto.
  - eapply (getstat_reply_wp _ _ (-1) (mk_stat 0 0 0 0 0) (mk_tm 0 0 0 0 0 0) (mk_tm 0 0 0 0 0 0)
              (mk_tm 0 0 0 0 0 0)); [done|done|done|]. simpl.
    intros w3 w' bytes r Hq Hlen H1 H2 H3 He Hrep.
    eapply refines_reply; [done|apply svc_frame_refl|by eapply S_getstat_fails|done| |done].
    split_and!; auto.
Qed.
End directories.
