(* ===== verification/Wire.v ===== *)
(** * Requests on the wire

    [decode_request] reads the packet object as a request, when its number is
    known and its pathname ends inside the packet; it decides [carries].
    [encode_request] is the packet as the structs of src/ps2link.c lay it out,
    with the numbers of src/ps2link.h and all integers in network byte order;
    [as_received] is the request the program makes of it, which differs for
    mkdir (the mode is used unconverted) and for lseek (the offset is taken as
    unsigned).

    doc/ps2link-protocol.txt describes other packets in some cases:
    [documented] is a packet of that document, [encode_documented] its bytes,
    and [taken_for] the request that ps2client takes it for. The document
    swaps the numbers of dread and dclose and has flags in front of the name
    of remove and rmdir, where ps2client already reads the name. *)

From S2P Require Import Prelude CLib Posix Utility Network Link Response Request Service.

Definition known_numbers : list Z :=
  [PS2LINK_REQUEST_OPEN; PS2LINK_REQUEST_CLOSE; PS2LINK_REQUEST_READ; PS2LINK_REQUEST_WRITE;
   PS2LINK_REQUEST_LSEEK; PS2LINK_REQUEST_OPENDIR; PS2LINK_REQUEST_CLOSEDIR;
   PS2LINK_REQUEST_READDIR; PS2LINK_REQUEST_REMOVE; PS2LINK_REQUEST_MKDIR;
   PS2LINK_REQUEST_RMDIR; PS2LINK_REQUEST_GETSTAT].

Definition decode_request (packet : list Z) : option request :=
  let number := get_be32 packet 0 in
  let a := get_be32 packet 6 in
  let b := get_be32 packet 10 in
  let path off := cstr (drop off packet) in
  if number =? PS2LINK_REQUEST_OPEN then ReqOpen (s32 a) <$> path 10%nat
  else if number =? PS2LINK_REQUEST_CLOSE then Some (ReqClose (s32 a))
  else if number =? PS2LINK_REQUEST_READ then Some (ReqRead (s32 a) b)
  else if number =? PS2LINK_REQUEST_WRITE then Some (ReqWrite (s32 a) b)
  else if number =? PS2LINK_REQUEST_LSEEK then
    Some (ReqLseek (s32 a) b (s32 (get_be32 packet 14)))
  else if number =? PS2LINK_REQUEST_OPENDIR then ReqOpendir <$> path 10%nat
  else if number =? PS2LINK_REQUEST_CLOSEDIR then Some (ReqClosedir a)
  else if number =? PS2LINK_REQUEST_READDIR then Some (ReqReaddir a)
  else if number =? PS2LINK_REQUEST_REMOVE then ReqRemove <$> path 6%nat
  else if number =? PS2LINK_REQUEST_MKDIR then ReqMkdir (get_le32 packet 6) <$> path 10%nat
  else if number =? PS2LINK_REQUEST_RMDIR then ReqRmdir <$> path 6%nat
  else if number =? PS2LINK_REQUEST_GETSTAT then ReqGetstat <$> path 6%nat
  else None.

(** The field that has to hold a string, if the request has one. *)
Definition path_offset (number : Z) : option nat :=
  if bool_decide (number ∈ [PS2LINK_REQUEST_OPEN; PS2LINK_REQUEST_OPENDIR; PS2LINK_REQUEST_MKDIR])
  then Some 10%nat
  else if bool_decide (number ∈ [PS2LINK_REQUEST_REMOVE; PS2LINK_REQUEST_RMDIR;
                                 PS2LINK_REQUEST_GETSTAT])
  then Some 6%nat
  else None.

Lemma decode_carries packet req :
  length packet = PACKET_SIZE -> decode_request packet = Some req -> carries packet req.
Proof.
  intros Hl Hd. unfold decode_request in Hd. cbv zeta in Hd.
  repeat case_match; try discriminate;
    try (apply fmap_Some in Hd as (path & Hp & ->)); simplify_eq;
    unfold carries; split_and!; try done; by apply Z.eqb_eq.
Qed.

(** Every packet with a known number is a request, or its pathname does not
    end inside it. *)
Lemma decode_None packet :
  decode_request packet = None ->
  get_be32 packet 0 ∉ known_numbers
  \/ exists off, path_offset (get_be32 packet 0) = Some off
                 /\ cstr (drop off packet) = None.
Proof.
  intros Hd. destruct (decide (get_be32 packet 0 ∈ known_numbers)) as [Hk|]; [right|by left].
  unfold known_numbers in Hk. rewrite !elem_of_cons, elem_of_nil in Hk.
  unfold decode_request in Hd. cbv zeta in Hd.
  destruct_or! Hk; rewrite Hk in *; cbn [Z.eqb Pos.eqb] in Hd; try done;
    apply fmap_None in Hd; eexists; by split; [reflexivity|].
Qed.

(** ** The packets of the source's structs *)

(** A 256 byte field with a string and zeros behind it. *)
Definition string_field (path : list Z) : list Z :=
  path ++ replicate (256 - length path) 0.

Definition with_header (number : Z) (body : list Z) : list Z :=
  be32 number ++ be16 (6 + Z.of_nat (length body)) ++ body.

Definition request_body (req : request) : list Z :=
  match req with
  | ReqOpen flags path => be32 flags ++ string_field path
  | ReqClose fd => be32 fd
  | ReqRead fd size | ReqWrite fd size => be32 fd ++ be32 size
  | ReqLseek fd offset whence => be32 fd ++ be32 offset ++ be32 whence
  | ReqOpendir path => be32 0 ++ string_field path
  | ReqClosedir dd | ReqReaddir dd => be32 dd
  | ReqMkdir mode path => be32 mode ++ string_field path
  | ReqRemove path | ReqRmdir path | ReqGetstat path => string_field path
  end.

Definition encode_request (req : request) : list Z :=
  with_header (request_number req) (request_body req).

Definition bswap32 (z : Z) : Z := get_le32 (be32 z) 0.

Definition as_received (req : request) : request :=
  match req with
  | ReqOpen flags path => ReqOpen (s32 flags) path
  | ReqClose fd => ReqClose (s32 fd)
  | ReqRead fd size => ReqRead (s32 fd) (u32 size)
  | ReqWrite fd size => ReqWrite (s32 fd) (u32 size)
  | ReqLseek fd offset whence => ReqLseek (s32 fd) (u32 offset) (s32 whence)
  | ReqClosedir dd => ReqClosedir (u32 dd)
  | ReqReaddir dd => ReqReaddir (u32 dd)
  | ReqMkdir mode path => ReqMkdir (bswap32 mode) path
  | _ => req
  end.

(** The pathname of a request fits in its field. *)
Definition request_path (req : request) : list Z :=
  match req with
  | ReqOpen _ path | ReqOpendir path | ReqRemove path | ReqMkdir _ path | ReqRmdir path
  | ReqGetstat path => path
  | _ => []
  end.

Definition well_formed (req : request) : Prop :=
  is_string (request_path req) /\ (length (request_path req) <= 255)%nat.

#[global] Instance well_formed_dec req : Decision (well_formed req).
Proof. unfold well_formed. apply _. Defined.

Lemma length_string_field path :
  (length path <= 255)%nat -> length (string_field path) = 256%nat.
Proof. intros. unfold string_field. rewrite length_app, length_replicate. lia. Qed.

Lemma string_field_cstr pre path rest :
  is_string path -> (length path <= 255)%nat ->
  cstr (drop (length pre) (pre ++ string_field path ++ rest)) = Some path.
Proof.
  intros Hs Hl. rewrite drop_app_length. unfold string_field.
  replace (256 - length path)%nat with (S (255 - length path)) by lia.
  rewrite <- app_assoc. simpl. by apply cstr_app_null, is_string_nonzero.
Qed.

Lemma length_request_body req :
  well_formed req -> (length (request_body req) <= 260)%nat.
Proof.
  intros [_ Hl]. destruct req; simpl in *; rewrite ?length_app, ?length_string_field by done;
    simpl; lia.
Qed.

Lemma length_encode req :
  well_formed req -> (6 <= length (encode_request req) <= 266)%nat.
Proof.
  intros Hw%length_request_body. unfold encode_request, with_header.
  rewrite !length_app, length_be32, length_be16. lia.
Qed.

(** The packet says how long it is. *)
Lemma encode_length_field req rest :
  well_formed req ->
  get_be16 (encode_request req ++ rest) 4 = Z.of_nat (length (encode_request req)).
Proof.
  intros Hw. pose proof (length_request_body _ Hw) as Hb.
  unfold encode_request, with_header. rewrite !length_app, length_be32, length_be16.
  rewrite <- app_assoc. rewrite (get_be16_app (be32 _) _ 0).
  rewrite <- app_assoc, get_be16_be16, u16_small; lia.
Qed.

Lemma get_be32_field pre z rest :
  get_be32 (pre ++ be32 z ++ rest) (length pre) = u32 z.
Proof.
  rewrite <- (Nat.add_0_r (length pre)), get_be32_app. apply get_be32_be32.
Qed.

Lemma get_le32_field pre z rest :
  get_le32 (pre ++ be32 z ++ rest) (length pre) = bswap32 z.
Proof.
  unfold get_le32. rewrite <- (Nat.add_0_r (length pre)), <- !Nat.add_assoc, !byte_at_app_r.
  reflexivity.
Qed.

Lemma encode_carries req packet :
  well_formed req -> length packet = PACKET_SIZE ->
  carries (mem_store packet 0 (encode_request req)) (as_received req).
Proof.
  intros Hw Hl. pose proof (length_encode _ Hw) as He. destruct Hw as [Hs Hp].
  split; [rewrite mem_store_length; unfold PACKET_SIZE in *; lia|].
  rewrite mem_store_0. generalize (drop (length (encode_request req)) packet). intros rest.
  unfold encode_request, with_header. rewrite <- !app_assoc.
  split; [rewrite get_be32_be32; by destruct req|].
  set (len := be16 _). set (num := be32 _).
  assert (H6 : length (num ++ len) = 6%nat) by done.
  assert (F : forall z tail, get_be32 (num ++ len ++ be32 z ++ tail) 6 = u32 z).
  { intros z tail. rewrite (app_assoc num), <- H6. apply get_be32_field. }
  assert (F2 : forall y z tail, get_be32 (num ++ len ++ be32 y ++ be32 z ++ tail) 10 = u32 z).
  { intros y z tail.
    replace 10%nat with (length (num ++ len ++ be32 y)) by done.
    rewrite !(app_assoc _ _ (be32 z ++ tail)). apply get_be32_field. }
  assert (F3 : forall x y z tail,
    get_be32 (num ++ len ++ be32 x ++ be32 y ++ be32 z ++ tail) 14 = u32 z).
  { intros x y z tail.
    replace 14%nat with (length (num ++ len ++ be32 x ++ be32 y)) by done.
    rewrite !(app_assoc _ _ (be32 z ++ tail)). apply get_be32_field. }
  assert (P6 : forall p tail, is_string p -> (length p <= 255)%nat ->
    path_field (num ++ len ++ string_field p ++ tail) 6 p).
  { intros p tail ??. unfold path_field.
    rewrite (app_assoc num), <- H6. by apply string_field_cstr. }
  assert (P10 : forall y p tail, is_string p -> (length p <= 255)%nat ->
    path_field (num ++ len ++ be32 y ++ string_field p ++ tail) 10 p).
  { intros y p tail ??. unfold path_field.
    replace 10%nat with (length (num ++ len ++ be32 y)) by done.
    rewrite !(app_assoc _ _ (string_field p ++ tail)). by apply string_field_cstr. }
  assert (L6 : forall z tail, get_le32 (num ++ len ++ be32 z ++ tail) 6 = bswap32 z).
  { intros z tail. rewrite (app_assoc num), <- H6. apply get_le32_field. }
  destruct req; cbn [request_body as_received request_path] in *;
    rewrite <- ?app_assoc, ?F, ?F2, ?F3, ?L6, ?s32_u32; split_and?; auto.
Qed.

Lemma carries_decode packet req :
  carries packet req -> decode_request packet = Some req.
Proof.
  intros (_ & Hn & Hf). unfold decode_request. cbv zeta. unfold path_field in Hf.
  rewrite Hn. destruct req; cbn [request_number Z.eqb] in *;
    repeat (rewrite Z.eqb_refl || rewrite (proj2 (Z.eqb_neq _ _)) by done);
    destruct_and?; simplify_eq; try done;
    repeat match goal with H : cstr _ = _ |- _ => rewrite H end; done.
Qed.

(** The bytes of a packet are bytes. *)
Lemma encode_is_bytes req : well_formed req -> Forall is_byte (encode_request req).
Proof.
  intros [Hs _]. pose proof (is_string_bytes _ Hs) as Hp. unfold encode_request, with_header.
  assert (Hf : Forall is_byte (string_field (request_path req))).
  { unfold string_field. apply Forall_app. split; [done|]. apply Forall_replicate. by unfold is_byte. }
  rewrite !Forall_app. split_and!; [apply be32_is_bytes|apply be16_is_bytes|].
  destruct req; cbn [request_body request_path] in *; rewrite ?Forall_app; split_and?;
    done || apply be32_is_bytes.
Qed.

(** ** The packets of the protocol document *)

(** The request packets of doc/ps2link-protocol.txt, with the fields there. *)
Inductive documented :=
| DocOpen (flags : Z) (pathname : list Z)
| DocClose (fd : Z)
| DocRead (fd size : Z)
| DocWrite (fd size : Z)
| DocLseek (fd offset whence : Z)
| DocDopen (flags : Z) (pathname : list Z)
| DocDread (dd : Z)
| DocDclose (dd : Z)
| DocRemove (flags : Z) (name : list Z)
| DocMkdir (flags : Z) (name : list Z)
| DocRmdir (flags : Z) (name : list Z).

Definition documented_number (d : documented) : Z :=
  match d with
  | DocOpen _ _ => 0xBABE0111
  | DocClose _ => 0xBABE0121
  | DocRead _ _ => 0xBABE0131
  | DocWrite _ _ => 0xBABE0141
  | DocLseek _ _ _ => 0xBABE0151
  | DocDopen _ _ => 0xBABE0161
  | DocDread _ => 0xBABE0171
  | DocDclose _ => 0xBABE0181
  | DocRemove _ _ => 0xBABE0191
  | DocMkdir _ _ => 0xBABE01A1
  | DocRmdir _ _ => 0xBABE01B1
  end.

Definition documented_body (d : documented) : list Z :=
  match d with
  | DocOpen flags name | DocDopen flags name | DocRemove flags name | DocMkdir flags name
  | DocRmdir flags name => be32 flags ++ string_field name
  | DocClose fd => be32 fd
  | DocRead fd size | DocWrite fd size => be32 fd ++ be32 size
  | DocLseek fd offset whence => be32 fd ++ be32 offset ++ be32 whence
  | DocDread dd | DocDclose dd => be32 dd
  end.

Definition encode_documented (d : documented) : list Z :=
  with_header (documented_number d) (documented_body d).

Definition documented_name (d : documented) : list Z :=
  match d with
  | DocOpen _ name | DocDopen _ name | DocRemove _ name | DocMkdir _ name | DocRmdir _ name => name
  | _ => []
  end.

(** The names are strings that fit their field. *)
Definition documented_ok (d : documented) : Prop :=
  is_string (documented_name d) /\ (length (documented_name d) <= 255)%nat.

(** A name that is read where the flags are: up to the first null byte. *)
Definition flags_and_name (flags : Z) (name : list Z) : list Z :=
  default [] (cstr (be32 flags ++ name ++ [0])).

Definition taken_for (d : documented) : request :=
  match d with
  | DocOpen flags name => ReqOpen (s32 flags) name
  | DocClose fd => ReqClose (s32 fd)
  | DocRead fd size => ReqRead (s32 fd) (u32 size)
  | DocWrite fd size => ReqWrite (s32 fd) (u32 size)
  | DocLseek fd offset whence => ReqLseek (s32 fd) (u32 offset) (s32 whence)
  | DocDopen _ name => ReqOpendir name
  | DocDread dd => ReqClosedir (u32 dd)
  | DocDclose dd => ReqReaddir (u32 dd)
  | DocRemove flags name => ReqRemove (flags_and_name flags name)
  | DocMkdir flags name => ReqMkdir (bswap32 flags) name
  | DocRmdir flags name => ReqRmdir (flags_and_name flags name)
  end.

(** With flags below 2^24 the name is empty. *)
Lemma flags_and_name_small flags name : 0 <= flags < 2 ^ 24 -> flags_and_name flags name = [].
Proof.
  intros Hf. unfold flags_and_name, be32. assert (Hz : u8 (flags / 16777216) = 0) by word_lia.
  by rewrite Hz.
Qed.

Lemma cstr_null_Some a : is_Some (cstr (a ++ [0])).
Proof.
  unfold cstr. apply fmap_is_Some. induction a as [|c a IH]; simpl; [by eexists|].
  destruct (c =? 0); [by eexists|by apply fmap_is_Some].
Qed.

(** A string ends at its first null, whatever is behind. *)
Lemma cstr_null_rest a rest : cstr (a ++ 0 :: rest) = cstr (a ++ [0]).
Proof.
  destruct (cstr_null_Some a) as [s Hs]. rewrite Hs.
  by rewrite (app_assoc a [0] rest : a ++ 0 :: rest = _), (cstr_app_l _ rest s Hs).
Qed.

Lemma string_field_null name :
  (length name <= 255)%nat -> exists rest, string_field name = name ++ 0 :: rest.
Proof.
  intros Hl. unfold string_field. replace (256 - length name)%nat with (S (255 - length name)) by lia.
  by eexists.
Qed.

Lemma flags_and_name_field flags name rest :
  (length name <= 255)%nat ->
  cstr (be32 flags ++ string_field name ++ rest) = Some (flags_and_name flags name).
Proof.
  intros [more ->]%string_field_null. rewrite <- app_assoc, <- app_comm_cons, app_assoc, cstr_null_rest.
  unfold flags_and_name. rewrite app_assoc.
  destruct (cstr_null_Some (be32 flags ++ name)) as [s Hs]. by rewrite Hs.
Qed.

Lemma length_documented d :
  documented_ok d -> (6 <= length (encode_documented d) <= 266)%nat.
Proof.
  intros [_ Hl]. unfold encode_documented, with_header.
  rewrite !length_app, length_be32, length_be16.
  destruct d; simpl in *; rewrite ?length_app, ?length_string_field by done; simpl; lia.
Qed.

Lemma documented_is_bytes d : documented_ok d -> Forall is_byte (encode_documented d).
Proof.
  intros [Hs _]. pose proof (is_string_bytes _ Hs) as Hp. unfold encode_documented, with_header.
  assert (Hf : Forall is_byte (string_field (documented_name d))).
  { unfold string_field. apply Forall_app. split; [done|]. apply Forall_replicate. by unfold is_byte. }
  rewrite !Forall_app. split_and!; [apply be32_is_bytes|apply be16_is_bytes|].
  destruct d; cbn [documented_body documented_name] in *; rewrite ?Forall_app; split_and?;
    done || apply be32_is_bytes.
Qed.

(** The packets on which the document and the source agree. *)
Definition as_in_source (d : documented) : option request :=
  match d with
  | DocOpen flags name => Some (ReqOpen flags name)
  | DocClose fd => Some (ReqClose fd)
  | DocRead fd size => Some (ReqRead fd size)
  | DocWrite fd size => Some (ReqWrite fd size)
  | DocLseek fd offset whence => Some (ReqLseek fd offset whence)
  | DocDread dd => Some (ReqClosedir dd)
  | DocDclose dd => Some (ReqReaddir dd)
  | DocMkdir flags name => Some (ReqMkdir flags name)
  | DocDopen _ _ | DocRemove _ _ | DocRmdir _ _ => None
  end.

Lemma documented_carries d packet :
  documented_ok d -> length packet = PACKET_SIZE ->
  carries (mem_store packet 0 (encode_documented d)) (taken_for d).
Proof.
  intros Hok Hl. destruct (as_in_source d) as [req|] eqn:Hreq.
  - assert (Heq : encode_documented d = encode_request req /\ taken_for d = as_received req
      /\ well_formed req).
    { destruct d; simpl in Hreq; try discriminate Hreq; injection Hreq as <-; exact (conj eq_refl (conj eq_refl Hok)). }
    destruct Heq as (-> & -> & Hw). by apply encode_carries.
  - pose proof (length_documented _ Hok) as He. destruct Hok as [Hs Hp].
    split; [rewrite mem_store_length; unfold PACKET_SIZE in *; lia|]. rewrite mem_store_0.
    generalize (drop (length (encode_documented d)) packet). intros rest.
    unfold encode_documented, with_header. rewrite <- !app_assoc.
    split; [rewrite get_be32_be32; by destruct d|].
    destruct d; try discriminate Hreq; cbn [taken_for documented_body documented_name] in *;
      unfold path_field; rewrite <- !app_assoc;
      first [by apply flags_and_name_field | apply (string_field_cstr (be32 _ ++ be16 _ ++ be32 _)); done].
Qed.

(** The packet says how long it is. *)
Lemma documented_length_field d :
  documented_ok d -> get_be16 (encode_documented d) 4 = Z.of_nat (length (encode_documented d)).
Proof.
  intros Hok. pose proof (length_documented _ Hok) as Hl. revert Hl. unfold encode_documented, with_header.
  rewrite !length_app, length_be32, length_be16. intros Hl. rewrite (get_be16_app (be32 _) _ 0), get_be16_be16, u16_small; lia.
Qed.

Lemma bswap32_low mode : 0 <= mode < 65536 -> Z.land (bswap32 mode) 4095 = 0.
Proof.
  intros Hm. unfold bswap32, get_le32, be32, byte_at. simpl.
  assert (Heq : u8 (mode / 16777216) + u8 (mode / 65536) * 256 + u8 (mode / 256) * 65536
                + u8 mode * 16777216 = (u8 (mode / 256) + u8 mode * 256) * 2 ^ 16) by word_lia.
  rewrite Heq. rewrite (Z.land_ones _ 12 ltac:(lia) : Z.land _ 4095 = _).
  change (2 ^ 16) with (2 ^ 4 * 2 ^ 12). rewrite Z.mul_assoc. by apply Z.mod_mul.
Qed.
