(* ===== verification/RequestThread.v ===== *)
(** * The request thread (ps2link_thread_request in src/ps2link.c)

    One iteration waits, receives a header and the rest of its packet,
    dispatches on the number and notes the time; the thread ends, and tells
    the main loop, when the connection ends or a header is malformed. The
    thread loops forever, so it is modelled by the state after any number
    of iterations: [conversation] is the specification of what it has done. *)

From S2P Require Import Prelude CLib Posix Sim Utility Network Link Response Request Service Handlers Wire.

Section defs.
Context {W : Type} `{Posix W}.

(** The handlers' results are not used; the packet they changed is. *)
Definition packet_of (m : M link W (Z * list Z)) : M link W (list Z) :=
  let! r := m in ret r.2.

Definition dispatch (packet : list Z) : M link W (list Z) :=
  let number := get_be32 packet 0 in
  if number =? PS2LINK_REQUEST_OPEN then packet_of (ps2link_request_open packet) else
  if number =? PS2LINK_REQUEST_CLOSE then packet_of (ps2link_request_close packet) else
  if number =? PS2LINK_REQUEST_READ then packet_of (ps2link_request_read packet) else
  if number =? PS2LINK_REQUEST_WRITE then packet_of (ps2link_request_write packet) else
  if number =? PS2LINK_REQUEST_LSEEK then packet_of (ps2link_request_lseek packet) else
  if number =? PS2LINK_REQUEST_OPENDIR then packet_of (ps2link_request_opendir packet) else
  if number =? PS2LINK_REQUEST_CLOSEDIR then packet_of (ps2link_request_closedir packet) else
  if number =? PS2LINK_REQUEST_READDIR then packet_of (ps2link_request_readdir packet) else
  if number =? PS2LINK_REQUEST_REMOVE then packet_of (ps2link_request_remove packet) else
  if number =? PS2LINK_REQUEST_MKDIR then packet_of (ps2link_request_mkdir packet) else
  if number =? PS2LINK_REQUEST_RMDIR then packet_of (ps2link_request_rmdir packet) else
  if number =? PS2LINK_REQUEST_GETSTAT then packet_of (ps2link_request_getstat packet) else
  ret packet.

(** An iteration of the thread's loop: [None] is break. *)
Definition receive_request (packet : list Z) : M link W (option (list Z)) :=
  let! g := gget in
  let sock := request_socket g in
  network_wait sock (-1) ;;;
  let! r := network_receive_all sock packet 6 in
  let packet := r.2 in
  if r.1 <? 0 then ret None
  else
    let length := get_be16 packet 4 in
    if (length <? 6) || (length - 6 >? 512) then ret None
    else
      let! r := network_receive_all sock (drop 6 packet) (length - 6) in
      let packet := mem_store packet 6 r.2 in
      if r.1 <? 0 then ret None
      else ret (Some packet).

Definition request_iteration (packet : list Z) : M link W (option (list Z)) :=
  let! p := receive_request packet in
  match p with
  | None => ret None
  | Some packet =>
      let! packet := dispatch packet in
      ps2link_set_activity ;;;
      ret (Some packet)
  end.

(** The loop after at most [n] iterations. *)
Fixpoint request_loop (n : nat) (packet : list Z) : M link W (option (list Z)) :=
  match n with
  | O => ret (Some packet)
  | S n =>
      let! p := request_iteration packet in
      match p with
      | None => ret None
      | Some packet => request_loop n packet
      end
  end.

(** The thread: whether it has ended. *)
Definition ps2link_thread_request (n : nat) : M link W bool :=
  let! g := gget in
  if request_socket g <? 0 then ret true
  else
    let! packet := hcall (sys_auto PACKET_SIZE) in
    let! p := request_loop n packet in
    match p with
    | Some _ => ret false
    | None => ps2link_set_flag Lost ;;; ret true
    end.
End defs.

(** ** The packet stays an object of 518 bytes *)

Section bytes.
Context {W : Type} `{Posix W}.

Lemma finish_bytes packet (m : M link W Z) :
  Forall is_byte packet -> ensures (finish packet m) (fun r => Forall is_byte r.2).
Proof. intros. apply ensures_bind_any. intros r. by apply ensures_ret. Qed.

Lemma fix_field_bytes packet off :
  Forall is_byte packet ->
  ensures (W := W) (fix_field packet off) (fun r => Forall is_byte r.1).
Proof.
  intros Hp. eapply ensures_bind; [by apply fix_pathname_bytes, Forall_drop|].
  intros r Hr. apply ensures_bind_any. intros name.
  by apply ensures_ret, mem_store_bytes.
Qed.

Lemma le32_is_bytes z : Forall is_byte (le32 z).
Proof. repeat constructor; apply u8_range. Qed.
End bytes.

(** Peel a handler down to its [finish]. *)
Ltac keep_bytes :=
  repeat lazymatch goal with
  | |- ensures (bind (fix_field _ _) _) _ =>
      eapply ensures_bind; [by apply fix_field_bytes|];
      let p := fresh "p" in intros [p ?] ?; cbv zeta
  | |- ensures (finish _ _) _ =>
      apply finish_bytes; auto using mem_store_bytes, le32_is_bytes
  | |- ensures (bind _ _) _ => apply ensures_bind_any; intros ?
  | |- ensures (match ?x with _ => _ end) _ => destruct x
  end.

Section keep.
Context {W : Type} `{Posix W}.

Lemma dispatch_bytes packet :
  Forall is_byte packet -> ensures (W := W) (dispatch packet) (Forall is_byte).
Proof.
  intros Hp. unfold dispatch. cbv zeta.
  assert (Hof : forall m : M link W (Z * list Z),
    ensures m (fun r => Forall is_byte r.2) -> ensures (packet_of m) (Forall is_byte)).
  { intros m Hm. eapply ensures_bind; [exact Hm|]. intros r Hr. by apply ensures_ret. }
  repeat case_match; try (apply Hof); [..|by apply ensures_ret].
  all: unfold ps2link_request_open, ps2link_request_close, ps2link_request_read,
    ps2link_request_write, ps2link_request_lseek, ps2link_request_opendir,
    ps2link_request_closedir, ps2link_request_readdir, ps2link_request_remove,
    ps2link_request_mkdir, ps2link_request_rmdir, ps2link_request_getstat; cbv zeta; keep_bytes.
Qed.
End keep.

(** ** What the thread achieves *)

(** The globals the request thread changes. *)
Definition thread_frame (g g' : link) : Prop :=
  g' = set_dd (ps2link_dd g')
         (set_ping_answered (ps2link_ping_answered g')
            (set_ping_fd (ps2link_ping_fd g') (set_activity (ps2link_activity g') g))).

#[export] Instance thread_frame_preorder : PreOrder thread_frame.
Proof.
  split; [by intros []|]. intros g1 g2 g3 H12 H23. unfold thread_frame in *.
  by rewrite H23, H12.
Qed.

Lemma svc_frame_thread g g' t : svc_frame g g' -> thread_frame g (set_activity t g').
Proof. intros ->. by destruct g. Qed.

Lemma thread_frame_socket g g' : thread_frame g g' -> request_socket g' = request_socket g.
Proof. by intros ->. Qed.

Section spec.
Context {W : Type} `{Posix W}.

(** [enc] came in on the socket: a packet as long as its header says. *)
Definition arrives (sock : Z) (enc : list Z) (w w' : W) : Prop :=
  quiet_but (Some sock) w w' /\ tx w' sock = tx w sock /\ rx w' sock = rx w sock ++ enc
  /\ (6 <= length enc <= PACKET_SIZE)%nat /\ get_be16 enc 4 = Z.of_nat (length enc)
  /\ Forall is_byte enc.

(** The packet object when [enc] has come in over what it held. *)
Definition after (packet enc : list Z) : list Z := mem_store packet 0 enc.

(** The thread's work from a packet object, a service state and a world
    on, as the requests it has served and the bytes of each reply; an
    unknown number gets no reply and changes nothing. *)
Inductive conversation (sock : Z) :
    list Z -> svc -> W -> list (request * reply * list Z) -> list Z -> svc -> W -> Prop :=
| C_done p v w w' : quiet w w' -> conversation sock p v w [] p v w'
| C_request p v w enc w1 req rep v1 w2 bytes w3 p1 trace p' v' w' :
    arrives sock enc w w1 -> decode_request (after p enc) = Some req ->
    serves sock w1 req v rep v1 w2 -> reply_bytes rep bytes -> replied sock bytes w2 w3 ->
    length p1 = PACKET_SIZE -> Forall is_byte p1 ->
    conversation sock p1 v1 w3 trace p' v' w' ->
    conversation sock p v w ((req, rep, bytes) :: trace) p' v' w'
| C_unknown p v w enc w1 trace p' v' w' :
    arrives sock enc w w1 -> get_be32 (after p enc) 0 ∉ known_numbers ->
    conversation sock (after p enc) v w1 trace p' v' w' ->
    conversation sock p v w trace p' v' w'.

(** The requests that can make the thread do something undefined. *)
Definition faulty (packet : list Z) (v : svc) (f : fault) : Prop :=
  match decode_request packet with
  | Some req => may_fault req v f
  | None => f = Unterminated
      /\ exists off, path_offset (get_be32 packet 0) = Some off /\ cstr (drop off packet) = None
  end.

(** How the connection ended: too few bytes came, or a header with a length
    no packet has. Nothing is sent then. *)
Inductive ended (sock : Z) (w w' : W) : Prop :=
| ended_intro data :
    quiet_but (Some sock) w w' -> tx w' sock = tx w sock -> rx w' sock = rx w sock ++ data ->
    ((length data < 6)%nat
     \/ (length data = 6%nat /\ (get_be16 data 4 < 6 \/ 518 < get_be16 data 4))
     \/ (6 <= length data)%nat /\ Z.of_nat (length data) < get_be16 data 4) ->
    ended sock w w'.
End spec.

Section facts.
Context {W : Type} `{PosixLaws W}.
Implicit Types (s : st link W) (w : W).

(** Every request goes to the handler that implements it. *)
Lemma dispatch_ok packet req s v :
  carries packet req -> Forall is_byte packet -> svc_rel (glob s) v ->
  wp (may_fault req v) (dispatch packet) (fun p s' => refines req v s (0, p) s') s.
Proof.
  intros Hc Hb Hrel. pose proof Hc as (_ & Hn & _). unfold dispatch. cbv zeta. rewrite Hn.
  assert (Hof : forall E m, wp E m (refines req v s) s ->
    wp E (packet_of m) (fun p s' => refines req v s (0, p) s') s).
  { intros E m Hm. eapply wp_bind_spec; [exact Hm|].
    intros r s1 (H1 & H2 & H3). by apply wp_ret. }
  destruct req; cbn [request_number];
    repeat (rewrite Z.eqb_refl || rewrite (proj2 (Z.eqb_neq _ _)) by done); apply Hof.
  - by apply request_open_ok.
  - by apply request_close_ok.
  - by apply request_read_ok.
  - by apply request_write_ok.
  - by apply request_lseek_ok.
  - by apply request_opendir_ok.
  - by apply request_closedir_ok.
  - by apply request_readdir_ok.
  - by apply request_remove_ok.
  - by apply request_mkdir_ok.
  - by apply request_rmdir_ok.
  - by apply request_getstat_ok.
Qed.

Lemma dispatch_unknown (E : fault -> Prop) packet s Q :
  get_be32 packet 0 ∉ known_numbers -> Q packet s -> wp E (dispatch packet) Q s.
Proof.
  unfold known_numbers. rewrite !not_elem_of_cons. intros Hk HQ. destruct_and? Hk.
  unfold dispatch. cbv zeta. by rewrite !(proj2 (Z.eqb_neq _ _)) by done.
Qed.

(** Receiving a packet. *)
Lemma receive_request_wp (E : fault -> Prop) packet s Q :
  length packet = PACKET_SIZE ->
  (forall enc w', arrives (request_socket (glob s)) enc (world s) w' ->
     Q (Some (after packet enc)) (mk_st (glob s) w')) ->
  (forall w', ended (request_socket (glob s)) (world s) w' -> Q None (mk_st (glob s) w')) ->
  wp E (receive_request packet) Q s.
Proof.
  intros Hl HQ Hend. unfold receive_request. set (sock := request_socket (glob s)) in *.
  wp_step. unfold network_wait. simpl. wp_step. intros n w1 Hw%select_read_law.
  apply (quiet_weaken (Some sock)) in Hw as Hq1. apply wp_bind, network_receive_all_wp.
  { unfold PACKET_SIZE in Hl. lia. }
  simpl. intros r1 d1 w2 [Hq2 Htx2 Hrx2 Hb1 Hr1].
  rewrite (quiet_tx _ _ _ Hw) in Htx2. rewrite (quiet_rx _ _ _ Hw) in Hrx2.
  destruct (Z.ltb_spec r1 0).
  { apply wp_ret, Hend. exists d1; [by etrans|done|done|lia]. }
  assert (Hd1 : length d1 = 6%nat) by lia.
  assert (Hfield : get_be16 (mem_store packet 0 d1) 4 = get_be16 d1 4)
    by (rewrite mem_store_0; apply get_be16_app_l; lia).
  rewrite Hfield. destruct (_ || _)%bool eqn:Hbad.
  { apply wp_ret, Hend. exists d1; [by etrans|done|done|lia]. }
  assert (Hlen : length (mem_store packet 0 d1) = PACKET_SIZE)
    by (rewrite mem_store_length; unfold PACKET_SIZE in *; lia).
  apply wp_bind, network_receive_all_wp.
  { rewrite length_drop, Hlen. unfold PACKET_SIZE. lia. }
  simpl. intros r2 d2 w3 [Hq3 Htx3 Hrx3 Hb2 Hr2].
  rewrite Htx2 in Htx3. rewrite Hrx2, <- app_assoc in Hrx3.
  assert (Hq : quiet_but (Some sock) (world s) w3) by (etrans; [|exact Hq3]; by etrans).
  assert (Hfield2 : get_be16 (d1 ++ d2) 4 = get_be16 d1 4) by (apply get_be16_app_l; lia).
  destruct (Z.ltb_spec r2 0); apply wp_ret.
  { apply Hend. exists (d1 ++ d2); [done|done|done|].
    right. right. rewrite Hfield2, length_app. lia. }
  rewrite mem_store_drop by (rewrite Hlen; unfold PACKET_SIZE; lia).
  rewrite <- Hd1. rewrite (mem_store_app packet 0) by (unfold PACKET_SIZE in *; lia).
  apply HQ. split_and!; try done.
  - rewrite length_app. lia.
  - rewrite length_app. unfold PACKET_SIZE. lia.
  - rewrite Hfield2, length_app. lia.
  - by apply Forall_app.
Qed.

Lemma fix_field_unterminated {B} packet off (k : _ -> M link W B) s :
  (off < length packet)%nat -> cstr (drop off packet) = None ->
  bind (fix_field packet off) k s = Fault Unterminated.
Proof.
  intros Hoff Hc. unfold fix_field, bind.
  rewrite fix_pathname_unterminated; [done|done|]. rewrite length_drop. lia.
Qed.

Lemma dispatch_unterminated packet off s :
  length packet = PACKET_SIZE -> path_offset (get_be32 packet 0) = Some off ->
  cstr (drop off packet) = None -> dispatch packet s = Fault Unterminated.
Proof.
  intros Hl Hoff Hc. unfold path_offset in Hoff. unfold dispatch. cbv zeta.
  repeat case_bool_decide; simplify_eq;
    match goal with Hin : get_be32 packet 0 ∈ _ |- _ =>
      rewrite !elem_of_cons, elem_of_nil in Hin; destruct_or! Hin; rewrite Hin in *
    end; repeat (rewrite Z.eqb_refl || rewrite (proj2 (Z.eqb_neq _ _)) by done);
    unfold packet_of, bind at 1;
    unfold ps2link_request_open, ps2link_request_opendir, ps2link_request_mkdir,
      ps2link_request_remove, ps2link_request_rmdir, ps2link_request_getstat;
    by rewrite fix_field_unterminated by (done || rewrite Hl; unfold PACKET_SIZE; lia).
Qed.

(** One iteration: a request is served, an unknown one skipped, or the
    connection ended. *)
Lemma request_iteration_wp packet s v Q :
  length packet = PACKET_SIZE -> Forall is_byte packet -> svc_rel (glob s) v ->
  let sock := request_socket (glob s) in
  let served p v' s' := length p = PACKET_SIZE /\ Forall is_byte p
    /\ thread_frame (glob s) (glob s') /\ svc_rel (glob s') v' in
  (forall enc w1 req rep v' w2 bytes p s',
     receive_request packet s = Ret (Some (after packet enc), mk_st (glob s) w1) ->
     arrives sock enc (world s) w1 -> decode_request (after packet enc) = Some req ->
     serves sock w1 req v rep v' w2 -> reply_bytes rep bytes ->
     replied sock bytes w2 (world s') -> now w2 / 1000000 <= ps2link_activity (glob s') ->
     served p v' s' -> Q (Some p) s') ->
  (forall enc s', arrives sock enc (world s) (world s') ->
     get_be32 (after packet enc) 0 ∉ known_numbers ->
     now (world s) / 1000000 <= ps2link_activity (glob s') ->
     served (after packet enc) v s' -> Q (Some (after packet enc)) s') ->
  (forall w', ended sock (world s) w' -> Q None (mk_st (glob s) w')) ->
  wp (fun f => exists enc w1, arrives sock enc (world s) w1 /\ faulty (after packet enc) v f)
    (request_iteration packet) Q s.
Proof.
  intros Hl Hb Hrel sock served Hreq Hunk Hend.
  apply wp_bind, wp_remember, receive_request_wp; [done| |intros w' He _; by apply wp_ret, Hend].
  intros enc w1 Harr Hreceived. pose proof Harr as (Hq & Htx & Hrx & Hlen & _ & Hby).
  assert (Hl' : length (after packet enc) = PACKET_SIZE)
    by (unfold after; rewrite mem_store_length; lia).
  assert (Hb' : Forall is_byte (after packet enc)) by (by apply mem_store_bytes).
  assert (Htime : forall (E : fault -> Prop) p s1,
    (forall t w', quiet (world s1) w' -> now (world s1) / 1000000 <= t ->
       Q (Some p) (mk_st (set_activity t (glob s1)) w')) ->
    wp E (ps2link_set_activity ;;; ret (Some p)) Q s1).
  { intros E p s1 HQ. apply wp_bind, set_activity_wp. intros t w' Hqt [Ht _]. apply wp_ret. by apply HQ. }
  destruct (decode_request (after packet enc)) as [req|] eqn:Hdec.
  - pose proof (decode_carries _ _ Hl' Hdec) as Hc.
    apply wp_bind. eapply wp_mono;
      [eapply wp_ensures; [by apply dispatch_bytes|by apply (dispatch_ok _ req _ v)]| |].
    { intros f Hf. exists enc, w1. split; [done|]. unfold faulty. by rewrite Hdec. }
    intros p s1 ((Hp & Hfr & rep & v' & w2 & bytes & Hs & Hrel' & Hrb & Hrep) & Hpb).
    apply Htime. intros t w' Hqt Ht. eapply Hreq; [exact Hreceived|done|exact Hdec|exact Hs|exact Hrb| | |].
    + simpl. destruct Hrep as [Hrq Hrr Hrt].
      split; [etrans; [exact Hrq|by apply quiet_weaken]|by rewrite (quiet_rx _ _ _ Hqt)|].
      intros ?. rewrite (quiet_tx _ _ _ Hqt). auto.
    + simpl. destruct (replied_quiet _ _ _ _ Hrep) as (_ & _ & Hnow & _).
      apply (Z.div_le_mono _ _ 1000000) in Hnow; lia.
    + refine (conj Hp (conj Hpb (conj _ _))); [by apply svc_frame_thread|by destruct Hrel'].
  - destruct (decode_None _ Hdec) as [Hu|(off & Hoff & Hcs)].
    + apply wp_bind, dispatch_unknown; [done|]. apply Htime. intros t w' Hqt Ht.
      apply Hunk; [|done| |].
      * unfold arrives. simpl. rewrite (quiet_tx _ _ _ Hqt), (quiet_rx _ _ _ Hqt).
        destruct Harr as (_ & _ & _ & Hrest). refine (conj _ (conj Htx (conj Hrx Hrest))).
        etrans; [exact Hq|by apply quiet_weaken].
      * simpl in *. destruct Hq as (_ & _ & Hnow & _). apply (Z.div_le_mono _ _ 1000000) in Hnow; lia.
      * refine (conj Hl' (conj Hb' (conj _ _))); [apply svc_frame_thread, svc_frame_refl|by destruct Hrel].
    + unfold wp, bind. rewrite (dispatch_unterminated _ off) by done.
      exists enc, w1. split; [done|]. unfold faulty. rewrite Hdec. eauto.
Qed.

Lemma conversation_quiet sock p v w w1 trace p' v' w' :
  quiet w w1 -> conversation sock p v w1 trace p' v' w' -> conversation sock p v w trace p' v' w'.
Proof.
  intros Hq Hc. assert (Ha : forall enc w2, arrives sock enc w1 w2 -> arrives sock enc w w2).
  { intros enc w2 (H1 & H2 & H3 & H4). rewrite (quiet_tx _ _ _ Hq) in H2.
    rewrite (quiet_rx _ _ _ Hq) in H3. refine (conj _ (conj H2 (conj H3 H4))).
    etrans; [by apply quiet_weaken|exact H1]. }
  inversion Hc; subst.
  - apply C_done. by etrans.
  - eapply C_request; eauto.
  - eapply C_unknown; eauto.
Qed.

(** Why a run of the loop can end in undefined behaviour. *)
Definition blame (sock : Z) (p : list Z) (v : svc) (w : W) (f : fault) : Prop :=
  exists trace p' v' w' enc w'',
    conversation sock p v w trace p' v' w' /\ arrives sock enc w' w''
    /\ faulty (after p' enc) v' f.

(** What a run of the loop has done. *)
Definition conversed (s : st link W) (p : list Z) (v : svc) (r : option (list Z))
    (s' : st link W) : Prop :=
  thread_frame (glob s) (glob s')
  /\ exists trace p' v' w', conversation (request_socket (glob s)) p v (world s) trace p' v' w'
       /\ svc_rel (glob s') v'
       /\ match r with
          | Some p1 => p1 = p' /\ world s' = w'
          | None => ended (request_socket (glob s)) w' (world s')
          end.

Lemma request_loop_wp n : forall packet s v,
  length packet = PACKET_SIZE -> Forall is_byte packet -> svc_rel (glob s) v ->
  wp (blame (request_socket (glob s)) packet v (world s)) (request_loop n packet)
    (conversed s packet v) s.
Proof.
  induction n as [|n IH]; intros packet s v Hl Hb Hrel.
  { apply wp_ret. split; [done|]. exists [], packet, v, (world s).
    refine (conj _ (conj Hrel (conj eq_refl eq_refl))). by apply C_done. }
  assert (Hnext : forall p v1 s1 (grow : list _ -> list _),
    length p = PACKET_SIZE -> Forall is_byte p ->
    thread_frame (glob s) (glob s1) -> svc_rel (glob s1) v1 ->
    (forall trace p' v' w', conversation (request_socket (glob s)) p v1 (world s1) trace p' v' w' ->
       conversation (request_socket (glob s)) packet v (world s) (grow trace) p' v' w') ->
    wp (blame (request_socket (glob s)) packet v (world s)) (request_loop n p)
      (conversed s packet v) s1).
  { intros p v1 s1 grow Hpl Hpb Hfr Hrel1 Hgrow. specialize (IH p s1 v1 Hpl Hpb Hrel1).
    unfold conversed, blame in IH |- *. rewrite (thread_frame_socket _ _ Hfr) in IH.
    eapply wp_mono; [exact IH| |].
    - intros f (trace & p' & v' & w' & enc & w'' & Hc & Ha & Hf).
      exists (grow trace), p', v', w', enc, w''. auto.
    - intros r s2 (Hfr2 & trace & p' & v' & w' & Hc & Hrel2 & Hr).
      split; [by etrans|]. exists (grow trace), p', v', w'. auto. }
  simpl. apply wp_bind. eapply wp_mono; [apply (request_iteration_wp packet s v
    (fun p s1 => wp (blame (request_socket (glob s)) packet v (world s))
       match p with None => ret None | Some p => request_loop n p end
       (conversed s packet v) s1)); try done| |].
  - intros enc w1 req rep v1 w2 bytes p s1 _ Ha Hd Hs Hb1 Hrep _ (Hpl & Hpb & Hfr & Hrel1).
    apply (Hnext p v1 s1 (cons (req, rep, bytes))); try done.
    intros. by eapply C_request.
  - intros enc s1 Ha Hu _ (Hpl & Hpb & Hfr & Hrel1).
    apply (Hnext _ v s1 id); try done. intros. by eapply C_unknown.
  - intros w' He. apply wp_ret. split; [done|].
    exists [], packet, v, (world s). refine (conj _ (conj Hrel He)). by apply C_done.
  - intros f (enc & w1 & Ha & Hf). exists [], packet, v, (world s), enc, w1.
    refine (conj _ (conj Ha Hf)). by apply C_done.
  - done.
Qed.

(** ** The replies, in order *)

(** The descriptor a request reads or writes. *)
Definition request_fd (req : request) : option Z :=
  match req with ReqRead fd _ | ReqWrite fd _ => Some fd | _ => None end.

Lemma times_quiet stats w c a m w' : times stats w c a m w' -> quiet w w'.
Proof.
  intros [w1 w2 w3 H1%localtime_law H2%localtime_law H3%localtime_law].
  etrans; [exact H1|]. by etrans.
Qed.

(** Serving a request sends nothing itself, unless the other side asks for
    a write to a connection. *)
Lemma serves_holds sock other w req v rep v' w' :
  serves sock w req v rep v' w' -> request_fd req <> Some other -> holds other w w'.
Proof.
  intros Hs Hfd.
  assert (Hq : forall w1 w2, quiet w1 w2 -> holds other w1 w2)
    by (intros; by apply quiet_holds).
  destruct Hs; simpl in Hfd;
    repeat match goal with
    | Hc : sys_open _ _ _ _ = _ |- _ => apply open_law, Hq in Hc
    | Hc : sys_stat _ _ = _ |- _ => apply stat_law, Hq in Hc
    | Hc : sys_close _ _ = _ |- _ => apply close_law, Hq in Hc
    | Hc : sys_lseek _ _ _ _ = _ |- _ => apply lseek_law, Hq in Hc
    | Hc : sys_malloc _ _ = _ |- _ => apply malloc_law in Hc as [Hc _]; apply Hq in Hc
    | Hc : sys_opendir _ _ = _ |- _ => apply opendir_law, Hq in Hc
    | Hc : sys_closedir _ _ = _ |- _ => apply closedir_law, Hq in Hc
    | Hc : sys_readdir _ _ = _ |- _ => apply readdir_law in Hc as [Hc _]; apply Hq in Hc
    | Hc : sys_remove _ _ = _ |- _ => apply remove_law, Hq in Hc
    | Hc : sys_mkdir _ _ _ = _ |- _ => apply mkdir_law, Hq in Hc
    | Hc : sys_rmdir _ _ = _ |- _ => apply rmdir_law, Hq in Hc
    | Hc : sys_read _ _ _ = _ |- _ => apply read_law in Hc as [Hc _];
        apply quiet_but_holds with (other := other) in Hc; [|congruence]
    | Hc : sys_write _ _ _ = _ |- _ => apply write_law in Hc as [Hc _];
        apply quiet_but_holds with (other := other) in Hc; [|congruence]
    | Hc : received _ _ _ _ _ _ |- _ => apply (received_holds _ _ _ _ other) in Hc
    | Hc : times _ _ _ _ _ _ |- _ => apply times_quiet, Hq in Hc
    | Hc : quiet _ _ |- _ => apply Hq in Hc
    end;
    repeat match goal with
    | Hc : holds _ ?w1 _ |- holds _ ?w1 _ => etrans; [exact Hc|]; clear Hc
    end; reflexivity.
Qed.

Lemma conversation_replies sock p v w trace p' v' w' :
  reliable sock -> conversation sock p v w trace p' v' w' ->
  Forall (fun e => request_fd e.1.1 <> Some sock) trace ->
  tx w' sock = tx w sock ++ concat (map snd trace)
  /\ Forall (fun e => reply_bytes e.1.2 e.2) trace.
Proof.
  intros Hrel Hc. induction Hc as [p v w w' Hq|p v w enc w1 req rep v1 w2 bytes w3 p1 trace
    p' v' w' Ha Hd Hs Hb Hrep Hl Hby Hc IH|p v w enc w1 trace p' v' w' Ha Hk Hc IH]; intros Hfd.
  - rewrite (quiet_tx _ _ _ Hq), app_nil_r. auto.
  - apply Forall_cons in Hfd as [Hreq Hfd]. destruct (IH Hfd) as [-> Hrest].
    split; [|by constructor]. rewrite (replied_tx _ _ _ _ Hrep Hrel). simpl.
    rewrite (proj1 (serves_holds _ _ _ _ _ _ _ _ Hs Hreq)), <- app_assoc.
    f_equal. destruct Ha as (_ & Htx & _). exact Htx.
  - destruct (IH Hfd) as [-> Hrest]. destruct Ha as (_ & -> & _). done.
Qed.

(** ** The thread *)

Definition thread_done (s : st link W) (v : svc) (over : bool) (s' : st link W) : Prop :=
  exists p w1 trace p' v' w2,
    quiet (world s) w1 /\ conversation (request_socket (glob s)) p v w1 trace p' v' w2
    /\ svc_rel (glob s') v'
    /\ if over then ended (request_socket (glob s)) w2 (world s') /\ ps2link_lost (glob s') = true
       else world s' = w2 /\ ps2link_lost (glob s') = ps2link_lost (glob s).

Lemma thread_request_wp n s v :
  0 <= request_socket (glob s) -> svc_rel (glob s) v ->
  wp (fun f => exists p w1, quiet (world s) w1 /\ blame (request_socket (glob s)) p v w1 f)
    (ps2link_thread_request n) (thread_done s v) s.
Proof.
  intros Hsock Hrel. unfold ps2link_thread_request. wp_step.
  destruct (Z.ltb_spec (request_socket (glob s)) 0); [lia|].
  wp_step. intros packet w1 (Hq & Hl & Hb)%auto_law. apply wp_bind.
  eapply wp_mono; [by apply (request_loop_wp n packet (mk_st (glob s) w1) v)| |].
  - intros f Hf. by exists packet, w1.
  - intros [p1|] s1 (Hfr & trace & p' & v' & w2 & Hc & Hrel1 & Hr).
    + apply wp_ret. destruct Hr as [-> Hw]. exists packet, w1, trace, p', v', w2.
      refine (conj Hq (conj Hc (conj Hrel1 (conj Hw _)))). by rewrite Hfr.
    + unfold ps2link_set_flag. wp_step. apply wp_ret.
      exists packet, w1, trace, p', v', w2.
      refine (conj Hq (conj Hc (conj _ (conj Hr eq_refl)))). by destruct Hrel1.
Qed.
End facts.

(** ** The properties of the request service *)

(** C1: dispatch refines the host: service. Run on a packet object that
    carries a request, it goes to the handler of that request, which takes the
    step of [serves]: the documented system calls in order, the new service
    state, and exactly one reply, whose bytes are sent on the request socket
    before anything else happens. It terminates, and the only faults are the
    unchecked null pointers and, for a directory entry, the unchecked buffer. *)
Theorem dispatch_refines (W : Type) `{PosixLaws W} (packet : list Z) (req : request)
    (s : st link W) (v : svc) :
  carries packet req -> Forall is_byte packet -> svc_rel (glob s) v ->
  match dispatch packet s with
  | Ret (p, s') => refines req v s (0, p) s'
  | Fault f => may_fault req v f
  | OutOfFuel => False
  end.
Proof.
  intros Hc Hb Hr. pose proof (dispatch_ok packet req s v Hc Hb Hr) as Hwp.
  unfold wp in Hwp. by destruct (dispatch packet s) as [[p s']| |].
Qed.

Definition sim_session (inbound : list (list Z)) : st link sim :=
  mk_st (set_sockets 8 9 10 link_init)
    (sim_start inbound 1 [(bytes_of "data.txt", mk_stat 33188 5 0 0 0)] (bytes_of "hello") []).

Lemma sim_session_rel inbound : svc_rel (glob (sim_session inbound)) (mk_svc (-1) false ∅).
Proof. by destruct svc_rel_init. Qed.

Lemma dispatch_refines_witness :
  let packet := mem_store (replicate PACKET_SIZE 0) 0 (encode_request (ReqRead 5 3)) in
  match dispatch packet (sim_session []) with
  | Ret (p, s') => refines (ReqRead 5 3) (mk_svc (-1) false ∅) (sim_session []) (0, p) s'
  | Fault f => False
  | OutOfFuel => False
  end.
Proof.
  intros packet. apply (dispatch_refines sim packet (ReqRead 5 3) (sim_session []) (mk_svc (-1) false ∅)).
  - unfold carries. split_and!; vm_compute; reflexivity.
  - apply (bool_decide_eq_true (Forall is_byte packet)). vm_compute. reflexivity.
  - apply sim_session_rel.
Defined.

(** C2: the request thread, after any number of iterations and whatever bytes
    arrive, has held a [conversation]: the requests served one after the
    other in the order they came in, unknown numbers skipped, and the service
    state the globals stand for. It has ended only because the connection
    ended or a header was malformed, and then the lost flag is set. A fault
    is blamed on a request that arrived: a pathname without a null, or one of
    the unchecked pointers and buffers. *)
Theorem thread_serves_requests (W : Type) `{PosixLaws W} (n : nat) (s : st link W) (v : svc) :
  0 <= request_socket (glob s) -> svc_rel (glob s) v ->
  match ps2link_thread_request n s with
  | Ret (over, s') => thread_done s v over s'
  | Fault f => exists p w, quiet (world s) w /\ blame (request_socket (glob s)) p v w f
  | OutOfFuel => False
  end.
Proof.
  intros Hs Hr. pose proof (thread_request_wp n s v Hs Hr) as Hwp. unfold wp in Hwp.
  by destruct (ps2link_thread_request n s) as [[over s']| |].
Qed.

Lemma thread_serves_requests_witness :
  let s := sim_session [encode_request (ReqOpen 1 (bytes_of "data.txt"));
                        encode_request (ReqRead 5 3)] in
  match ps2link_thread_request 5 s with
  | Ret (over, s') => thread_done s (mk_svc (-1) false ∅) over s'
  | Fault f => exists p w, quiet (world s) w /\ blame 9 p (mk_svc (-1) false ∅) w f
  | OutOfFuel => False
  end.
Proof.
  intros s. apply (thread_serves_requests sim 5 s (mk_svc (-1) false ∅)).
  - vm_compute. discriminate.
  - apply sim_session_rel.
Defined.

(** The same session, computed: the replies on the wire and the lost flag. *)
Example thread_session_runs :
  match ps2link_thread_request 5
    (sim_session [encode_request (ReqOpen 1 (bytes_of "data.txt")); encode_request (ReqRead 5 3)]) with
  | Ret (over, s') => over = true /\ ps2link_lost (glob s') = true
      /\ tx (world s') 9 = result_packet PS2LINK_RESPONSE_OPEN 5 ++ read_packet 3 3 ++ bytes_of "hel"
  | _ => False
  end.
Proof. vm_compute. done. Qed.

(** C3: the replies are on the wire in the order of the requests and nothing
    else is: on a connection where only signals interrupt send(2), what the
    thread, however long it runs, adds to the bytes sent is the concatenation
    of the replies' bytes, one per request, as long as the PS2 does not name
    the connection's own descriptor in a read or write request. *)
Theorem replies_in_order (W : Type) `{PosixLaws W} (n : nat) (s : st link W) (v : svc)
    (over : bool) (s' : st link W) :
  let sock := request_socket (glob s) in
  0 <= sock -> svc_rel (glob s) v -> reliable sock -> ps2link_thread_request n s = Ret (over, s') ->
  exists p w1 trace p' v' w2, quiet (world s) w1 /\ conversation sock p v w1 trace p' v' w2
    /\ (Forall (fun e => request_fd e.1.1 <> Some sock) trace ->
        tx (world s') sock = tx (world s) sock ++ concat (map snd trace)
        /\ Forall (fun e => reply_bytes e.1.2 e.2) trace).
Proof.
  intros sock Hs Hr Hrel Hrun. pose proof (thread_request_wp n s v Hs Hr) as Hwp.
  unfold wp in Hwp. rewrite Hrun in Hwp. destruct Hwp as (p & w1 & trace & p' & v' & w2 & Hq & Hc & _ & Hend).
  exists p, w1, trace, p', v', w2. refine (conj Hq (conj Hc _)). intros Hfd.
  destruct (conversation_replies _ _ _ _ _ _ _ _ Hrel Hc Hfd) as [Htx Hb]. split; [|done].
  rewrite (quiet_tx _ _ _ Hq) in Htx. rewrite <- Htx.
  destruct over; [|by destruct Hend as [-> _]]. destruct Hend as [[data _ Htx' _ _] _]. exact Htx'.
Qed.

Lemma replies_in_order_witness :
  let s := sim_session [encode_request (ReqClose 5)] in
  exists s' (trace : list (request * reply * list Z)),
    ps2link_thread_request 5 s = Ret (true, s')
    /\ (Forall (fun e => request_fd e.1.1 <> Some 9) trace ->
        tx (world s') 9 = concat (map snd trace)).
Proof.
  intros s. destruct (ps2link_thread_request 5 s) as [[over s']| |] eqn:Hrun;
    try (exfalso; vm_compute in Hrun; discriminate).
  assert (over = true) as -> by (vm_compute in Hrun; congruence).
  destruct (replies_in_order sim 5 s (mk_svc (-1) false ∅) true s')
    as (p & w1 & trace & p' & v' & w2 & _ & _ & Htx).
  - vm_compute. discriminate.
  - apply sim_session_rel.
  - apply sim_reliable.
  - exact Hrun.
  - exists s', trace. split; [reflexivity|]. intros Hfd. exact (proj1 (Htx Hfd)).
Defined.



(** A request packet as the structs of src/ps2link.c lay it out is served as
    the request it encodes, but for the offset of lseek and the mode of mkdir
    ([as_received]); getstat, which the document leaves out, is one of them. *)
Theorem encoded_request_served (W : Type) `{PosixLaws W} (packet : list Z) (req : request)
    (s : st link W) (v : svc) :
  length packet = PACKET_SIZE -> Forall is_byte packet -> well_formed req -> svc_rel (glob s) v ->
  get_be16 (encode_request req) 4 = Z.of_nat (length (encode_request req))
  /\ (6 <= length (encode_request req) <= PACKET_SIZE)%nat
  /\ match dispatch (mem_store packet 0 (encode_request req)) s with
     | Ret (p, s') => refines (as_received req) v s (0, p) s'
     | Fault f => may_fault (as_received req) v f
     | OutOfFuel => False
     end.
Proof.
  intros Hl Hb Hw Hr. pose proof (length_encode _ Hw). split_and!.
  - rewrite <- (app_nil_r (encode_request req)) at 1. by apply encode_length_field.
  - lia.
  - unfold PACKET_SIZE. lia.
  - pose proof (dispatch_ok (mem_store packet 0 (encode_request req)) (as_received req) s v
      (encode_carries _ _ Hw Hl) (mem_store_bytes _ _ _ Hb (encode_is_bytes _ Hw)) Hr) as Hwp.
    unfold wp in Hwp. by destruct (dispatch _ s) as [[p s']| |].
Qed.

Lemma encoded_request_served_witness :
  let req := ReqOpen 1 (bytes_of "data.txt") in
  match dispatch (mem_store (replicate PACKET_SIZE 204) 0 (encode_request req)) (sim_session []) with
  | Ret (p, s') => refines req (mk_svc (-1) false ∅) (sim_session []) (0, p) s'
  | Fault f => False
  | OutOfFuel => False
  end.
Proof.
  intros req. apply (encoded_request_served sim (replicate PACKET_SIZE 204) req (sim_session [])
    (mk_svc (-1) false ∅)).
  - by rewrite length_replicate.
  - apply Forall_replicate. by unfold is_byte.
  - split; [|simpl; lia]. apply (bool_decide_eq_true (is_string _)). vm_compute. reflexivity.
  - apply sim_session_rel.
Defined.

(** C40: the mode of a mkdir request in network byte order never reaches
    mkdir(2): whatever mode below 65536 the PS2 asks for, what the handler
    does is one call of mkdir(2) with the mode's bytes swapped, whose
    permission bits are all 0, and the reply to it. *)
Theorem mkdir_loses_permissions (W : Type) `{PosixLaws W} (packet : list Z) (mode : Z)
    (path : list Z) (s : st link W) (v : svc) :
  length packet = PACKET_SIZE -> Forall is_byte packet -> 0 <= mode < 65536 ->
  is_string path -> (length path <= 255)%nat -> svc_rel (glob s) v ->
  Z.land (bswap32 mode) 4095 = 0
  /\ exists p s' r w1, dispatch (mem_store packet 0 (encode_request (ReqMkdir mode path))) s = Ret (p, s')
    /\ sys_mkdir (path_spec path) (bswap32 mode) (world s) = (r, w1)
    /\ replied (request_socket (glob s)) (result_packet PS2LINK_RESPONSE_MKDIR r) w1 (world s').
Proof.
  intros Hl Hb Hm Hs Hp Hr.
  assert (Hw : well_formed (ReqMkdir mode path)) by done.
  destruct (wp_run (dispatch (mem_store packet 0 (encode_request (ReqMkdir mode path))))
    (fun p s' => refines (ReqMkdir (bswap32 mode) path) v s (0, p) s') s) as (p & s' & Hrun & _ & _ & Hserved).
  { eapply wp_mono; [apply (dispatch_ok _ _ s v (encode_carries _ _ Hw Hl)
      (mem_store_bytes _ _ _ Hb (encode_is_bytes _ Hw)) Hr)|done|done]. }
  destruct Hserved as (rep & v' & w1 & bytes & Hserves & _ & Hbytes & Hrep). inversion Hserves; subst.
  simpl in Hbytes. subst bytes. split; [by apply bswap32_low|]. eexists p, s', _, w1. split_and!; [done|eassumption|done].
Qed.

Lemma mkdir_loses_permissions_witness :
  Z.land (bswap32 511) 4095 = 0
  /\ exists p s' r w1, dispatch (mem_store (replicate PACKET_SIZE 0) 0
      (encode_request (ReqMkdir 511 (bytes_of "d")))) (sim_session []) = Ret (p, s')
    /\ sys_mkdir (path_spec (bytes_of "d")) (bswap32 511) (world (sim_session [])) = (r, w1)
    /\ replied 9 (result_packet PS2LINK_RESPONSE_MKDIR r) w1 (world s').
Proof.
  apply (mkdir_loses_permissions sim (replicate PACKET_SIZE 0) 511 (bytes_of "d") (sim_session [])
    (mk_svc (-1) false ∅));
    [by rewrite length_replicate|by apply Forall_replicate; unfold is_byte|lia|by repeat constructor
    |simpl; lia|apply sim_session_rel].
Defined.

(** A seek backwards becomes a seek forwards: a negative offset of an
    lseek request is passed to the 64 bit lseek(2) as itself plus 2^32. *)
Theorem lseek_negative_offset (W : Type) `{PosixLaws W} (packet : list Z) (fd offset whence : Z)
    (s : st link W) (v : svc) :
  length packet = PACKET_SIZE -> Forall is_byte packet -> is_s32 fd -> - 2 ^ 31 <= offset < 0 ->
  is_s32 whence -> svc_rel (glob s) v ->
  exists p s' r w1, dispatch (mem_store packet 0 (encode_request (ReqLseek fd offset whence))) s = Ret (p, s')
    /\ sys_lseek fd (offset + 2 ^ 32) whence (world s) = (r, w1).
Proof.
  intros Hl Hb Hfd Hoff Hwh Hr.
  assert (Hw : well_formed (ReqLseek fd offset whence)) by (split; [constructor|simpl; lia]).
  assert (Hrec : as_received (ReqLseek fd offset whence) = ReqLseek fd (offset + 2 ^ 32) whence).
  { simpl. rewrite !s32_small by done. f_equal. word_lia. }
  pose proof (encode_carries _ _ Hw Hl) as Hc. rewrite Hrec in Hc.
  destruct (wp_run (dispatch (mem_store packet 0 (encode_request (ReqLseek fd offset whence))))
    (fun p s' => refines (ReqLseek fd (offset + 2 ^ 32) whence) v s (0, p) s') s)
    as (p & s' & Hrun & _ & _ & Hserved).
  { eapply wp_mono; [apply (dispatch_ok _ _ s v Hc
      (mem_store_bytes _ _ _ Hb (encode_is_bytes _ Hw)) Hr)|done|done]. }
  destruct Hserved as (rep & v' & w1 & bytes & Hserves & _). inversion Hserves; subst.
  eexists p, s', _, _. split; [done|eassumption].
Qed.

Lemma lseek_negative_offset_witness :
  exists p s' r w1, dispatch (mem_store (replicate PACKET_SIZE 0) 0
      (encode_request (ReqLseek 5 (-1) 2))) (sim_session []) = Ret (p, s')
    /\ sys_lseek 5 4294967295 2 (world (sim_session [])) = (r, w1).
Proof.
  apply (lseek_negative_offset sim (replicate PACKET_SIZE 0) 5 (-1) 2 (sim_session [])
    (mk_svc (-1) false ∅));
    [by rewrite length_replicate|by apply Forall_replicate; unfold is_byte|unfold is_s32; lia|lia
    |unfold is_s32; lia|apply sim_session_rel].
Defined.
