(* ===== verification/Command.v ===== *)
(** * The ps2link_command_ functions of src/ps2link.c

    Thirteen packets on the command socket. [command] is what a packet means,
    [issue_command] the function of the source that sends it, and
    [decode_command] reads one as doc/ps2link-protocol.txt describes it. The
    document has nothing on scrdump, netdump, writemem and iopexcep, which are
    read as the source lays them out. For gsexec it has an int size where the
    source sends 16 bits, so the two do not agree ([as_read]). *)

From S2P Require Import Prelude CLib Posix Utility Network Sim Link Response Wire.

(** ** The packets *)

(** A pathname field: snprintf if there is a pathname. *)
Definition name_field (obj : list Z) (off : nat) (pathname : option (list Z)) : list Z :=
  match pathname with
  | Some p => snd (snprintf_s (slice obj off 256) 256 p)
  | None => slice obj off 256
  end.

Definition header (number size : Z) : list Z := be32 number ++ be16 size.

Section defs.
Context {W : Type} `{Posix W}.

Definition send_command (packet : list Z) (size : Z) : M link W Z :=
  let! g := gget in network_send (command_socket g) packet size.

Definition ps2link_command_reset : M link W Z :=
  send_command (header PS2LINK_COMMAND_RESET 6) 6.
Definition ps2link_command_poweroff : M link W Z :=
  send_command (header PS2LINK_COMMAND_POWEROFF 6) 6.
Definition ps2link_command_scrdump : M link W Z :=
  send_command (header PS2LINK_COMMAND_SCRDUMP 6) 6.
Definition ps2link_command_netdump : M link W Z :=
  send_command (header PS2LINK_COMMAND_NETDUMP 6) 6.
Definition ps2link_command_iopexcep : M link W Z :=
  send_command (header PS2LINK_COMMAND_IOPEXCEP 6) 6.

(** execiop and execee: argc and the packed arguments. *)
Definition exec_command (number argc : Z) (argv : list (list Z)) : M link W Z :=
  let! command := hcall (sys_auto 266) in
  let '(r, field) := fix_argv (slice command 10 256) 256 argv in
  if r <? 0 then ret (-1)
  else send_command (header number 266 ++ be32 argc ++ field) 266.
Definition ps2link_command_execiop (argc : Z) (argv : list (list Z)) : M link W Z :=
  exec_command PS2LINK_COMMAND_EXECIOP argc argv.
Definition ps2link_command_execee (argc : Z) (argv : list (list Z)) : M link W Z :=
  exec_command PS2LINK_COMMAND_EXECEE argc argv.

(** dumpmem and writemem: offset, size and pathname. *)
Definition mem_command (number offset size : Z) (pathname : option (list Z)) : M link W Z :=
  let! command := hcall (sys_auto 270) in
  send_command (header number 270 ++ be32 offset ++ be32 size ++ name_field command 14 pathname)
    270.
Definition ps2link_command_dumpmem (offset size : Z) (pathname : option (list Z)) : M link W Z :=
  mem_command PS2LINK_COMMAND_DUMPMEM offset size pathname.
Definition ps2link_command_writemem (offset size : Z) (pathname : option (list Z)) : M link W Z :=
  mem_command PS2LINK_COMMAND_WRITEMEM offset size pathname.

Definition ps2link_command_startvu (vu : Z) : M link W Z :=
  send_command (header PS2LINK_COMMAND_STARTVU 10 ++ be32 vu) 10.
Definition ps2link_command_stopvu (vu : Z) : M link W Z :=
  send_command (header PS2LINK_COMMAND_STOPVU 10 ++ be32 vu) 10.

Definition ps2link_command_dumpreg (type : Z) (pathname : option (list Z)) : M link W Z :=
  let! command := hcall (sys_auto 266) in
  send_command (header PS2LINK_COMMAND_DUMPREG 266 ++ be32 type ++ name_field command 10 pathname)
    266.

Definition ps2link_command_gsexec (size : Z) (pathname : option (list Z)) : M link W Z :=
  let! command := hcall (sys_auto 264) in
  send_command (header PS2LINK_COMMAND_GSEXEC 264 ++ be16 size ++ name_field command 8 pathname)
    264.
End defs.

(** ** Commands, as a specification *)

Inductive command :=
| Reset | Poweroff | Scrdump | Netdump | Iopexcep
| Execiop (argv : list (list Z))
| Execee (argv : list (list Z))
| Dumpmem (offset size : Z) (path : list Z)
| Writemem (offset size : Z) (path : list Z)
| Startvu (vu : Z)
| Stopvu (vu : Z)
| Dumpreg (type : Z) (path : list Z)
| Gsexec (size : Z) (path : list Z).

Definition issue_command {W} `{Posix W} (c : command) : M link W Z :=
  match c with
  | Reset => ps2link_command_reset
  | Poweroff => ps2link_command_poweroff
  | Scrdump => ps2link_command_scrdump
  | Netdump => ps2link_command_netdump
  | Iopexcep => ps2link_command_iopexcep
  | Execiop argv => ps2link_command_execiop (Z.of_nat (length argv)) argv
  | Execee argv => ps2link_command_execee (Z.of_nat (length argv)) argv
  | Dumpmem offset size path => ps2link_command_dumpmem offset size (Some path)
  | Writemem offset size path => ps2link_command_writemem offset size (Some path)
  | Startvu vu => ps2link_command_startvu vu
  | Stopvu vu => ps2link_command_stopvu vu
  | Dumpreg type path => ps2link_command_dumpreg type (Some path)
  | Gsexec size path => ps2link_command_gsexec size (Some path)
  end.

(** A packet read by the document: a field per member of the struct, all
    integers in network byte order. *)
Definition decode_command (packet : list Z) : option command :=
  let number := get_be32 packet 0 in
  let path off := cstr (drop off packet) in
  let argv := unpack_argv (Z.to_nat (get_be32 packet 6)) (drop 10 packet) in
  if negb (get_be16 packet 4 =? Z.of_nat (length packet)) then None
  else if number =? PS2LINK_COMMAND_RESET then Some Reset
  else if number =? PS2LINK_COMMAND_EXECIOP then Execiop <$> argv
  else if number =? PS2LINK_COMMAND_EXECEE then Execee <$> argv
  else if number =? PS2LINK_COMMAND_POWEROFF then Some Poweroff
  else if number =? PS2LINK_COMMAND_SCRDUMP then Some Scrdump
  else if number =? PS2LINK_COMMAND_NETDUMP then Some Netdump
  else if number =? PS2LINK_COMMAND_DUMPMEM then
    Dumpmem (get_be32 packet 6) (get_be32 packet 10) <$> path 14%nat
  else if number =? PS2LINK_COMMAND_STARTVU then Some (Startvu (s32 (get_be32 packet 6)))
  else if number =? PS2LINK_COMMAND_STOPVU then Some (Stopvu (s32 (get_be32 packet 6)))
  else if number =? PS2LINK_COMMAND_DUMPREG then
    Dumpreg (s32 (get_be32 packet 6)) <$> path 10%nat
  else if number =? PS2LINK_COMMAND_GSEXEC then Gsexec (s32 (get_be32 packet 6)) <$> path 10%nat
  else if number =? PS2LINK_COMMAND_WRITEMEM then
    Writemem (get_be32 packet 6) (get_be32 packet 10) <$> path 14%nat
  else if number =? PS2LINK_COMMAND_IOPEXCEP then Some Iopexcep
  else None.

(** What a command becomes on its way into the packet: a pathname keeps its
    first 255 bytes (without an error if it has more), integers their
    widths. *)
Definition as_sent (c : command) : command :=
  match c with
  | Dumpmem offset size path => Dumpmem (u32 offset) (u32 size) (take 255 path)
  | Writemem offset size path => Writemem (u32 offset) (u32 size) (take 255 path)
  | Startvu vu => Startvu (s32 vu)
  | Stopvu vu => Stopvu (s32 vu)
  | Dumpreg type path => Dumpreg (s32 type) (take 255 path)
  | Gsexec size path => Gsexec (u16 size) (take 255 path)
  | c => c
  end.

(** What the document's reader makes of it: the size of a gsexec packet has 16
    bits there, so the reader takes the first two characters of the pathname
    for the rest of the size. *)
Definition as_read (c : command) : command :=
  match c with
  | Gsexec size path =>
      Gsexec (s32 (u16 size * 65536 + byte_at path 0 * 256 + byte_at path 1)) (drop 2 (take 255 path))
  | c => as_sent c
  end.

(** The pathname of gsexec has the two characters. *)
Definition readable (c : command) : Prop :=
  match c with Gsexec _ path => (2 <= length path)%nat | _ => True end.

(** Arguments and pathnames are strings. *)
Definition command_strings (c : command) : list (list Z) :=
  match c with
  | Execiop argv | Execee argv => argv
  | Dumpmem _ _ path | Writemem _ _ path | Dumpreg _ path | Gsexec _ path => [path]
  | _ => []
  end.

(** What a packet can carry: integers in their widths, and a pathname of up to
    255 bytes. *)
Definition representable (c : command) : Prop :=
  match c with
  | Dumpmem offset size path | Writemem offset size path =>
      is_u32 offset /\ is_u32 size /\ (length path <= 255)%nat
  | Startvu vu | Stopvu vu => is_s32 vu
  | Dumpreg type path => is_s32 type /\ (length path <= 255)%nat
  | Gsexec size path => 0 <= size < 2 ^ 16 /\ (length path <= 255)%nat
  | _ => True
  end.

Lemma as_sent_representable c : representable c -> as_sent c = c.
Proof.
  destruct c; simpl; try done; intros; destruct_and?; rewrite ?take_ge, ?u32_small, ?s32_small by (done || lia); try done.
  f_equal. unfold u16. apply Z.mod_small. lia.
Qed.

(** The arguments of execiop and execee fit in their field, which is checked;
    the pathnames of the others are not ([representable]). *)
Definition argv_fits (c : command) : bool :=
  match c with
  | Execiop argv | Execee argv => bool_decide (length (pack_argv argv) <= 256)%nat
  | _ => true
  end.

(** ** What is sent *)

Lemma length_name_field obj off pathname :
  (off + 256 <= length obj)%nat -> length (name_field obj off pathname) = 256%nat.
Proof.
  intros Hl. assert (Hs : length (slice obj off 256) = 256%nat) by (by apply length_slice).
  unfold name_field. destruct pathname; [|done]. rewrite snprintf_s_length; lia.
Qed.

Lemma cstr_name_field obj off path :
  is_string path -> cstr (name_field obj off (Some path)) = Some (take 255 path).
Proof. intros Hs. apply snprintf_s_cstr. by apply is_string_nonzero. Qed.

Lemma get_be16_header number size rest :
  get_be16 (header number size ++ rest) 4 = u16 size.
Proof.
  unfold header. rewrite <- app_assoc. rewrite (get_be16_app (be32 number) _ 0).
  apply get_be16_be16.
Qed.

Lemma get_be32_header number size rest : get_be32 (header number size ++ rest) 0 = u32 number.
Proof. unfold header. rewrite <- app_assoc. apply get_be32_be32. Qed.

(** Fields behind the header. *)
Lemma header_be32 number size z rest :
  get_be32 (header number size ++ be32 z ++ rest) 6 = u32 z.
Proof. apply (get_be32_field (header number size)). Qed.

Lemma header_be32_2 number size y z rest :
  get_be32 (header number size ++ be32 y ++ be32 z ++ rest) 10 = u32 z.
Proof.
  rewrite app_assoc. apply (get_be32_field (header number size ++ be32 y)).
Qed.

Lemma drop_header_10 number size y rest :
  drop 10 (header number size ++ be32 y ++ rest) = rest.
Proof. reflexivity. Qed.

Lemma drop_header_14 number size y z rest :
  drop 14 (header number size ++ be32 y ++ be32 z ++ rest) = rest.
Proof. reflexivity. Qed.

(** The packet of a command, if it fits, with any bytes in the object. *)
Definition command_packet (obj : list Z) (c : command) : list Z :=
  match c with
  | Reset => header PS2LINK_COMMAND_RESET 6
  | Poweroff => header PS2LINK_COMMAND_POWEROFF 6
  | Scrdump => header PS2LINK_COMMAND_SCRDUMP 6
  | Netdump => header PS2LINK_COMMAND_NETDUMP 6
  | Iopexcep => header PS2LINK_COMMAND_IOPEXCEP 6
  | Execiop argv => header PS2LINK_COMMAND_EXECIOP 266 ++ be32 (Z.of_nat (length argv))
      ++ (fix_argv (slice obj 10 256) 256 argv).2
  | Execee argv => header PS2LINK_COMMAND_EXECEE 266 ++ be32 (Z.of_nat (length argv))
      ++ (fix_argv (slice obj 10 256) 256 argv).2
  | Dumpmem offset size path =>
      header PS2LINK_COMMAND_DUMPMEM 270 ++ be32 offset ++ be32 size ++ name_field obj 14 (Some path)
  | Writemem offset size path =>
      header PS2LINK_COMMAND_WRITEMEM 270 ++ be32 offset ++ be32 size ++ name_field obj 14 (Some path)
  | Startvu vu => header PS2LINK_COMMAND_STARTVU 10 ++ be32 vu
  | Stopvu vu => header PS2LINK_COMMAND_STOPVU 10 ++ be32 vu
  | Dumpreg type path => header PS2LINK_COMMAND_DUMPREG 266 ++ be32 type ++ name_field obj 10 (Some path)
  | Gsexec size path => header PS2LINK_COMMAND_GSEXEC 264 ++ be16 size ++ name_field obj 8 (Some path)
  end.

Definition command_size (c : command) : nat :=
  match c with
  | Execiop _ | Execee _ | Dumpreg _ _ => 266
  | Dumpmem _ _ _ | Writemem _ _ _ => 270
  | Startvu _ | Stopvu _ => 10
  | Gsexec _ _ => 264
  | _ => 6
  end.

Lemma fix_argv_field dest argv :
  length dest = 256%nat ->
  if bool_decide (length (pack_argv argv) <= 256)%nat
  then fix_argv dest 256 argv
       = (0, pack_argv argv ++ replicate (256 - length (pack_argv argv)) 0)
  else (fix_argv dest 256 argv).1 = -1.
Proof.
  intros Hl. pose proof (fix_argv_loop_spec argv dest 0) as Hspec.
  rewrite Hl in Hspec. specialize (Hspec ltac:(lia)). cbv zeta in Hspec.
  repeat case_bool_decide; try lia.
  - exact Hspec.
  - apply Hspec.
Qed.

Lemma length_command_packet obj c :
  argv_fits c = true -> length obj = command_size c ->
  length (command_packet obj c) = command_size c.
Proof.
  intros Hf Hl. destruct c; try done; cbn [command_packet command_size argv_fits] in *;
    rewrite !length_app; rewrite ?length_name_field by (rewrite Hl; lia); try done.
  all: apply bool_decide_eq_true in Hf;
    pose proof (fix_argv_field (slice obj 10 256) argv ltac:(apply length_slice; lia)) as Hfix;
    rewrite bool_decide_eq_true_2 in Hfix by done; rewrite Hfix; simpl;
    rewrite length_app, length_replicate; lia.
Qed.

(** The packet of gsexec, read as the document says. *)
Lemma gsexec_read obj size path :
  is_string path -> (2 <= length path)%nat -> (264 <= length obj)%nat ->
  let packet := header PS2LINK_COMMAND_GSEXEC 264 ++ be16 size ++ name_field obj 8 (Some path) in
  Gsexec (s32 (get_be32 packet 6)) <$> cstr (drop 10 packet) = Some (as_read (Gsexec size path)).
Proof.
  intros Hs Hl Ho packet. destruct path as [|a [|b path]]; simpl in Hl; try lia.
  assert (Hf : exists rest, name_field obj 8 (Some (a :: b :: path)) = a :: b :: rest
    /\ cstr rest = Some (take 253 path)).
  { unfold name_field, snprintf_s. cbn [snd]. rewrite mem_store_0.
    change (take (256 - 1) (a :: b :: path)) with (a :: b :: take 253 path).
    eexists. rewrite <- app_assoc. split; [reflexivity|].
    apply cstr_app_null, Forall_take. apply is_string_nonzero in Hs. by do 2 apply Forall_inv_tail in Hs. }
  destruct Hf as (rest & Hf & Hc). unfold packet. rewrite Hf.
  change (drop 10 _) with rest. rewrite Hc. simpl. do 2 f_equal.
  apply is_string_bytes in Hs. pose proof (Forall_inv Hs) as Ha. pose proof (Forall_inv (Forall_inv_tail Hs)) as Hb.
  unfold get_be32, byte_at, header, be32, be16. simpl. word_lia.
Qed.

(** A reader gets back the command. *)
Lemma decode_command_packet obj c :
  Forall is_string (command_strings c) -> argv_fits c = true -> readable c ->
  length obj = command_size c -> decode_command (command_packet obj c) = Some (as_read c).
Proof.
  intros Hs Hf Hrd Hl. unfold decode_command. cbv zeta.
  rewrite (length_command_packet obj c Hf Hl).
  assert (Hargv : forall argv, length obj = 266%nat -> Forall is_string argv ->
    bool_decide (length (pack_argv argv) <= 256)%nat = true ->
    unpack_argv (Z.to_nat (u32 (Z.of_nat (length argv)))) (fix_argv (slice obj 10 256) 256 argv).2
    = Some argv).
  { intros argv Ho Ha Hfit. pose proof (fix_argv_field (slice obj 10 256) argv
      ltac:(apply length_slice; lia)) as Hfix. rewrite Hfit in Hfix. rewrite Hfix. simpl.
    apply bool_decide_eq_true in Hfit.
    assert (Hle : (length argv <= length (pack_argv argv))%nat).
    { clear. induction argv as [|a argv IH]; [done|].
      change (pack_argv (a :: argv)) with ((a ++ [0]) ++ pack_argv argv).
      rewrite !length_app. simpl. lia. }
    rewrite u32_small by word_lia. rewrite Nat2Z.id. by apply unpack_pack_argv. }
  destruct c; cbn [command_packet command_size as_sent command_strings argv_fits] in *;
    try reflexivity; rewrite get_be32_header, get_be16_header;
    change (negb (_ =? _)) with false; cbv iota;
    repeat (rewrite Z.eqb_refl || rewrite (proj2 (Z.eqb_neq _ _)) by done); cbv iota.
  all: try (apply gsexec_read; [by apply Forall_inv in Hs|done|lia]).
  all: rewrite ?header_be32, ?header_be32_2, ?s32_u32; try done.
  all: try (rewrite drop_header_10, Hargv by (done || lia); reflexivity).
  all: try (rewrite <- (app_nil_r (be32 vu)), header_be32, s32_u32; reflexivity).
  all: apply Forall_inv in Hs.
  all: first [rewrite drop_header_14 | rewrite drop_header_10].
  all: by rewrite cstr_name_field.
Qed.

(** ** The commands of the source send these packets *)

Section facts.
Context {W : Type} `{PosixLaws W}.
Implicit Types (s : st link W) (w : W).

Lemma send_command_wp (E : fault -> Prop) packet size s Q :
  Z.of_nat (length packet) = size ->
  (forall r w', sent (command_socket (glob s)) packet r (world s) w' -> Q r (mk_st (glob s) w')) ->
  wp E (send_command packet size) Q s.
Proof. intros Hl HQ. unfold send_command. wp_step. by apply network_send_packet_wp. Qed.

Lemma issue_command_wp (E : fault -> Prop) c s Q :
  argv_fits c = true ->
  (forall obj w1 r w', quiet (world s) w1 -> length obj = command_size c ->
     sent (command_socket (glob s)) (command_packet obj c) r w1 w' -> Q r (mk_st (glob s) w')) ->
  wp E (issue_command c) Q s.
Proof.
  intros Hf HQ.
  assert (Hgo : forall obj w1, quiet (world s) w1 -> length obj = command_size c ->
    wp E (send_command (command_packet obj c) (Z.of_nat (command_size c))) Q (mk_st (glob s) w1)).
  { intros obj w1 Hq Ho. apply send_command_wp; [by rewrite (length_command_packet obj c)|].
    intros r w' Hs. by eapply HQ. }
  assert (Hnow : wp E (send_command (command_packet (replicate (command_size c) 0) c)
                         (Z.of_nat (command_size c))) Q s).
  { apply (Hgo _ (world s)); [reflexivity|by rewrite length_replicate]. }
  assert (Hexec : forall number argv, command_size c = 266%nat ->
    (length (pack_argv argv) <= 256)%nat ->
    (forall obj, command_packet obj c = header number 266 ++ be32 (Z.of_nat (length argv))
                 ++ (fix_argv (slice obj 10 256) 256 argv).2) ->
    wp E (exec_command number (Z.of_nat (length argv)) argv) Q s).
  { intros number argv Hsize Hfit Hpacket. unfold exec_command. wp_step.
    intros obj w1 (Hq & Ho & _)%auto_law. specialize (Hgo obj w1 Hq ltac:(congruence)).
    pose proof (fix_argv_field (slice obj 10 256) argv ltac:(apply length_slice; lia)) as Hfix.
    rewrite bool_decide_eq_true_2 in Hfix by done. rewrite Hpacket, Hsize in Hgo.
    destruct (fix_argv _ _ _) as [r field]. simplify_eq. exact Hgo. }
  destruct c as [| | | | |argv|argv| | | | | |]; cbn [issue_command argv_fits] in *.
  6, 7: by apply Hexec; [|apply bool_decide_eq_true in Hf|].
  1-5, 8, 9: exact Hnow.
  all: unfold ps2link_command_dumpmem, ps2link_command_writemem, mem_command,
    ps2link_command_dumpreg, ps2link_command_gsexec; wp_step; intros obj w1 (Hq & Ho & _)%auto_law; by apply (Hgo obj w1).
Qed.

(** Arguments that do not fit are refused and nothing is sent. *)
Lemma issue_command_refuses (E : fault -> Prop) c s Q :
  argv_fits c = false ->
  (forall w', quiet (world s) w' -> Q (-1) (mk_st (glob s) w')) -> wp E (issue_command c) Q s.
Proof.
  intros Hf HQ. destruct c; try done; cbn [issue_command];
    unfold ps2link_command_execiop, ps2link_command_execee, exec_command;
    wp_step; intros obj w1 (Hq & Ho & _)%auto_law; cbn [argv_fits] in Hf;
    pose proof (fix_argv_field (slice obj 10 256) argv ltac:(apply length_slice; lia)) as Hfix;
    rewrite Hf in Hfix; destruct (fix_argv _ _ _) as [r field]; simpl in Hfix; subst r;
    apply wp_ret; by apply HQ.
Qed.
End facts.

(** ** The properties of the commands *)

(** C10: every command function sends one packet, as long as its length field
    says, and returns the packet's size or, when send(2) failed, -1. Read as
    doc/ps2link-protocol.txt says, the packet is the command with its
    arguments: exactly the command when its integers fit their widths and its
    pathname has at most 255 bytes, else what is left after cutting both, which
    nothing reports; the one that is read differently is gsexec,
    whose size the source sends in 16 bits where the document has an int, so
    that two characters of the pathname end up in the size ([as_read]). *)
Theorem command_round_trip (W : Type) `{PosixLaws W} (c : command) (s : st link W) :
  Forall is_string (command_strings c) -> argv_fits c = true -> readable c ->
  exists packet r w1 w', issue_command c s = Ret (r, mk_st (glob s) w')
    /\ quiet (world s) w1 /\ sent (command_socket (glob s)) packet r w1 w'
    /\ length packet = command_size c /\ decode_command packet = Some (as_read c)
    /\ (as_read c = as_sent c \/ exists size path, c = Gsexec size path)
    /\ (representable c -> as_sent c = c).
Proof.
  intros Hs Hf Hrd.
  destruct (wp_run (issue_command c) (fun r s' => glob s' = glob s /\ exists obj w1,
    quiet (world s) w1 /\ length obj = command_size c
    /\ sent (command_socket (glob s)) (command_packet obj c) r w1 (world s')) s)
    as (r & [g w'] & Hr & Hg & obj & w1 & Hq & Hl & Hsent).
  { apply issue_command_wp; [done|]. intros obj w1 r w' Hq Hl Hsent. split; [done|]. by exists obj, w1. }
  simpl in *. subst g. exists (command_packet obj c), r, w1, w'.
  refine (conj Hr (conj Hq (conj Hsent (conj _ (conj _ (conj _ (as_sent_representable c))))))).
  - by apply length_command_packet.
  - by apply decode_command_packet.
  - destruct c; eauto.
Qed.

Lemma command_round_trip_witness :
  exists packet r w1 w',
    issue_command (Execee [bytes_of "host:a.elf"; bytes_of "x"])
      (mk_st (set_sockets 8 9 10 link_init) (sim_start [] 0 [] [] []))
      = Ret (r, mk_st (set_sockets 8 9 10 link_init) w')
    /\ sent (W := sim) 10 packet r w1 w'
    /\ decode_command packet = Some (Execee [bytes_of "host:a.elf"; bytes_of "x"]).
Proof.
  destruct (command_round_trip sim (Execee [bytes_of "host:a.elf"; bytes_of "x"])
    (mk_st (set_sockets 8 9 10 link_init) (sim_start [] 0 [] [] [])))
    as (packet & r & w1 & w' & Hr & _ & Hs & _ & Hd & _).
  - apply (bool_decide_eq_true (Forall is_string _)). vm_compute. reflexivity.
  - vm_compute. reflexivity.
  - exact I.
  - exists packet, r, w1, w'. split; [exact Hr|]. split; [exact Hs|exact Hd].
Defined.

(** Both execiop and execee refuse arguments that do not fit in 256 bytes with
    their nulls: they return -1 and send nothing. *)
Theorem exec_refuses_long_arguments (W : Type) `{PosixLaws W} (c : command) (s : st link W) :
  argv_fits c = false ->
  exists w', issue_command c s = Ret (-1, mk_st (glob s) w') /\ quiet (world s) w'.
Proof.
  intros Hf. destruct (wp_run (issue_command c) (fun r s' => r = -1 /\ glob s' = glob s
    /\ quiet (world s) (world s')) s) as (r & [g w'] & Hr & -> & Hg & Hq).
  { by apply issue_command_refuses. }
  simpl in *. subst g. by exists w'.
Qed.

Lemma exec_refuses_long_arguments_witness :
  exists w', issue_command (Execee [replicate 256 65]) (mk_st link_init (sim_start [] 0 [] [] []))
             = Ret (-1, mk_st link_init w').
Proof.
  destruct (exec_refuses_long_arguments sim (Execee [replicate 256 65])
    (mk_st link_init (sim_start [] 0 [] [] []))) as (w' & Hr & _); [vm_compute; reflexivity|].
  exists w'. exact Hr.
Defined.
