(* ===== verification/Console.v ===== *)
(** * The console (ps2link_check_line, ps2link_scan_console and
      ps2link_thread_console in src/ps2link.c)

    Console output is scanned for the marker line by line, in a buffer of 4096
    bytes. The specification reads the whole output as a list of lines
    ([console]); the theorems say the buffer implements it, whatever packets
    the output arrives in. *)

From S2P Require Import Prelude CLib Posix Utility Network Sim Link Response.

Definition newline : Z := 10.
Definition carriage_return : Z := 13.
Definition CONSOLE_BUFFER_SIZE : nat := Z.to_nat 65536.
Definition KEEP : nat := 256.

Section defs.
Context {W : Type} `{Posix W}.

(** The number after "status=" behind the marker, or 0. *)
Definition status_after (found : list Z) : Z :=
  match strstr found (bytes_of "status=") with
  | Some k => s32 (strtol10 (drop (k + 7) found))
  | None => 0
  end.

Definition ps2link_check_line : M link W unit :=
  let! g := gget in
  let n := ps2link_line_length g in
  if (length (ps2link_line g) <=? n)%nat then fail Overflow
  else
    let line := <[n := 0]> (ps2link_line g) in
    gmod (set_line line n) ;;;
    if ps2link_marker_seen g then ret tt
    else
      match ps2link_marker g with
      | None => fail NullDeref
      | Some marker =>
          let! text := of_option Unterminated (cstr line) in
          match strstr text marker with
          | None => ret tt
          | Some at_ => gmod (set_marker_found (status_after (drop at_ text)))
          end
      end.

(** The body of the loop of ps2link_scan_console. *)
Definition scan_char (c : Z) : M link W unit :=
  if c =? newline then
    ps2link_check_line ;;; gmod (fun g => set_line (ps2link_line g) 0 g)
  else if (c =? carriage_return) || (c =? 0) then ret tt
  else
    (let! g := gget in
     let n := ps2link_line_length g in
     if (n =? LINE_SIZE - 1)%nat
     then gmod (set_line (mem_store (ps2link_line g) 0 (slice (ps2link_line g) (n - KEEP) KEEP)) KEEP)
     else ret tt) ;;;
    let! g := gget in
    let n := ps2link_line_length g in
    if (length (ps2link_line g) <=? n)%nat then fail Overflow
    else gmod (set_line (<[n := c]> (ps2link_line g)) (S n)).

Fixpoint scan_loop (buffer : list Z) : M link W unit :=
  match buffer with
  | [] => ret tt
  | c :: buffer => scan_char c ;;; scan_loop buffer
  end.

(** [buffer] is the [size] bytes to scan. *)
Definition ps2link_scan_console (buffer : list Z) : M link W unit :=
  let! g := gget in
  match ps2link_marker g with None => ret tt | Some _ => scan_loop buffer end.

(** An iteration of the thread's loop; the buffer is static. *)
Definition console_iteration (buffer : list Z) : M link W (list Z) :=
  let! g := gget in
  let sock := console_socket g in
  network_wait sock (-1) ;;;
  let! r := network_receive sock buffer (Z.of_nat CONSOLE_BUFFER_SIZE) in
  let '(size, buffer) := r in
  if size <? 0 then sleep_ms 10 ;;; ret buffer
  else
    hcall (sys_stdout (take (Z.to_nat size) buffer)) ;;;
    ps2link_scan_console (take (Z.to_nat size) buffer) ;;;
    ps2link_set_activity ;;;
    ret buffer.

Fixpoint console_loop (n : nat) (buffer : list Z) : M link W (list Z) :=
  match n with
  | O => ret buffer
  | S n => let! buffer := console_iteration buffer in console_loop n buffer
  end.

(** The thread after [n] iterations; its result is the static buffer. *)
Definition ps2link_thread_console (n : nat) : M link W (list Z) :=
  let! g := gget in
  let buffer := replicate CONSOLE_BUFFER_SIZE 0 in
  if console_socket g <? 0 then ret buffer else console_loop n buffer.
End defs.

Lemma LINE_SIZE_Z : Z.of_nat LINE_SIZE = 4096.
Proof. reflexivity. Qed.
#[global] Opaque LINE_SIZE.

(** ** The specification: lines *)

(** The console as the main loop sees it: the line being received and the
    status of the marker, once it was seen. *)
Record console := mk_console { c_line : list Z; c_status : option Z }.

(** A character more on a line: of a full line the last 256 bytes stay. *)
Definition push (line : list Z) (c : Z) : list Z :=
  (if (length line =? LINE_SIZE - 1)%nat then drop (length line - KEEP) line else line) ++ [c].

(** What is kept of a line. *)
Definition kept (line : list Z) : list Z := foldl push [] line.

(** Does a line have the marker, and with which status. *)
Definition check (marker line : list Z) : option Z :=
  (fun n => status_after (drop n line)) <$> strstr line marker.

Definition first_status (marker : list Z) (lines : list (list Z)) : option Z :=
  head (omap (check marker) lines).

Definition step (marker : list Z) (k : console) (c : Z) : console :=
  if c =? newline then
    mk_console [] (match c_status k with Some v => Some v | None => check marker (c_line k) end)
  else if (c =? carriage_return) || (c =? 0) then k
  else mk_console (push (c_line k) c) (c_status k).

(** Without a marker nothing is scanned. *)
Definition scan (marker : option (list Z)) (k : console) (output : list Z) : console :=
  match marker with Some marker => foldl (step marker) k output | None => k end.

(** The complete lines of an output and the rest, without returns and nulls. *)
Fixpoint lines_from (cur : list Z) (output : list Z) : list (list Z) * list Z :=
  match output with
  | [] => ([], cur)
  | c :: output =>
      if c =? newline then let '(ls, rest) := lines_from [] output in (cur :: ls, rest)
      else if (c =? carriage_return) || (c =? 0) then lines_from cur output
      else lines_from (cur ++ [c]) output
  end.
Definition lines_of (output : list Z) : list (list Z) * list Z := lines_from [] output.

(** The globals stand for a console. *)
Record console_rel (g : link) (k : console) : Prop := {
  con_length : length (ps2link_line g) = LINE_SIZE;
  con_bound : (ps2link_line_length g < LINE_SIZE)%nat;
  con_line : take (ps2link_line_length g) (ps2link_line g) = c_line k;
  con_nonzero : Forall (fun b => b <> 0) (c_line k);
  con_status : c_status k
    = if ps2link_marker_seen g then Some (ps2link_marker_status g) else None }.

Definition console_frame (g g' : link) : Prop :=
  g' = set_line (ps2link_line g') (ps2link_line_length g')
         (if ps2link_marker_seen g' then set_marker_found (ps2link_marker_status g') g else g).

Lemma console_rel_init m : console_rel (set_marker m link_init) (mk_console [] None).
Proof. pose proof LINE_SIZE_Z. split; try done. simpl. lia. Qed.

Lemma console_rel_set_activity g k t : console_rel g k -> console_rel (set_activity t g) k.
Proof. by intros []. Qed.

#[export] Instance console_frame_preorder : PreOrder console_frame.
Proof.
  split.
  - intros g. unfold console_frame. by destruct g as [? ? ? ? ? ? [] ? ? ? ? ? ?].
  - intros g1 g2 g3 H12 H23. unfold console_frame in *. etrans; [exact H23|].
    destruct (ps2link_marker_seen g3) eqn:H3.
    + rewrite H12. by destruct (ps2link_marker_seen g2).
    + rewrite H23 in H3. simpl in H3. rewrite H3 in H12. by rewrite H12.
Qed.

Lemma console_frame_marker g g' : console_frame g g' -> ps2link_marker g' = ps2link_marker g.
Proof. intros ->. by case_match. Qed.

Lemma console_rel_cstr g k :
  console_rel g k ->
  cstr (<[ps2link_line_length g := 0]> (ps2link_line g)) = Some (c_line k).
Proof.
  intros [Hl Hb Hline Hnz _]. rewrite insert_take_drop by lia. rewrite Hline. by apply cstr_app_null.
Qed.

Section facts.
Context {W : Type} `{PosixLaws W}.
Implicit Types (s : st link W) (w : W).

Lemma check_line_wp (E : fault -> Prop) marker k s Q :
  console_rel (glob s) k -> ps2link_marker (glob s) = Some marker ->
  (forall g', console_rel g' (mk_console (c_line k)
       (match c_status k with Some v => Some v | None => check marker (c_line k) end)) ->
     console_frame (glob s) g' -> Q tt (mk_st g' (world s))) ->
  wp E ps2link_check_line Q s.
Proof.
  intros Hrel Hm HQ. pose proof (console_rel_cstr _ _ Hrel) as Hc.
  destruct Hrel as [Hl Hb Hline Hnz Hst]. unfold ps2link_check_line. wp_step.
  destruct (Nat.leb_spec (length (ps2link_line (glob s))) (ps2link_line_length (glob s))); [lia|].
  cbv zeta. wp_step.
  assert (Htake : take (ps2link_line_length (glob s))
    (<[ps2link_line_length (glob s) := 0]> (ps2link_line (glob s))) = c_line k)
    by (by rewrite take_insert_ge by lia).
  assert (Hlen : length (<[ps2link_line_length (glob s) := 0]> (ps2link_line (glob s))) = LINE_SIZE)
    by (by rewrite length_insert).
  destruct (ps2link_marker_seen (glob s)) eqn:Hseen.
  - apply wp_ret, HQ.
    + split; simpl; try done. by rewrite Hst, Hseen.
    + unfold console_frame. simpl. rewrite Hseen. by destruct (glob s); simpl in *; subst.
  - rewrite Hm. wp_step. rewrite Hc. rewrite Hst in HQ. unfold check in HQ.
    destruct (strstr (c_line k) marker) as [n|] eqn:Hn.
    + wp_step. apply HQ; [by split|]. by destruct (glob s).
    + apply wp_ret, HQ; [split; simpl; try done; by rewrite Hseen|].
      unfold console_frame. simpl. rewrite Hseen. by destruct (glob s).
Qed.

(** Storing a character. *)
Lemma push_rel g k c :
  console_rel g k -> c <> 0 -> (ps2link_line_length g <> LINE_SIZE - 1)%nat ->
  console_rel (set_line (<[ps2link_line_length g := c]> (ps2link_line g)) (S (ps2link_line_length g)) g)
    (mk_console (c_line k ++ [c]) (c_status k)).
Proof.
  intros [Hl Hb Hline Hnz Hst] Hc Hn. split; simpl; try done.
  - by rewrite length_insert.
  - lia.
  - rewrite insert_take_drop by lia. rewrite Hline.
    replace (S (ps2link_line_length g)) with (length (c_line k) + 1)%nat
      by (rewrite <- Hline, length_take; lia).
    rewrite take_app_add. done.
  - apply Forall_app. split; [done|by repeat constructor].
Qed.

Lemma clear_rel g k :
  console_rel g k -> console_rel (set_line (ps2link_line g) 0 g) (mk_console [] (c_status k)).
Proof. intros [Hl Hb Hline Hnz Hst]. split; try done. simpl. lia. Qed.

(** Keeping the end of a full line. *)
Lemma keep_rel g k :
  console_rel g k -> ps2link_line_length g = (LINE_SIZE - 1)%nat ->
  console_rel (set_line (mem_store (ps2link_line g) 0
      (slice (ps2link_line g) (ps2link_line_length g - KEEP) KEEP)) KEEP g)
    (mk_console (drop (length (c_line k) - KEEP) (c_line k)) (c_status k)).
Proof.
  intros [Hl Hb Hline Hnz Hst] Hn. pose proof LINE_SIZE_Z as Hsz.
  assert (Hk : (KEEP = 256)%nat) by done.
  assert (Hs : length (slice (ps2link_line g) (ps2link_line_length g - KEEP) KEEP) = KEEP)
    by (apply length_slice; lia).
  split; simpl; try done.
  - rewrite mem_store_length; lia.
  - lia.
  - rewrite <- Hs at 1. rewrite take_mem_store_0. rewrite <- Hline, length_take.
    rewrite Nat.min_l by lia. unfold slice. rewrite skipn_firstn_comm. f_equal. lia.
  - by apply Forall_drop.
Qed.

Lemma scan_char_wp (E : fault -> Prop) marker k c s Q :
  console_rel (glob s) k -> ps2link_marker (glob s) = Some marker ->
  (forall g', console_rel g' (step marker k c) -> console_frame (glob s) g' ->
     Q tt (mk_st g' (world s))) ->
  wp E (scan_char c) Q s.
Proof.
  intros Hrel Hm HQ. unfold scan_char, step in *. destruct (Z.eqb_spec c newline).
  { apply wp_bind. apply (check_line_wp _ marker k); [done|done|].
    intros g' Hrel' Hfr. wp_step. apply HQ; [exact (clear_rel _ _ Hrel')|].
    etrans; [exact Hfr|]. unfold console_frame. simpl.
    by destruct g' as [? ? ? ? ? ? [] ? ? ? ? ? ?]. }
  destruct ((c =? carriage_return) || (c =? 0)) eqn:Hskip.
  { apply wp_ret, HQ; [done|reflexivity]. }
  apply orb_false_iff in Hskip as [_ Hc%Z.eqb_neq].
  pose proof LINE_SIZE_Z as Hsz. assert (Hk : (KEEP = 256)%nat) by done.
  assert (Hlen : length (c_line k) = ps2link_line_length (glob s))
    by (destruct Hrel as [? ? <- _ _]; rewrite length_take; lia).
  assert (Hput : forall g k1, console_rel g k1 -> (ps2link_line_length g <> LINE_SIZE - 1)%nat ->
    console_frame (glob s) g -> mk_console (c_line k1 ++ [c]) (c_status k1)
      = mk_console (push (c_line k) c) (c_status k) ->
    wp E (let! g := gget in
          let n := ps2link_line_length g in
          if (length (ps2link_line g) <=? n)%nat then fail Overflow
          else gmod (set_line (<[n := c]> (ps2link_line g)) (S n))) Q (mk_st g (world s))).
  { intros g k1 Hrel1 Hn Hfr Heq. wp_step. cbv zeta.
    destruct (Nat.leb_spec (length (ps2link_line g)) (ps2link_line_length g)).
    - destruct Hrel1. lia.
    - wp_step. apply HQ.
      + rewrite <- Heq. by apply push_rel.
      + etrans; [exact Hfr|]. by destruct g as [? ? ? ? ? ? [] ? ? ? ? ? ?]. }
  unfold push in Hput. rewrite Hlen in Hput.
  apply wp_bind, wp_bind, wp_gget. cbv zeta.
  destruct (Nat.eqb_spec (ps2link_line_length (glob s)) (LINE_SIZE - 1)) as [Hfull|Hfull].
  - wp_step. eapply Hput; [exact (keep_rel _ _ Hrel Hfull)|simpl; lia| |].
    + by destruct (glob s) as [? ? ? ? ? ? [] ? ? ? ? ? ?].
    + simpl. by rewrite Hlen.
  - apply wp_ret. by eapply Hput.
Qed.

Lemma scan_loop_wp (E : fault -> Prop) marker buffer : forall k s Q,
  console_rel (glob s) k -> ps2link_marker (glob s) = Some marker ->
  (forall g', console_rel g' (foldl (step marker) k buffer) -> console_frame (glob s) g' ->
     Q tt (mk_st g' (world s))) ->
  wp E (scan_loop buffer) Q s.
Proof.
  induction buffer as [|c buffer IH]; intros k s Q Hrel Hm HQ; simpl in *.
  - apply wp_ret, HQ; [done|reflexivity].
  - apply wp_bind. apply (scan_char_wp _ marker k); [done|done|]. intros g1 Hrel1 Hfr.
    apply (IH (step marker k c)); simpl; [done|by rewrite (console_frame_marker _ _ Hfr)|].
    intros g' Hrel' Hfr'. apply HQ; [done|by etrans].
Qed.
End facts.

(** ** The thread *)

Section thread.
Context {W : Type} `{PosixLaws W}.
Implicit Types (s : st link W) (w : W).

(** The globals the console thread changes. *)
Definition console_thread_frame (g g' : link) : Prop :=
  console_frame (set_activity (ps2link_activity g') g) g'.

Lemma console_thread_trans g1 g2 g3 :
  console_thread_frame g1 g2 -> console_thread_frame g2 g3 -> console_thread_frame g1 g3.
Proof.
  unfold console_thread_frame. intros H12 H23. etrans; [|exact H23].
  unfold console_frame in H12 |- *.
  etrans; [exact (f_equal (set_activity (ps2link_activity g3)) H12)|].
  simpl. by destruct (ps2link_marker_seen g2).
Qed.

Lemma console_thread_inv g g' :
  console_thread_frame g g' ->
  ps2link_marker g' = ps2link_marker g /\ console_socket g' = console_socket g.
Proof. intros ->. by case_match. Qed.

(** What the thread has done: some output came in on its socket, all of it
    was printed and scanned; the activity time was noted, or it is as before. *)
Definition console_done (marker : option (list Z)) (k : console) s s' : Prop :=
  exists output, out (world s') = out (world s) ++ output
    /\ rx (world s') (console_socket (glob s)) = rx (world s) (console_socket (glob s)) ++ output
    /\ console_rel (glob s') (scan marker k output)
    /\ console_thread_frame (glob s) (glob s')
    /\ noted s s' /\ forall other, holds other (world s) (world s').

Lemma scan_app marker k a b : scan marker k (a ++ b) = scan marker (scan marker k a) b.
Proof. destruct marker; simpl; [apply foldl_app|done]. Qed.

Lemma scan_console_wp (E : fault -> Prop) k buffer s Q :
  console_rel (glob s) k ->
  (forall g', console_rel g' (scan (ps2link_marker (glob s)) k buffer) ->
     console_frame (glob s) g' -> Q tt (mk_st g' (world s))) ->
  wp E (ps2link_scan_console buffer) Q s.
Proof.
  intros Hrel HQ. unfold ps2link_scan_console. wp_step.
  destruct (ps2link_marker (glob s)) as [marker|] eqn:Hm.
  - by apply (scan_loop_wp _ marker buffer k).
  - apply wp_ret, HQ; [done|reflexivity].
Qed.

Lemma console_frame_activity g g' t :
  console_frame g g' -> console_thread_frame g (set_activity t g').
Proof.
  unfold console_thread_frame, console_frame. intros Hfr.
  etrans; [exact (f_equal (set_activity t) Hfr)|]. simpl. by destruct (ps2link_marker_seen g').
Qed.

Lemma console_thread_refl g : console_thread_frame g g.
Proof. by destruct g as [? ? ? ? ? ? [] ? ? ? ? ? ?]. Qed.

Lemma console_iteration_wp (E : fault -> Prop) k buffer s Q :
  length buffer = CONSOLE_BUFFER_SIZE -> console_rel (glob s) k ->
  (forall buffer' s', length buffer' = CONSOLE_BUFFER_SIZE ->
     console_done (ps2link_marker (glob s)) k s s' -> Q buffer' s') ->
  wp E (console_iteration buffer) Q s.
Proof.
  intros Hl Hrel HQ. unfold console_iteration. wp_step. unfold network_wait. simpl.
  wp_step. intros n w1 Hw%select_read_law. unfold network_receive. rewrite Hl.
  rewrite Z.ltb_irrefl. wp_step. intros [r data] w2 Hr.
  apply recvfrom_law in Hr as (Hq & Htx & Hlen & Hle & Hby & Hrx & _). cbn [fst snd].
  assert (Hl' : length (mem_store buffer 0 data) = CONSOLE_BUFFER_SIZE)
    by (rewrite mem_store_length; lia).
  assert (Hout : out w2 = out (world s)).
  { destruct Hq as (_ & _ & _ & ->). by destruct Hw as (_ & _ & _ & ->). }
  assert (Hh : forall other, holds other (world s) w2).
  { intros other. etrans; [by apply quiet_holds|].
    destruct (decide (console_socket (glob s) = other)) as [<-|].
    - split; [done|]. by destruct Hq as (_ & ? & ? & _).
    - by eapply quiet_but_holds. }
  rewrite (quiet_rx _ _ _ Hw) in Hrx. apply wp_ret.
  destruct (Z.ltb_spec (sr_val r) 0).
  - apply wp_bind, sleep_ms_wp; [lia|]. intros x w3 Hq3 _. simpl in Hq3.
    apply wp_ret, HQ; [done|]. assert (data = []) as -> by (apply nil_length_inv; lia).
    exists []. simpl. rewrite !app_nil_r in *. rewrite (quiet_rx _ _ _ Hq3), Hrx.
    refine (conj _ (conj eq_refl (conj _ (conj (console_thread_refl _) (conj _ _))))).
    + destruct Hq3 as (_ & _ & _ & ->). done.
    + by destruct (ps2link_marker (glob s)).
    + by left.
    + intros other. etrans; [apply Hh|by apply quiet_holds].
  - rewrite <- Hlen, take_mem_store_0. wp_step.
    intros [] w3 (Hio & Hsig3 & Hnow3 & Ho)%stdout_law. apply wp_bind.
    apply (scan_console_wp _ k); [done|]. simpl. intros g' Hrel' Hfr.
    apply wp_bind, set_activity_wp. simpl. intros t w4 Hq4 Ht.
    apply wp_ret, HQ; [done|].
    exists data. simpl. rewrite (quiet_rx _ _ _ Hq4), (proj2 (Hio _)), Hrx.
    refine (conj _ (conj eq_refl (conj _ (conj (console_frame_activity _ _ t Hfr) (conj _ _))))).
    + destruct Hq4 as (_ & _ & _ & ->). by rewrite Ho, Hout.
    + by destruct Hrel'.
    + right. simpl. destruct (Hh 0) as (_ & _ & Hnow).
      assert (Hn03 : now (world s) <= now w3) by lia. apply (Z.div_le_mono _ _ 1000000) in Hn03; lia.
    + intros other. etrans; [apply Hh|]. etrans; [|by apply quiet_holds].
      split; [by apply Hio|done].
Qed.

Lemma console_loop_wp (E : fault -> Prop) n : forall k buffer s,
  length buffer = CONSOLE_BUFFER_SIZE -> console_rel (glob s) k ->
  wp E (console_loop n buffer) (fun _ s' => console_done (ps2link_marker (glob s)) k s s') s.
Proof.
  induction n as [|n IH]; intros k buffer s Hl Hrel; simpl.
  - apply wp_ret. exists []. rewrite !app_nil_r.
    refine (conj eq_refl (conj eq_refl (conj _ (conj (console_thread_refl _) (conj _ _))))); [|by left|done].
    by destruct (ps2link_marker (glob s)).
  - apply wp_bind. apply (console_iteration_wp _ k); [done|done|].
    intros buffer' s1 Hl1 (o1 & Ho1 & Hr1 & Hrel1 & Hfr1 & Hnt1 & Hh1).
    destruct (console_thread_inv _ _ Hfr1) as [Hm1 Hs1].
    eapply wp_mono; [by apply (IH (scan (ps2link_marker (glob s)) k o1))|done|].
    rewrite Hm1. intros _ s2 (o2 & Ho2 & Hr2 & Hrel2 & Hfr2 & Hnt2 & Hh2). exists (o1 ++ o2).
    rewrite scan_app, !app_assoc, <- Ho1, <- Hr1, <- Hs1.
    refine (conj Ho2 (conj Hr2 (conj Hrel2 (conj _ (conj _ _))))); [by eapply console_thread_trans| |].
    + eapply noted_trans; [|exact Hnt1|exact Hnt2]. by destruct (Hh1 0) as (_ & _ & ?).
    + intros other. etrans; [apply Hh1|apply Hh2].
Qed.
End thread.

(** ** The lines of the output *)

Lemma foldl_step_lines marker output : forall cur st,
  let '(ls, rest) := lines_from cur output in
  foldl (step marker) (mk_console (kept cur) st) output
  = mk_console (kept rest)
      (match st with Some v => Some v | None => first_status marker (map kept ls) end).
Proof.
  unfold first_status. induction output as [|c output IH]; intros cur st; simpl; [by destruct st|].
  unfold step at 2. destruct (c =? newline).
  - specialize (IH [] (match st with Some v => Some v | None => check marker (kept cur) end)).
    destruct (lines_from [] output) as [ls rest]. change (kept []) with (@nil Z) in IH. simpl. rewrite IH. f_equal.
    destruct st as [v|]; [done|]. by destruct (check marker (kept cur)).
  - destruct (_ || _); [apply IH|].
    specialize (IH (cur ++ [c]) st). unfold kept at 1 in IH. rewrite foldl_app in IH. exact IH.
Qed.

(** A line that fits is kept whole. *)
Lemma kept_short line : (length line < LINE_SIZE)%nat -> kept line = line.
Proof.
  induction line as [|c line IH] using rev_ind; intros Hl; [done|].
  rewrite length_app in Hl. simpl in Hl. unfold kept. rewrite foldl_app. simpl.
  fold (kept line). rewrite IH by lia. unfold push.
  by rewrite (proj2 (Nat.eqb_neq _ _)) by lia.
Qed.

(** Of a longer one the end is kept, at least 257 bytes of it. *)
Lemma kept_suffix line :
  exists lost, line = lost ++ kept line /\ (length (kept line) < LINE_SIZE)%nat
               /\ (lost = [] \/ (KEEP < length (kept line))%nat).
Proof.
  pose proof LINE_SIZE_Z as Hsz. assert (Hk : (KEEP = 256)%nat) by done.
  induction line as [|c line (lost & Heq & Hlt & Hlost)] using rev_ind.
  { exists []. simpl. split_and!; [done|lia|by left]. }
  unfold kept. rewrite foldl_app. simpl. fold (kept line). unfold push.
  destruct (Nat.eqb_spec (length (kept line)) (LINE_SIZE - 1)) as [Hf|Hf].
  - exists (lost ++ take (length (kept line) - KEEP) (kept line)).
    rewrite length_app, length_drop. simpl. split_and!; [|lia|right; lia].
    rewrite <- app_assoc, (app_assoc (take _ _)), take_drop, app_assoc. by rewrite <- Heq.
  - exists lost. rewrite length_app. simpl. split_and!; [|lia|destruct Hlost; [by left|right; lia]].
    rewrite app_assoc. by rewrite <- Heq.
Qed.

(** ** The properties of the console *)

(** The output as it arrives, packet by packet. *)
Fixpoint scan_packets {W} `{Posix W} (packets : list (list Z)) : M link W unit :=
  match packets with
  | [] => ret tt
  | packet :: packets => ps2link_scan_console packet ;;; scan_packets packets
  end.

Lemma scan_packets_wp {W} `{PosixLaws W} (E : fault -> Prop) packets : forall k (s : st link W) Q,
  console_rel (glob s) k ->
  (forall g', console_rel g' (scan (ps2link_marker (glob s)) k (concat packets)) ->
     Q tt (mk_st g' (world s))) ->
  wp E (scan_packets packets) Q s.
Proof.
  induction packets as [|packet packets IH]; intros k s Q Hrel HQ; simpl in *.
  - apply wp_ret, HQ. by destruct (ps2link_marker (glob s)).
  - apply wp_bind, (scan_console_wp _ k); [done|]. intros g' Hrel' Hfr.
    eapply IH; [exact Hrel'|]. simpl. rewrite (console_frame_marker _ _ Hfr), <- scan_app. auto.
Qed.

(** The state after a scan, in terms of lines. *)
Lemma scan_packets_status {W} `{PosixLaws W} (marker : list Z) (packets : list (list Z)) (s : st link W) :
  console_rel (glob s) (mk_console [] None) -> ps2link_marker (glob s) = Some marker ->
  let '(lines, rest) := lines_of (concat packets) in
  exists g', scan_packets packets s = Ret (tt, mk_st g' (world s))
    /\ (if ps2link_marker_seen g' then Some (ps2link_marker_status g') else None)
       = first_status marker (map kept lines)
    /\ take (ps2link_line_length g') (ps2link_line g') = kept rest
    /\ (ps2link_line_length g' < LINE_SIZE)%nat.
Proof.
  intros Hrel Hm. destruct (lines_of (concat packets)) as [lines rest] eqn:Hlines.
  destruct (wp_run (scan_packets packets) (fun _ s' => world s' = world s
    /\ console_rel (glob s') (scan (Some marker) (mk_console [] None) (concat packets))) s)
    as ([] & [g' w'] & Hr & Hw & Hrel').
  { apply (scan_packets_wp _ _ (mk_console [] None)); [done|]. rewrite Hm. auto. }
  simpl in *. subst w'. exists g'.
  pose proof (foldl_step_lines marker (concat packets) [] None) as Hsteps.
  unfold lines_of in Hlines. rewrite Hlines in Hsteps.
  change (kept []) with (@nil Z) in Hsteps. rewrite Hsteps in Hrel'.
  split_and!; [done|by rewrite <- (con_status _ _ Hrel')|apply Hrel'|apply Hrel'].
Qed.

(** C6: scanning is about lines, not packets. However the console output is
    cut into packets, it never writes outside the line buffer, and afterwards
    the marker has been seen exactly if what is kept of a complete line of the
    whole output (without returns and nulls) has it; the status is the one of
    the first such line, and what is kept of the unfinished line is in the
    buffer. All of a line is kept if it has at most 4095 bytes: when no line
    is longer, the marker has been seen exactly if a complete line has it. Of
    a longer line only its end is kept, at least 257 bytes. *)
Theorem scan_finds_first_marker (W : Type) `{PosixLaws W} (marker : list Z)
    (packets : list (list Z)) (s : st link W) :
  console_rel (glob s) (mk_console [] None) -> ps2link_marker (glob s) = Some marker ->
  let '(lines, rest) := lines_of (concat packets) in
  exists g', scan_packets packets s = Ret (tt, mk_st g' (world s))
    /\ (if ps2link_marker_seen g' then Some (ps2link_marker_status g') else None)
       = first_status marker (map kept lines)
    /\ take (ps2link_line_length g') (ps2link_line g') = kept rest
    /\ (ps2link_line_length g' < LINE_SIZE)%nat
    /\ (forall line, (length line < LINE_SIZE)%nat -> kept line = line)
    /\ (Forall (fun line => length line < LINE_SIZE)%nat lines ->
        (if ps2link_marker_seen g' then Some (ps2link_marker_status g') else None)
        = first_status marker lines)
    /\ (forall line, (LINE_SIZE <= length line)%nat ->
        exists lost, line = lost ++ kept line /\ (KEEP < length (kept line) < LINE_SIZE)%nat).
Proof.
  intros Hrel Hm. pose proof (scan_packets_status marker packets s Hrel Hm) as Hscan.
  destruct (lines_of (concat packets)) as [lines rest]. destruct Hscan as (g' & Hr & Hst & Hrest & Hb).
  exists g'. split_and!; [done|done|done|done|apply kept_short| |].
  - intros Hshort. rewrite Hst. f_equal. clear -Hshort.
    induction Hshort as [|line lines Hl _ IH]; [done|]. simpl. by rewrite IH, kept_short.
  - intros line Hl. destruct (kept_suffix line) as (lost & Heq & Hlt & [->|Hlong]); [|by exists lost].
    exfalso. rewrite app_nil_l in Heq. rewrite <- Heq in Hlt. lia.
Qed.

Definition sim_console (marker : list Z) : st link sim :=
  mk_st (set_marker (Some marker) (set_sockets 8 9 10 link_init)) (sim_start [] 0 [] [] []).

Lemma scan_finds_first_marker_witness :
  exists g', scan_packets [bytes_of "boot @@E"; bytes_of "ND@@ status=3" ++ [10]]
               (sim_console (bytes_of "@@END@@"))
             = Ret (tt, mk_st g' (world (sim_console (bytes_of "@@END@@"))))
    /\ (if ps2link_marker_seen g' then Some (ps2link_marker_status g') else None) = Some 3.
Proof.
  pose proof (scan_finds_first_marker sim (bytes_of "@@END@@")
    [bytes_of "boot @@E"; bytes_of "ND@@ status=3" ++ [10]] (sim_console (bytes_of "@@END@@"))
    ltac:(by destruct (console_rel_init None)) eq_refl) as Hf.
  destruct Hf as (g' & Hr & Hs & _). exists g'. split; [exact Hr|]. rewrite Hs.
  vm_compute. reflexivity.
Defined.

Lemma suffix_of_suffix {A} (a b c d : list A) :
  a ++ b = c ++ d -> (length b <= length d)%nat -> exists e, d = e ++ b.
Proof.
  intros Heq Hl. exists (drop (length c) a). 
  assert (Hc : (length c <= length a)%nat)
    by (apply (f_equal length) in Heq; rewrite !length_app in Heq; lia).
  rewrite <- (drop_app_length c d), <- Heq. by apply drop_app_le.
Qed.

(** What is kept of a line has what is in its last 256 bytes. *)
Lemma kept_end_checked (marker before behind : list Z) :
  (length marker + length behind <= KEEP)%nat ->
  is_Some (check marker (kept (before ++ marker ++ behind))).
Proof.
  intros Hl. unfold check. apply fmap_is_Some, strstr_is_Some.
  destruct (kept_suffix (before ++ marker ++ behind)) as (lost & Heq & _ & Hlost).
  assert (Hsuffix : exists e, kept (before ++ marker ++ behind) = e ++ marker ++ behind).
  { destruct Hlost as [->|Hlong]; [by exists before|].
    apply (suffix_of_suffix before _ lost); [done|]. rewrite length_app. lia. }
  destruct Hsuffix as [e ->]. by exists e, behind.
Qed.

Lemma first_status_is_Some marker lines line :
  line ∈ lines -> is_Some (check marker line) -> is_Some (first_status marker lines).
Proof.
  unfold first_status. intros Hin [v Hv]. assert (Hin' : v ∈ omap (check marker) lines)
    by (apply list_elem_of_omap; by exists line).
  destruct (omap (check marker) lines) as [|x l]; [by apply not_elem_of_nil in Hin'|by exists x].
Qed.

(** C39: a marker in the last 256 bytes of a complete line is always seen,
    however long the line is and however the output is cut into packets: after
    the scan the flag is set. *)
Theorem marker_at_line_end_found (W : Type) `{PosixLaws W} (marker before behind : list Z)
    (packets : list (list Z)) (s : st link W) :
  console_rel (glob s) (mk_console [] None) -> ps2link_marker (glob s) = Some marker ->
  before ++ marker ++ behind ∈ (lines_of (concat packets)).1 ->
  (length marker + length behind <= KEEP)%nat ->
  exists g', scan_packets packets s = Ret (tt, mk_st g' (world s)) /\ ps2link_marker_seen g' = true.
Proof.
  intros Hrel Hm Hin Hl. pose proof (scan_packets_status marker packets s Hrel Hm) as Hscan.
  destruct (lines_of (concat packets)) as [lines rest]. destruct Hscan as (g' & Hr & Hst & _).
  exists g'. split; [done|].
  destruct (first_status_is_Some marker (map kept lines) (kept (before ++ marker ++ behind))) as [v Hv].
  - by apply list_elem_of_fmap_2.
  - by apply kept_end_checked.
  - rewrite Hv in Hst. by destruct (ps2link_marker_seen g').
Qed.

Definition long_line : list Z := replicate 5000 46 ++ bytes_of "@@END@@" ++ bytes_of " status=1".

Lemma marker_at_line_end_found_witness :
  exists g', scan_packets [take 3000 long_line; drop 3000 long_line ++ [10]]
               (sim_console (bytes_of "@@END@@"))
             = Ret (tt, mk_st g' (world (sim_console (bytes_of "@@END@@"))))
    /\ ps2link_marker_seen g' = true.
Proof.
  apply (marker_at_line_end_found sim (bytes_of "@@END@@") (replicate 5000 46) (bytes_of " status=1")).
  - by destruct (console_rel_init None).
  - reflexivity.
  - assert (Hlines : (lines_of (concat [take 3000 long_line; drop 3000 long_line ++ [10]])).1 = [long_line])
      by (vm_compute; reflexivity).
    rewrite Hlines. apply list_elem_of_singleton. reflexivity.
  - vm_compute. lia.
Defined.

#[global] Transparent LINE_SIZE.

(** A marker at the start of a line of more than 4095 bytes is lost,
    although the line has it: with the end of the line in the buffer, the
    check finds nothing. *)
Theorem long_line_loses_marker :
  let marker := bytes_of "@@END@@" in
  let line := marker ++ bytes_of " status=1 " ++ replicate 4100 46 in
  check marker line = Some 1 /\ check marker (kept line) = None.
Proof. vm_compute. done. Qed.

(** C21: the console thread, after any number of iterations, has printed
    exactly the bytes that came in on the console socket, in order, and has
    scanned exactly those; it sends nothing and never writes outside a
    buffer. *)
Theorem console_prints_and_scans (W : Type) `{PosixLaws W} (n : nat) (k : console) (s : st link W) :
  0 <= console_socket (glob s) -> console_rel (glob s) k ->
  exists buffer s', ps2link_thread_console n s = Ret (buffer, s')
    /\ console_done (ps2link_marker (glob s)) k s s'.
Proof.
  intros Hs Hrel. apply wp_run. unfold ps2link_thread_console. wp_step.
  destruct (Z.ltb_spec (console_socket (glob s)) 0); [lia|].
  apply console_loop_wp; [by rewrite length_replicate|done].
Qed.

Lemma console_prints_and_scans_witness :
  exists buffer s', ps2link_thread_console 1 (sim_console (bytes_of "@@")) = Ret (buffer, s')
    /\ console_done (Some (bytes_of "@@")) (mk_console [] None) (sim_console (bytes_of "@@")) s'.
Proof.
  apply (console_prints_and_scans sim 1 (mk_console [] None) (sim_console (bytes_of "@@"))).
  - vm_compute. discriminate.
  - by destruct (console_rel_init None).
Defined.
