(* ===== verification/Session.v ===== *)
(** * A session (ps2link_connect, ps2link_handshake, ps2link_mainloop and
      ps2link_disconnect in src/ps2link.c)

    The main thread runs beside the request and the console thread. What they
    do between two of its own steps is a parameter, [others]; the class
    [Interference] is what they promise the main thread, and the file Threads
    shows that the two threads keep it. A loop that waits for them is
    modelled by its state after any number of iterations: [None] means it is
    still waiting. *)

From S2P Require Import Prelude CLib Posix Utility Network Sim Link Response Request Service Handlers Command Console.

Definition CONSOLE_PORT : Z := 0x4712.
Definition REQUEST_PORT : Z := 0x4711.
Definition COMMAND_PORT : Z := 0x4712.
Definition PS2LINK_PING_REGS : Z := 1.

(** Whether a bit of [what] is set. *)
Definition wants (what bit : Z) : bool := negb (Z.land what bit =? 0).

(** ** What the other threads do meanwhile *)

Class OtherThreads (W : Type) := others : st link W -> st link W.

Section defs.
Context {W : Type} `{Posix W} `{!OtherThreads W}.

Definition interfere : M link W unit := fun s => Ret (tt, others s).

(** The three sockets of ps2link_connect; the result is whether one that is
    wanted could not be opened. *)
Definition open_console (what : Z) : M link W bool :=
  if wants what PS2LINK_CONNECT_CONSOLE then
    let! sock := network_listen CONSOLE_PORT SOCK_DGRAM in
    gmod (set_console_socket sock) ;;; ret (sock <? 0)
  else ret false.

Definition open_request (hostname : list Z) (what timeout_ms : Z) : M link W bool :=
  if wants what PS2LINK_CONNECT_REQUEST then
    let! sock := network_connect_timeout hostname REQUEST_PORT SOCK_STREAM timeout_ms in
    gmod (set_request_socket sock) ;;;
    if sock <? 0 then ret true
    else hcall (sys_nodelay sock) ;;; ret false
  else ret false.

Definition open_command (hostname : list Z) (what : Z) : M link W bool :=
  if wants what PS2LINK_CONNECT_COMMAND then
    let! sock := network_connect hostname COMMAND_PORT SOCK_DGRAM in
    gmod (set_command_socket sock) ;;; ret (sock <? 0)
  else ret false.

(** The threads that are created then are [others]. *)
Definition ps2link_connect (hostname : list Z) (what timeout_ms : Z) : M link W Z :=
  let! failed := open_console what in
  if failed : bool then ret PS2CLIENT_EXIT_PORTBUSY
  else
    let! failed := open_request hostname what timeout_ms in
    if failed : bool then ret PS2CLIENT_EXIT_NOCONNECT
    else
      let! failed := open_command hostname what in
      if failed : bool then ret PS2CLIENT_EXIT_NOCONNECT
      else ps2link_set_activity ;;; ret 0.

(** The loop of ps2link_handshake: the round trip time or -1. *)
Fixpoint handshake_loop (n : nat) (start next timeout_ms : Z) : M link W (option Z) :=
  match n with
  | O => ret None
  | S n =>
      interfere ;;;
      let! answered := ps2link_get_flag PingAnswered in
      if answered : bool then
        let! t := time_ms in ret (Some (s32 (t - start)))
      else
        let! now := time_ms in
        let! lost := (if now - start >=? timeout_ms then ret true else ps2link_get_flag Lost) in
        if lost : bool then ret (Some (-1))
        else
          let! next :=
            (if now >=? next then
               ps2link_command_dumpreg PS2LINK_PING_REGS (Some PS2LINK_PING_PATHNAME) ;;;
               ret (now + 1000)
             else ret next) in
          sleep_ms 5 ;;;
          handshake_loop n start next timeout_ms
  end.

Definition ps2link_handshake (n : nat) (timeout_ms : Z) : M link W (option Z) :=
  let! start := time_ms in handshake_loop n start start timeout_ms.

(** The last line, when it has no newline. *)
Definition check_last_line : M link W unit :=
  let! g := gget in
  if bool_decide (ps2link_marker g <> None) && negb (ps2link_marker_seen g)
     && (0 <? ps2link_line_length g)%nat
  then ps2link_check_line else ret tt.

Definition marker_exit (g : link) : Z := Z.land (ps2link_marker_status g) 255.

(** An iteration of the loop of ps2link_mainloop: the exit status, if it
    breaks. *)
Definition mainloop_iteration (timeout : Z) : M link W (option Z) :=
  interfere ;;;
  let! g := gget in
  if ps2link_marker_seen g then ret (Some (marker_exit g))
  else
    let activity := ps2link_activity g in
    if ps2link_lost g then
      sleep_ms 500 ;;;
      interfere ;;;
      check_last_line ;;;
      let! g := gget in
      ret (Some (if ps2link_marker_seen g then marker_exit g else PS2CLIENT_EXIT_CONNLOST))
    else
      let! idle :=
        (if timeout >? 0 then let! t := time_ms in ret (t - activity >=? timeout * 1000)
         else ret false) in
      if idle : bool then
        interfere ;;;
        check_last_line ;;;
        let! g := gget in
        ret (Some (if ps2link_marker_seen g then marker_exit g
                   else if bool_decide (ps2link_marker g <> None) then PS2CLIENT_EXIT_TIMEOUT
                   else PS2CLIENT_EXIT_OK))
      else sleep_ms 20 ;;; ret None.

Fixpoint mainloop_loop (n : nat) (timeout : Z) : M link W (option Z) :=
  match n with
  | O => ret None
  | S n =>
      let! status := mainloop_iteration timeout in
      match status with Some status => ret (Some status) | None => mainloop_loop n timeout end
  end.

Definition close_command : M link W unit :=
  let! g := gget in
  if command_socket g >=? 0 then
    network_disconnect (command_socket g) ;;; gmod (set_command_socket (-1))
  else ret tt.

Definition ps2link_mainloop (n : nat) (timeout : Z) : M link W (option Z) :=
  close_command ;;;
  if timeout =? 0 then ret (Some PS2CLIENT_EXIT_OK)
  else ps2link_set_activity ;;; mainloop_loop n timeout.

(** The threads are cancelled, then the sockets closed. *)
Definition ps2link_disconnect : M link W Z :=
  close_command ;;;
  (let! g := gget in
   if request_socket g >=? 0 then
     network_disconnect (request_socket g) ;;; gmod (set_request_socket (-1))
   else ret tt) ;;;
  (let! g := gget in
   if console_socket g >=? 0 then
     network_disconnect (console_socket g) ;;; gmod (set_console_socket (-1))
   else ret tt) ;;;
  ret 0.
End defs.

(** ** The promise of the other threads *)

(** The globals are in order: the line being scanned and the marker's status
    are those of a console, the handshake's state and the directory table
    those of a service. *)
Record ready (g : link) : Prop := {
  ready_console : exists k, console_rel g k;
  ready_service : exists v, svc_rel g v }.

(** The flags only rise, a marker once seen keeps its status, the rest of
    what the main thread uses stays, and the globals stay in order. *)
Record rely (g g' : link) : Prop := {
  rely_sockets : console_socket g' = console_socket g /\ request_socket g' = request_socket g
    /\ command_socket g' = command_socket g;
  rely_marker : ps2link_marker g' = ps2link_marker g;
  rely_lost : ps2link_lost g = true -> ps2link_lost g' = true;
  rely_answered : ps2link_ping_answered g = true -> ps2link_ping_answered g' = true;
  rely_seen : ps2link_marker_seen g = true ->
    ps2link_marker_seen g' = true /\ ps2link_marker_status g' = ps2link_marker_status g;
  rely_ready : ready g -> ready g' }.

#[export] Instance rely_preorder : PreOrder rely.
Proof.
  split.
  - intros g. by split.
  - intros g1 g2 g3 [S1 M1 L1 A1 E1 C1] [S2 M2 L2 A2 E2 C2]. split; auto.
    + destruct S1 as (? & ? & ?), S2 as (? & ? & ?). split_and!; congruence.
    + congruence.
    + intros H. destruct (E1 H) as [H' ?]. destruct (E2 H'). split; [done|congruence].
Qed.

(** Time passes, signals are used up, and the activity time only changes to
    a later time. *)
Definition interferes {W} `{Posix W} (s s' : st link W) : Prop :=
  rely (glob s) (glob s') /\ noted s s' /\ now (world s) <= now (world s')
  /\ (pending_signals (world s') <= pending_signals (world s))%nat.

Class Interference (W : Type) `{Posix W} `{!OtherThreads W} : Prop :=
  others_rely : forall s : st link W, ready (glob s) -> interferes s (others s).

(** They do not use the command port. This is a promise of its own: it needs
    a PS2 that does not name that descriptor in its requests. *)
Definition leaves_commands {W} `{Posix W} (s s' : st link W) : Prop :=
  tx (world s') (command_socket (glob s)) = tx (world s) (command_socket (glob s)).

Class PrivateCommands (W : Type) `{Posix W} `{!OtherThreads W} : Prop :=
  others_leave : forall s : st link W, leaves_commands s (others s).

(** What changes no part of a console or a service keeps the globals in
    order. *)
Lemma ready_set_sockets c r m g : ready g -> ready (set_sockets c r m g).
Proof. intros [[k []] [v []]]. split; [exists k|exists v]; by split. Qed.
Lemma ready_set_activity t g : ready g -> ready (set_activity t g).
Proof. intros [[k []] [v []]]. split; [exists k|exists v]; by split. Qed.
Lemma ready_set_marker m g : ready g -> ready (set_marker m g).
Proof. intros [[k []] [v []]]. split; [exists k|exists v]; by split. Qed.
Lemma ready_set_lost b g : ready g -> ready (set_lost b g).
Proof. intros [[k []] [v []]]. split; [exists k|exists v]; by split. Qed.

Lemma ready_init : ready link_init.
Proof.
  split; [exists (mk_console [] None)|exists (mk_svc (-1) false ∅)];
    [by destruct (console_rel_init None)|apply svc_rel_init].
Qed.

(** ** The main loop *)

(** The marker is in no line of the console, the unfinished one included. *)
Definition marker_missing (g : link) : Prop :=
  ps2link_marker_seen g = false
  /\ forall marker, ps2link_marker g = Some marker ->
       exists k, console_rel g k /\ (c_line k = [] \/ check marker (c_line k) = None).

(** What the main loop does between the look at the shared state that ends it
    and its return, when the marker was not there: in [s2] the other threads
    run once more, then the unfinished line is checked. *)
Definition last_look {W} `{Posix W} `{!OtherThreads W} (s2 s' : st link W) : Prop :=
  check_last_line (others s2) = Ret (tt, s').

(** Why the main loop, run since the time [since] (in ms), has returned a
    status in the state [s']. [s1] is the state of its last look. The
    connection was lost then, and half a second has been waited for more
    output; or the clock was read as [t] then, and the activity time was
    [timeout] seconds or more before that. No activity time is before
    [since], so the idle timeout also takes this long from the start on. *)
Inductive exit_status {W} `{Posix W} `{!OtherThreads W} (timeout since : Z) (s' : st link W) : Z -> Prop :=
| exit_marker : ps2link_marker_seen (glob s') = true ->
    exit_status timeout since s' (marker_exit (glob s'))
| exit_lost s1 r s2 : ps2link_lost (glob s1) = true -> ps2link_marker_seen (glob s1) = false ->
    sleep_ms 500 s1 = Ret (r, s2) -> last_look s2 s' ->
    ps2link_lost (glob s') = true -> marker_missing (glob s') ->
    exit_status timeout since s' PS2CLIENT_EXIT_CONNLOST
| exit_idle s1 t s2 : 0 < timeout ->
    ps2link_lost (glob s1) = false -> ps2link_marker_seen (glob s1) = false ->
    time_ms s1 = Ret (t, s2) -> last_look s2 s' ->
    since <= ps2link_activity (glob s1) -> ps2link_activity (glob s1) + timeout * 1000 <= t ->
    t <= now (world s') / 1000000 -> marker_missing (glob s') ->
    exit_status timeout since s'
      (if bool_decide (ps2link_marker (glob s') <> None) then PS2CLIENT_EXIT_TIMEOUT
       else PS2CLIENT_EXIT_OK).

Lemma console_frame_svc g g' v : console_frame g g' -> svc_rel g v -> svc_rel g' v.
Proof. intros -> []. case_match; by split. Qed.

Lemma console_frame_rely g g' k k' :
  console_rel g k -> console_rel g' k' -> console_frame g g' ->
  (forall v, c_status k = Some v -> c_status k' = Some v) -> rely g g'.
Proof.
  intros Hk Hk' Hfr Hst. pose proof (con_status _ _ Hk) as H1. pose proof (con_status _ _ Hk') as H2.
  split; try (rewrite Hfr; by case_match).
  - intros Hs. rewrite Hs in H1. rewrite (Hst _ H1) in H2. by case_match; simplify_eq.
  - intros [_ [v Hv]]. split; [by exists k'|]. exists v. by eapply console_frame_svc.
Qed.

Section main.
Context {W : Type} `{PosixLaws W} `{!OtherThreads W} `{!Interference W}.
Implicit Types (s : st link W) (w : W).

Lemma interfere_wp (E : fault -> Prop) s Q :
  ready (glob s) -> (forall s', s' = others s -> interferes s s' -> Q tt s') -> wp E interfere Q s.
Proof. intros Hr HQ. by apply HQ, others_rely. Qed.

Lemma check_last_line_wp (E : fault -> Prop) k s Q :
  console_rel (glob s) k ->
  (forall g' k', console_rel g' k' -> rely (glob s) g' ->
     ps2link_lost g' = ps2link_lost (glob s) ->
     ps2link_marker_seen g' = true \/ marker_missing g' -> Q tt (mk_st g' (world s))) ->
  wp E check_last_line Q s.
Proof.
  intros Hrel HQ. unfold check_last_line. wp_step.
  destruct (ps2link_marker (glob s)) as [marker|] eqn:Hm; simpl.
  2: { apply wp_ret. apply (HQ (glob s) k); [done|reflexivity|done|].
       destruct (ps2link_marker_seen (glob s)) eqn:Hs; [by left|right].
       split; [done|]. by rewrite Hm. }
  destruct (ps2link_marker_seen (glob s)) eqn:Hs; simpl.
  { apply wp_ret. apply (HQ (glob s) k); [done|reflexivity|done|by left]. }
  destruct (Nat.ltb_spec 0 (ps2link_line_length (glob s))) as [Hpos|Hzero].
  - apply (check_line_wp _ marker k); [done|done|]. intros g' Hrel' Hfr.
    pose proof (con_status _ _ Hrel) as Hst. rewrite Hs in Hst. rewrite Hst in Hrel'.
    apply (HQ g' _ Hrel').
    + eapply console_frame_rely; [exact Hrel|exact Hrel'|done|]. intros v. by rewrite Hst.
    + rewrite Hfr. by case_match.
    + pose proof (con_status _ _ Hrel') as Hst'. simpl in Hst'.
      destruct (ps2link_marker_seen g') eqn:Hs'; [by left|right]. split; [done|].
      intros m. rewrite (console_frame_marker _ _ Hfr), Hm. intros [= <-].
      eexists. split; [exact Hrel'|by right].
  - apply wp_ret. apply (HQ (glob s) k); [done|reflexivity|done|]. right. split; [done|].
    intros m. rewrite Hm. intros [= <-]. exists k. split; [done|left].
    rewrite <- (con_line _ _ Hrel). by replace (ps2link_line_length (glob s)) with 0%nat by lia.
Qed.

(** [check_last_line] on globals that are in order. *)
Lemma last_line_ready_wp (E : fault -> Prop) s Q :
  ready (glob s) ->
  (forall g', rely (glob s) g' -> ps2link_lost g' = ps2link_lost (glob s) ->
     ps2link_marker_seen g' = true \/ marker_missing g' -> Q tt (mk_st g' (world s))) ->
  wp E check_last_line Q s.
Proof. intros [[k Hk] _] HQ. apply (check_last_line_wp _ k); [done|]. intros g' k' _. apply HQ. Qed.

(** The activity time and the clock have passed a moment. *)
Definition running since s : Prop :=
  since <= ps2link_activity (glob s) /\ since <= now (world s) / 1000000.

Lemma running_interferes since s s' : running since s -> interferes s s' -> running since s'.
Proof.
  intros [Ha Hn] (_ & Hnt & Hnow & _). split; [by eapply noted_since|].
  apply (Z.div_le_mono _ _ 1000000) in Hnow; lia.
Qed.

(** What an iteration does: it ends the loop for a reason, or it has waited. *)
Lemma mainloop_iteration_wp (E : fault -> Prop) timeout since s Q :
  ready (glob s) -> running since s ->
  (forall r s', exit_status timeout since s' r -> rely (glob s) (glob s') -> Q (Some r) s') ->
  (forall s1 s', s1 = others s -> interferes s s1 -> glob s' = glob s1 ->
     (0 < timeout -> now (world s1) / 1000000 < ps2link_activity (glob s1) + timeout * 1000) ->
     (pending_signals (world s') <= pending_signals (world s))%nat ->
     now (world s1) + 20000000 <= now (world s')
     \/ now (world s1) <= now (world s') /\ (pending_signals (world s') < pending_signals (world s))%nat ->
     Q None s') ->
  wp E (mainloop_iteration timeout) Q s.
Proof.
  intros Hrd Hrun Hexit Hwait. unfold mainloop_iteration. apply wp_bind, interfere_wp; [done|].
  intros s1 Hs1 Hint. pose proof Hint as (Hr & _ & Hnow & Hsig). pose proof (rely_ready _ _ Hr Hrd) as Hrd1.
  wp_step. destruct (ps2link_marker_seen (glob s1)) eqn:Hs.
  { apply wp_ret, Hexit; [|done]. by apply exit_marker. }
  cbv zeta. destruct (ps2link_lost (glob s1)) eqn:Hlost.
  { apply wp_bind, wp_remember, sleep_ms_wp; [lia|]. intros r w2 _ _ Hsleep.
    apply wp_bind, interfere_wp; [done|]. intros s3 -> (Hr3 & _). simpl in Hr3.
    apply wp_bind, wp_remember, last_line_ready_wp; [by apply (rely_ready _ _ Hr3)|]. intros g' Hr' Hl' Hm Hlast.
    wp_step. apply wp_ret, Hexit; [|by do 2 (etrans; [done|])]. simpl.
    destruct (ps2link_marker_seen g') eqn:Hs'; [by apply (exit_marker _ _ (mk_st g' (world (others (mk_st (glob s1) w2)))))|].
    eapply exit_lost; [exact Hlost|exact Hs|exact Hsleep|exact Hlast| |by destruct Hm].
    simpl. rewrite Hl'. by apply (rely_lost _ _ Hr3). }
  assert (Hloop : forall w2, (pending_signals w2 <= pending_signals (world s1))%nat ->
    now (world s1) <= now w2 ->
    (0 < timeout -> now (world s1) / 1000000 < ps2link_activity (glob s1) + timeout * 1000) ->
    wp E (sleep_ms 20 ;;; ret None) Q (mk_st (glob s1) w2)).
  { intros w2 Hsig2 Hnow2 Hnot. apply wp_bind, sleep_ms_wp; [lia|]. simpl.
    intros _ w3 (_ & Hsig3 & Hnow3 & _) Hslept. apply wp_ret. eapply Hwait;
      [exact Hs1|exact Hint|done|done|simpl; lia|simpl; lia]. }
  destruct (Z.gtb_spec timeout 0) as [Hpos|Hneg].
  2: { apply wp_bind, wp_ret. apply Hloop; [done|lia|lia]. }
  apply wp_bind, wp_bind, wp_remember, time_ms_wp. intros t w2 (_ & Hsig2 & Hnow2 & _) Ht Htime. apply wp_ret.
  destruct (Z.geb_spec (t - ps2link_activity (glob s1)) (timeout * 1000)) as [Hge|Hlt].
  - apply wp_bind, interfere_wp; [done|]. intros s3 Hs3 (Hr3 & _ & Hnow3 & _). simpl in Hr3, Hnow3.
    apply wp_bind, wp_remember, last_line_ready_wp; [by apply (rely_ready _ _ Hr3)|].
    intros g' Hr' Hl' Hm Hlast.
    wp_step. apply wp_ret, Hexit; [|by do 2 (etrans; [done|])]. simpl.
    destruct (ps2link_marker_seen g') eqn:Hs'; [by apply (exit_marker _ _ (mk_st g' (world s3)))|].
    destruct Hm as [|Hm]; [done|].
    apply (exit_idle _ _ (mk_st g' (world s3)) s1 t (mk_st (glob s1) w2)); try done; [unfold last_look; by rewrite <- Hs3| |lia|].
    + by destruct (running_interferes _ _ _ Hrun Hint).
    + simpl. apply (Z.div_le_mono _ _ 1000000) in Hnow3; lia.
  - apply Hloop; [exact Hsig2|exact Hnow2|]. intros _. lia.
Qed.

Lemma running_slept since s s1 s' :
  running since s -> interferes s s1 -> glob s' = glob s1 ->
  now (world s1) + 20000000 <= now (world s')
  \/ now (world s1) <= now (world s') /\ (pending_signals (world s') < pending_signals (world s))%nat ->
  running since s'.
Proof.
  intros Hrun Hint Hg Hslept. destruct (running_interferes _ _ _ Hrun Hint) as [Ha Hn].
  split; [by rewrite Hg|]. assert (Hle : now (world s1) <= now (world s')) by lia.
  apply (Z.div_le_mono _ _ 1000000) in Hle; lia.
Qed.

(** The loop only returns for a reason, whatever the threads do. *)
Lemma mainloop_loop_wp (E : fault -> Prop) timeout since n : forall s,
  ready (glob s) -> running since s ->
  wp E (mainloop_loop n timeout)
    (fun r s' => rely (glob s) (glob s')
                 /\ forall status, r = Some status -> exit_status timeout since s' status) s.
Proof.
  induction n as [|n IH]; intros s Hrd Hrun; simpl; [by apply wp_ret|].
  apply wp_bind. apply (mainloop_iteration_wp _ _ since); [done|done| |].
  - intros r s' Hr Hrely. apply wp_ret. split; [done|]. by intros status [= ->].
  - intros s1 s' _ Hint Hg _ _ Hslept. pose proof Hint as (Hr & _).
    assert (Hrd' : ready (glob s')) by (rewrite Hg; by apply (rely_ready _ _ Hr)).
    assert (Hrun' : running since s') by (by eapply running_slept).
    eapply wp_mono; [by apply IH|done|]. intros r s2 [Hr2 Hst]. split; [|done].
    etrans; [exact Hr|]. by rewrite <- Hg.
Qed.

(** Without activity it returns in time. *)
Lemma mainloop_idle_wp (E : fault -> Prop) timeout since n :
  (forall s, ps2link_activity (glob (others s)) = ps2link_activity (glob s)) ->
  0 < timeout -> forall m s,
  ready (glob s) -> running since s ->
  ps2link_activity (glob s) * 1000000 + timeout * 1000000000 - now (world s) <= 20000000 * Z.of_nat m ->
  (m + pending_signals (world s) < n)%nat ->
  wp E (mainloop_loop n timeout)
    (fun r s' => exists status, r = Some status /\ exit_status timeout since s' status) s.
Proof.
  intros Hact Hpos. induction n as [|n IH]; intros m s Hrd Hrun Hm Hn; [lia|]. simpl.
  apply wp_bind. apply (mainloop_iteration_wp _ _ since); [done|done| |].
  - intros r s' Hr _. apply wp_ret. eauto.
  - intros s1 s' -> Hint Hg Hnot Hsig Hslept. specialize (Hnot Hpos). pose proof Hint as (Hr & _ & Hnow & _).
    assert (Hrd' : ready (glob s')) by (rewrite Hg; by apply (rely_ready _ _ Hr)).
    assert (Hrun' : running since s') by (by eapply running_slept).
    rewrite Hact in Hnot.
    assert (Hrem : now (world s) < ps2link_activity (glob s) * 1000000 + timeout * 1000000000)
      by (Z.div_mod_to_equations; lia).
    destruct Hslept as [Hslept|[Hslept Hused]].
    + apply (IH (m - 1)%nat); [done|done| |lia]. rewrite Hg, Hact. lia.
    + apply (IH m); [done|done| |lia]. rewrite Hg, Hact. lia.
Qed.

(** ** The handshake *)

(** How many more commands the handshake can send, from its next one on. *)
Definition sends_left (deadline next : Z) : Z := Z.max 0 ((deadline - next + 999) / 1000).

(** Why the handshake, run for [timeout] ms from the state [s], has returned
    in the state [s']: [start] is its first reading of the clock. Either a
    look, in [s1], has found the answer and nothing but another reading of the
    clock, [t], came after it, which is the round trip time; or there was no
    answer when it returned, and the time was up or the connection lost. *)
Inductive handshake_result (timeout : Z) s s' : Z -> Prop :=
| hs_answered start s0 s1 t : time_ms s = Ret (start, s0) ->
    ps2link_ping_answered (glob s1) = true -> time_ms s1 = Ret (t, s') -> start <= t ->
    handshake_result timeout s s' (s32 (t - start))
| hs_silent start s0 : time_ms s = Ret (start, s0) ->
    ps2link_ping_answered (glob s') = false ->
    start + timeout <= now (world s') / 1000000 \/ ps2link_lost (glob s') = true ->
    handshake_result timeout s s' (-1).

(** The same, once the clock was read. *)
Inductive loop_result (deadline start : Z) s' : Z -> Prop :=
| lr_answered s1 t : ps2link_ping_answered (glob s1) = true -> time_ms s1 = Ret (t, s') ->
    start <= t -> loop_result deadline start s' (s32 (t - start))
| lr_silent : ps2link_ping_answered (glob s') = false ->
    deadline <= now (world s') / 1000000 \/ ps2link_lost (glob s') = true ->
    loop_result deadline start s' (-1).

Lemma loop_result_handshake timeout s start s0 s' res :
  time_ms s = Ret (start, s0) -> loop_result (start + timeout) start s' res ->
  handshake_result timeout s s' res.
Proof. intros Ht. destruct 1; [by eapply hs_answered|by eapply hs_silent]. Qed.

Lemma handshake_result_answered timeout s s' res :
  handshake_result timeout s s' res -> 0 <= res -> ps2link_ping_answered (glob s') = true.
Proof.
  destruct 1 as [start s0 s1 t _ Ha Ht _|]; [|lia]. intros _. revert Ht. unfold time_ms, bind, hcall, ret.
  destruct (sys_clock_gettime (world s1)) as [ts w]. by intros [= _ <-].
Qed.

(** One command at most, and what is sent stays on the command socket. *)
Lemma ping_wp (E : fault -> Prop) s Q :
  (forall r w', quiet_but (Some (command_socket (glob s))) (world s) w' ->
     (length (tx w' (command_socket (glob s)))
      <= length (tx (world s) (command_socket (glob s))) + 266)%nat ->
     Q r (mk_st (glob s) w')) ->
  wp E (ps2link_command_dumpreg PS2LINK_PING_REGS (Some PS2LINK_PING_PATHNAME)) Q s.
Proof.
  intros HQ.
  apply (issue_command_wp _ (Dumpreg PS2LINK_PING_REGS PS2LINK_PING_PATHNAME)); [done|].
  intros obj w1 r w' Hq Hobj [Hqb Hrx (n & Htx & _)]. apply HQ.
  - etrans; [by apply quiet_weaken|exact Hqb].
  - rewrite Htx, (quiet_tx _ _ _ Hq), length_app, length_take.
    pose proof (length_command_packet obj (Dumpreg PS2LINK_PING_REGS PS2LINK_PING_PATHNAME)
      eq_refl Hobj) as Hlen. cbn [command_size] in Hlen. lia.
Qed.

Definition handshake_done (deadline start next : Z) s (r : option Z) s' : Prop :=
  let sock := command_socket (glob s) in
  exists res, r = Some res
    /\ Z.of_nat (length (tx (world s') sock))
       <= Z.of_nat (length (tx (world s) sock)) + 266 * sends_left deadline next.

(** Sleeping between two looks, [next] being when the next command is due. *)
Lemma handshake_sleep_wp (E : fault -> Prop) n start next timeout s s1 w3 :
  (forall s', ready (glob s') -> start <= now (world s') / 1000000 ->
     enough 5000000 n (start + timeout) (world s') ->
     wp E (handshake_loop n start next timeout) (handshake_done (start + timeout) start next s') s') ->
  ready (glob s1) -> start <= now (world s1) / 1000000 -> enough 5000000 (S n) (start + timeout) (world s1) ->
  now (world s1) < (start + timeout) * 1000000 -> now (world s1) <= now w3 ->
  (pending_signals w3 <= pending_signals (world s1))%nat ->
  command_socket (glob s1) = command_socket (glob s) ->
  forall due, Z.of_nat (length (tx w3 (command_socket (glob s)))) + 266 * sends_left (start + timeout) next
    <= Z.of_nat (length (tx (world s) (command_socket (glob s)))) + 266 * sends_left (start + timeout) due ->
  wp E (sleep_ms 5 ;;; handshake_loop n start next timeout)
    (handshake_done (start + timeout) start due s) (mk_st (glob s1) w3).
Proof.
  intros IH Hrd Hstart Hn Hlt Hnow Hsig Hsock due Hsends. apply wp_bind, sleep_ms_wp; [lia|]. simpl.
  intros _ w4 Hq4 Hslept. pose proof (quiet_tx _ _ (command_socket (glob s)) Hq4) as Htx4.
  destruct Hq4 as (_ & Hsig4 & Hnow4 & _).
  assert (Hnow14 : now (world s1) <= now w4) by (etrans; [exact Hnow|lia]).
  eapply wp_mono; [apply (IH (mk_st (glob s1) w4)); simpl; [done| |]| |].
  - etrans; [exact Hstart|by apply Z.div_le_mono].
  - eapply enough_step; [lia|exact Hn|done|done|lia|]. right. destruct Hslept; [left|right]; lia.
  - done.
  - intros r s5 (res & -> & Hlen). exists res. split; [done|].
    simpl in Hlen. rewrite Hsock, Htx4 in Hlen. lia.
Qed.

Lemma handshake_loop_wp `{!PrivateCommands W} (E : fault -> Prop) start timeout n : forall next s,
  ready (glob s) -> start <= now (world s) / 1000000 -> enough 5000000 n (start + timeout) (world s) ->
  wp E (handshake_loop n start next timeout) (handshake_done (start + timeout) start next s) s.
Proof.
  induction n as [|n IH]; intros next s Hrd Hstart Hn; [by destruct (enough_zero _ _ _ Hn)|]. simpl.
  apply wp_bind, interfere_wp; [done|]. intros s1 Hs1 (Hr & _ & Hnow & Hsig).
  pose proof (others_leave s) as Htx. rewrite <- Hs1 in Htx. unfold leaves_commands in Htx. clear Hs1.
  pose proof (rely_ready _ _ Hr Hrd) as Hrd1.
  destruct (rely_sockets _ _ Hr) as (_ & _ & Hsock).
  assert (Hz : 0 <= sends_left (start + timeout) next) by (unfold sends_left; lia).
  assert (Hstart1 : start <= now (world s1) / 1000000)
    by (etrans; [exact Hstart|by apply Z.div_le_mono]).
  assert (Hn1 : enough 5000000 (S n) (start + timeout) (world s1)).
  { destruct Hn as (m & Hm & Hn). exists m. lia. }
  apply wp_bind. unfold ps2link_get_flag at 1. wp_step. apply wp_ret. cbn [read_flag].
  destruct (ps2link_ping_answered (glob s1)) eqn:Hans.
  { apply wp_bind, time_ms_wp. intros t w2 Hq Ht. apply wp_ret.
    exists (s32 (t - start)). split; [done|]. simpl. rewrite (quiet_tx _ _ _ Hq), Htx. lia. }
  apply wp_bind, time_ms_wp. intros t w2 Hq2 Ht.
  pose proof (quiet_tx _ _ (command_socket (glob s)) Hq2) as Htx2. rewrite Htx in Htx2.
  destruct Hq2 as (_ & Hsig2 & Hnow2 & _). apply wp_bind.
  destruct (Z.geb_spec (t - start) timeout) as [Hge|Hlt].
  { apply wp_ret, wp_ret. exists (-1). simpl. split; [done|rewrite Htx2; lia]. }
  unfold ps2link_get_flag. wp_step. apply wp_ret. cbn [read_flag].
  destruct (ps2link_lost (glob s1)) eqn:Hlost.
  { apply wp_ret. exists (-1). simpl. split; [done|rewrite Htx2; lia]. }
  assert (Hbefore : now (world s1) < (start + timeout) * 1000000) by (Z.div_mod_to_equations; lia).
  destruct (Z.geb_spec t next) as [Hsend|Hnot]; apply wp_bind.
  - apply wp_bind, ping_wp. simpl. intros r w3 (_ & Hsig3 & Hnow3 & _) Hlen. apply wp_ret.
    apply handshake_sleep_wp; try done; [by apply IH|lia|lia|].
    rewrite <- Hsock in *. rewrite Htx2 in Hlen.
    assert (sends_left (start + timeout) (t + 1000) + 1 <= sends_left (start + timeout) next)
      by (unfold sends_left; Z.div_mod_to_equations; lia).
    lia.
  - apply wp_ret, handshake_sleep_wp; try done; [by apply IH|]. rewrite Htx2. lia.
Qed.

(** What holds however long the handshake has run. *)
Definition handshake_safe deadline start s (r : option Z) s' : Prop :=
  rely (glob s) (glob s') /\ forall res, r = Some res -> loop_result deadline start s' res.

Lemma handshake_loop_safe (E : fault -> Prop) start timeout n : forall next s,
  ready (glob s) -> start <= now (world s) / 1000000 ->
  wp E (handshake_loop n start next timeout) (handshake_safe (start + timeout) start s) s.
Proof.
  induction n as [|n IH]; intros next s Hrd Hst; simpl; [by apply wp_ret|].
  apply wp_bind, interfere_wp; [done|]. intros s1 _ (Hr & _ & Hnow & _).
  assert (Hst1 : start <= now (world s1) / 1000000)
    by (apply (Z.div_le_mono _ _ 1000000) in Hnow; lia).
  apply wp_bind. unfold ps2link_get_flag at 1. wp_step. apply wp_ret. cbn [read_flag].
  destruct (ps2link_ping_answered (glob s1)) eqn:Hans.
  { apply wp_bind, wp_remember, time_ms_wp. intros t w2 _ Ht Hrun. apply wp_ret. split; [done|].
    intros res [= <-]. eapply lr_answered; [exact Hans|exact Hrun|lia]. }
  apply wp_bind, time_ms_wp. intros t w2 (_ & _ & Hn2 & _) Ht. apply wp_bind.
  assert (Hloop : forall next' w3, now w2 <= now w3 -> wp E (sleep_ms 5 ;;; handshake_loop n start next' timeout)
    (handshake_safe (start + timeout) start s) (mk_st (glob s1) w3)).
  { intros next' w3 Hn3. apply wp_bind, sleep_ms_wp; [lia|]. simpl. intros _ w4 (_ & _ & Hn4 & _) _.
    eapply wp_mono; [apply IH; simpl; [by apply (rely_ready _ _ Hr)|]|done|].
    - assert (Hn : now (world s1) <= now w4) by lia. apply (Z.div_le_mono _ _ 1000000) in Hn; lia.
    - intros r s' [Hr' Hres]. split; [by etrans|done]. }
  assert (Hgo : forall lost : bool,
    (lost = true -> start + timeout <= t \/ ps2link_lost (glob s1) = true) -> wp E
    (if lost then ret (Some (-1))
     else let! next := (if t >=? next then
              ps2link_command_dumpreg PS2LINK_PING_REGS (Some PS2LINK_PING_PATHNAME) ;;;
              ret (t + 1000) else ret next) in
          sleep_ms 5 ;;; handshake_loop n start next timeout)
    (handshake_safe (start + timeout) start s) (mk_st (glob s1) w2)).
  { intros [|] Hlost.
    - apply wp_ret. split; [done|]. intros ? [= <-]. apply lr_silent; [done|].
      simpl. destruct (Hlost eq_refl); [left; lia|by right].
    - apply wp_bind. destruct (t >=? next); [|by apply wp_ret, Hloop].
      apply wp_bind, ping_wp. simpl. intros r w3 (_ & _ & Hn3 & _) _. by apply wp_ret, Hloop. }
  destruct (Z.geb_spec (t - start) timeout); [apply wp_ret, (Hgo true); intros; left; lia|].
  unfold ps2link_get_flag. wp_step. apply wp_ret, Hgo. by right.
Qed.

Lemma handshake_safe_wp (E : fault -> Prop) timeout n s :
  ready (glob s) -> wp E (ps2link_handshake n timeout)
    (fun r s' => rely (glob s) (glob s')
       /\ forall res, r = Some res -> handshake_result timeout s s' res) s.
Proof.
  intros Hrd. unfold ps2link_handshake. apply wp_bind, wp_remember, time_ms_wp. intros start w1 _ Ht Hrun.
  eapply wp_mono; [apply (handshake_loop_safe _ start timeout n start (mk_st (glob s) w1)); [done|simpl; lia]|done|].
  intros r s' [Hr Hres]. split; [done|]. intros res Hrs. eapply loop_result_handshake; [exact Hrun|by apply Hres].
Qed.

(** It also returns in time, and sends little. *)
Lemma handshake_returns_wp `{!PrivateCommands W} (E : fault -> Prop) timeout n s :
  ready (glob s) -> 0 <= timeout -> (Z.to_nat (timeout / 5 + 2) + pending_signals (world s) < n)%nat ->
  wp E (ps2link_handshake n timeout)
    (fun r s' => exists res, r = Some res
       /\ Z.of_nat (length (tx (world s') (command_socket (glob s))))
          <= Z.of_nat (length (tx (world s) (command_socket (glob s))))
             + 266 * ((timeout + 999) / 1000)) s.
Proof.
  intros Hrd Ht Hn. unfold ps2link_handshake. apply wp_bind, time_ms_wp.
  intros start w1 Hq Hstart. pose proof (quiet_tx _ _ (command_socket (glob s)) Hq) as Htx.
  destruct Hq as (_ & Hsig & Hnow & _).
  eapply wp_mono; [apply (handshake_loop_wp _ start timeout n); [done| |]| |].
  - simpl. lia.
  - exists (Z.to_nat (timeout / 5 + 2)). simpl. split; [|lia]. Z.div_mod_to_equations. lia.
  - done.
  - intros r s' (res & -> & Hlen). exists res.
    simpl in Hlen. rewrite Htx in Hlen. unfold sends_left in Hlen.
    replace (start + timeout - start + 999) with (timeout + 999) in Hlen by lia.
    rewrite Z.max_r in Hlen by (apply Z.div_pos; lia). done.
Qed.
End main.

(** ** Connecting and disconnecting *)

Section connection.
Context {W : Type} `{PosixLaws W}.
Implicit Types (s : st link W) (w : W).

(** A socket is open exactly as it was asked for. *)
Definition opened (what bit old new : Z) : Prop :=
  if wants what bit then 0 <= new else new = old.

(** Only the sockets and the activity time change. *)
Definition connect_frame (g g' : link) : Prop :=
  g' = set_activity (ps2link_activity g')
         (set_sockets (console_socket g') (request_socket g') (command_socket g') g).

(** Why ps2link_connect, run from [s], has returned in [s']: every socket that
    was asked for is open; or the first one that could not be opened is the
    console's, the request connection or the command socket, the call for it
    failed, and nothing was done after that. *)
Inductive connect_result (hostname : list Z) (what timeout_ms : Z) s s' : Z -> Prop :=
| con_ok : opened what PS2LINK_CONNECT_CONSOLE (console_socket (glob s)) (console_socket (glob s')) ->
    opened what PS2LINK_CONNECT_REQUEST (request_socket (glob s)) (request_socket (glob s')) ->
    opened what PS2LINK_CONNECT_COMMAND (command_socket (glob s)) (command_socket (glob s')) ->
    connect_result hostname what timeout_ms s s' 0
| con_busy sock w : wants what PS2LINK_CONNECT_CONSOLE = true ->
    network_listen CONSOLE_PORT SOCK_DGRAM s = Ret (sock, mk_st (glob s) w) -> sock < 0 ->
    s' = mk_st (set_console_socket sock (glob s)) w ->
    connect_result hostname what timeout_ms s s' PS2CLIENT_EXIT_PORTBUSY
| con_refused s1 sock w : wants what PS2LINK_CONNECT_REQUEST = true ->
    opened what PS2LINK_CONNECT_CONSOLE (console_socket (glob s)) (console_socket (glob s1)) ->
    glob s1 = set_console_socket (console_socket (glob s1)) (glob s) -> quiet (world s) (world s1) ->
    network_connect_timeout hostname REQUEST_PORT SOCK_STREAM timeout_ms s1 = Ret (sock, mk_st (glob s1) w) ->
    sock < 0 -> s' = mk_st (set_request_socket sock (glob s1)) w ->
    connect_result hostname what timeout_ms s s' PS2CLIENT_EXIT_NOCONNECT
| con_no_command s1 sock w : wants what PS2LINK_CONNECT_COMMAND = true ->
    opened what PS2LINK_CONNECT_CONSOLE (console_socket (glob s)) (console_socket (glob s1)) ->
    opened what PS2LINK_CONNECT_REQUEST (request_socket (glob s)) (request_socket (glob s1)) ->
    glob s1 = set_console_socket (console_socket (glob s1)) (set_request_socket (request_socket (glob s1)) (glob s)) ->
    quiet (world s) (world s1) ->
    network_connect hostname COMMAND_PORT SOCK_DGRAM s1 = Ret (sock, mk_st (glob s1) w) ->
    sock < 0 -> s' = mk_st (set_command_socket sock (glob s1)) w ->
    connect_result hostname what timeout_ms s s' PS2CLIENT_EXIT_NOCONNECT.

(** Opening a socket with [call]: [put] stores it. *)
Definition socket_done (what bit old : Z) (put : Z -> link -> link) (call : M link W Z) s (failed : bool) s'
    : Prop :=
  quiet (world s) (world s') /\ exists sock, glob s' = put sock (glob s)
    /\ if failed then wants what bit = true /\ sock < 0 /\ call s = Ret (sock, mk_st (glob s) (world s'))
       else opened what bit old sock.

Lemma open_console_wp (E : fault -> Prop) what s :
  wp E (open_console what)
    (socket_done what PS2LINK_CONNECT_CONSOLE (console_socket (glob s)) set_console_socket
       (network_listen CONSOLE_PORT SOCK_DGRAM) s) s.
Proof.
  unfold open_console, socket_done, opened. destruct (wants what PS2LINK_CONNECT_CONSOLE).
  - apply wp_bind, wp_remember, network_listen_wp. intros sock w1 Hq Hsock Hrun. wp_step. apply wp_ret.
    split; [done|]. exists sock. split; [done|]. destruct (Z.ltb_spec sock 0); auto.
  - apply wp_ret. split; [reflexivity|]. exists (console_socket (glob s)). by destruct s as [[] ?].
Qed.

Lemma open_request_wp (E : fault -> Prop) hostname what timeout_ms s :
  wp E (open_request hostname what timeout_ms)
    (socket_done what PS2LINK_CONNECT_REQUEST (request_socket (glob s)) set_request_socket
       (network_connect_timeout hostname REQUEST_PORT SOCK_STREAM timeout_ms) s) s.
Proof.
  unfold open_request, socket_done, opened. destruct (wants what PS2LINK_CONNECT_REQUEST).
  - apply wp_bind, wp_remember, network_connect_timeout_wp. intros sock w1 Hq Hsock Hrun. wp_step.
    destruct (Z.ltb_spec sock 0).
    + apply wp_ret. split; [done|]. by exists sock.
    + wp_step. intros r w2 Hq2%nodelay_law. apply wp_ret. split; [by etrans|]. by exists sock.
  - apply wp_ret. split; [reflexivity|]. exists (request_socket (glob s)). by destruct s as [[] ?].
Qed.

Lemma open_command_wp (E : fault -> Prop) hostname what s :
  wp E (open_command hostname what)
    (socket_done what PS2LINK_CONNECT_COMMAND (command_socket (glob s)) set_command_socket
       (network_connect hostname COMMAND_PORT SOCK_DGRAM) s) s.
Proof.
  unfold open_command, network_connect, socket_done, opened.
  destruct (wants what PS2LINK_CONNECT_COMMAND).
  - apply wp_bind, wp_remember, network_connect_timeout_wp. intros sock w1 Hq Hsock Hrun. wp_step. apply wp_ret.
    split; [done|]. exists sock. split; [done|]. destruct (Z.ltb_spec sock 0); auto.
  - apply wp_ret. split; [reflexivity|]. exists (command_socket (glob s)). by destruct s as [[] ?].
Qed.

Lemma connect_wp (E : fault -> Prop) hostname what timeout_ms s :
  wp E (ps2link_connect hostname what timeout_ms)
    (fun r s' => connect_result hostname what timeout_ms s s' r /\ connect_frame (glob s) (glob s')
                 /\ quiet (world s) (world s')) s.
Proof.
  unfold ps2link_connect. eapply wp_bind_spec; [apply open_console_wp|].
  intros f1 [g1 w1] (Hq1 & c & Hg1 & Hc); simpl in Hq1, Hg1; subst g1. destruct f1.
  { destruct Hc as (? & ? & ?). apply wp_ret. split_and!; [by eapply con_busy|by destruct s as [[] ?]|done]. }
  eapply wp_bind_spec; [apply open_request_wp|].
  intros f2 [g2 w2] (Hq2 & r & Hg2 & Hr); simpl in Hq2, Hg2, Hr; subst g2.
  assert (quiet (world s) w2) by (by etrans). destruct f2.
  { destruct Hr as (? & ? & ?). apply wp_ret. split_and!; [|by destruct s as [[] ?]|done].
    by apply (con_refused _ _ _ _ _ (mk_st (set_console_socket c (glob s)) w1) r w2). }
  eapply wp_bind_spec; [apply open_command_wp|].
  intros f3 [g3 w3] (Hq3 & m & Hg3 & Hm); simpl in Hq3, Hg3, Hm; subst g3.
  assert (quiet (world s) w3) by (by etrans). destruct f3.
  { destruct Hm as (? & ? & ?). apply wp_ret. split_and!; [|by destruct s as [[] ?]|done].
    by apply (con_no_command _ _ _ _ _
      (mk_st (set_request_socket r (set_console_socket c (glob s))) w2) m w3). }
  apply wp_bind, set_activity_wp. intros t w4 Hq4 _. apply wp_ret.
  split_and!; [by apply con_ok|by destruct s as [[] ?]|by etrans].
Qed.

Definition closed (sock : Z) : Z := if sock >=? 0 then -1 else sock.

Lemma closed_neg sock : closed sock < 0.
Proof. unfold closed. destruct (Z.geb_spec sock 0); lia. Qed.

Lemma closed_open sock : (sock >=? 0) = true -> closed sock = -1.
Proof. unfold closed. by intros ->. Qed.
Lemma closed_shut sock : (sock >=? 0) = false -> closed sock = sock.
Proof. unfold closed. by intros ->. Qed.

Lemma close_command_wp (E : fault -> Prop) s Q :
  (forall w', quiet (world s) w' ->
     Q tt (mk_st (set_command_socket (closed (command_socket (glob s))) (glob s)) w')) ->
  wp E close_command Q s.
Proof.
  intros HQ. unfold close_command, closed in *. wp_step. destruct (_ >=? 0).
  - apply wp_bind, network_disconnect_wp. intros r w' Hq _. wp_step. by apply HQ.
  - apply wp_ret. specialize (HQ (world s) ltac:(reflexivity)). by destruct s as [[] ?].
Qed.

Lemma disconnect_wp (E : fault -> Prop) s :
  wp E ps2link_disconnect
    (fun r s' => r = 0 /\ quiet (world s) (world s')
       /\ glob s' = set_sockets (closed (console_socket (glob s))) (closed (request_socket (glob s)))
                      (closed (command_socket (glob s))) (glob s)) s.
Proof.
  unfold ps2link_disconnect. apply wp_bind, close_command_wp. intros w1 Hq1. apply wp_bind.
  set (done_ r c g := set_sockets c r (closed (command_socket (glob s))) g).
  apply wp_mono with (E := E) (Q := fun _ s2 => quiet (world s) (world s2)
    /\ glob s2 = done_ (closed (request_socket (glob s))) (console_socket (glob s)) (glob s)); [|done|].
  { wp_step. simpl. destruct (request_socket (glob s) >=? 0) eqn:Hr.
    - apply wp_bind, network_disconnect_wp. intros r w2 Hq2 _. wp_step.
      rewrite (closed_open _ Hr). split; [by etrans|done].
    - apply wp_ret. rewrite (closed_shut _ Hr). by split. }
  intros _ [g w2] [Hq2 Hg]. simpl in Hg, Hq2. subst g. apply wp_bind.
  wp_step. simpl. destruct (console_socket (glob s) >=? 0) eqn:Hc.
  - apply wp_bind, network_disconnect_wp. intros r w3 Hq3 _. wp_step. apply wp_ret.
    rewrite (closed_open _ Hc). split_and!; [done|by etrans|done].
  - apply wp_ret, wp_ret. by rewrite (closed_shut _ Hc).
Qed.
End connection.

Section mainloop.
Context {W : Type} `{PosixLaws W} `{!OtherThreads W} `{!Interference W}.
Implicit Types (s : st link W) (w : W).

Lemma rely_set_activity g t : rely g (set_activity t g).
Proof. split; try done. apply ready_set_activity. Qed.

(** The loop starts with the activity time it has just noted. *)
Lemma running_start s w1 w2 g t :
  now (world s) <= now w1 -> now w1 <= now w2 -> now w1 / 1000000 <= t ->
  running (now (world s) / 1000000) (mk_st (set_activity t g) w2).
Proof.
  intros Hn1 Hn2 Ht. assert (Hn : now (world s) <= now w2) by lia.
  apply (Z.div_le_mono _ _ 1000000) in Hn1, Hn; [|lia|lia]. split; simpl; lia.
Qed.

Lemma mainloop_wp (E : fault -> Prop) timeout n s :
  ready (glob s) -> timeout <> 0 ->
  wp E (ps2link_mainloop n timeout)
    (fun r s' => (forall status, r = Some status ->
         exit_status timeout (now (world s) / 1000000) s' status)
       /\ rely (set_command_socket (closed (command_socket (glob s))) (glob s)) (glob s')) s.
Proof.
  intros Hrd Ht. unfold ps2link_mainloop. apply wp_bind, close_command_wp. intros w1 (_ & _ & Hn1 & _).
  destruct (Z.eqb_spec timeout 0); [lia|].
  apply wp_bind, set_activity_wp. simpl. intros t w2 (_ & _ & Hn2 & _) Ht2.
  eapply wp_mono; [apply (mainloop_loop_wp _ _ (now (world s) / 1000000));
    [by apply ready_set_activity, ready_set_sockets|apply (running_start _ w1); [done|done|lia]]|done|].
  intros r s' [Hr Hst]. split; [done|]. etrans; [by apply rely_set_activity|exact Hr].
Qed.

(** While nothing happens the loop takes [timeout] seconds. *)
Lemma mainloop_returns (E : fault -> Prop) timeout n s :
  (forall s, ps2link_activity (glob (others s)) = ps2link_activity (glob s)) ->
  ready (glob s) -> 0 < timeout ->
  (50 * Z.to_nat timeout + pending_signals (world s) < n)%nat ->
  wp E (ps2link_mainloop n timeout)
    (fun r s' => exists status, r = Some status
       /\ exit_status timeout (now (world s) / 1000000) s' status) s.
Proof.
  intros Hact Hrd Ht Hn. unfold ps2link_mainloop. apply wp_bind, close_command_wp.
  intros w1 (_ & Hs1 & Hn1 & _). destruct (Z.eqb_spec timeout 0); [lia|].
  apply wp_bind, set_activity_wp. simpl. intros t w2 (_ & Hs2 & Hn2 & _) Ht2.
  apply (mainloop_idle_wp _ _ _ _ Hact Ht (50 * Z.to_nat timeout)); simpl.
  - by apply ready_set_activity, ready_set_sockets.
  - eapply running_start; [exact Hn1|exact Hn2|lia].
  - Z.div_mod_to_equations. lia.
  - lia.
Qed.
End mainloop.

(** ** The properties of a session *)

(** A host whose other threads do nothing. *)
#[export] Instance idle_threads : OtherThreads sim := fun s => s.

#[export] Instance idle_interference : Interference sim.
Proof. intros s _. split_and!; [reflexivity|by left|done|done]. Qed.
#[export] Instance idle_private : PrivateCommands sim.
Proof. by intros s. Qed.

Lemma sim_console_ready m : ready (glob (sim_console m)).
Proof. apply ready_set_marker, ready_set_sockets, ready_init. Qed.

(** C4: from globals in order the main loop only ends with the right exit
    status, whatever the other threads do meanwhile: with the low byte of the
    marker's status when the marker was seen; with 74 when the connection was
    lost at its last look, another half second was waited, and no line, the
    unfinished one included, has the marker; and without a marker with 124, or
    with 0 when no marker was asked for, when at its last look the clock was
    [timeout] seconds or more past the time of the last activity. That is
    never earlier than [timeout] seconds after the loop has begun. *)
Theorem mainloop_exit_status (W : Type) `{PosixLaws W} `{!OtherThreads W} `{!Interference W}
    (n : nat) (timeout : Z) (s : st link W) :
  ready (glob s) -> timeout <> 0 ->
  exists r s', ps2link_mainloop n timeout s = Ret (r, s')
    /\ forall status, r = Some status ->
         exit_status timeout (now (world s) / 1000000) s' status
         /\ (ps2link_marker_seen (glob s') = false -> ps2link_lost (glob s') = false ->
             now (world s) / 1000000 + timeout * 1000 <= now (world s') / 1000000).
Proof.
  intros Hrd Ht. destruct (wp_run _ _ _ (mainloop_wp _ timeout n s Hrd Ht))
    as (r & s' & Hr & Hst & _). exists r, s'. split; [done|]. intros status Hs. split; [by apply Hst|].
  destruct (Hst _ Hs) as [Hm|s1 x s2 _ _ _ _ Hl _|s1 t s2]; intros; [congruence|congruence|lia].
Qed.

Lemma mainloop_exit_status_witness :
  exists r s', ps2link_mainloop 10 5 (sim_console (bytes_of "@@")) = Ret (r, s')
    /\ forall status, r = Some status ->
         exit_status 5 (now (world (sim_console (bytes_of "@@"))) / 1000000) s' status.
Proof.
  destruct (mainloop_exit_status sim 10 5 (sim_console (bytes_of "@@"))) as (r & s' & Hr & Hst).
  - apply sim_console_ready.
  - lia.
  - exists r, s'. split; [exact Hr|]. intros status Hs. exact (proj1 (Hst status Hs)).
Defined.

(** C8: the idle timeout works: when the other threads note no more activity,
    the main loop returns within 50 iterations per second of timeout, plus
    one for every signal that cuts a sleep short, and for one of its reasons.
    It starts from globals in order, which the other threads keep so
    ([Interference]). *)
Theorem mainloop_idle_returns (W : Type) `{PosixLaws W} `{!OtherThreads W} `{!Interference W}
    (n : nat) (timeout : Z) (s : st link W) :
  (forall s : st link W, ps2link_activity (glob (others s)) = ps2link_activity (glob s)) ->
  ready (glob s) -> 0 < timeout ->
  (50 * Z.to_nat timeout + pending_signals (world s) < n)%nat ->
  exists status s', ps2link_mainloop n timeout s = Ret (Some status, s')
    /\ exit_status timeout (now (world s) / 1000000) s' status.
Proof.
  intros Hact Hrd Ht Hn.
  destruct (wp_run _ _ _ (mainloop_returns _ timeout n s Hact Hrd Ht Hn))
    as (r & s' & Hr & status & -> & Hex). by exists status, s'.
Qed.

Lemma mainloop_idle_returns_witness :
  exists status s', ps2link_mainloop 60 1 (sim_console (bytes_of "@@")) = Ret (Some status, s')
    /\ exit_status 1 (now (world (sim_console (bytes_of "@@"))) / 1000000) s' status.
Proof.
  apply (mainloop_idle_returns sim 60 1 (sim_console (bytes_of "@@"))).
  - reflexivity.
  - apply sim_console_ready.
  - lia.
  - vm_compute. lia.
Defined.



(** C33: connecting opens exactly the sockets that were asked for and changes
    nothing else, or returns the documented error: 75 when the call that
    listens on the console port failed, 69 when the one that connects the
    request connection or opens the command port did, each before anything
    later is tried. It never sends or receives. *)
Theorem connect_opens_sockets (W : Type) `{PosixLaws W} (hostname : list Z) (what timeout_ms : Z)
    (s : st link W) :
  exists r s', ps2link_connect hostname what timeout_ms s = Ret (r, s')
    /\ connect_result hostname what timeout_ms s s' r /\ connect_frame (glob s) (glob s')
    /\ quiet (world s) (world s').
Proof. apply wp_run. apply connect_wp. Qed.

Lemma connect_opens_sockets_witness :
  exists r s', ps2link_connect (bytes_of "ps2") 7 2000 (mk_st link_init (sim_start [] 0 [] [] []))
               = Ret (r, s')
    /\ connect_result (bytes_of "ps2") 7 2000 (mk_st link_init (sim_start [] 0 [] [] [])) s' r.
Proof.
  destruct (connect_opens_sockets sim (bytes_of "ps2") 7 2000
    (mk_st link_init (sim_start [] 0 [] [] []))) as (r & s' & Hr & Hres & _).
  exists r, s'. split; [exact Hr|exact Hres].
Defined.

(** Disconnecting closes all three sockets, whichever are open, and leaves
    the rest of the state alone; it can be repeated. *)
Theorem disconnect_closes_sockets (W : Type) `{PosixLaws W} (s : st link W) :
  exists s', ps2link_disconnect s = Ret (0, s')
    /\ console_socket (glob s') < 0 /\ request_socket (glob s') < 0 /\ command_socket (glob s') < 0
    /\ glob s' = set_sockets (console_socket (glob s')) (request_socket (glob s'))
                   (command_socket (glob s')) (glob s).
Proof.
  destruct (wp_run _ _ _ (disconnect_wp _ s)) as (r & s' & Hr & -> & _ & Hg).
  exists s'. rewrite Hg. simpl.
  split_and!; [done|apply closed_neg|apply closed_neg|apply closed_neg|done].
Qed.

Lemma disconnect_closes_sockets_witness :
  exists s', ps2link_disconnect (sim_console (bytes_of "@@")) = Ret (0, s')
    /\ request_socket (glob s') < 0.
Proof.
  destruct (disconnect_closes_sockets sim (sim_console (bytes_of "@@"))) as (s' & Hr & _ & Hs & _).
  exists s'. split; [exact Hr|exact Hs].
Defined.
