(* ===== verification/Threads.v ===== *)
(** * The threads keep their promise to the main thread

    [Interference] of the file Session is what the main thread relies on. Here
    it is a guarantee: [threads_step] lets the request thread and the console
    thread take their iterations in any order, and whatever they do, in any
    number of steps, is an interference. That nothing is sent on the command
    socket meanwhile has a condition on the PS2: it must not name this
    descriptor in a request, which the code does not check. *)

From S2P Require Import Prelude CLib Posix Utility Network Sim Link Response Request Service Handlers Wire RequestThread Command Console Session.

Section facts.
Context {W : Type} `{PosixLaws W}.
Implicit Types (s : st link W) (w : W).

#[export] Instance interferes_preorder : PreOrder (interferes (W := W)).
Proof.
  split.
  - intros s. split_and!; [reflexivity|by left|done|done].
  - intros s1 s2 s3 (Hr & Ht & Hn & Hs) (Hr' & Ht' & Hn' & Hs').
    split_and!; [by etrans|by eapply noted_trans|lia|lia].
Qed.

(** The handshake's flag is never taken back. *)
Lemma serves_answered sock w req v rep v' w' :
  serves sock w req v rep v' w' -> svc_answered v = true -> svc_answered v' = true.
Proof. destruct 1; simpl; intros; try done; by case_match. Qed.

Lemma arrives_holds sock enc other w w' : arrives sock enc w w' -> holds other w w'.
Proof.
  intros (Hq & Htx & _). destruct (decide (sock = other)) as [<-|].
  - split; [done|]. by destruct Hq as (_ & ? & ? & _).
  - by eapply quiet_but_holds.
Qed.

Lemma conversation_keeps sock other p v w trace p' v' w' :
  conversation sock p v w trace p' v' w' -> sock <> other ->
  Forall (fun e => request_fd e.1.1 <> Some other) trace ->
  holds other w w' /\ (svc_answered v = true -> svc_answered v' = true).
Proof.
  intros Hc Hne. induction Hc as [p v w w' Hq|p v w enc w1 req rep v1 w2 bytes w3 p1 trace
    p' v' w' Ha Hd Hs Hb Hrep Hl Hby Hc IH|p v w enc w1 trace p' v' w' Ha Hk Hc IH]; intros Hfd.
  - split; [by apply quiet_holds|done].
  - apply Forall_cons in Hfd as [Hreq Hfd]. destruct (IH Hfd) as [Hh Hans]. split.
    + etrans; [by eapply arrives_holds|]. etrans; [by eapply serves_holds|].
      etrans; [by eapply quiet_but_holds; [apply (replied_quiet _ _ _ _ Hrep)|]|done].
    + intros Hv. by eapply Hans, serves_answered.
  - destruct (IH Hfd) as [Hh Hans]. split; [|done]. etrans; [by eapply arrives_holds|done].
Qed.

Lemma thread_frame_rely g g' v' :
  thread_frame g g' -> svc_rel g' v' ->
  (ps2link_ping_answered g = true -> ps2link_ping_answered g' = true) -> rely g g'.
Proof.
  intros Hfr Hv Hans. split; try done; try (rewrite Hfr; done).
  intros [[k Hk] _]. split; [exists k; rewrite Hfr; by destruct Hk|by exists v'].
Qed.

Lemma rely_set_lost g : rely g (set_lost true g).
Proof. split; try done. apply ready_set_lost. Qed.

Lemma step_status marker k c v : c_status k = Some v -> c_status (step marker k c) = Some v.
Proof. intros Hv. unfold step. repeat case_match; simpl; congruence. Qed.

Lemma scan_status marker output : forall k v,
  c_status k = Some v -> c_status (scan marker k output) = Some v.
Proof.
  destruct marker as [marker|]; [|done]. simpl.
  induction output as [|c output IH]; intros k v Hv; [done|]. by apply IH, step_status.
Qed.

Lemma console_done_interferes s k s' :
  console_rel (glob s) k -> console_done (ps2link_marker (glob s)) k s s' ->
  interferes s s' /\ leaves_commands s s'.
Proof.
  intros Hrel (output & _ & _ & Hrel' & Hfr & Hnt & Hh).
  destruct (Hh (command_socket (glob s))) as (Htx & Hsig & Hnow). split; [split_and!; try done|done].
  assert (Hmid : rely (set_activity (ps2link_activity (glob s')) (glob s)) (glob s')).
  { eapply console_frame_rely; [by apply (console_rel_set_activity _ k)|exact Hrel'|exact Hfr|].
    intros v. by apply scan_status. }
  destruct Hmid as [S1 M1 L1 A1 E1 C1]. split; try done.
  intros Hrd. by apply C1, ready_set_activity.
Qed.
End facts.

(** ** The two threads, interleaved *)

(** The request thread's packet object, while it runs, the console thread's
    buffer, and the state they share. *)
Record threads (W : Type) := mk_threads {
  t_packet : option (list Z); t_buffer : list Z; t_state : st link W }.
Arguments mk_threads {W} t_packet t_buffer t_state.
Arguments t_packet {W} t.
Arguments t_buffer {W} t.
Arguments t_state {W} t.

Inductive threads_step {W} `{Posix W} : threads W -> threads W -> Prop :=
| step_request p b s p' s' :
    request_iteration p s = Ret (Some p', s') ->
    threads_step (mk_threads (Some p) b s) (mk_threads (Some p') b s')
| step_request_end p b s s' :
    request_iteration p s = Ret (None, s') ->
    threads_step (mk_threads (Some p) b s)
      (mk_threads None b (mk_st (set_lost true (glob s')) (world s')))
| step_console p b s b' s' :
    console_iteration b s = Ret (b', s') ->
    threads_step (mk_threads p b s) (mk_threads p b' s').

(** The invariant of the two threads. *)
Record threads_ok {W} (t : threads W) : Prop := {
  ok_packet : forall p, t_packet t = Some p -> length p = PACKET_SIZE /\ Forall is_byte p;
  ok_buffer : length (t_buffer t) = CONSOLE_BUFFER_SIZE;
  ok_ready : ready (glob (t_state t)) }.

Section interleaving.
Context {W : Type} `{PosixLaws W}.
Implicit Types (s : st link W) (w : W).

(** The request that the thread receives next, if it reads or writes a
    descriptor, has another one than the command socket. *)
Definition polite (p : list Z) s : Prop :=
  request_socket (glob s) <> command_socket (glob s)
  /\ forall packet s1 req, receive_request p s = Ret (Some packet, s1) ->
       decode_request packet = Some req -> request_fd req <> Some (command_socket (glob s)).

(** An iteration of the request thread, as the main thread sees it. *)
Definition iteration_effect p s (r : option (list Z)) s' : Prop :=
  interferes s s' /\ (polite p s -> leaves_commands s s')
  /\ match r with
     | Some p' => length p' = PACKET_SIZE /\ Forall is_byte p'
     | None => ended (request_socket (glob s)) (world s) (world s')
     end.

(** A descriptor that a request does not name. *)
Lemma serves_elsewhere sock enc w w1 req v rep v' w2 bytes w3 :
  arrives sock enc w w1 -> serves sock w1 req v rep v' w2 -> replied sock bytes w2 w3 ->
  now w <= now w2 /\ now w <= now w3 /\ (pending_signals w3 <= pending_signals w)%nat
  /\ forall other, sock <> other -> request_fd req <> Some other -> tx w3 other = tx w other.
Proof.
  intros Ha Hs Hrep.
  assert (Hh : forall other, request_fd req <> Some other -> holds other w w2).
  { intros other Ho. etrans; [by eapply arrives_holds|by eapply serves_holds]. }
  destruct (replied_quiet _ _ _ _ Hrep) as (Hq & Hsig' & Hnow' & _).
  destruct (Hh (default 0 (request_fd req) + 1)) as (_ & Hsig & Hnow).
  { destruct (request_fd req); simpl; [intros [= Heq]; lia|done]. }
  split_and!; [lia|lia|lia|]. intros other Hne Ho. destruct (Hh other Ho) as (<- & _).
  apply Hq. congruence.
Qed.

Lemma request_iteration_effect p s r s' :
  length p = PACKET_SIZE -> Forall is_byte p -> ready (glob s) ->
  request_iteration p s = Ret (r, s') -> iteration_effect p s r s'.
Proof.
  intros Hl Hb [_ [v Hrel]] Hrun.
  assert (Hwp : wp (fun _ => True) (request_iteration p) (iteration_effect p s) s).
  2: { unfold wp in Hwp. by rewrite Hrun in Hwp. }
  clear r s' Hrun.
  eapply wp_mono; [apply (request_iteration_wp p s v (iteration_effect p s)); try done|done|done].
  - intros enc w1 req rep v' w2 bytes p1 s1 Hrec Ha Hdec Hs _ Hrep Hact (Hl1 & Hb1 & Hfr & Hrel1).
    destruct (serves_elsewhere _ _ _ _ _ _ _ _ _ _ _ Ha Hs Hrep) as (Hnow2 & Hnow & Hsig & Htx).
    split; [split_and!; try done; [|right; apply (Z.div_le_mono _ _ 1000000) in Hnow2; lia]|split; [|done]].
    + eapply thread_frame_rely; [done|done|].
      rewrite (rel_answered _ _ Hrel), (rel_answered _ _ Hrel1). by eapply serves_answered.
    + intros [Hne Hpol]. apply Htx; [done|by eapply Hpol].
  - intros enc s1 Ha _ Hact (Hl1 & Hb1 & Hfr & Hrel1). pose proof Ha as ((Hq & Hsig & Hnow & _) & _).
    split; [split_and!; try done; [|by right]|split; [|done]].
    + eapply thread_frame_rely; [done|done|]. by rewrite (rel_answered _ _ Hrel), (rel_answered _ _ Hrel1).
    + intros [Hne _]. apply Hq. congruence.
  - intros w' He. pose proof He as [data (Hq & Hsig & Hnow & _) _ _ _].
    split; [split_and!; [reflexivity|by left|done|done]|split; [|done]]. intros [Hne _]. apply Hq. congruence.
Qed.

Lemma threads_step_ok (t t' : threads W) :
  threads_step t t' -> threads_ok t -> threads_ok t' /\ interferes (t_state t) (t_state t').
Proof.
  intros Hstep [Hp Hbuf Hrd].
  destruct Hstep as [p b s p' s' Hrun|p b s s' Hrun|p b s b' s' Hrun]; simpl in *.
  - destruct (Hp p eq_refl) as [Hl Hb].
    destruct (request_iteration_effect _ _ _ _ Hl Hb Hrd Hrun) as (Hi & _ & Hp').
    split; [|done]. split; simpl; [by intros q [= <-]|done|]. by apply (rely_ready _ _ (proj1 Hi)).
  - destruct (Hp p eq_refl) as [Hl Hb].
    destruct (request_iteration_effect _ _ _ _ Hl Hb Hrd Hrun) as ((Hr & Hnt & Hn & Hs) & _ & _).
    split; [split; simpl; try done; by apply ready_set_lost, (rely_ready _ _ Hr)|].
    split_and!; [|exact Hnt|done|done]. etrans; [exact Hr|apply rely_set_lost].
  - destruct Hrd as [[k Hk] Hv].
    pose proof (console_iteration_wp (fun _ => True) k b s
      (fun b1 s1 => length b1 = CONSOLE_BUFFER_SIZE /\ console_done (ps2link_marker (glob s)) k s s1)
      Hbuf Hk (fun _ _ h1 h2 => conj h1 h2)) as Hwp. unfold wp in Hwp. rewrite Hrun in Hwp.
    destruct Hwp as [Hb' Hd]. destruct (console_done_interferes _ _ _ Hk Hd) as [Hi _].
    split; [|done]. split; simpl; try done. apply (rely_ready _ _ (proj1 Hi)). split; [by exists k|done].
Qed.

Lemma threads_steps_ok (t t' : threads W) :
  rtc threads_step t t' -> threads_ok t -> threads_ok t' /\ interferes (t_state t) (t_state t').
Proof.
  induction 1 as [t|t t1 t' Hstep _ IH]; intros Hok; [by split|].
  destruct (threads_step_ok _ _ Hstep Hok) as [Hok1 Hi1]. destruct (IH Hok1) as [Hok' Hi'].
  split; [done|by etrans].
Qed.

(** A step of a request thread whose PS2 is polite, or of the console. *)
Definition polite_step (t t' : threads W) : Prop :=
  threads_step t t' /\ forall p, t_packet t = Some p -> polite p (t_state t).

Lemma polite_step_leaves (t t' : threads W) :
  polite_step t t' -> threads_ok t -> leaves_commands (t_state t) (t_state t').
Proof.
  intros [Hstep Hpol] [Hp Hbuf Hrd].
  destruct Hstep as [p b s p' s' Hrun|p b s s' Hrun|p b s b' s' Hrun]; simpl in *.
  - destruct (Hp p eq_refl) as [Hl Hb].
    destruct (request_iteration_effect _ _ _ _ Hl Hb Hrd Hrun) as (_ & Htx & _). by apply Htx, Hpol.
  - destruct (Hp p eq_refl) as [Hl Hb].
    destruct (request_iteration_effect _ _ _ _ Hl Hb Hrd Hrun) as (_ & Htx & _). by apply Htx, Hpol.
  - destruct Hrd as [[k Hk] Hv].
    pose proof (console_iteration_wp (fun _ => True) k b s
      (fun _ s1 => console_done (ps2link_marker (glob s)) k s s1)
      Hbuf Hk (fun _ _ _ h2 => h2)) as Hwp. unfold wp in Hwp. rewrite Hrun in Hwp.
    by apply (console_done_interferes _ _ _ Hk Hwp).
Qed.

(** With a PS2 that never names the command socket in a request they send
    nothing on it. *)
Lemma polite_steps_leave (t t' : threads W) :
  rtc polite_step t t' -> threads_ok t -> leaves_commands (t_state t) (t_state t').
Proof.
  induction 1 as [t|t t1 t' Hstep _ IH]; intros Hok; [done|].
  destruct (threads_step_ok _ _ (proj1 Hstep) Hok) as [Hok1 (Hr & _)].
  pose proof (polite_step_leaves _ _ Hstep Hok) as H1. specialize (IH Hok1).
  unfold leaves_commands in *. destruct (rely_sockets _ _ Hr) as (_ & _ & Hc). rewrite Hc in IH. by rewrite IH.
Qed.
End interleaving.

(** ** The property of the threads *)

(** C11: the two threads keep the promises the main thread relies on: however
    their iterations are interleaved, and however many there are, from
    threads in order they only raise the flags, never take one back or change
    a marker's status once it was seen, leave the sockets alone and only note
    later times as the activity; and they stay in order. If moreover the PS2
    never names the command socket in a request that one of these iterations
    serves (the code does not check that it does not), they send nothing on
    the command socket. *)
Theorem interleaved_threads_interfere (W : Type) `{PosixLaws W} (t t' : threads W) :
  threads_ok t -> rtc threads_step t t' ->
  threads_ok t' /\ interferes (t_state t) (t_state t')
  /\ (rtc polite_step t t' -> leaves_commands (t_state t) (t_state t')).
Proof.
  intros Hok Hsteps. destruct (threads_steps_ok _ _ Hsteps Hok) as [Hok' Hi].
  split_and!; [done|done|]. intros Hp. by apply polite_steps_leave.
Qed.

(** A session in which a request arrives, and the threads at its start. *)
Definition two_threads : threads sim :=
  mk_threads (Some (replicate PACKET_SIZE 0)) (replicate CONSOLE_BUFFER_SIZE 0)
    (sim_session [encode_request (ReqClose 5)]).

(** The request that arrives there, and whether it names the command socket. *)
Definition next_request : option request :=
  match receive_request (replicate PACKET_SIZE 0) (t_state two_threads) with
  | Ret (Some packet, _) => decode_request packet
  | _ => None
  end.

Lemma two_threads_polite : polite (replicate PACKET_SIZE 0) (t_state two_threads).
Proof.
  split; [discriminate|]. intros packet s1 req Hr Hd.
  assert (Hn : next_request = Some (ReqClose 5)) by (vm_compute; reflexivity).
  unfold next_request in Hn. rewrite Hr, Hd in Hn. injection Hn as ->. discriminate.
Qed.

Lemma interleaved_threads_interfere_witness :
  exists t', threads_step two_threads t' /\ threads_ok t'
    /\ interferes (t_state two_threads) (t_state t') /\ leaves_commands (t_state two_threads) (t_state t').
Proof.
  assert (Hok : threads_ok two_threads).
  { split; unfold two_threads; cbn [t_packet t_buffer t_state].
    - intros p Hp. apply (inj Some) in Hp. rewrite <- Hp.
      split; [apply length_replicate|by apply Forall_replicate].
    - apply length_replicate.
    - split; [exists (mk_console [] None); by destruct (console_rel_init None)|].
      eexists. apply sim_session_rel. }
  destruct (request_iteration (replicate PACKET_SIZE 0) (t_state two_threads))
    as [[[p'|] s']| |] eqn:Hrun; try (exfalso; vm_compute in Hrun; discriminate).
  assert (Hstep : threads_step two_threads (mk_threads (Some p') (t_buffer two_threads) s')).
  { apply step_request. exact Hrun. }
  exists (mk_threads (Some p') (t_buffer two_threads) s'). split; [exact Hstep|].
  destruct (interleaved_threads_interfere sim two_threads (mk_threads (Some p') (t_buffer two_threads) s') Hok
    (rtc_once _ _ Hstep)) as (Hok' & Hi & Hl). split; [exact Hok'|]. split; [exact Hi|].
  apply Hl, rtc_once. split; [exact Hstep|]. intros p Hp. apply (inj Some) in Hp. rewrite <- Hp.
  apply two_threads_polite.
Defined.
