(* ===== verification/Netfs.v ===== *)
(** * src/ps2netfs.c: the client of the PS2's file systems

    A call sends a packed struct on the connection and receives the packed
    struct of the response. [call] is a remote call, [netfs_call] the
    function of the source that makes it, [decode_call] how a packet is read by
    doc/ps2netfs-protocol.txt. The two agree but for sync, mount and umount, to
    which the header gives the numbers of read, write and lseek ([heard]), and
    for the flags of umount, which are not set. *)

From S2P Require Import Prelude CLib Posix Sim Utility Network Response Wire Command.

Definition PS2NETFS_COMMAND_OPEN : Z := 0xBEEF8011.
Definition PS2NETFS_COMMAND_CLOSE : Z := 0xBEEF8021.
Definition PS2NETFS_COMMAND_READ : Z := 0xBEEF8031.
Definition PS2NETFS_COMMAND_WRITE : Z := 0xBEEF8041.
Definition PS2NETFS_COMMAND_LSEEK : Z := 0xBEEF8051.
Definition PS2NETFS_COMMAND_DELETE : Z := 0xBEEF8071.
Definition PS2NETFS_COMMAND_MKDIR : Z := 0xBEEF8081.
Definition PS2NETFS_COMMAND_RMDIR : Z := 0xBEEF8091.
Definition PS2NETFS_COMMAND_DOPEN : Z := 0xBEEF80A1.
Definition PS2NETFS_COMMAND_DCLOSE : Z := 0xBEEF80B1.
Definition PS2NETFS_COMMAND_DREAD : Z := 0xBEEF80C1.
Definition PS2NETFS_COMMAND_SYNC : Z := 0xBEEF8031.
Definition PS2NETFS_COMMAND_MOUNT : Z := 0xBEEF8041.
Definition PS2NETFS_COMMAND_UMOUNT : Z := 0xBEEF8051.
Definition PS2NETFS_COMMAND_DEVLIST : Z := 0xBEEF8F21.

(** Numbers of calls the source leaves unimplemented. *)
Definition PS2NETFS_COMMAND_IOCTL : Z := 0xBEEF8061.
Definition PS2NETFS_COMMAND_GETSTAT : Z := 0xBEEF80D1.
Definition PS2NETFS_COMMAND_CHSTAT : Z := 0xBEEF80E1.
Definition PS2NETFS_COMMAND_FORMAT : Z := 0xBEEF80F1.
Definition PS2NETFS_COMMAND_RENAME : Z := 0xBEEF8111.
Definition PS2NETFS_COMMAND_CHDIR : Z := 0xBEEF8121.
Definition PS2NETFS_COMMAND_LSEEK64 : Z := 0xBEEF8161.
Definition PS2NETFS_COMMAND_DEVCTL : Z := 0xBEEF8171.
Definition PS2NETFS_COMMAND_SYMLINK : Z := 0xBEEF8181.
Definition PS2NETFS_COMMAND_READLINK : Z := 0xBEEF8191.
Definition PS2NETFS_COMMAND_IOCTL2 : Z := 0xBEEF81A1.
Definition PS2NETFS_COMMAND_INFO : Z := 0xBEEF8F01.
Definition PS2NETFS_COMMAND_FSTYPE : Z := 0xBEEF8F11.

(** The numbers in the order of the header. *)
Definition netfs_numbers : list Z :=
  [PS2NETFS_COMMAND_OPEN; PS2NETFS_COMMAND_CLOSE; PS2NETFS_COMMAND_READ; PS2NETFS_COMMAND_WRITE;
   PS2NETFS_COMMAND_LSEEK; PS2NETFS_COMMAND_IOCTL; PS2NETFS_COMMAND_DELETE; PS2NETFS_COMMAND_MKDIR;
   PS2NETFS_COMMAND_RMDIR; PS2NETFS_COMMAND_DOPEN; PS2NETFS_COMMAND_DCLOSE; PS2NETFS_COMMAND_DREAD;
   PS2NETFS_COMMAND_GETSTAT; PS2NETFS_COMMAND_CHSTAT; PS2NETFS_COMMAND_FORMAT; PS2NETFS_COMMAND_RENAME;
   PS2NETFS_COMMAND_CHDIR; PS2NETFS_COMMAND_SYNC; PS2NETFS_COMMAND_MOUNT; PS2NETFS_COMMAND_UMOUNT;
   PS2NETFS_COMMAND_LSEEK64; PS2NETFS_COMMAND_DEVCTL; PS2NETFS_COMMAND_SYMLINK;
   PS2NETFS_COMMAND_READLINK; PS2NETFS_COMMAND_IOCTL2; PS2NETFS_COMMAND_INFO; PS2NETFS_COMMAND_FSTYPE;
   PS2NETFS_COMMAND_DEVLIST].

Definition OPEN_READ : Z := 1.
Definition OPEN_WRITE : Z := 2.
Definition OPEN_NONBLOCK : Z := 16.
Definition OPEN_APPEND : Z := 256.
Definition OPEN_CREATE : Z := 512.
Definition OPEN_TRUNCATE : Z := 1024.
Definition LSEEK_SET : Z := 0.
Definition LSEEK_CURRENT : Z := 1.
Definition LSEEK_END : Z := 2.
Definition MOUNT_READWRITE : Z := 0.
Definition MOUNT_READONLY : Z := 1.

Definition NETFS_PORT : Z := 0x4713.
(** sizeof of the response structs. *)
Definition sizeof_reply : Z := 10.
Definition sizeof_read_reply : Z := 14.
Definition sizeof_dread_reply : Z := 306.
Definition sizeof_devlist_reply : Z := 270.

(** ps2netfs_socket. *)
Record netfs := mk_netfs { ps2netfs_socket : Z }.

Section defs.
Context {W : Type} `{Posix W}.

Definition ps2netfs_connect (hostname : list Z) : M netfs W Z :=
  let! sock := network_connect hostname NETFS_PORT SOCK_STREAM in
  gmod (fun _ => mk_netfs sock) ;;;
  if sock <? 0 then ret (-1) else ret 0.

Definition ps2netfs_disconnect : M netfs W Z :=
  let! g := gget in
  let! r := network_disconnect (ps2netfs_socket g) in
  if r <? 0 then ret (-1) else ret 0.

(** Send the command packet and receive the response packet: [None] when one
    of the two failed. *)
Definition receive_reply (size : Z) : M netfs W (option (list Z)) :=
  let! g := gget in
  let! response := hcall (sys_auto (Z.to_nat size)) in
  let! r := network_receive_all (ps2netfs_socket g) response size in
  if r.1 <? 0 then ret None else ret (Some r.2).

Definition exchange (packet : list Z) (size reply_size : Z) : M netfs W (option (list Z)) :=
  let! g := gget in
  let! r := network_send (ps2netfs_socket g) packet size in
  if r <? 0 then ret None else receive_reply reply_size.

(** return ntohl(response.result). *)
Definition result_of (response : list Z) : Z := s32 (get_be32 response 6).

Definition simple_call (packet : list Z) (size : Z) : M netfs W Z :=
  let! r := exchange packet size sizeof_reply in
  match r with None => ret (-1) | Some response => ret (result_of response) end.

Definition ps2netfs_command_open (pathname : option (list Z)) (flags : Z) : M netfs W Z :=
  match pathname with
  | None => ret (-1)
  | Some pathname =>
      let '(length, field) := snprintf_s (replicate 256 0) 256 pathname in
      if (length <? 0) || (length >=? 256) then ret (-1)
      else simple_call (header PS2NETFS_COMMAND_OPEN 266 ++ be32 flags ++ field) 266
  end.

Definition ps2netfs_command_close (fd : Z) : M netfs W Z :=
  simple_call (header PS2NETFS_COMMAND_CLOSE 10 ++ be32 fd) 10.

(** The result and the buffer. *)
Definition ps2netfs_command_read (fd : Z) (buffer : list Z) (size : Z) : M netfs W (Z * list Z) :=
  if size <? 0 then ret (-1, buffer)
  else
    let! r := exchange (header PS2NETFS_COMMAND_READ 14 ++ be32 fd ++ be32 size) 14
                sizeof_read_reply in
    match r with
    | None => ret (-1, buffer)
    | Some response =>
        let received := result_of response in
        if received <? 0 then ret (received, buffer)
        else if received >? size then ret (-1, buffer)
        else
          let! g := gget in
          let! r := network_receive_all (ps2netfs_socket g) buffer received in
          if r.1 <? 0 then ret (-1, r.2) else ret (received, r.2)
    end.

Definition ps2netfs_command_write (fd : Z) (buffer : list Z) (size : Z) : M netfs W Z :=
  let! g := gget in
  let! r := network_send (ps2netfs_socket g)
              (header PS2NETFS_COMMAND_WRITE 14 ++ be32 fd ++ be32 size) 14 in
  if r <? 0 then ret (-1)
  else
    let! r := network_send (ps2netfs_socket g) buffer size in
    if r <? 0 then ret (-1)
    else
      let! r := receive_reply sizeof_reply in
      match r with None => ret (-1) | Some response => ret (result_of response) end.

Definition ps2netfs_command_lseek (fd offset whence : Z) : M netfs W Z :=
  simple_call (header PS2NETFS_COMMAND_LSEEK 18 ++ be32 fd ++ be32 offset ++ be32 whence) 18.

(** struct { number; length; int flags; char pathname[256]; }, the pathname
    cut to 255 bytes. *)
Definition path_packet (obj : list Z) (number flags : Z) (pathname : option (list Z)) : list Z :=
  header number 266 ++ be32 flags ++ name_field obj 10 pathname.

Definition path_call (number flags : Z) (pathname : option (list Z)) : M netfs W Z :=
  let! command := hcall (sys_auto 266) in
  simple_call (path_packet command number flags pathname) 266.

Definition ps2netfs_command_delete (pathname : option (list Z)) (flags : Z) : M netfs W Z :=
  path_call PS2NETFS_COMMAND_DELETE flags pathname.
Definition ps2netfs_command_mkdir (pathname : option (list Z)) (flags : Z) : M netfs W Z :=
  path_call PS2NETFS_COMMAND_MKDIR flags pathname.
Definition ps2netfs_command_rmdir (pathname : option (list Z)) (flags : Z) : M netfs W Z :=
  path_call PS2NETFS_COMMAND_RMDIR flags pathname.
Definition ps2netfs_command_dopen (pathname : option (list Z)) (flags : Z) : M netfs W Z :=
  path_call PS2NETFS_COMMAND_DOPEN flags pathname.
Definition ps2netfs_command_sync (device : option (list Z)) (flags : Z) : M netfs W Z :=
  path_call PS2NETFS_COMMAND_SYNC flags device.

Definition ps2netfs_command_dclose (dd : Z) : M netfs W Z :=
  simple_call (header PS2NETFS_COMMAND_DCLOSE 10 ++ be32 dd) 10.

(** The result and the directory entry (a DIRENT as it came in). *)
Definition ps2netfs_command_dread (dd : Z) (dirent : list Z) : M netfs W (Z * list Z) :=
  let! r := exchange (header PS2NETFS_COMMAND_DREAD 10 ++ be32 dd) 10 sizeof_dread_reply in
  match r with
  | None => ret (-1, dirent)
  | Some response => ret (result_of response, drop 10 response)
  end.

(** The flags are not set for umount. *)
Definition ps2netfs_command_umount (device : option (list Z)) (flags : Z) : M netfs W Z :=
  let! command := hcall (sys_auto 266) in
  simple_call (header PS2NETFS_COMMAND_UMOUNT 266 ++ slice command 6 4 ++ name_field command 10 device)
    266.

Definition ps2netfs_command_mount (device fsname : option (list Z)) (flags : Z)
    (argv : option (list Z)) (argc : Z) : M netfs W Z :=
  let! command := hcall (sys_auto 782) in
  simple_call (header PS2NETFS_COMMAND_MOUNT 782 ++ name_field command 6 device
                 ++ name_field command 262 fsname ++ be32 flags ++ name_field command 522 argv
                 ++ be32 argc) 782.

(** The result and the device list (256 bytes). *)
Definition ps2netfs_command_devlist (pathname : option (list Z)) (flags : Z) (devlist : list Z)
    : M netfs W (Z * list Z) :=
  let! command := hcall (sys_auto 266) in
  let! r := exchange (path_packet command PS2NETFS_COMMAND_DEVLIST flags pathname) 266
              sizeof_devlist_reply in
  match r with
  | None => ret (-1, devlist)
  | Some response => ret (result_of response, slice response 14 256)
  end.
End defs.

(** ** Exchanges *)

Section facts.
Context {W : Type} `{PosixLaws W}.
Implicit Types (s : st netfs W) (w : W).

(** A packet went out completely, then a reply of the right size came in. *)
Record exchanged (sock : Z) (packet reply : list Z) w w' : Prop := {
  ex_quiet : quiet_but (Some sock) w w';
  ex_tx : tx w' sock = tx w sock ++ packet;
  ex_rx : rx w' sock = rx w sock ++ reply;
  ex_bytes : Forall is_byte reply }.

(** Something failed: part of the packet went out, part of the reply came in. *)
Record cut_off (sock : Z) (packet : list Z) (size : Z) w w' : Prop := {
  cut_quiet : quiet_but (Some sock) w w';
  cut_tx : exists n, tx w' sock = tx w sock ++ take n packet;
  cut_rx : exists part, rx w' sock = rx w sock ++ part /\ Z.of_nat (length part) < size }.

Lemma receive_reply_wp (E : fault -> Prop) size s Q :
  0 < size ->
  (forall reply w', exchanged (ps2netfs_socket (glob s)) [] reply (world s) w' ->
     Z.of_nat (length reply) = size -> Q (Some reply) (mk_st (glob s) w')) ->
  (forall w', cut_off (ps2netfs_socket (glob s)) [] size (world s) w' -> Q None (mk_st (glob s) w')) ->
  wp E (receive_reply size) Q s.
Proof.
  intros Hsize HQ Hcut. unfold receive_reply. set (sock := ps2netfs_socket (glob s)) in *.
  wp_step. wp_step. intros obj w1 (Hq & Hl & _)%auto_law.
  apply wp_bind, network_receive_all_wp; [rewrite Hl; lia|]. simpl.
  intros r data w2 [Hq2 Htx Hrx Hby Hres].
  rewrite (quiet_tx _ _ _ Hq) in Htx. rewrite (quiet_rx _ _ _ Hq) in Hrx.
  assert (Hq' : quiet_but (Some sock) (world s) w2) by (etrans; [by apply quiet_weaken|done]).
  destruct (Z.ltb_spec r 0); apply wp_ret.
  - apply Hcut. split; [done|exists 0%nat; by rewrite app_nil_r|]. exists data. split; [done|lia].
  - assert (Hlen : length data = length obj) by lia.
    rewrite mem_store_0, Hlen, drop_all, app_nil_r. apply HQ; [|lia].
    split; try done. by rewrite app_nil_r.
Qed.

Lemma exchange_wp (E : fault -> Prop) packet size reply_size s Q :
  Z.of_nat (length packet) = size -> 0 < reply_size ->
  (forall reply w', exchanged (ps2netfs_socket (glob s)) packet reply (world s) w' ->
     Z.of_nat (length reply) = reply_size -> Q (Some reply) (mk_st (glob s) w')) ->
  (forall w', cut_off (ps2netfs_socket (glob s)) packet reply_size (world s) w' ->
     Q None (mk_st (glob s) w')) ->
  wp E (exchange packet size reply_size) Q s.
Proof.
  intros Hl Hsize HQ Hcut. unfold exchange. wp_step.
  apply wp_bind, network_send_packet_wp; [done|].
  intros r w1 [Hq1 Hrx1 (n & Htx1 & Hres)].
  destruct (Z.ltb_spec r 0).
  - apply wp_ret, Hcut. split; [done|by exists n|]. exists []. rewrite app_nil_r. split; [done|simpl; lia].
  - assert (Hn : n = length packet) by lia. subst n. rewrite firstn_all in Htx1.
    apply receive_reply_wp; [done| |]; simpl.
    + intros reply w2 [Hq2 Htx2 Hrx2 Hby] Hlr. apply HQ; [|done].
      split; [by etrans|by rewrite Htx2, app_nil_r|by rewrite Hrx2, Hrx1|done].
    + intros w2 [Hq2 (k & Htx2) (part & Hrx2 & Hpart)]. apply Hcut.
      split; [by etrans| |exists part; by rewrite Hrx2, Hrx1].
      exists (length packet). by rewrite Htx2, firstn_nil, app_nil_r, firstn_all.
Qed.

Lemma simple_call_wp (E : fault -> Prop) packet size s Q :
  Z.of_nat (length packet) = size ->
  (forall reply w', exchanged (ps2netfs_socket (glob s)) packet reply (world s) w' ->
     length reply = 10%nat -> Q (s32 (get_be32 reply 6)) (mk_st (glob s) w')) ->
  (forall w', cut_off (ps2netfs_socket (glob s)) packet 10 (world s) w' ->
     Q (-1) (mk_st (glob s) w')) ->
  wp E (simple_call packet size) Q s.
Proof.
  intros Hl HQ Hcut. unfold simple_call. apply wp_bind, exchange_wp; [done|done| |].
  - intros reply w' He Hr. apply wp_ret, HQ; [done|]. unfold sizeof_reply in Hr. lia.
  - intros w' Hc. by apply wp_ret, Hcut.
Qed.
End facts.

(** ** Calls, as a specification *)

Inductive call :=
| CallOpen (flags : Z) (path : list Z)
| CallClose (fd : Z)
| CallLseek (fd offset whence : Z)
| CallDelete (flags : Z) (path : list Z)
| CallMkdir (flags : Z) (path : list Z)
| CallRmdir (flags : Z) (path : list Z)
| CallDopen (flags : Z) (path : list Z)
| CallDclose (dd : Z)
| CallSync (flags : Z) (device : list Z)
| CallUmount (flags : Z) (device : list Z)
| CallMount (device fsname : list Z) (flags : Z) (argv : list Z) (argc : Z).

Definition netfs_call {W} `{Posix W} (c : call) : M netfs W Z :=
  match c with
  | CallOpen flags path => ps2netfs_command_open (Some path) flags
  | CallClose fd => ps2netfs_command_close fd
  | CallLseek fd offset whence => ps2netfs_command_lseek fd offset whence
  | CallDelete flags path => ps2netfs_command_delete (Some path) flags
  | CallMkdir flags path => ps2netfs_command_mkdir (Some path) flags
  | CallRmdir flags path => ps2netfs_command_rmdir (Some path) flags
  | CallDopen flags path => ps2netfs_command_dopen (Some path) flags
  | CallDclose dd => ps2netfs_command_dclose dd
  | CallSync flags device => ps2netfs_command_sync (Some device) flags
  | CallUmount flags device => ps2netfs_command_umount (Some device) flags
  | CallMount device fsname flags argv argc =>
      ps2netfs_command_mount (Some device) (Some fsname) flags (Some argv) argc
  end.

(** The numbers of the document for the three calls where the header has
    others. *)
Definition doc_sync : Z := 0xBEEF8131.
Definition doc_mount : Z := 0xBEEF8141.
Definition doc_umount : Z := 0xBEEF8151.

(** A request as it is read: read and write carry a descriptor and a size. *)
Inductive asked := Asked (c : call) | AskedRead (fd size : Z) | AskedWrite (fd size : Z).

(** A packet read by doc/ps2netfs-protocol.txt: the number says what the
    fields are. *)
Definition decode_call (packet : list Z) : option asked :=
  let number := get_be32 packet 0 in
  let int off := s32 (get_be32 packet off) in
  let path off := cstr (drop off packet) in
  let with_flags c := (fun p => Asked (c (int 6%nat) p)) <$> path 10%nat in
  if negb (get_be16 packet 4 =? Z.of_nat (length packet)) then None
  else if number =? PS2NETFS_COMMAND_OPEN then with_flags CallOpen
  else if number =? PS2NETFS_COMMAND_CLOSE then Some (Asked (CallClose (int 6%nat)))
  else if number =? PS2NETFS_COMMAND_READ then Some (AskedRead (int 6%nat) (int 10%nat))
  else if number =? PS2NETFS_COMMAND_WRITE then Some (AskedWrite (int 6%nat) (int 10%nat))
  else if number =? PS2NETFS_COMMAND_LSEEK then
    Some (Asked (CallLseek (int 6%nat) (int 10%nat) (int 14%nat)))
  else if number =? PS2NETFS_COMMAND_DELETE then with_flags CallDelete
  else if number =? PS2NETFS_COMMAND_MKDIR then with_flags CallMkdir
  else if number =? PS2NETFS_COMMAND_RMDIR then with_flags CallRmdir
  else if number =? PS2NETFS_COMMAND_DOPEN then with_flags CallDopen
  else if number =? PS2NETFS_COMMAND_DCLOSE then Some (Asked (CallDclose (int 6%nat)))
  else if number =? doc_sync then with_flags CallSync
  else if number =? doc_umount then with_flags CallUmount
  else if number =? doc_mount then
    match path 6%nat, path 262%nat, path 522%nat with
    | Some device, Some fsname, Some argv =>
        Some (Asked (CallMount device fsname (int 518%nat) argv (int 778%nat)))
    | _, _, _ => None
    end
  else None.

(** What arrives: strings cut to 255 bytes, integers at their width. *)
Definition call_sent (c : call) : call :=
  match c with
  | CallOpen flags path => CallOpen (s32 flags) path
  | CallClose fd => CallClose (s32 fd)
  | CallLseek fd offset whence => CallLseek (s32 fd) (s32 offset) (s32 whence)
  | CallDelete flags path => CallDelete (s32 flags) (take 255 path)
  | CallMkdir flags path => CallMkdir (s32 flags) (take 255 path)
  | CallRmdir flags path => CallRmdir (s32 flags) (take 255 path)
  | CallDopen flags path => CallDopen (s32 flags) (take 255 path)
  | CallDclose dd => CallDclose (s32 dd)
  | CallSync flags device => CallSync (s32 flags) (take 255 device)
  | CallUmount flags device => CallUmount (s32 flags) (take 255 device)
  | CallMount device fsname flags argv argc =>
      CallMount (take 255 device) (take 255 fsname) (s32 flags) (take 255 argv) (s32 argc)
  end.

(** What the reader makes of the packet of a call: the call, except that
    sync, mount and umount are taken for a read, a write and an lseek. *)
Definition heard (c : call) (o : option asked) : Prop :=
  match c with
  | CallSync flags _ => exists size, o = Some (AskedRead (s32 flags) size)
  | CallMount _ _ _ _ _ => exists fd size, o = Some (AskedWrite fd size)
  | CallUmount _ _ => exists fd offset whence, o = Some (Asked (CallLseek fd offset whence))
  | c => o = Some (Asked (call_sent c))
  end.

(** And what it would make of it with the number of the document: always the
    call, with any flags for umount. *)
Definition meant (c : call) (o : option asked) : Prop :=
  match c with
  | CallUmount _ device => exists flags, o = Some (Asked (CallUmount flags (take 255 device)))
  | c => o = Some (Asked (call_sent c))
  end.

Definition doc_number (c : call) : Z :=
  match c with
  | CallOpen _ _ => PS2NETFS_COMMAND_OPEN
  | CallClose _ => PS2NETFS_COMMAND_CLOSE
  | CallLseek _ _ _ => PS2NETFS_COMMAND_LSEEK
  | CallDelete _ _ => PS2NETFS_COMMAND_DELETE
  | CallMkdir _ _ => PS2NETFS_COMMAND_MKDIR
  | CallRmdir _ _ => PS2NETFS_COMMAND_RMDIR
  | CallDopen _ _ => PS2NETFS_COMMAND_DOPEN
  | CallDclose _ => PS2NETFS_COMMAND_DCLOSE
  | CallSync _ _ => doc_sync
  | CallUmount _ _ => doc_umount
  | CallMount _ _ _ _ _ => doc_mount
  end.

(** A packet with another number. *)
Definition renumbered (number : Z) (packet : list Z) : list Z := be32 number ++ drop 4 packet.

Definition call_strings (c : call) : list (list Z) :=
  match c with
  | CallOpen _ path | CallDelete _ path | CallMkdir _ path | CallRmdir _ path | CallDopen _ path
  | CallSync _ path | CallUmount _ path => [path]
  | CallMount device fsname _ argv _ => [device; fsname; argv]
  | _ => []
  end.

(** open refuses a pathname that does not fit. *)
Definition call_fits (c : call) : bool :=
  match c with CallOpen _ path => bool_decide (length path <= 255)%nat | _ => true end.

Definition call_size (c : call) : nat :=
  match c with
  | CallClose _ | CallDclose _ => 10
  | CallLseek _ _ _ => 18
  | CallMount _ _ _ _ _ => 782
  | _ => 266
  end.

Definition call_packet (obj : list Z) (c : call) : list Z :=
  match c with
  | CallOpen flags path =>
      header PS2NETFS_COMMAND_OPEN 266 ++ be32 flags ++ (snprintf_s (replicate 256 0) 256 path).2
  | CallClose fd => header PS2NETFS_COMMAND_CLOSE 10 ++ be32 fd
  | CallLseek fd offset whence =>
      header PS2NETFS_COMMAND_LSEEK 18 ++ be32 fd ++ be32 offset ++ be32 whence
  | CallDelete flags path => path_packet obj PS2NETFS_COMMAND_DELETE flags (Some path)
  | CallMkdir flags path => path_packet obj PS2NETFS_COMMAND_MKDIR flags (Some path)
  | CallRmdir flags path => path_packet obj PS2NETFS_COMMAND_RMDIR flags (Some path)
  | CallDopen flags path => path_packet obj PS2NETFS_COMMAND_DOPEN flags (Some path)
  | CallDclose dd => header PS2NETFS_COMMAND_DCLOSE 10 ++ be32 dd
  | CallSync flags device => path_packet obj PS2NETFS_COMMAND_SYNC flags (Some device)
  | CallUmount _ device =>
      header PS2NETFS_COMMAND_UMOUNT 266 ++ slice obj 6 4 ++ name_field obj 10 (Some device)
  | CallMount device fsname flags argv argc =>
      header PS2NETFS_COMMAND_MOUNT 782 ++ name_field obj 6 (Some device)
      ++ name_field obj 262 (Some fsname) ++ be32 flags ++ name_field obj 522 (Some argv) ++ be32 argc
  end.

Lemma length_call_packet obj c :
  length obj = call_size c -> length (call_packet obj c) = call_size c.
Proof.
  intros Hl. destruct c; cbn [call_packet call_size] in *; unfold path_packet; try reflexivity;
    rewrite !length_app; rewrite ?length_name_field by (rewrite Hl; lia);
    rewrite ?length_slice by (rewrite Hl; lia); try reflexivity.
  by rewrite snprintf_s_length by (rewrite length_replicate; lia).
Qed.

(** A field behind fields of known length. *)
Lemma field_at (pre field : list Z) off :
  length pre = off -> drop off (pre ++ field) = field.
Proof. intros <-. apply drop_app_length. Qed.

Lemma get_be32_at pre z rest off :
  length pre = off -> get_be32 (pre ++ be32 z ++ rest) off = u32 z.
Proof. intros <-. apply get_be32_field. Qed.

Lemma renumbered_header number number' size rest :
  renumbered number (header number' size ++ rest) = header number size ++ rest.
Proof. unfold header. by rewrite <- !app_assoc. Qed.

(** A packet of fields behind its header. *)
Lemma renumbered_length number packet : (4 <= length packet)%nat -> length (renumbered number packet) = length packet.
Proof. intros. unfold renumbered. rewrite length_app, length_be32, length_drop. lia. Qed.

Lemma path_packet_fields obj number flags path :
  is_string path -> length obj = 266%nat ->
  get_be32 (path_packet obj number flags (Some path)) 0 = u32 number
  /\ get_be16 (path_packet obj number flags (Some path)) 4 = 266
  /\ s32 (get_be32 (path_packet obj number flags (Some path)) 6) = s32 flags
  /\ cstr (drop 10 (path_packet obj number flags (Some path))) = Some (take 255 path).
Proof.
  intros Hs Hl. unfold path_packet.
  rewrite get_be32_header, get_be16_header, header_be32, s32_u32, drop_header_10.
  rewrite cstr_name_field by done. done.
Qed.

Lemma mount_packet_fields obj number device fsname flags argv argc :
  is_string device -> is_string fsname -> is_string argv -> length obj = 782%nat ->
  let p := renumbered number (call_packet obj (CallMount device fsname flags argv argc)) in
  cstr (drop 6 p) = Some (take 255 device) /\ cstr (drop 262 p) = Some (take 255 fsname)
  /\ s32 (get_be32 p 518) = s32 flags /\ cstr (drop 522 p) = Some (take 255 argv)
  /\ s32 (get_be32 p 778) = s32 argc.
Proof.
  intros Hd Hf Ha Hl. cbn [call_packet]. cbv zeta. rewrite renumbered_header.
  assert (L1 : length (name_field obj 6 (Some device)) = 256%nat) by (apply length_name_field; lia).
  assert (L2 : length (name_field obj 262 (Some fsname)) = 256%nat) by (apply length_name_field; lia).
  assert (L3 : length (name_field obj 522 (Some argv)) = 256%nat) by (apply length_name_field; lia).
  pose proof (cstr_name_field obj 6 device Hd) as C1. pose proof (cstr_name_field obj 262 fsname Hf) as C2.
  pose proof (cstr_name_field obj 522 argv Ha) as C3.
  set (n1 := name_field obj 6 _) in *. set (n2 := name_field obj 262 _) in *.
  set (n3 := name_field obj 522 _) in *. set (h := header _ _).
  assert (Lh : length h = 6%nat) by done.
  refine (conj _ (conj _ (conj _ (conj _ _)))).
  - rewrite (field_at h) by done. by apply cstr_app_l.
  - rewrite (app_assoc h), (field_at (h ++ n1)) by (rewrite length_app; lia). by apply cstr_app_l.
  - rewrite (app_assoc h), (app_assoc (h ++ n1)).
    rewrite get_be32_at by (rewrite !length_app; lia). apply s32_u32.
  - rewrite (app_assoc h), (app_assoc (h ++ n1)), (app_assoc ((h ++ n1) ++ n2)).
    rewrite field_at by (rewrite !length_app, length_be32; lia). by apply cstr_app_l.
  - rewrite (app_assoc h), (app_assoc (h ++ n1)), (app_assoc ((h ++ n1) ++ n2)),
      (app_assoc (((h ++ n1) ++ n2) ++ be32 flags)), <- (app_nil_r (be32 argc)).
    rewrite get_be32_at by (rewrite !length_app, length_be32; lia). apply s32_u32.
Qed.

(** With the number of the document every packet is its call. *)
Lemma decode_renumbered obj c :
  Forall is_string (call_strings c) -> call_fits c = true -> length obj = call_size c ->
  meant c (decode_call (renumbered (doc_number c) (call_packet obj c))).
Proof.
  intros Hs Hf Hl. unfold decode_call. cbv beta zeta. rewrite renumbered_length
    by (rewrite (length_call_packet obj c Hl); destruct c; simpl; lia).
  rewrite (length_call_packet obj c Hl).
  destruct c as [flags path|fd|fd offset whence|flags path|flags path|flags path|flags path|dd
    |flags device|flags device|device fsname flags argv argc];
    cbn [call_size call_strings call_fits call_sent meant doc_number] in *.
  2, 8: cbn [call_packet]; rewrite renumbered_header, <- (app_nil_r (be32 _)), get_be32_header, get_be16_header,
    header_be32, s32_u32; reflexivity.
  3-6, 7: apply Forall_inv in Hs; cbn [call_packet]; unfold path_packet; rewrite renumbered_header;
    match goal with |- context [header ?n _] =>
      edestruct (path_packet_fields obj n flags) as (F1 & F2 & F3 & F4); [exact Hs|exact Hl|] end;
    unfold path_packet in F1, F2, F3, F4; rewrite F1, F2, F3, F4; reflexivity.
  - apply Forall_inv in Hs. apply bool_decide_eq_true in Hf. cbn [call_packet].
    rewrite renumbered_header, get_be32_header, get_be16_header, header_be32, s32_u32, drop_header_10.
    rewrite snprintf_s_cstr by (by apply is_string_nonzero). rewrite take_ge by lia. reflexivity.
  - cbn [call_packet]. rewrite renumbered_header, get_be32_header, get_be16_header, header_be32, header_be32_2.
    pose proof (get_be32_at (header PS2NETFS_COMMAND_LSEEK 18 ++ be32 fd ++ be32 offset) whence [] 14
      eq_refl) as Hw. rewrite app_nil_r, <- !app_assoc in Hw. rewrite Hw, !s32_u32. reflexivity.
  - apply Forall_inv in Hs. cbn [call_packet]. rewrite renumbered_header, get_be32_header, get_be16_header.
    rewrite (app_assoc (header _ _) (slice _ _ _)), field_at
      by (rewrite length_app, length_slice by lia; reflexivity).
    rewrite cstr_name_field by done. eexists. reflexivity.
  - inversion Hs as [|? ? Hd Hs1]. inversion Hs1 as [|? ? Hfs Hs2]. apply Forall_inv in Hs2.
    destruct (mount_packet_fields obj doc_mount device fsname flags argv argc Hd Hfs Hs2 Hl)
      as (F1 & F2 & F3 & F4 & F5). rewrite F1, F2, F3, F4, F5.
    cbn [call_packet]. rewrite renumbered_header, get_be32_header, get_be16_header. reflexivity.
Qed.

(** With the number it has only most of them are. *)
Lemma decode_call_packet obj c :
  Forall is_string (call_strings c) -> call_fits c = true -> length obj = call_size c ->
  heard c (decode_call (call_packet obj c)).
Proof.
  intros Hs Hf Hl. pose proof (decode_renumbered obj c Hs Hf Hl) as Hm.
  destruct c; cbn [call_packet heard meant doc_number] in *; unfold path_packet in *;
    rewrite ?renumbered_header in Hm; try exact Hm.
  - pose proof (length_call_packet obj (CallSync flags device) Hl) as Hp. cbn [call_packet call_size] in Hp.
    unfold path_packet in Hp. unfold decode_call. cbv beta zeta.
    rewrite Hp, get_be32_header, get_be16_header, header_be32, s32_u32. eexists. reflexivity.
  - pose proof (length_call_packet obj (CallUmount flags device) Hl) as Hp. cbn [call_packet call_size] in Hp.
    unfold decode_call. cbv beta zeta. rewrite Hp, get_be32_header, get_be16_header. do 3 eexists. reflexivity.
  - pose proof (length_call_packet obj (CallMount device fsname flags argv argc) Hl) as Hp.
    cbn [call_packet call_size] in Hp.
    unfold decode_call. cbv beta zeta. rewrite Hp, get_be32_header, get_be16_header. do 2 eexists. reflexivity.
Qed.

(** ** The functions of the source make these calls *)

Section calls.
Context {W : Type} `{PosixLaws W}.
Implicit Types (s : st netfs W) (w : W).

(** The outcome of a call: the result field of a complete reply, or -1. *)
Inductive answered (sock : Z) (packet : list Z) w w' : Z -> Prop :=
| ans_reply reply : exchanged sock packet reply w w' -> length reply = 10%nat ->
    answered sock packet w w' (s32 (get_be32 reply 6))
| ans_cut : cut_off sock packet 10 w w' -> answered sock packet w w' (-1).

Lemma simple_call_answered (E : fault -> Prop) packet size s Q :
  Z.of_nat (length packet) = size ->
  (forall r w', answered (ps2netfs_socket (glob s)) packet (world s) w' r -> Q r (mk_st (glob s) w')) ->
  wp E (simple_call packet size) Q s.
Proof.
  intros Hl HQ. apply simple_call_wp; [done| |].
  - intros reply w' He Hr. by apply HQ, ans_reply.
  - intros w' Hc. by apply HQ, ans_cut.
Qed.

Lemma netfs_call_wp (E : fault -> Prop) c s Q :
  call_fits c = true ->
  (forall obj w1 r w', length obj = call_size c -> quiet (world s) w1 ->
     answered (ps2netfs_socket (glob s)) (call_packet obj c) w1 w' r -> Q r (mk_st (glob s) w')) ->
  wp E (netfs_call c) Q s.
Proof.
  intros Hf HQ.
  assert (Hgo : forall obj w1, length obj = call_size c -> quiet (world s) w1 ->
    wp E (simple_call (call_packet obj c) (Z.of_nat (call_size c))) Q (mk_st (glob s) w1)).
  { intros obj w1 Ho Hq. apply simple_call_answered; [by rewrite (length_call_packet obj c)|].
    intros r w' Ha. by eapply HQ. }
  assert (Hnow : wp E (simple_call (call_packet (replicate (call_size c) 0) c)
                         (Z.of_nat (call_size c))) Q s).
  { apply (Hgo _ (world s)); [apply length_replicate|reflexivity]. }
  destruct c as [flags path|fd|fd offset whence|flags path|flags path|flags path|flags path|dd
    |flags device|flags device|device fsname flags argv argc]; cbn [netfs_call call_fits] in *.
  2, 3, 8: exact Hnow.
  - apply bool_decide_eq_true in Hf. unfold ps2netfs_command_open.
    destruct (snprintf_s (replicate 256 0) 256 path) as [len field] eqn:Hsn.
    assert (Hlen : len = Z.of_nat (length path)) by (unfold snprintf_s in Hsn; by simplify_eq).
    rewrite (proj2 (Z.ltb_ge len 0)) by lia. rewrite Z.geb_leb, (proj2 (Z.leb_gt 256 len)) by lia.
    cbn [call_packet call_size] in Hnow. rewrite Hsn in Hnow. exact Hnow.
  - unfold ps2netfs_command_delete, path_call. wp_step. intros obj w1 (Hq & Ho & _)%auto_law.
    by apply (Hgo obj w1).
  - unfold ps2netfs_command_mkdir, path_call. wp_step. intros obj w1 (Hq & Ho & _)%auto_law.
    by apply (Hgo obj w1).
  - unfold ps2netfs_command_rmdir, path_call. wp_step. intros obj w1 (Hq & Ho & _)%auto_law.
    by apply (Hgo obj w1).
  - unfold ps2netfs_command_dopen, path_call. wp_step. intros obj w1 (Hq & Ho & _)%auto_law.
    by apply (Hgo obj w1).
  - unfold ps2netfs_command_sync, path_call. wp_step. intros obj w1 (Hq & Ho & _)%auto_law.
    by apply (Hgo obj w1).
  - unfold ps2netfs_command_umount. wp_step. intros obj w1 (Hq & Ho & _)%auto_law.
    by apply (Hgo obj w1).
  - unfold ps2netfs_command_mount. wp_step. intros obj w1 (Hq & Ho & _)%auto_law.
    by apply (Hgo obj w1).
Qed.

(** ** read and write *)

(** A successful read: the header of the reply, then as many bytes. *)
Record read_done (sock fd size r : Z) (data : list Z) w w' : Prop := {
  rd_reply : exists reply w1,
    exchanged sock (header PS2NETFS_COMMAND_READ 14 ++ be32 fd ++ be32 size) reply w w1
    /\ length reply = 14%nat /\ s32 (get_be32 reply 6) = r /\ exchanged sock [] data w1 w';
  rd_size : 0 <= r <= size /\ length data = Z.to_nat r }.

Lemma netfs_read_wp (E : fault -> Prop) fd buffer size s Q :
  size <= Z.of_nat (length buffer) ->
  (forall r data w', read_done (ps2netfs_socket (glob s)) fd size r data (world s) w' ->
     Q (r, mem_store buffer 0 data) (mk_st (glob s) w')) ->
  (forall r buffer' w', r < 0 -> length buffer' = length buffer ->
     quiet_but (Some (ps2netfs_socket (glob s))) (world s) w' -> Q (r, buffer') (mk_st (glob s) w')) ->
  wp E (ps2netfs_command_read fd buffer size) Q s.
Proof.
  intros Hsize HQ Hfail. unfold ps2netfs_command_read. set (sock := ps2netfs_socket (glob s)) in *.
  destruct (Z.ltb_spec size 0) as [|Hpos]; [apply wp_ret, Hfail; [lia|done|reflexivity]|].
  apply wp_bind, exchange_wp; [reflexivity|done| |].
  2: { intros w1 Hc. apply wp_ret, Hfail; [lia|done|apply Hc]. }
  intros reply w1 He Hlr. pose proof (ex_quiet _ _ _ _ _ He) as Hq1. cbv zeta. unfold result_of.
  destruct (Z.ltb_spec (s32 (get_be32 reply 6)) 0); [by apply wp_ret, Hfail|].
  destruct (Z.gtb_spec (s32 (get_be32 reply 6)) size); [apply wp_ret, Hfail; [lia|done|done]|].
  wp_step. apply wp_bind, network_receive_all_wp; [lia|]. simpl.
  intros r2 data w2 [Hq2 Htx Hrx Hby Hres].
  assert (Hq : quiet_but (Some sock) (world s) w2) by (by etrans).
  destruct (Z.ltb_spec r2 0); apply wp_ret.
  - apply Hfail; [lia| |done]. apply mem_store_length. lia.
  - apply HQ. split; [|lia]. exists reply, w1.
    refine (conj He (conj _ (conj eq_refl _))); [unfold sizeof_read_reply in Hlr; lia|].
    split; try done. by rewrite app_nil_r.
Qed.

(** A successful write: the packet and the data went out, then a reply came. *)
Lemma netfs_write_wp (E : fault -> Prop) fd buffer s Q :
  let size := Z.of_nat (length buffer) in
  let packet := header PS2NETFS_COMMAND_WRITE 14 ++ be32 fd ++ be32 size in
  (forall r w', answered (ps2netfs_socket (glob s)) (packet ++ buffer) (world s) w' r ->
     Q r (mk_st (glob s) w')) ->
  wp E (ps2netfs_command_write fd buffer size) Q s.
Proof.
  intros size packet HQ. unfold ps2netfs_command_write.
  set (sock := ps2netfs_socket (glob s)) in *. wp_step.
  apply wp_bind, network_send_packet_wp; [reflexivity|]. intros r1 w1 [Hq1 Hrx1 (n1 & Htx1 & Hr1)].
  assert (Hcut : forall w2 n, quiet_but (Some sock) (world s) w2 -> rx w2 sock = rx (world s) sock ->
    tx w2 sock = tx (world s) sock ++ take n (packet ++ buffer) ->
    answered sock (packet ++ buffer) (world s) w2 (-1)).
  { intros w2 n Hq Hrx Htx. apply ans_cut. split; [done|by exists n|].
    exists []. rewrite app_nil_r. split; [done|simpl; lia]. }
  destruct (Z.ltb_spec r1 0).
  { apply wp_ret, HQ. apply (Hcut w1 n1); [done|done|].
    rewrite take_app_le; [exact Htx1|]. cbn [length] in Hr1. destruct Hr1 as [[-> _]|(_ & Hn & _)]; [simpl in *; lia|].
    fold packet in Hn. lia. }
  assert (Hn1 : take n1 packet = packet).
  { destruct Hr1 as [[_ ->]|[-> _]]; [apply firstn_all|lia]. }
  fold packet in Htx1. rewrite Hn1 in Htx1.
  apply wp_bind, network_send_packet_wp; [done|]. simpl. intros r2 w2 [Hq2 Hrx2 (n2 & Htx2 & Hr2)].
  rewrite Htx1, <- app_assoc in Htx2. rewrite Hrx1 in Hrx2.
  assert (Hq12 : quiet_but (Some sock) (world s) w2) by (by etrans).
  destruct (Z.ltb_spec r2 0).
  { apply wp_ret, HQ. apply (Hcut w2 (length packet + n2)%nat); [done|done|]. by rewrite take_app_add. }
  assert (Hn2 : take n2 buffer = buffer).
  { destruct Hr2 as [[_ ->]|[-> _]]; [apply firstn_all|lia]. }
  rewrite Hn2 in Htx2. apply wp_bind, receive_reply_wp; [done| |]; simpl; fold sock.
  - intros reply w3 [Hq3 Htx3 Hrx3 Hby] Hlr. apply wp_ret, HQ, ans_reply.
    + split; [by etrans|by rewrite Htx3, app_nil_r|rewrite Hrx3; by f_equal|done].
    + unfold sizeof_reply in Hlr. lia.
  - intros w3 [Hq3 (k & Htx3) (part & Hrx3 & Hpart)]. apply wp_ret, HQ, ans_cut.
    split; [by etrans| |exists part; split; [rewrite Hrx3; by f_equal|done]].
    exists (length (packet ++ buffer)). rewrite Htx3, firstn_nil, app_nil_r, firstn_all. exact Htx2.
Qed.
End calls.

(** ** The properties of src/ps2netfs.c *)

(** C18: every call with a single result sends one packet, as long as it says,
    and returns the result field of the complete reply, or -1 when the packet
    could not be sent or the reply did not come in whole. Read by
    doc/ps2netfs-protocol.txt, the packet is the call with its arguments
    (integers at their widths, strings cut to 255 bytes), but for three: the
    header gives sync, mount and umount the numbers of read, write and lseek,
    and a reader that goes by the number takes them for these. Their layout is
    that of the document: with the document's number in it the packet is the
    call, only that the flags of umount are not sent. *)
Theorem netfs_call_round_trip (W : Type) `{PosixLaws W} (c : call) (s : st netfs W) :
  Forall is_string (call_strings c) -> call_fits c = true ->
  exists packet w1 w' r, netfs_call c s = Ret (r, mk_st (glob s) w') /\ quiet (world s) w1
    /\ answered (ps2netfs_socket (glob s)) packet w1 w' r
    /\ length packet = call_size c /\ heard c (decode_call packet)
    /\ meant c (decode_call (renumbered (doc_number c) packet)).
Proof.
  intros Hs Hf. destruct (wp_run (netfs_call c) (fun r s' => glob s' = glob s /\ exists obj w1,
    length obj = call_size c /\ quiet (world s) w1
    /\ answered (ps2netfs_socket (glob s)) (call_packet obj c) w1 (world s') r) s)
    as (r & [g w'] & Hr & Hg & obj & w1 & Ho & Hq & Ha).
  { apply netfs_call_wp; [done|]. intros obj w1 r w' Ho Hq Ha. split; [done|]. by exists obj, w1. }
  simpl in *. subst g. exists (call_packet obj c), w1, w', r.
  refine (conj Hr (conj Hq (conj Ha (conj _ (conj _ _))))).
  - by apply length_call_packet.
  - by apply decode_call_packet.
  - by apply decode_renumbered.
Qed.

Lemma netfs_call_round_trip_witness :
  exists packet w1 w' r,
    netfs_call (CallMkdir 0 (bytes_of "mc0:/save")) (mk_st (mk_netfs 4)
      (sim_start [result_packet 0xBEEF8082 (-5)] 0 [] [] [])) = Ret (r, mk_st (mk_netfs 4) w')
    /\ answered (W := sim) 4 packet w1 w' r
    /\ decode_call packet = Some (Asked (CallMkdir 0 (bytes_of "mc0:/save"))).
Proof.
  destruct (netfs_call_round_trip sim (CallMkdir 0 (bytes_of "mc0:/save")) (mk_st (mk_netfs 4)
    (sim_start [result_packet 0xBEEF8082 (-5)] 0 [] [] [])))
    as (packet & w1 & w' & r & Hr & _ & Ha & _ & Hd & _).
  - apply (bool_decide_eq_true (Forall is_string _)). vm_compute. reflexivity.
  - reflexivity.
  - exists packet, w1, w', r. split; [exact Hr|]. split; [exact Ha|exact Hd].
Defined.

(** C24: ps2netfs_command_read is safe against any server: whatever the reply
    says, it never writes more bytes to the buffer than were asked for, and
    when it returns a count, exactly that many bytes, the ones that followed
    the reply on the connection, are at the start of the buffer. *)
Theorem netfs_read_safe (W : Type) `{PosixLaws W} (fd size : Z) (buffer : list Z) (s : st netfs W) :
  size <= Z.of_nat (length buffer) ->
  exists r buffer' w', ps2netfs_command_read fd buffer size s = Ret ((r, buffer'), mk_st (glob s) w')
    /\ length buffer' = length buffer /\ r <= Z.max (-1) size
    /\ (0 <= r -> exists data, buffer' = mem_store buffer 0 data
          /\ read_done (ps2netfs_socket (glob s)) fd size r data (world s) w').
Proof.
  intros Hsize.
  destruct (wp_run (ps2netfs_command_read fd buffer size) (fun rb s' => glob s' = glob s
    /\ length rb.2 = length buffer /\ rb.1 <= Z.max (-1) size
    /\ (0 <= rb.1 -> exists data, rb.2 = mem_store buffer 0 data
          /\ read_done (ps2netfs_socket (glob s)) fd size rb.1 data (world s) (world s'))) s)
    as ([r buffer'] & [g w'] & Hr & Hg & Hl & Hle & Hd).
  { apply netfs_read_wp; [done| |].
    - intros r data w' Hd. pose proof (rd_size _ _ _ _ _ _ _ Hd) as [Hr Hl]. simpl.
      split_and!; [done|apply mem_store_length; lia|lia|]. intros _. by exists data.
    - intros r buffer' w' Hr Hl _. simpl. split_and!; [done|done|lia|lia]. }
  simpl in *. subst g. by exists r, buffer', w'.
Qed.

Lemma netfs_read_safe_witness :
  exists r buffer' w', ps2netfs_command_read 3 (replicate 4 0) 4
      (mk_st (mk_netfs 4) (sim_start [read_packet 9 9 ++ bytes_of "too much!"] 0 [] [] []))
      = Ret ((r, buffer'), mk_st (mk_netfs 4) w')
    /\ length buffer' = 4%nat /\ r <= Z.max (-1) 4.
Proof.
  destruct (netfs_read_safe sim 3 4 (replicate 4 0)
    (mk_st (mk_netfs 4) (sim_start [read_packet 9 9 ++ bytes_of "too much!"] 0 [] [] [])))
    as (r & buffer' & w' & Hr & Hl & Hle & _); [simpl; lia|].
  exists r, buffer', w'. split; [exact Hr|]. split; [exact Hl|exact Hle].
Defined.

(** The numbers of sync, mount and umount are those of read, write and
    lseek, so a server that goes by the number alone cannot tell a sync from a
    read: both packets begin with the same four bytes. *)
Theorem netfs_numbers_collide (obj device : list Z) (flags fd size : Z) :
  get_be32 (call_packet obj (CallSync flags device)) 0
  = get_be32 (header PS2NETFS_COMMAND_READ 14 ++ be32 fd ++ be32 size) 0
  /\ PS2NETFS_COMMAND_MOUNT = PS2NETFS_COMMAND_WRITE
  /\ PS2NETFS_COMMAND_UMOUNT = PS2NETFS_COMMAND_LSEEK.
Proof. cbn [call_packet]. unfold path_packet. by rewrite !get_be32_header. Qed.

(** The numbers tell the calls apart but for three: sync, mount and umount
    share theirs with read, write and lseek. *)
Lemma netfs_numbers_shared i j number :
  (i < j)%nat -> netfs_numbers !! i = Some number -> netfs_numbers !! j = Some number ->
  number ∈ [PS2NETFS_COMMAND_SYNC; PS2NETFS_COMMAND_MOUNT; PS2NETFS_COMMAND_UMOUNT].
Proof.
  intros Hij Hi Hj.
  assert (Hall : forallb (fun j => forallb (fun i =>
      bool_decide (netfs_numbers !! i <> netfs_numbers !! j)
      || bool_decide (default 0 (netfs_numbers !! i)
           ∈ [PS2NETFS_COMMAND_SYNC; PS2NETFS_COMMAND_MOUNT; PS2NETFS_COMMAND_UMOUNT])) (seq 0 j)) (seq 0 28) = true)
    by (vm_compute; reflexivity).
  rewrite forallb_forall in Hall. specialize (Hall j).
  assert (Hl : (j < 28)%nat) by (apply lookup_lt_Some in Hj; exact Hj).
  specialize (Hall ltac:(apply in_seq; lia)). rewrite forallb_forall in Hall.
  specialize (Hall i ltac:(apply in_seq; lia)). apply orb_true_iff in Hall as [Hn|Hm].
  - apply bool_decide_eq_true in Hn. congruence.
  - apply bool_decide_eq_true in Hm. by rewrite Hi in Hm.
Qed.
