(* ===== verification/Fsclient.v ===== *)
(** * src/fsclient.c: copying files to and from the PS2

    The functions of the file client over the calls of the file Netfs and the
    local files of the Posix interface. What they print is left out. The fuel
    of a copy loop is the bytes still to move, of which every iteration moves
    at least one. *)

From stdpp Require Import pretty.
From S2P Require Import Prelude CLib Posix Sim Utility Network Response Wire Command Netfs.

(** sizeof(buffer). *)
Definition COPY_BUFFER : Z := 28000.

(** The flags the two copies open their destinations with. *)
Definition local_flags : Z := Z.lor (Z.lor O_WRONLY O_CREAT) O_TRUNC.
Definition remote_flags : Z := Z.lor (Z.lor OPEN_WRITE OPEN_CREATE) OPEN_TRUNCATE.

Section defs.
Context {W : Type} `{Posix W}.

(** while (sent < bytes) write(fd1, buffer + sent, bytes - sent): whether
    every byte was written. *)
Fixpoint write_loop (fuel : nat) (fd1 : Z) (buffer : list Z) (bytes sent : Z) : M netfs W bool :=
  match fuel with
  | O => stuck
  | S fuel =>
      if sent <? bytes then
        let! r := hcall (sys_write fd1 (slice buffer (Z.to_nat sent) (Z.to_nat (bytes - sent)))) in
        let written := s32 r in
        if written <=? 0 then ret false
        else write_loop fuel fd1 buffer bytes (sent + written)
      else ret true
  end.

(** while (total < size) of fsclient_copyfrom: whether everything was copied. *)
Fixpoint copyfrom_loop (fuel : nat) (fd0 fd1 size total : Z) (buffer : list Z) : M netfs W bool :=
  match fuel with
  | O => stuck
  | S fuel =>
      if total <? size then
        let count := if size - total <? COPY_BUFFER then size - total else COPY_BUFFER in
        let! r := ps2netfs_command_read fd0 buffer count in
        let '(bytes, buffer) := r in
        if (bytes <=? 0) || (bytes >? count) then ret false
        else
          let! ok := write_loop (S (Z.to_nat bytes)) fd1 buffer bytes 0 in
          if ok : bool then copyfrom_loop fuel fd0 fd1 size (total + bytes) buffer else ret false
      else ret true
  end.

(** done: close what is open; the status survives only if that works. *)
Definition close_remote (fd status : Z) : M netfs W Z :=
  if fd >=? 0 then
    let! r := ps2netfs_command_close fd in ret (if r <? 0 then -1 else status)
  else ret status.
Definition close_local (fd status : Z) : M netfs W Z :=
  if fd >=? 0 then
    let! r := hcall (sys_close fd) in ret (if r <? 0 then -1 else status)
  else ret status.

(** The descriptors and the status at the label done. *)
Definition copyfrom_body (source destination : list Z) : M netfs W (Z * Z * Z) :=
  let! fd0 := ps2netfs_command_open (Some source) OPEN_READ in
  if fd0 <? 0 then ret (fd0, -1, -1)
  else
    let! size := ps2netfs_command_lseek fd0 0 LSEEK_END in
    let! failed :=
      (if size <? 0 then ret true
       else let! r := ps2netfs_command_lseek fd0 0 LSEEK_SET in ret (r <? 0)) in
    if failed : bool then ret (fd0, -1, -1)
    else
      let! fd1 := hcall (sys_open destination local_flags 420) in
      if fd1 <? 0 then ret (fd0, fd1, -1)
      else
        let! buffer := hcall (sys_auto (Z.to_nat COPY_BUFFER)) in
        let! ok := copyfrom_loop (S (Z.to_nat size)) fd0 fd1 size 0 buffer in
        ret (fd0, fd1, if ok : bool then 0 else -1).

Definition fsclient_copyfrom (source destination : list Z) : M netfs W Z :=
  let! r := copyfrom_body source destination in
  let '(fd0, fd1, status) := r in
  let! status := close_remote fd0 status in
  close_local fd1 status.

(** while (sent < bytes) of fsclient_copyto. *)
Fixpoint send_loop (fuel : nat) (fd1 : Z) (buffer : list Z) (bytes sent : Z) : M netfs W bool :=
  match fuel with
  | O => stuck
  | S fuel =>
      if sent <? bytes then
        let! written := ps2netfs_command_write fd1
                          (slice buffer (Z.to_nat sent) (Z.to_nat (bytes - sent))) (bytes - sent) in
        if (written <=? 0) || (written >? bytes - sent) then ret false
        else send_loop fuel fd1 buffer bytes (sent + written)
      else ret true
  end.

Fixpoint copyto_loop (fuel : nat) (fd0 fd1 size total : Z) (buffer : list Z) : M netfs W bool :=
  match fuel with
  | O => stuck
  | S fuel =>
      if total <? size then
        let count := if size - total <? COPY_BUFFER then size - total else COPY_BUFFER in
        let! r := hcall (sys_read fd0 count) in
        let bytes := s32 r.1 in
        let buffer := mem_store buffer 0 r.2 in
        if bytes <=? 0 then ret false
        else
          let! ok := send_loop (S (Z.to_nat bytes)) fd1 buffer bytes 0 in
          if ok : bool then copyto_loop fuel fd0 fd1 size (total + bytes) buffer else ret false
      else ret true
  end.

Definition copyto_body (source destination : list Z) : M netfs W (Z * Z * Z) :=
  let! fd0 := hcall (sys_open source O_RDONLY 0) in
  if fd0 <? 0 then ret (fd0, -1, -1)
  else
    let! r := hcall (sys_lseek fd0 0 SEEK_END) in
    let size := s32 r in
    let! failed :=
      (if size <? 0 then ret true
       else let! r := hcall (sys_lseek fd0 0 SEEK_SET) in ret (r <? 0)) in
    if failed : bool then ret (fd0, -1, -1)
    else
      let! fd1 := ps2netfs_command_open (Some destination) remote_flags in
      if fd1 <? 0 then ret (fd0, fd1, -1)
      else
        let! buffer := hcall (sys_auto (Z.to_nat COPY_BUFFER)) in
        let! ok := copyto_loop (S (Z.to_nat size)) fd0 fd1 size 0 buffer in
        ret (fd0, fd1, if ok : bool then 0 else -1).

Definition fsclient_copyto (source destination : list Z) : M netfs W Z :=
  let! r := copyto_body source destination in
  let '(fd0, fd1, status) := r in
  let! status := close_local fd0 status in
  close_remote fd1 status.

(** The commands that are one call. *)
Definition report (m : M netfs W Z) : M netfs W Z :=
  let! result := m in if result <? 0 then ret (-1) else ret 0.

Definition fsclient_delete (pathname : option (list Z)) : M netfs W Z :=
  report (ps2netfs_command_delete pathname 0).
Definition fsclient_mkdir (pathname : option (list Z)) : M netfs W Z :=
  report (ps2netfs_command_mkdir pathname 0).
Definition fsclient_mount (device fsname : option (list Z)) : M netfs W Z :=
  report (ps2netfs_command_mount device fsname MOUNT_READWRITE (Some []) 0).
Definition fsclient_rmdir (pathname : option (list Z)) : M netfs W Z :=
  report (ps2netfs_command_rmdir pathname 0).
Definition fsclient_sync (device : option (list Z)) : M netfs W Z :=
  report (ps2netfs_command_sync device 0).
Definition fsclient_umount (device : option (list Z)) : M netfs W Z :=
  report (ps2netfs_command_umount device 0).
End defs.

(** ** Listings *)

(** printf %d, %0<n>d and %<n>d *)
Definition decimal (z : Z) : list Z := bytes_of (pretty z).
Definition padded (fill : Z) (width : nat) (z : Z) : list Z :=
  let text := decimal z in replicate (width - length text) fill ++ text.

(** A signed char. *)
Definition s8 (z : Z) : Z := (z + 128) mod 256 - 128.

(** What is said about a device. *)
Definition device_texts : list (list Z * list Z) :=
  [(bytes_of "rom", bytes_of "  rom    - Onboard rom device.");
   (bytes_of "cdrom", bytes_of "  cdrom  - Standard cd/dvd device. (cdrom:)");
   (bytes_of "host", bytes_of "  host   - Host file system. (host:)");
   (bytes_of "mc", bytes_of "  mc     - Memory card driver. (mc0: mc1:)");
   (bytes_of "hdd", bytes_of "  hdd    - Internal HDD unit.");
   (bytes_of "pfs", bytes_of "  pfs    - Playstation File System.");
   (bytes_of "dev9x", bytes_of "  dev9x  - Blah blah blah.")].

Fixpoint lookup_text (name : list Z) (texts : list (list Z * list Z)) : option (list Z) :=
  match texts with
  | [] => None
  | (n, text) :: texts => if strcmp_eq name n then Some text else lookup_text name texts
  end.

Definition device_line (name : list Z) : list Z :=
  match lookup_text name device_texts with
  | Some text => text ++ [10]
  | None => bytes_of "  " ++ name ++ [10]
  end.

(** The mode of a directory entry: a bit and its letter, nine times. *)
Definition mode_bits : list (Z * Z) :=
  [(256, 114); (128, 119); (64, 120); (32, 114); (16, 119); (8, 120); (4, 114); (2, 119); (1, 120)].
Definition mode_text (mode : Z) : list Z :=
  (if negb (Z.land mode 0x4000 =? 0) then 108
   else if negb (Z.land mode 0x2000 =? 0) then 45
   else if negb (Z.land mode 0x1000 =? 0) then 100 else 45)
  :: map (fun bl => if negb (Z.land mode bl.1 =? 0) then bl.2 else 45) mode_bits.

(** The members of a DIRENT: mode, size and mtime[i]. *)
Definition dirent_mode (d : list Z) : Z := get_be32 d 0.
Definition dirent_size (d : list Z) : Z := get_be32 d 8.
Definition dirent_mtime (d : list Z) (i : nat) : Z := s8 (byte_at d (28 + i)).
Definition dirent_name (d : list Z) : option (list Z) := cstr (drop 40 d).
Definition sizeof_dirent : nat := 296.

Definition dir_line (d name : list Z) : list Z :=
  bytes_of "  " ++ mode_text (dirent_mode d)
  ++ bytes_of " " ++ padded 32 10 (s32 (dirent_size d))
  ++ bytes_of " " ++ padded 48 2 (dirent_mtime d 5) ++ bytes_of "-" ++ padded 48 2 (dirent_mtime d 4)
  ++ bytes_of "-" ++ padded 48 4 (2048 + dirent_mtime d 6)
  ++ bytes_of " " ++ padded 48 2 (dirent_mtime d 3) ++ bytes_of ":" ++ padded 48 2 (dirent_mtime d 2)
  ++ bytes_of ":" ++ padded 48 2 (dirent_mtime d 1)
  ++ bytes_of " " ++ name ++ [10].

Definition dir_header (pathname : list Z) : list Z :=
  [10] ++ bytes_of " [Contents of " ++ pathname ++ bytes_of "]" ++ [10; 10].
Definition dir_footer (files size : Z) : list Z :=
  [10] ++ bytes_of " [" ++ decimal files ++ bytes_of " Files - " ++ decimal size ++ bytes_of " Bytes]"
  ++ [10; 10].
Definition devlist_header : list Z := [10] ++ bytes_of " [Active Devices]" ++ [10; 10].
Definition devlist_footer (devcount : Z) : list Z :=
  [10] ++ bytes_of " [" ++ decimal devcount ++ bytes_of " Devices Found]" ++ [10; 10].

Section listings.
Context {W : Type} `{Posix W}.

(** for (loop0 = 0; loop0 < devcount; loop0++), from [temp] on. *)
Fixpoint device_loop (count : nat) (devlist : list Z) (temp : nat) : M netfs W unit :=
  match count with
  | O => ret tt
  | S count =>
      let! name := of_option Unterminated (cstr (drop temp devlist)) in
      hcall (sys_stdout (device_line name)) ;;;
      device_loop count devlist (temp + length name + 1)
  end.

Definition fsclient_devlist : M netfs W Z :=
  let! devlist := hcall (sys_auto 256) in
  let! r := ps2netfs_command_devlist (Some []) 0 devlist in
  let '(devcount, devlist) := r in
  if devcount <? 0 then ret (-1)
  else
    hcall (sys_stdout devlist_header) ;;;
    device_loop (Z.to_nat devcount) devlist 0 ;;;
    hcall (sys_stdout (devlist_footer devcount)) ;;;
    ret 0.

(** The loop over the entries, for [n] of them at most: files and size. *)
Fixpoint dir_loop (n : nat) (dd files size : Z) (dirent : list Z) : M netfs W (option (Z * Z)) :=
  match n with
  | O => ret None
  | S n =>
      let! r := ps2netfs_command_dread dd dirent in
      let '(result, dirent) := r in
      if result >? 0 then
        let! name := of_option Unterminated (dirent_name dirent) in
        hcall (sys_stdout (dir_line dirent name)) ;;;
        dir_loop n dd (files + 1) (s32 (size + dirent_size dirent)) dirent
      else ret (Some (files, size))
  end.

Definition fsclient_dir (n : nat) (pathname : option (list Z)) : M netfs W (option Z) :=
  let! dirent := hcall (sys_auto sizeof_dirent) in
  let! dd := ps2netfs_command_dopen pathname 0 in
  if dd <? 0 then ret (Some (-1))
  else
    let! path := of_option NullDeref pathname in
    hcall (sys_stdout (dir_header path)) ;;;
    let! r := dir_loop n dd 0 0 dirent in
    match r with
    | None => ret None
    | Some (files, size) =>
        hcall (sys_stdout (dir_footer files size)) ;;;
        let! result := ps2netfs_command_dclose dd in
        ret (Some (if result <? 0 then -1 else 0))
    end.

(** ** main *)

(** -h and what begins with it, the last one wins; [None] without a value. *)
Fixpoint parse_hosts (argv : list (list Z)) (hostname : list Z) : option (list Z * list (list Z)) :=
  match argv with
  | [] => Some (hostname, [])
  | a :: rest =>
      if strncmp_eq a (bytes_of "-h") 2 then
        match rest with [] => None | v :: rest => parse_hosts rest (take 255 v) end
      else Some (hostname, argv)
  end.

Fixpoint env_hostname (env : list (list Z)) (hostname : list Z) : list Z :=
  match env with
  | [] => hostname
  | e :: env =>
      env_hostname env
        (if strncmp_eq e (bytes_of "PS2HOSTNAME=") 12 then take 255 (drop 12 e) else hostname)
  end.

(** argv[i]: null at the end, and nothing is behind that. *)
Definition argument (argv : list (list Z)) (i : nat) : M netfs W (option (list Z)) :=
  if (i <=? length argv)%nat then ret (argv !! i) else fail Overflow.

Definition as_status (m : M netfs W Z) : M netfs W (option Z) := let! r := m in ret (Some r).

Definition run_fs_command (n : nat) (command : list Z) (argv : list (list Z)) : M netfs W (option Z) :=
  let named c := strcmp_eq command (bytes_of c) in
  let! a0 := argument argv 0 in
  if named "copyfrom" then as_status (fsclient_copyfrom (nth 0 argv []) (nth 1 argv []))
  else if named "copyto" then as_status (fsclient_copyto (nth 0 argv []) (nth 1 argv []))
  else if named "delete" then as_status (fsclient_delete a0)
  else if named "devlist" then as_status fsclient_devlist
  else if named "dir" then fsclient_dir n a0
  else if named "mkdir" then as_status (fsclient_mkdir a0)
  else if named "mount" then
    let! a1 := argument argv 1 in as_status (fsclient_mount a0 a1)
  else if named "rmdir" then as_status (fsclient_rmdir a0)
  else if named "sync" then as_status (fsclient_sync a0)
  else if named "umount" then as_status (fsclient_umount a0)
  else ret (Some (-1)).

Definition is_copy (command : list Z) : bool :=
  strcmp_eq command (bytes_of "copyfrom") || strcmp_eq command (bytes_of "copyto").

Definition fsclient_main (n : nat) (env argv : list (list Z)) : M netfs W (option Z) :=
  if bool_decide (argv = []) then ret (Some (-1))
  else
    match parse_hosts argv (env_hostname env (bytes_of "192.168.0.10")) with
    | None | Some (_, []) => ret (Some (-1))
    | Some (hostname, command :: rest) =>
        if is_copy command && bool_decide (length rest < 2)%nat then ret (Some (-1))
        else
          let! r := network_startup in
          if r <? 0 then ret (Some 1)
          else
            let! r := ps2netfs_connect hostname in
            if r <? 0 then ret (Some (-1)) else run_fs_command n command rest
    end.
End listings.

(** ** What a copy is *)

Section spec.
Context {W : Type} `{Posix W}.

(** [data] was written to a local descriptor, in as many pieces as it took. *)
Definition appended (fd : Z) (data : list Z) (w w' : W) : Prop :=
  quiet_but (Some fd) w w' /\ tx w' fd = tx w fd ++ data /\ rx w' fd = rx w fd.

(** The rest of a copy from the PS2: reads answered with data, each of which
    is written out before the next. *)
Inductive copied (sock fd0 fd1 : Z) : Z -> W -> list Z -> W -> Prop :=
| copied_done w : copied sock fd0 fd1 0 w [] w
| copied_chunk rest r data w w1 w2 data' w' :
    0 < r -> read_done sock fd0 (Z.min rest COPY_BUFFER) r data w w1 ->
    appended fd1 data w1 w2 -> copied sock fd0 fd1 (rest - r) w2 data' w' ->
    copied sock fd0 fd1 rest w (data ++ data') w'.

(** One remote write and the reply to it: the PS2 took the first bytes of
    [chunk], as many as the reply says. *)
Record remote_write := mk_write { chunk : list Z; reply : list Z }.
Definition taken (x : remote_write) : list Z := take (Z.to_nat (result_of (reply x))) (chunk x).
Definition write_packets (fd1 : Z) (x : remote_write) : list Z :=
  header PS2NETFS_COMMAND_WRITE 14 ++ be32 fd1 ++ be32 (Z.of_nat (length (chunk x))) ++ chunk x.

(** [writes] went over the connection. *)
Definition written (sock fd1 : Z) (writes : list remote_write) (w w' : W) : Prop :=
  quiet_but (Some sock) w w'
  /\ tx w' sock = tx w sock ++ concat (map (write_packets fd1) writes)
  /\ rx w' sock = rx w sock ++ concat (map reply writes)
  /\ Forall (fun x => 0 < result_of (reply x) <= Z.of_nat (length (chunk x))) writes.

(** The rest of a copy to the PS2: local reads, each of which the PS2 takes
    before the next. *)
Inductive uploaded (sock fd0 fd1 : Z) : Z -> W -> list Z -> list remote_write -> W -> Prop :=
| uploaded_done w : uploaded sock fd0 fd1 0 w [] [] w
| uploaded_chunk rest data w w1 w2 writes data' writes' w' :
    0 < Z.of_nat (length data) <= Z.min rest COPY_BUFFER ->
    quiet_but (Some fd0) w w1 -> rx w1 fd0 = rx w fd0 ++ data ->
    written sock fd1 writes w1 w2 -> concat (map taken writes) = data ->
    uploaded sock fd0 fd1 (rest - Z.of_nat (length data)) w2 data' writes' w' ->
    uploaded sock fd0 fd1 rest w (data ++ data') (writes ++ writes') w'.

(** A copy from the PS2 that worked, up to the label done: the file was
    opened, measured and rewound, and [data], all of it, was read from the PS2
    and written to the local file. *)
Record copied_from (source destination : list Z) (s : st netfs W) (fd0 fd1 size : Z)
    (data : list Z) (w' : W) : Prop := {
  cf_remote : exists s1 s2 s3 r w4 w5,
    ps2netfs_command_open (Some source) OPEN_READ s = Ret (fd0, s1)
    /\ ps2netfs_command_lseek fd0 0 LSEEK_END s1 = Ret (size, s2)
    /\ ps2netfs_command_lseek fd0 0 LSEEK_SET s2 = Ret (r, s3) /\ 0 <= r
    /\ sys_open destination local_flags 420 (world s3) = (fd1, w4) /\ quiet w4 w5
    /\ copied (ps2netfs_socket (glob s)) fd0 fd1 size w5 data w';
  cf_open : 0 <= fd0 /\ 0 <= fd1;
  cf_size : 0 <= size /\ Z.of_nat (length data) = size;
  cf_data : tx w' fd1 = tx (world s) fd1 ++ data }.

(** A copy to the PS2 that worked, up to the label done. The size of the local
    file, [file_size], is what lseek(2) returned, an off_t; the code keeps the
    low 32 bits of it in an int, and that many bytes are the copy. *)
Record copied_to (source destination : list Z) (s : st netfs W) (fd0 fd1 file_size : Z)
    (data : list Z) (writes : list remote_write) (w' : W) : Prop := {
  ct_remote : exists w1 w2 w3 r' s4 w5,
    sys_open source O_RDONLY 0 (world s) = (fd0, w1)
    /\ sys_lseek fd0 0 SEEK_END w1 = (file_size, w2)
    /\ sys_lseek fd0 0 SEEK_SET w2 = (r', w3) /\ 0 <= r'
    /\ ps2netfs_command_open (Some destination) remote_flags (mk_st (glob s) w3) = Ret (fd1, s4)
    /\ quiet (world s4) w5
    /\ tx w' (ps2netfs_socket (glob s))
       = tx w5 (ps2netfs_socket (glob s)) ++ concat (map (write_packets fd1) writes)
    /\ rx w' (ps2netfs_socket (glob s))
       = rx w5 (ps2netfs_socket (glob s)) ++ concat (map reply writes);
  ct_open : 0 <= fd0 /\ 0 <= fd1;
  ct_size : 0 <= s32 file_size /\ Z.of_nat (length data) = s32 file_size;
  ct_read : rx w' fd0 = rx (world s) fd0 ++ data;
  ct_data : concat (map taken writes) = data;
  ct_taken : Forall (fun x => 0 < result_of (reply x) <= Z.of_nat (length (chunk x))) writes }.
End spec.

Section facts.
Context {W : Type} `{PosixLaws W}.
Implicit Types (s : st netfs W) (w : W).

Lemma slice_split (buffer : list Z) (a n k : nat) :
  (k <= n)%nat -> slice buffer a n = slice buffer a k ++ slice buffer (a + k) (n - k).
Proof.
  intros Hk. unfold slice. rewrite <- (take_drop k (take n (drop a buffer))).
  rewrite take_take, Nat.min_l by lia. by rewrite skipn_firstn_comm, drop_drop.
Qed.

Lemma take_slice (buffer : list Z) a n k : (k <= n)%nat -> take k (slice buffer a n) = slice buffer a k.
Proof. intros. unfold slice. by rewrite take_take, Nat.min_l by lia. Qed.

Lemma write_loop_wp (E : fault -> Prop) fd1 buffer bytes : forall fuel sent s Q,
  0 <= sent <= bytes -> bytes <= Z.of_nat (length buffer) -> bytes < 2 ^ 31 ->
  (Z.to_nat (bytes - sent) < fuel)%nat ->
  (forall w', appended fd1 (slice buffer (Z.to_nat sent) (Z.to_nat (bytes - sent))) (world s) w' ->
     Q true (mk_st (glob s) w')) ->
  (forall w', Q false (mk_st (glob s) w')) ->
  wp E (write_loop fuel fd1 buffer bytes sent) Q s.
Proof.
  induction fuel as [|fuel IH]; intros sent s Q Hsent Hb H31 Hf HQ Hno; [lia|]. simpl.
  destruct (Z.ltb_spec sent bytes) as [Hlt|Hge].
  - wp_step. intros r w1 (Hq & Hr & Htx & Hrx)%write_law. rewrite length_slice in Hr by lia.
    rewrite s32_small by (unfold is_s32; lia).
    destruct (Z.leb_spec r 0); [by apply wp_ret|].
    rewrite take_slice in Htx by lia.
    apply IH; simpl; [lia|done|done|lia| |done].
    intros w2 (Hq2 & Htx2 & Hrx2). apply HQ. split; [by etrans|]. split; [|congruence].
    rewrite Htx2, Htx, <- app_assoc. f_equal.
    rewrite (slice_split buffer (Z.to_nat sent) (Z.to_nat (bytes - sent)) (Z.to_nat r)) by lia.
    f_equal. f_equal; lia.
  - apply wp_ret, HQ. replace (Z.to_nat (bytes - sent)) with 0%nat by lia.
    split; [reflexivity|]. unfold slice. rewrite take_0, app_nil_r. done.
Qed.

Lemma copyfrom_loop_wp (E : fault -> Prop) fd0 fd1 size : forall fuel total buffer s Q,
  0 <= total <= size -> Z.of_nat (length buffer) = COPY_BUFFER ->
  (Z.to_nat (size - total) < fuel)%nat ->
  (forall data w', copied (ps2netfs_socket (glob s)) fd0 fd1 (size - total) (world s) data w' ->
     Q true (mk_st (glob s) w')) ->
  (forall w', Q false (mk_st (glob s) w')) ->
  wp E (copyfrom_loop fuel fd0 fd1 size total buffer) Q s.
Proof.
  induction fuel as [|fuel IH]; intros total buffer s Q Ht Hbuf Hf HQ Hno; [lia|]. cbn [copyfrom_loop].
  destruct (Z.ltb_spec total size) as [Hlt|Hge].
  2: { apply wp_ret. replace (size - total) with 0 in HQ by lia. eapply HQ, copied_done. }
  replace (if size - total <? COPY_BUFFER then size - total else COPY_BUFFER)
    with (Z.min (size - total) COPY_BUFFER) by (destruct (Z.ltb_spec (size - total) COPY_BUFFER); lia).
  apply wp_bind, netfs_read_wp; [lia| |].
  - intros r data w1 Hd. pose proof (rd_size _ _ _ _ _ _ _ Hd) as [Hr Hl].
    destruct (Z.leb_spec r 0) as [|Hpos]; [by apply wp_ret|].
    destruct (Z.gtb_spec r (Z.min (size - total) COPY_BUFFER)); [by apply wp_ret|]. cbn [orb].
    assert (Hlen : length (mem_store buffer 0 data) = length buffer) by (apply mem_store_length; lia).
    assert (HB : COPY_BUFFER = 28000) by reflexivity.
    apply wp_bind, write_loop_wp; [lia|lia|lia|lia| |intros w2; by apply wp_ret].
    intros w2 Happ. rewrite Z.sub_0_r in Happ.
    assert (Hslice : slice (mem_store buffer 0 data) 0 (Z.to_nat r) = data).
    { unfold slice. rewrite drop_0, <- Hl. apply take_mem_store_0. }
    change (Z.to_nat 0) with 0%nat in Happ. rewrite Hslice in Happ.
    apply IH; simpl; [lia|lia|lia| |done]. intros data' w' Hc.
    replace (size - (total + r)) with (size - total - r) in Hc by lia.
    by eapply HQ, copied_chunk.
  - intros r buffer' w1 Hr _ _. rewrite (proj2 (Z.leb_le r 0)) by lia. by apply wp_ret.
Qed.

(** What a copy amounts to, when the file is not the connection. *)
Lemma copied_bytes sock fd0 fd1 rest w data w' :
  copied sock fd0 fd1 rest w data w' -> sock <> fd1 ->
  tx w' fd1 = tx w fd1 ++ data /\ Z.of_nat (length data) = rest.
Proof.
  intros Hc Hne. induction Hc as [w|rest r data w w1 w2 data' w' Hr Hd Happ Hc [IH1 IH2]].
  - by rewrite app_nil_r.
  - destruct Happ as (_ & Htx & _), Hd as [(reply & w0 & He & _ & _ & He') [Hle Hl]].
    rewrite IH1, Htx, <- app_assoc, length_app. split; [|lia]. f_equal.
    rewrite (quiet_but_tx _ _ _ _ (ex_quiet _ _ _ _ _ He') Hne).
    by apply (quiet_but_tx _ _ _ _ (ex_quiet _ _ _ _ _ He)).
Qed.

(** A complete reply extends the history by one write. *)
Lemma written_cons sock fd1 data answer writes w w1 w' :
  exchanged sock (header PS2NETFS_COMMAND_WRITE 14 ++ be32 fd1
                    ++ be32 (Z.of_nat (length data)) ++ data) answer w w1 ->
  0 < result_of answer <= Z.of_nat (length data) -> written sock fd1 writes w1 w' ->
  written sock fd1 (mk_write data answer :: writes) w w'.
Proof.
  intros [Hq Htx Hrx _] Hr (Hq' & Htx' & Hrx' & Hall). split; [by etrans|].
  cbn [map concat]. rewrite Htx', Htx, Hrx', Hrx, <- !app_assoc. split_and!; [|done|by constructor].
  unfold write_packets. cbn [chunk]. by rewrite <- !app_assoc.
Qed.

Lemma send_loop_wp (E : fault -> Prop) fd1 buffer bytes : forall fuel sent s Q,
  0 <= sent <= bytes -> bytes <= Z.of_nat (length buffer) ->
  (Z.to_nat (bytes - sent) < fuel)%nat ->
  (forall writes w', written (ps2netfs_socket (glob s)) fd1 writes (world s) w' ->
     concat (map taken writes) = slice buffer (Z.to_nat sent) (Z.to_nat (bytes - sent)) ->
     Q true (mk_st (glob s) w')) ->
  (forall w', Q false (mk_st (glob s) w')) ->
  wp E (send_loop fuel fd1 buffer bytes sent) Q s.
Proof.
  induction fuel as [|fuel IH]; intros sent s Q Hsent Hb Hf HQ Hno; [lia|]. cbn [send_loop].
  destruct (Z.ltb_spec sent bytes) as [Hlt|Hge].
  2: { apply wp_ret, (HQ []).
       - split; [reflexivity|]. cbn. by rewrite !app_nil_r.
       - by replace (Z.to_nat (bytes - sent)) with 0%nat by lia. }
  set (data := slice buffer (Z.to_nat sent) (Z.to_nat (bytes - sent))).
  assert (Hdata : Z.of_nat (length data) = bytes - sent).
  { unfold data. rewrite length_slice by lia. lia. }
  rewrite <- Hdata. apply wp_bind, netfs_write_wp. intros r w1 Ha.
  destruct Ha as [answer He Hl|Hc]; [|by apply wp_ret].
  destruct (Z.leb_spec (s32 (get_be32 answer 6)) 0) as [|Hpos]; [by apply wp_ret|].
  destruct (Z.gtb_spec (s32 (get_be32 answer 6)) (Z.of_nat (length data))); [by apply wp_ret|]. cbn [orb].
  apply IH; simpl; [lia|done|lia| |done]. intros writes w2 Hw Hcat.
  apply (HQ (mk_write data answer :: writes)).
  - eapply written_cons; [|unfold result_of; lia|exact Hw].
    rewrite <- app_assoc in He. by rewrite <- app_assoc in He.
  - cbn [map concat]. rewrite Hcat. unfold taken, result_of, data. cbn [chunk reply].
    rewrite take_slice by lia. symmetry.
    rewrite (slice_split buffer (Z.to_nat sent) (Z.to_nat (bytes - sent))
      (Z.to_nat (s32 (get_be32 answer 6)))) by lia. f_equal. f_equal; lia.
Qed.

Lemma copyto_loop_wp (E : fault -> Prop) fd0 fd1 size : forall fuel total buffer s Q,
  0 <= total <= size -> Z.of_nat (length buffer) = COPY_BUFFER ->
  (Z.to_nat (size - total) < fuel)%nat ->
  (forall data writes w',
     uploaded (ps2netfs_socket (glob s)) fd0 fd1 (size - total) (world s) data writes w' ->
     Q true (mk_st (glob s) w')) ->
  (forall w', Q false (mk_st (glob s) w')) ->
  wp E (copyto_loop fuel fd0 fd1 size total buffer) Q s.
Proof.
  induction fuel as [|fuel IH]; intros total buffer s Q Ht Hbuf Hf HQ Hno; [lia|]. cbn [copyto_loop].
  assert (HB : COPY_BUFFER = 28000) by reflexivity.
  destruct (Z.ltb_spec total size) as [Hlt|Hge].
  2: { apply wp_ret. replace (size - total) with 0 in HQ by lia. eapply HQ, uploaded_done. }
  replace (if size - total <? COPY_BUFFER then size - total else COPY_BUFFER)
    with (Z.min (size - total) COPY_BUFFER) by (destruct (Z.ltb_spec (size - total) COPY_BUFFER); lia).
  wp_step. intros [r data] w1 (Hq & Hl & Hr & H31 & _ & _ & Hrx)%read_law. cbn [fst snd].
  rewrite s32_small by (unfold is_s32; lia).
  destruct (Z.leb_spec r 0) as [|Hpos]; [by apply wp_ret|].
  assert (Hlen : length (mem_store buffer 0 data) = length buffer) by (apply mem_store_length; lia).
  apply wp_bind, send_loop_wp; [lia|lia|lia| |intros w2; by apply wp_ret].
  intros writes w2 Hw Hcat. rewrite Z.sub_0_r in Hcat. change (Z.to_nat 0) with 0%nat in Hcat.
  assert (Hslice : slice (mem_store buffer 0 data) 0 (Z.to_nat r) = data).
  { unfold slice. rewrite drop_0, <- Hl. apply take_mem_store_0. }
  rewrite Hslice in Hcat.
  apply IH; simpl; [lia|lia|lia| |done]. intros data' writes' w' Hc.
  replace (size - (total + r)) with (size - total - Z.of_nat (length data)) in Hc by lia.
  eapply HQ, uploaded_chunk; eauto. lia.
Qed.

(** What an upload amounts to, when the file is not the connection. *)
Lemma uploaded_bytes sock fd0 fd1 rest w data writes w' :
  uploaded sock fd0 fd1 rest w data writes w' -> sock <> fd0 ->
  rx w' fd0 = rx w fd0 ++ data /\ Z.of_nat (length data) = rest
  /\ concat (map taken writes) = data
  /\ tx w' sock = tx w sock ++ concat (map (write_packets fd1) writes)
  /\ rx w' sock = rx w sock ++ concat (map reply writes)
  /\ Forall (fun x => 0 < result_of (reply x) <= Z.of_nat (length (chunk x))) writes.
Proof.
  intros Hc Hne. induction Hc as [w|rest data w w1 w2 writes data' writes' w' Hr Hq Hrx Hw Hcat Hc
    (IH1 & IH2 & IH3 & IH4 & IH5 & IH6)].
  - cbn. rewrite !app_nil_r. by split_and!.
  - destruct Hw as (Hq2 & Htx2 & Hrx2 & Hall).
    rewrite IH1, IH4, IH5, Htx2, Hrx2, !map_app, !concat_app, Hcat, IH3, length_app.
    rewrite (quiet_but_rx _ _ _ _ Hq2 Hne), Hrx.
    rewrite (quiet_but_tx _ _ _ _ Hq (not_eq_sym Hne)), (quiet_but_rx _ _ _ _ Hq (not_eq_sym Hne)).
    rewrite <- !app_assoc. split_and!; try done; [lia|]. by apply Forall_app.
Qed.

Lemma open_wp (E : fault -> Prop) path flags s Q :
  (forall r w', quiet_but (Some (ps2netfs_socket (glob s))) (world s) w' ->
     Q r (mk_st (glob s) w')) ->
  wp E (ps2netfs_command_open (Some path) flags) Q s.
Proof.
  intros HQ. destruct (call_fits (CallOpen flags path)) eqn:Hf.
  - apply (netfs_call_wp _ (CallOpen flags path)); [done|].
    intros obj w1 r w' _ Hq Ha. apply HQ. etrans; [by apply quiet_weaken|].
    destruct Ha as [reply He _|Hc]; [apply He|apply Hc].
  - apply bool_decide_eq_false in Hf. unfold ps2netfs_command_open, snprintf_s.
    rewrite (proj2 (Z.ltb_ge _ 0)) by lia. rewrite Z.geb_leb, (proj2 (Z.leb_le 256 _)) by lia.
    apply wp_ret, HQ. reflexivity.
Qed.

Lemma lseek_wp (E : fault -> Prop) fd offset whence s Q :
  (forall r w', quiet_but (Some (ps2netfs_socket (glob s))) (world s) w' -> is_s32 r ->
     Q r (mk_st (glob s) w')) ->
  wp E (ps2netfs_command_lseek fd offset whence) Q s.
Proof.
  intros HQ. apply (netfs_call_wp _ (CallLseek fd offset whence)); [done|].
  intros obj w1 r w' _ Hq Ha. destruct Ha as [reply He _|Hc]; apply HQ.
  - etrans; [by apply quiet_weaken|apply He].
  - apply s32_range.
  - etrans; [by apply quiet_weaken|apply Hc].
  - unfold is_s32. lia.
Qed.

Lemma close_remote_wp (E : fault -> Prop) fd status s Q :
  (forall status' w', quiet_but (Some (ps2netfs_socket (glob s))) (world s) w' ->
     status' = status \/ status' = -1 -> Q status' (mk_st (glob s) w')) ->
  wp E (close_remote fd status) Q s.
Proof.
  intros HQ. unfold close_remote. case_match; [|apply wp_ret, HQ; [reflexivity|by left]].
  apply wp_bind, (netfs_call_wp _ (CallClose fd)); [done|]. intros obj w1 r w' _ Hq Ha.
  apply wp_ret, HQ; [|case_match; auto]. etrans; [by apply quiet_weaken|].
  destruct Ha as [reply He _|Hc]; [apply He|apply Hc].
Qed.

Lemma close_local_wp (E : fault -> Prop) fd status s Q :
  (forall status' w', quiet (world s) w' -> status' = status \/ status' = -1 ->
     Q status' (mk_st (glob s) w')) ->
  wp E (close_local fd status) Q s.
Proof.
  intros HQ. unfold close_local. case_match; [|apply wp_ret, HQ; [reflexivity|by left]].
  wp_step. intros r w' Hq%close_law. apply wp_ret, HQ; [done|]. case_match; auto.
Qed.

#[local] Arguments copyfrom_loop : simpl never.
#[local] Arguments copyto_loop : simpl never.

Lemma copyfrom_body_wp (E : fault -> Prop) source destination s Q :
  (forall w, (sys_open destination local_flags 420 w).1 <> ps2netfs_socket (glob s)) ->
  (forall fd0 fd1 status w',
     status = -1 \/ (status = 0 /\ exists size data,
                       copied_from source destination s fd0 fd1 size data w') ->
     Q (fd0, fd1, status) (mk_st (glob s) w')) ->
  wp E (copyfrom_body source destination) Q s.
Proof.
  intros Hne HQ. unfold copyfrom_body. set (sock := ps2netfs_socket (glob s)) in *.
  apply wp_bind, wp_remember, open_wp. intros fd0 w1 Hq1 Hopen.
  destruct (Z.ltb_spec fd0 0); [apply wp_ret, HQ; by left|].
  apply wp_bind, wp_remember, lseek_wp. simpl. intros size w2 Hq2 Hs Hend. apply wp_bind.
  destruct (Z.ltb_spec size 0); [apply wp_ret, wp_ret, HQ; by left|].
  apply wp_bind, wp_remember, lseek_wp. simpl. intros r w3 Hq3 _ Hset. apply wp_ret.
  destruct (Z.ltb_spec r 0); [apply wp_ret, HQ; by left|].
  wp_step. intros fd1 w4 Hlocal.
  assert (Hfd1 : sock <> fd1) by (specialize (Hne w3); rewrite Hlocal in Hne; done).
  destruct (Z.ltb_spec fd1 0); [apply wp_ret, HQ; by left|].
  wp_step. intros buffer w5 (Hq5 & Hbuf & _)%auto_law.
  apply wp_bind, copyfrom_loop_wp; [lia|rewrite Hbuf; reflexivity|lia| |].
  2: { intros w'. apply wp_ret, HQ. by left. }
  simpl. rewrite Z.sub_0_r. intros data w' Hc. apply wp_ret, HQ. right. split; [done|].
  exists size, data. destruct (copied_bytes _ _ _ _ _ _ _ Hc Hfd1) as [Htx Hlen].
  assert (Hq : quiet_but (Some sock) (world s) w5).
  { etrans; [exact Hq1|]. etrans; [exact Hq2|]. etrans; [exact Hq3|]. apply quiet_weaken.
    etrans; [by eapply open_law|done]. }
  split; [|done|done|by rewrite Htx, (quiet_but_tx _ _ _ _ Hq Hfd1)].
  by exists (mk_st (glob s) w1), (mk_st (glob s) w2), (mk_st (glob s) w3), r, w4, w5.
Qed.

Lemma copyto_body_wp (E : fault -> Prop) source destination s Q :
  (forall w, (sys_open source O_RDONLY 0 w).1 <> ps2netfs_socket (glob s)) ->
  (forall fd0 fd1 status w',
     status = -1 \/ (status = 0 /\ exists file_size data writes,
                       copied_to source destination s fd0 fd1 file_size data writes w') ->
     Q (fd0, fd1, status) (mk_st (glob s) w')) ->
  wp E (copyto_body source destination) Q s.
Proof.
  intros Hne HQ. unfold copyto_body. set (sock := ps2netfs_socket (glob s)) in *.
  wp_step. intros fd0 w1 Hopen.
  assert (Hfd0 : sock <> fd0) by (specialize (Hne (world s)); rewrite Hopen in Hne; done).
  destruct (Z.ltb_spec fd0 0); [apply wp_ret, HQ; by left|].
  wp_step. intros r w2 Hend. cbv zeta. apply wp_bind.
  destruct (Z.ltb_spec (s32 r) 0); [apply wp_ret, wp_ret, HQ; by left|].
  wp_step. intros r' w3 Hset. apply wp_ret.
  destruct (Z.ltb_spec r' 0); [apply wp_ret, HQ; by left|].
  apply wp_bind, wp_remember, open_wp. simpl. intros fd1 w4 Hq4 Hremote.
  destruct (Z.ltb_spec fd1 0); [apply wp_ret, HQ; by left|].
  wp_step. intros buffer w5 (Hq5 & Hbuf & _)%auto_law.
  apply wp_bind, copyto_loop_wp; [lia|rewrite Hbuf; reflexivity|lia| |].
  2: { intros w'. apply wp_ret, HQ. by left. }
  simpl. rewrite Z.sub_0_r. intros data writes w' Hc. apply wp_ret, HQ. right. split; [done|].
  destruct (uploaded_bytes _ _ _ _ _ _ _ _ Hc Hfd0) as (Hrx & Hlen & Hcat & Htx & Hrx' & Hall).
  exists r, data, writes.
  assert (Hq : quiet_but (Some sock) (world s) w5).
  { etrans; [by eapply quiet_weaken, open_law|]. etrans; [by eapply quiet_weaken, lseek_law|].
    etrans; [by eapply quiet_weaken, lseek_law|]. etrans; [exact Hq4|]. by apply quiet_weaken. }
  split; [|done|done|by rewrite Hrx, (quiet_but_rx _ _ _ _ Hq Hfd0)|done|done].
  exists w1, w2, w3, r', (mk_st (glob s) w4), w5. by split_and!.
Qed.
End facts.

(** ** The properties of src/fsclient.c *)

(** C16: fsclient_copyfrom always returns, with 0 or -1, whatever the PS2, the
    network and the local files do; when it returns 0 the local file has
    received exactly the bytes of the read replies of the PS2, in order, as
    many as the size the PS2 reported (open never returns the descriptor of
    the connection, which is in use). *)
Theorem copyfrom_complete (W : Type) `{PosixLaws W} (source destination : list Z) (s : st netfs W) :
  (forall w, (sys_open destination local_flags 420 w).1 <> ps2netfs_socket (glob s)) ->
  exists status w', fsclient_copyfrom source destination s = Ret (status, mk_st (glob s) w')
    /\ (status = 0 \/ status = -1)
    /\ (status = 0 -> exists fd0 fd1 size data w1,
          copied_from source destination s fd0 fd1 size data w1
          /\ tx w' fd1 = tx (world s) fd1 ++ data).
Proof.
  intros Hne.
  destruct (wp_run (fsclient_copyfrom source destination) (fun status s' => glob s' = glob s
    /\ (status = 0 \/ status = -1)
    /\ (status = 0 -> exists fd0 fd1 size data w1,
          copied_from source destination s fd0 fd1 size data w1
          /\ tx (world s') fd1 = tx (world s) fd1 ++ data)) s)
    as (status & [g w'] & Hr & Hg & Hst & Hd).
  2: { simpl in *. subst g. by exists status, w'. }
  apply wp_bind, copyfrom_body_wp; [done|]. intros fd0 fd1 status w1 Hbody.
  apply wp_bind, close_remote_wp. simpl. intros status2 w2 Hq2 Hs2.
  apply close_local_wp. simpl. intros status3 w3 Hq3 Hs3.
  split; [done|]. split; [destruct Hbody as [|[? _]]; lia|]. intros ->.
  destruct Hbody as [|[-> (size & data & Hc)]]; [lia|].
  exists fd0, fd1, size, data, w1. split; [done|].
  assert (Hfd1 : ps2netfs_socket (glob s) <> fd1).
  { destruct (cf_remote _ _ _ _ _ _ _ _ Hc) as (? & ? & s3 & ? & w4 & ? & _ & _ & _ & _ & Ho & _).
    specialize (Hne (world s3)). by rewrite Ho in Hne. }
  rewrite (quiet_tx _ _ _ Hq3), (quiet_but_tx _ _ _ _ Hq2 Hfd1). apply Hc.
Qed.

(** The PS2 side of a small copy: open, size, rewind, one read, close. *)
Definition download_script : list (list Z) :=
  [result_packet 0xBEEF8012 3; result_packet 0xBEEF8052 5; result_packet 0xBEEF8052 0;
   read_packet 5 5 ++ bytes_of "hello"; result_packet 0xBEEF8022 0].
Definition download_start : st netfs sim :=
  mk_st (mk_netfs 4) (sim_start download_script 0 [] [] []).
(** And to the PS2: open, a short write and the rest, close. *)
Definition upload_script : list (list Z) :=
  [result_packet 0xBEEF8012 3; result_packet 0xBEEF8042 2; result_packet 0xBEEF8042 3;
   result_packet 0xBEEF8022 0].
Definition upload_start : st netfs sim :=
  mk_st (mk_netfs 4) (sim_start upload_script 0 [(bytes_of "a.elf", mk_stat 33188 5 0 0 0)]
                        (bytes_of "hello") []).
Definition status_of (o : outcome (Z * st netfs sim)) : option Z :=
  match o with Ret (status, _) => Some status | _ => None end.

Lemma copyfrom_complete_witness : exists w' fd1 data,
  fsclient_copyfrom (bytes_of "mc0:/a") (bytes_of "a.bin") download_start
    = Ret (0, mk_st (mk_netfs 4) w')
  /\ tx w' fd1 = tx (world download_start) fd1 ++ data /\ length data = 5%nat.
Proof.
  destruct (copyfrom_complete sim (bytes_of "mc0:/a") (bytes_of "a.bin") download_start)
    as (status & w' & Hr & _ & Hd).
  { intros w. simpl. destruct (_ || _); lia. }
  assert (Hz : status_of (fsclient_copyfrom (bytes_of "mc0:/a") (bytes_of "a.bin") download_start)
               = Some 0) by (vm_compute; reflexivity).
  rewrite Hr in Hz. injection Hz as ->. destruct (Hd eq_refl) as (fd0 & fd1 & size & data & w1 & Hc & Htx).
  exists w', fd1, data. split; [exact Hr|]. split; [exact Htx|].
  assert (Hsize : size = 5).
  { destruct Hc as [(s1 & s2 & _ & _ & _ & _ & Ho & He & _) _ _ _].
    apply (f_equal status_of) in Ho as Ho'. vm_compute in Ho'. injection Ho' as <-.
    assert (Hs1 : s1 = match ps2netfs_command_open (Some (bytes_of "mc0:/a")) OPEN_READ download_start
                       with Ret (_, x) => x | _ => download_start end) by (by rewrite Ho).
    rewrite Hs1 in He. apply (f_equal status_of) in He. vm_compute in He. by injection He. }
  destruct Hc as [_ _ [_ Hl] _]. lia.
Defined.

(** C17: fsclient_copyto always returns, with 0 or -1; when it returns 0, the
    pieces the PS2 said it took of the writes it was sent are, one after the
    other, exactly the bytes read from the local file: a short remote write is
    continued, never repeated or skipped. These are all the bytes of the file
    if its size is below 2 GiB. The size is what lseek(2) returned cut to an
    int, so of a bigger file only as many bytes as the low 32 bits of its size
    say are copied, and 0 is returned all the same. *)
Theorem copyto_complete (W : Type) `{PosixLaws W} (source destination : list Z) (s : st netfs W) :
  (forall w, (sys_open source O_RDONLY 0 w).1 <> ps2netfs_socket (glob s)) ->
  exists status w', fsclient_copyto source destination s = Ret (status, mk_st (glob s) w')
    /\ (status = 0 \/ status = -1)
    /\ (status = 0 -> exists fd0 fd1 file_size data writes w1,
          copied_to source destination s fd0 fd1 file_size data writes w1
          /\ Z.of_nat (length data) = file_size mod 2 ^ 32 /\ Z.of_nat (length data) < 2 ^ 31
          /\ (0 <= file_size < 2 ^ 31 -> Z.of_nat (length data) = file_size)).
Proof.
  intros Hne.
  destruct (wp_run (fsclient_copyto source destination) (fun status s' => glob s' = glob s
    /\ (status = 0 \/ status = -1)
    /\ (status = 0 -> exists fd0 fd1 file_size data writes w1,
          copied_to source destination s fd0 fd1 file_size data writes w1)) s)
    as (status & [g w'] & Hr & Hg & Hst & Hd).
  2: { simpl in *. subst g. exists status, w'. split_and!; [done|done|]. intros Hz.
       destruct (Hd Hz) as (fd0 & fd1 & file_size & data & writes & w1 & Hc).
       exists fd0, fd1, file_size, data, writes, w1. destruct (ct_size _ _ _ _ _ _ _ _ _ Hc).
       pose proof (s32_range file_size). split_and!; [done|word_lia|word_lia|].
       intros. assert (is_s32 file_size) by (unfold is_s32; lia). by rewrite <- (s32_small file_size). }
  apply wp_bind, copyto_body_wp; [done|]. intros fd0 fd1 status w1 Hbody.
  apply wp_bind, close_local_wp. simpl. intros status2 w2 Hq2 Hs2.
  apply close_remote_wp. simpl. intros status3 w3 Hq3 Hs3.
  split; [done|]. split; [destruct Hbody as [|[? _]]; lia|]. intros ->.
  destruct Hbody as [|[-> (file_size & data & writes & Hc)]]; [lia|].
  by exists fd0, fd1, file_size, data, writes, w1.
Qed.

Lemma copyto_complete_witness : exists w' data writes,
  fsclient_copyto (bytes_of "a.elf") (bytes_of "mc0:/a") upload_start
    = Ret (0, mk_st (mk_netfs 4) w')
  /\ concat (map taken writes) = data.
Proof.
  destruct (copyto_complete sim (bytes_of "a.elf") (bytes_of "mc0:/a") upload_start)
    as (status & w' & Hr & _ & Hd).
  { intros w. simpl. destruct (_ || _); lia. }
  assert (Hz : status_of (fsclient_copyto (bytes_of "a.elf") (bytes_of "mc0:/a") upload_start)
               = Some 0) by (vm_compute; reflexivity).
  rewrite Hr in Hz. injection Hz as ->.
  destruct (Hd eq_refl) as (fd0 & fd1 & size & data & writes & w1 & Hc).
  exists w', data, writes. split; [exact Hr|]. apply Hc.
Defined.

(** ** The properties of the listings *)

(** The device list of a reply and its count. *)
Definition devlist_reply (sock : Z) {W} `{Posix W} (w : W) (devcount : Z) (devlist : list Z) : Prop :=
  exists packet reply w1 w2, quiet w w1 /\ exchanged sock packet reply w1 w2
    /\ Z.of_nat (length reply) = sizeof_devlist_reply
    /\ devcount = result_of reply /\ devlist = slice reply 14 256.

Section listing_facts.
Context {W : Type} `{PosixLaws W}.
Implicit Types (s : st netfs W) (w : W).

Lemma exchanged_out sock packet reply w w' : exchanged sock packet reply w w' -> out w' = out w.
Proof. intros [(_ & _ & _ & Ho) _ _ _]. exact Ho. Qed.

Lemma devlist_wp (E : fault -> Prop) devlist s Q :
  (forall devcount devlist' w', devlist_reply (ps2netfs_socket (glob s)) (world s) devcount devlist' ->
     out w' = out (world s) -> Q (devcount, devlist') (mk_st (glob s) w')) ->
  (forall w', out w' = out (world s) -> Q (-1, devlist) (mk_st (glob s) w')) ->
  wp E (ps2netfs_command_devlist (Some []) 0 devlist) Q s.
Proof.
  intros HQ Hfail. unfold ps2netfs_command_devlist. wp_step. intros obj w1 (Hq & Ho & _)%auto_law.
  pose proof Hq as (_ & _ & _ & Hout).
  apply wp_bind, exchange_wp; [|done| |].
  - unfold path_packet. rewrite !length_app, length_name_field by lia. reflexivity.
  - simpl. intros reply w2 He Hl. apply wp_ret, HQ.
    + by eexists _, reply, w1, w2.
    + rewrite (exchanged_out _ _ _ _ _ He). exact Hout.
  - simpl. intros w2 Hc. apply wp_ret, Hfail. destruct (cut_quiet _ _ _ _ _ Hc) as (_ & _ & _ & Ho2).
    by rewrite Ho2.
Qed.

Lemma stdout_wp {G} (E : fault -> Prop) b (s : st G W) Q :
  (forall w', sys_stdout b (world s) = (tt, w') -> out w' = out (world s) ++ b ->
     Q tt (mk_st (glob s) w')) ->
  wp E (hcall (sys_stdout b)) Q s.
Proof.
  intros HQ. apply wp_hcall. intros [] w' Hs. apply HQ; [done|]. by apply stdout_law in Hs as (_ & _ & _ & ?).
Qed.

Lemma device_loop_wp (E : fault -> Prop) devlist : forall count temp s Q,
  (unpack_argv count (drop temp devlist) = None -> E Unterminated) ->
  (forall names w', unpack_argv count (drop temp devlist) = Some names ->
     out w' = out (world s) ++ concat (map device_line names) -> Q tt (mk_st (glob s) w')) ->
  wp E (device_loop count devlist temp) Q s.
Proof.
  induction count as [|count IH]; intros temp s Q HE HQ; simpl in *.
  { apply wp_ret. destruct s as [g w]. apply (HQ []); [done|]. simpl. by rewrite app_nil_r. }
  apply wp_bind. destruct (cstr (drop temp devlist)) as [name|] eqn:Hn; [|by apply wp_fail, HE].
  apply wp_ret, wp_bind, stdout_wp. intros w1 _ Hout. rewrite drop_drop in *.
  replace (temp + (length name + 1))%nat with (temp + length name + 1)%nat in * by lia.
  apply IH; simpl.
  - intros Hnone. apply HE. by rewrite Hnone.
  - intros names w' Hnames Hout'. apply (HQ (name :: names)); [by rewrite Hnames|].
    rewrite Hout', Hout. cbn [map concat]. by rewrite <- app_assoc.
Qed.
End listing_facts.

(** C36: devlist prints the devices of the reply, one line each, between its
    header and its footer, and prints nothing when there is no reply. The
    count of the reply is trusted: when it is more than there are strings in
    the 256 bytes of the list, and only then, the listing runs off the list. *)
Theorem devlist_prints_devices (W : Type) `{PosixLaws W} (s : st netfs W) :
  match fsclient_devlist s with
  | Ret (r, s') =>
      r = -1 /\ out (world s') = out (world s)
      \/ r = 0 /\ exists w devcount devlist names, quiet (world s) w
         /\ devlist_reply (ps2netfs_socket (glob s)) w devcount devlist
         /\ unpack_argv (Z.to_nat devcount) devlist = Some names
         /\ out (world s') = out (world s) ++ devlist_header ++ concat (map device_line names)
                             ++ devlist_footer devcount
  | Fault f => f = Unterminated /\ exists w devcount devlist,
      devlist_reply (ps2netfs_socket (glob s)) w devcount devlist
      /\ unpack_argv (Z.to_nat devcount) devlist = None
  | OutOfFuel => False
  end.
Proof.
  set (E f := f = Unterminated /\ exists w devcount devlist,
    devlist_reply (ps2netfs_socket (glob s)) w devcount devlist
    /\ unpack_argv (Z.to_nat devcount) devlist = None).
  assert (Hw : wp E fsclient_devlist (fun r s' => r = -1 /\ out (world s') = out (world s)
      \/ r = 0 /\ exists w devcount devlist names, quiet (world s) w
         /\ devlist_reply (ps2netfs_socket (glob s)) w devcount devlist
         /\ unpack_argv (Z.to_nat devcount) devlist = Some names
         /\ out (world s') = out (world s) ++ devlist_header ++ concat (map device_line names)
                             ++ devlist_footer devcount) s).
  { unfold fsclient_devlist. wp_step. intros obj w1 (Hq & _)%auto_law. pose proof Hq as (_ & _ & _ & Ho).
    apply wp_bind, devlist_wp; simpl.
    2: { intros w2 Ho2. apply wp_ret. left. simpl. split; [done|congruence]. }
    intros devcount devlist w2 Hd Ho2. destruct (Z.ltb_spec devcount 0).
    { apply wp_ret. left. simpl. split; [done|congruence]. }
    apply wp_bind, stdout_wp. simpl. intros w3 _ Ho3.
    apply wp_bind, device_loop_wp; rewrite drop_0; simpl.
    { intros Hn. split; [done|]. by exists w1, devcount, devlist. }
    intros names w4 Hn Ho4. apply wp_bind, stdout_wp. simpl. intros w5 _ Ho5. apply wp_ret. right.
    split; [done|]. exists w1, devcount, devlist, names. split_and!; try done. simpl.
    rewrite Ho5, Ho4, Ho3, Ho2, Ho, <- !app_assoc. done. }
  unfold wp in Hw. by destruct (fsclient_devlist s) as [[r s']|f|].
Qed.

Definition devlist_start (count : Z) : st netfs sim :=
  mk_st (mk_netfs 4) (sim_start [result_packet 0xBEEF8F22 count ++ be32 2
    ++ pack_argv [bytes_of "host"; bytes_of "xyz"] ++ replicate 247 120] 0 [] [] []).

(** A reply with two devices, and the same one with a count of three. *)
Lemma devlist_prints_devices_witness :
  (exists s', fsclient_devlist (devlist_start 2) = Ret (0, s'))
  /\ exists w devcount devlist, devlist_reply (W := sim) 4 w devcount devlist
       /\ unpack_argv (Z.to_nat devcount) devlist = None.
Proof.
  pose proof (devlist_prints_devices sim (devlist_start 3)) as Hd. split.
  - destruct (fsclient_devlist (devlist_start 2)) as [[r s']|f|] eqn:Hr; vm_compute in Hr; try discriminate.
    exists s'. injection Hr as <- <-. reflexivity.
  - destruct (fsclient_devlist (devlist_start 3)) as [[r s']|f|] eqn:Hr; vm_compute in Hr; try discriminate.
    exact (proj2 Hd).
Defined.

(** ** Directories *)

Section directories.
Context {W : Type} `{Posix W}.
Variables (g : netfs) (dd : Z).

(** The entries dread delivered, with their names, each printed before the
    next is read; [last] is what the loop ended with. *)
Inductive listed : list Z -> W -> list (list Z * list Z) -> W -> Prop :=
| listed_end d w r d' w' :
    ps2netfs_command_dread dd d (mk_st g w) = Ret ((r, d'), mk_st g w') -> r <= 0 -> listed d w [] w'
| listed_entry d w r d' w1 name w2 es w' :
    ps2netfs_command_dread dd d (mk_st g w) = Ret ((r, d'), mk_st g w1) -> 0 < r ->
    dirent_name d' = Some name -> sys_stdout (dir_line d' name) w1 = (tt, w2) ->
    listed d' w2 es w' -> listed d w ((d', name) :: es) w'.

(** An entry whose name has no end. *)
Inductive unterminated : list Z -> W -> Prop :=
| unterminated_here d w r d' w1 :
    ps2netfs_command_dread dd d (mk_st g w) = Ret ((r, d'), mk_st g w1) -> 0 < r ->
    dirent_name d' = None -> unterminated d w
| unterminated_later d w r d' w1 name w2 :
    ps2netfs_command_dread dd d (mk_st g w) = Ret ((r, d'), mk_st g w1) -> 0 < r ->
    dirent_name d' = Some name -> sys_stdout (dir_line d' name) w1 = (tt, w2) ->
    unterminated d' w2 -> unterminated d w.
End directories.

Definition listing_text (es : list (list Z * list Z)) : list Z :=
  concat (map (fun e => dir_line e.1 e.2) es).
(** The sum of the sizes in an int. *)
Definition listing_size (es : list (list Z * list Z)) (size : Z) : Z :=
  fold_left (fun size e => s32 (size + dirent_size e.1)) es size.

Section directory_facts.
Context {W : Type} `{PosixLaws W}.
Implicit Types (s : st netfs W) (w : W).

Lemma dread_wp (E : fault -> Prop) dd d s Q :
  (forall r d' w', ps2netfs_command_dread dd d s = Ret ((r, d'), mk_st (glob s) w') ->
     out w' = out (world s) -> Q (r, d') (mk_st (glob s) w')) ->
  wp E (ps2netfs_command_dread dd d) Q s.
Proof.
  intros HQ. apply wp_remember. apply wp_bind, exchange_wp; [reflexivity|done| |].
  - intros reply w' He _. apply wp_ret. intros Hr. apply HQ; [exact Hr|by eapply exchanged_out].
  - intros w' Hc. apply wp_ret. intros Hr. apply HQ; [exact Hr|].
    by destruct (cut_quiet _ _ _ _ _ Hc) as (_ & _ & _ & Ho).
Qed.

Lemma dir_loop_wp (E : fault -> Prop) dd : forall n files size d s Q,
  (unterminated (glob s) dd d (world s) -> E Unterminated) ->
  (forall w', Q None (mk_st (glob s) w')) ->
  (forall es w', listed (glob s) dd d (world s) es w' -> out w' = out (world s) ++ listing_text es ->
     Q (Some (files + Z.of_nat (length es), listing_size es size)) (mk_st (glob s) w')) ->
  wp E (dir_loop n dd files size d) Q s.
Proof.
  induction n as [|n IH]; intros files size d s Q HE HN HQ; cbn [dir_loop].
  { apply wp_ret. by destruct s; apply HN. }
  apply wp_bind, dread_wp. intros r d' w1 Hr Ho. rewrite Z.gtb_ltb. destruct s as [g w]. simpl in *.
  destruct (Z.ltb_spec 0 r) as [Hpos|Hneg].
  2: { apply wp_ret. specialize (HQ [] w1). rewrite Z.add_0_r in HQ. apply HQ; [by eapply listed_end|].
       unfold listing_text. simpl. by rewrite app_nil_r. }
  apply wp_bind. destruct (dirent_name d') as [name|] eqn:Hn.
  2: { apply wp_fail, HE. by eapply unterminated_here. }
  apply wp_ret, wp_bind, stdout_wp. simpl. intros w2 Hs Ho2. apply IH; simpl; [|done|].
  - intros Hu. apply HE. by eapply unterminated_later.
  - intros es w' Hl Ho3. specialize (HQ ((d', name) :: es) w'). cbn [length listing_size fold_left] in HQ.
    replace (files + 1 + Z.of_nat (length es)) with (files + Z.of_nat (S (length es))) by lia.
    apply HQ; [by eapply listed_entry|]. rewrite Ho3, Ho2, Ho. unfold listing_text. cbn [map concat fst snd].
    by rewrite <- !app_assoc.
Qed.

Lemma dopen_wp (E : fault -> Prop) path s Q :
  (forall r w', ps2netfs_command_dopen path 0 s = Ret (r, mk_st (glob s) w') ->
     out w' = out (world s) -> Q r (mk_st (glob s) w')) ->
  wp E (ps2netfs_command_dopen path 0) Q s.
Proof.
  intros HQ. apply wp_remember. unfold ps2netfs_command_dopen, path_call at 1. wp_step.
  intros obj w1 (Hq & Hl & _)%auto_law. pose proof Hq as (_ & _ & _ & Ho).
  apply simple_call_wp.
  - unfold path_packet. rewrite !length_app, length_name_field by lia. reflexivity.
  - simpl. intros reply w' He _ Hr. apply HQ; [exact Hr|]. rewrite (exchanged_out _ _ _ _ _ He). exact Ho.
  - simpl. intros w' Hc Hr. apply HQ; [exact Hr|].
    destruct (cut_quiet _ _ _ _ _ Hc) as (_ & _ & _ & Ho2). by rewrite Ho2.
Qed.

Lemma dclose_wp (E : fault -> Prop) dd s Q :
  (forall r w', out w' = out (world s) -> Q r (mk_st (glob s) w')) ->
  wp E (ps2netfs_command_dclose dd) Q s.
Proof.
  intros HQ. apply (netfs_call_wp _ (CallDclose dd)); [done|]. intros obj w1 r w' _ Hq Ha.
  apply HQ. destruct Hq as (_ & _ & _ & Ho). rewrite <- Ho. destruct Ha as [reply He _|Hc].
  - by eapply exchanged_out.
  - by destruct (cut_quiet _ _ _ _ _ Hc) as (_ & _ & _ & ?).
Qed.
End directory_facts.

(** The directory is opened: the entry on the stack, the descriptor. *)
Definition dir_opened {W} `{Posix W} (path : list Z) (s : st netfs W) (d : list Z) (dd : Z) (w1 : W) : Prop :=
  exists w0, sys_auto sizeof_dirent (world s) = (d, w0)
    /\ ps2netfs_command_dopen (Some path) 0 (mk_st (glob s) w0) = Ret (dd, mk_st (glob s) w1).

(** How fsclient_dir can end: [-1] when the directory cannot be opened, else
    the whole listing has been printed. *)
Inductive dir_done {W} `{Posix W} (path : list Z) (s : st netfs W) (status : Z) (s' : st netfs W) : Prop :=
| dir_not_opened d dd w1 : dir_opened path s d dd w1 -> dd < 0 -> status = -1 ->
    out (world s') = out (world s) -> dir_done path s status s'
| dir_listed d dd w1 w2 es w3 : dir_opened path s d dd w1 -> 0 <= dd ->
    sys_stdout (dir_header path) w1 = (tt, w2) -> listed (glob s) dd d w2 es w3 ->
    status = 0 \/ status = -1 ->
    out (world s') = out (world s) ++ dir_header path ++ listing_text es
                     ++ dir_footer (Z.of_nat (length es)) (listing_size es 0) ->
    dir_done path s status s'.

(** A name without an end was received. *)
Definition dir_unterminated {W} `{Posix W} (path : list Z) (s : st netfs W) : Prop :=
  exists d dd w1 w2, dir_opened path s d dd w1 /\ sys_stdout (dir_header path) w1 = (tt, w2)
    /\ unterminated (glob s) dd d w2.

(** C35: dir prints its header, a line for every entry the PS2 delivers, in
    order, and the number and the summed size of exactly these, however long
    the listing is (n bounds the entries looked at; without an end the loop
    does not end either). The one thing the PS2 can break is a name without a
    null in its 256 bytes, which printf runs off. *)
Theorem dir_prints_entries (W : Type) `{PosixLaws W} (n : nat) (path : list Z) (s : st netfs W) :
  match fsclient_dir n (Some path) s with
  | Ret (r, s') => forall status, r = Some status -> dir_done path s status s'
  | Fault f => f = Unterminated /\ dir_unterminated path s
  | OutOfFuel => False
  end.
Proof.
  assert (Hw : wp (fun f => f = Unterminated /\ dir_unterminated path s) (fsclient_dir n (Some path))
    (fun r s' => forall status, r = Some status -> dir_done path s status s') s).
  { unfold fsclient_dir. wp_step. intros d w0 Ha.
    pose proof (auto_law _ _ _ _ Ha) as ((_ & _ & _ & Ho0) & _).
    apply wp_bind, dopen_wp. simpl. intros dd w1 Hd Ho1.
    assert (Hop : dir_opened path s d dd w1) by (by exists w0).
    destruct (Z.ltb_spec dd 0).
    { apply wp_ret. intros status [= <-]. apply (dir_not_opened _ _ _ _ d dd w1); [done|done|done|simpl; congruence]. }
    apply wp_bind, wp_ret, wp_bind, stdout_wp. simpl. intros w2 Hs2 Ho2.
    apply wp_bind, dir_loop_wp; simpl.
    { intros Hu. split; [done|]. by exists d, dd, w1, w2. }
    { intros w3. by apply wp_ret. }
    intros es w3 Hl Ho3. apply wp_bind, stdout_wp. simpl. intros w4 _ Ho4.
    apply wp_bind, dclose_wp. simpl. intros r w5 Ho5. apply wp_ret. intros status [= <-].
    apply (dir_listed _ _ _ _ d dd w1 w2 es w3); [done|lia|done|done|destruct (r <? 0); auto|]. cbn [world].
    by rewrite Ho5, Ho4, Ho3, Ho2, Ho1, Ho0, <- !app_assoc. }
  unfold wp in Hw. by destruct (fsclient_dir n (Some path) s) as [[r s']|f|].
Qed.

(** An entry called save of 10 bytes. *)
Definition dir_start : st netfs sim :=
  mk_st (mk_netfs 4) (sim_start
    [result_packet 0xBEEF80A2 3;
     result_packet 0xBEEF80C2 1 ++ be32 0x11FF ++ be32 0 ++ be32 10 ++ replicate 28 0
       ++ bytes_of "save" ++ replicate 252 0;
     result_packet 0xBEEF80C2 0 ++ replicate 296 0; result_packet 0xBEEF80B2 0] 0 [] [] []).

Lemma dir_prints_entries_witness : exists s',
  fsclient_dir 5 (Some (bytes_of "mc0:/")) dir_start = Ret (Some 0, s')
  /\ dir_done (bytes_of "mc0:/") dir_start 0 s'.
Proof.
  pose proof (dir_prints_entries sim 5 (bytes_of "mc0:/") dir_start) as Hd.
  destruct (fsclient_dir 5 (Some (bytes_of "mc0:/")) dir_start) as [[[r|] s']|f|] eqn:Hr;
    try (exfalso; vm_compute in Hr; discriminate).
  assert (r = 0) as -> by (vm_compute in Hr; congruence).
  exists s'. split; [reflexivity|]. exact (Hd 0 eq_refl).
Defined.

Example dir_example :
  match fsclient_dir 5 (Some (bytes_of "mc0:/")) dir_start with
  | Ret (_, s') => sim_out (world s')
  | _ => []
  end = [10] ++ bytes_of " [Contents of mc0:/]" ++ [10; 10]
        ++ bytes_of "  drwxrwxrwx         10 00-00-2048 00:00:00 save" ++ [10]
        ++ [10] ++ bytes_of " [1 Files - 10 Bytes]" ++ [10; 10].
Proof. vm_compute. reflexivity. Qed.

(** ** main *)

(** Only the copy commands check that their arguments are there. mount
    without arguments reads an element of argv behind the null at its end, as
    soon as there is a connection; whatever happens, it never works. *)
Theorem mount_reads_past_arguments (W : Type) `{PosixLaws W} (n : nat) (env : list (list Z))
    (s : st netfs W) :
  match fsclient_main n env [bytes_of "mount"] s with
  | Ret (r, _) => r = Some (-1)
  | Fault f => f = Overflow
  | OutOfFuel => False
  end.
Proof.
  assert (Hw : wp (fun f => f = Overflow) (fsclient_main n env [bytes_of "mount"])
    (fun r _ => r = Some (-1)) s).
  { unfold fsclient_main. cbn [parse_hosts bool_decide decide]. simpl.
    apply wp_bind, wp_ret. cbn [Z.ltb Z.compare]. unfold ps2netfs_connect, network_connect.
    apply wp_bind, wp_bind, network_connect_timeout_wp. intros sock w1 _ _. wp_step.
    destruct (sock <? 0); apply wp_ret; [by apply wp_ret|]. simpl.
    unfold run_fs_command. simpl. apply wp_bind, wp_ret. by apply wp_bind, wp_fail. }
  unfold wp in Hw. by destruct (fsclient_main n env [bytes_of "mount"] s) as [[r s']|f|].
Qed.

Lemma mount_reads_past_arguments_witness :
  fsclient_main 5 [] [bytes_of "mount"] (mk_st (mk_netfs (-1)) (sim_start [] 0 [] [] [])) = Fault Overflow.
Proof.
  pose proof (mount_reads_past_arguments sim 5 [] (mk_st (mk_netfs (-1)) (sim_start [] 0 [] [] []))) as Hm.
  destruct (fsclient_main 5 [] [bytes_of "mount"] (mk_st (mk_netfs (-1)) (sim_start [] 0 [] [] [])))
    as [[r s']|f|] eqn:Hr; [vm_compute in Hr; discriminate| |done].
  by rewrite Hm.
Defined.
