(* ===== verification/Resetcheck.v ===== *)
(** * src/resetcheck.c: watching a reset from outside

    resetcheck runs ps2client itself as a child process: a ping, one reset,
    then pings until the PS2 has gone away and come back. Processes are not
    code of the repository: they are the class [Processes], what the theorems
    use of them is [ProcessLaws]. The specification is in terms of the exit
    statuses of the pings. *)

From S2P Require Import Prelude CLib Posix Sim Utility Network Link.

(** ** Child processes *)

Class Processes (W : Type) := {
  (* fork, and in the child: stdout and stderr to /dev/null if quiet, execvp
     of the first argument, _exit(127); the result is the pid or -1 *)
  sys_spawn : list (list Z) -> bool -> W -> Z * W;
  (* waitpid, and the status word *)
  sys_waitpid : Z -> W -> (sysret * Z) * W;
  (* the argument lists of the children so far *)
  spawned : W -> list (list (list Z)) }.

Class ProcessLaws (W : Type) `{Posix W} `{!Processes W} : Prop := {
  spawn_law : forall args q w pid w', sys_spawn args q w = (pid, w') ->
    quiet w w' /\ spawned w' = spawned w ++ (if pid <? 0 then [] else [args]);
  waitpid_law : forall pid w r status w', sys_waitpid pid w = ((r, status), w') ->
    quiet w w' /\ spawned w' = spawned w
    /\ (sr_val r < 0 -> sr_errno r = EINTR -> (pending_signals w' < pending_signals w)%nat);
  (* the clock does not start children *)
  clock_spawned : forall w t w', sys_clock_gettime w = (t, w') -> spawned w' = spawned w;
  nanosleep_spawned : forall sec ns w r w',
    sys_nanosleep sec ns w = (r, w') -> spawned w' = spawned w }.

Section defs.
Context {G W : Type} `{Posix W} `{!Processes W}.

Definition child_args (executable hostname name : list Z) : list (list Z) :=
  [executable; bytes_of "-h"; hostname; bytes_of "-t"; bytes_of "1"; name].

(** The loop around waitpid: the status word, [None] when it failed. The fuel
    is the signals that can interrupt it. *)
Fixpoint wait_loop (fuel : nat) (pid : Z) : M G W (option Z) :=
  match fuel with
  | O => stuck
  | S fuel =>
      let! r := hcall (sys_waitpid pid) in
      if sr_val r.1 >=? 0 then ret (Some r.2)
      else if negb (sr_errno r.1 =? EINTR) then ret None
      else wait_loop fuel pid
  end.

Definition run_command (executable hostname name : list Z) (quiet : bool) : M G W Z :=
  let! pid := hcall (sys_spawn (child_args executable hostname name) quiet) in
  if pid <? 0 then ret (-1)
  else
    let! status := (fun s => wait_loop (S (pending_signals (world s))) pid s) in
    match status with
    | None => ret (-1)
    | Some status => ret (if WIFEXITED status then WEXITSTATUS status else -1)
    end.

Definition ping_command : list Z := bytes_of "ping".
Definition reset_command : list Z := bytes_of "reset".

(** if (time_ms() < deadline) sleep_ms(150) *)
Definition pause (deadline : Z) : M G W unit :=
  let! t := time_ms in
  if t <? deadline then let! _ := sleep_ms 150 in ret tt else ret tt.

(** The watching loop after at most [n] iterations, [None] if it goes on. *)
Fixpoint watch_loop (n : nat) (executable hostname : list Z) (deadline : Z) (saw_outage : bool)
    : M G W (option Z) :=
  match n with
  | O => ret None
  | S n =>
      let! t := time_ms in
      if t <? deadline then
        let! status := run_command executable hostname ping_command true in
        if (status =? PS2CLIENT_EXIT_OK) && saw_outage then ret (Some PS2CLIENT_EXIT_OK)
        else
          let saw_outage := saw_outage || negb (status =? PS2CLIENT_EXIT_OK) in
          pause deadline ;;;
          watch_loop n executable hostname deadline saw_outage
      else ret (Some PS2CLIENT_EXIT_TIMEOUT)
  end.

Definition ps2client_resetcheck (n : nat) (executable hostname : list Z) (timeout_seconds : Z)
    : M G W (option Z) :=
  if (timeout_seconds <? 1) || (timeout_seconds >? 120) then ret (Some PS2CLIENT_EXIT_USAGE)
  else
    let! status := run_command executable hostname ping_command true in
    if negb (status =? PS2CLIENT_EXIT_OK) then ret (Some PS2CLIENT_EXIT_NOCONNECT)
    else
      let! status := run_command executable hostname reset_command true in
      if negb (status =? PS2CLIENT_EXIT_OK) then ret (Some PS2CLIENT_EXIT_NOCONNECT)
      else
        let! t := time_ms in
        watch_loop n executable hostname (t + timeout_seconds * 1000) false.
End defs.

(** ** What the statuses of the pings mean *)

(** The PS2 answered for a while, then did not, then did again. *)
Definition recovered (pings : list Z) : Prop :=
  exists up d down, pings = up ++ d :: down ++ [0]
    /\ Forall (fun p => p = 0) up /\ d <> 0 /\ Forall (fun p => p <> 0) down.

(** It never went away, or it never came back. *)
Definition unconfirmed (pings : list Z) : Prop :=
  exists up down, pings = up ++ down
    /\ Forall (fun p => p = 0) up /\ Forall (fun p => p <> 0) down.

Section spec.
Context {W : Type} `{Posix W} `{!Processes W}.
Variables (executable hostname : list Z).

(** Time passed, no child was started. *)
Definition idle (w w' : W) : Prop := quiet w w' /\ spawned w' = spawned w.

(** waitpid was repeated while signals interrupted it. *)
Inductive waited (pid : Z) : W -> Z -> W -> Prop :=
| waited_exit w r word w' : sys_waitpid pid w = ((r, word), w') -> 0 <= sr_val r ->
    waited pid w (if WIFEXITED word then WEXITSTATUS word else -1) w'
| waited_error w r word w' : sys_waitpid pid w = ((r, word), w') -> sr_val r < 0 ->
    sr_errno r <> EINTR -> waited pid w (-1) w'
| waited_again w r word w1 status w' : sys_waitpid pid w = ((r, word), w1) -> sr_val r < 0 ->
    sr_errno r = EINTR -> waited pid w1 status w' -> waited pid w status w'.

(** ps2client was run with a command and waited for, or could not be. *)
Inductive ran (name : list Z) : Z -> W -> W -> Prop :=
| ran_failed w pid w' :
    sys_spawn (child_args executable hostname name) true w = (pid, w') -> pid < 0 ->
    ran name (-1) w w'
| ran_child w pid w1 status w' :
    sys_spawn (child_args executable hostname name) true w = (pid, w1) -> 0 <= pid ->
    waited pid w1 status w' -> ran name status w w'.

Inductive watched : W -> list Z -> W -> Prop :=
| watched_nil w w' : idle w w' -> watched w [] w'
| watched_ping w w1 w2 status pings w' :
    idle w w1 -> ran ping_command status w1 w2 -> watched w2 pings w' ->
    watched w (status :: pings) w'.

Inductive resetcheck_result (timeout : Z) (w w' : W) : Z -> Prop :=
| rc_usage : ~ 1 <= timeout <= 120 -> w' = w ->
    resetcheck_result timeout w w' PS2CLIENT_EXIT_USAGE
| rc_not_responding status : ran ping_command status w w' -> status <> 0 ->
    resetcheck_result timeout w w' PS2CLIENT_EXIT_NOCONNECT
| rc_not_sent w1 status : ran ping_command 0 w w1 -> ran reset_command status w1 w' ->
    status <> 0 -> resetcheck_result timeout w w' PS2CLIENT_EXIT_NOCONNECT
| rc_recovered w1 w2 pings : ran ping_command 0 w w1 -> ran reset_command 0 w1 w2 ->
    watched w2 pings w' -> recovered pings ->
    resetcheck_result timeout w w' PS2CLIENT_EXIT_OK
| rc_unconfirmed w1 w2 pings : ran ping_command 0 w w1 -> ran reset_command 0 w1 w2 ->
    watched w2 pings w' -> unconfirmed pings ->
    now w2 + timeout * 1000000000 <= now w' + 1000000 ->
    resetcheck_result timeout w w' PS2CLIENT_EXIT_TIMEOUT.
End spec.

Section facts.
Context {G W : Type} `{PosixLaws W} `{!Processes W} `{!ProcessLaws W}.
Variables (executable hostname : list Z).
Implicit Types (s : st G W) (w : W).

Lemma waited_idle pid w status w' : waited pid w status w' -> idle w w'.
Proof.
  induction 1 as [w r word w' Hw _|w r word w' Hw _ _|w r word w1 status w' Hw _ _ _ [IH1 IH2]];
    apply waitpid_law in Hw as (Hq & Hsp & _); split; try done; [by etrans|congruence].
Qed.

Lemma ran_quiet name status w w' : ran executable hostname name status w w' -> quiet w w'.
Proof.
  destruct 1 as [w pid w' Hs _|w pid w1 status w' Hs _ Hw]; apply spawn_law in Hs as [Hq _]; [done|].
  etrans; [done|]. by apply waited_idle in Hw as [].
Qed.

Lemma ran_spawned name status w w' :
  ran executable hostname name status w w' ->
  spawned w' = spawned w ++ [child_args executable hostname name]
  \/ spawned w' = spawned w /\ status = -1.
Proof.
  destruct 1 as [w pid w' Hs Hp|w pid w1 status w' Hs Hp Hw]; apply spawn_law in Hs as [_ Hsp].
  - right. rewrite (proj2 (Z.ltb_lt pid 0) Hp), app_nil_r in Hsp. done.
  - left. rewrite (proj2 (Z.ltb_ge pid 0) Hp) in Hsp. apply waited_idle in Hw as [_ ->]. done.
Qed.

Lemma wait_loop_wp (E : fault -> Prop) pid : forall fuel s Q,
  (pending_signals (world s) < fuel)%nat ->
  (forall r status w', waited pid (world s) status w' ->
     status = match r with Some word => if WIFEXITED word then WEXITSTATUS word else -1 | None => -1 end ->
     Q r (mk_st (glob s) w')) ->
  wp E (wait_loop fuel pid) Q s.
Proof.
  induction fuel as [|fuel IH]; intros s Q Hf HQ; [lia|]. cbn [wait_loop].
  wp_step. intros [r word] w1 Hw. cbn [fst snd].
  destruct (Z.geb_spec (sr_val r) 0) as [Hge|Hlt].
  { apply wp_ret. eapply HQ; [by eapply waited_exit|done]. }
  destruct (Z.eqb_spec (sr_errno r) EINTR) as [Hei|Hne]; simpl.
  - pose proof (proj2 (proj2 (waitpid_law _ _ _ _ _ Hw)) Hlt Hei).
    apply IH; simpl; [lia|]. intros r' status w' Hwd Heq. eapply HQ; [by eapply waited_again|done].
  - apply wp_ret. eapply HQ; [by eapply waited_error|done].
Qed.

Lemma run_command_wp (E : fault -> Prop) name s Q :
  (forall status w', ran executable hostname name status (world s) w' ->
     Q status (mk_st (glob s) w')) ->
  wp E (run_command executable hostname name true) Q s.
Proof.
  intros HQ. unfold run_command. wp_step. intros pid w1 Hs.
  destruct (Z.ltb_spec pid 0); [by apply wp_ret, HQ, (ran_failed _ _ _ _ pid)|].
  apply wp_bind, wait_loop_wp; [simpl; lia|]. simpl. intros r status w' Hw ->.
  destruct r; apply wp_ret, HQ; by eapply ran_child.
Qed.

(** The clock, as seen from the children. *)
Lemma time_idle_wp (E : fault -> Prop) s Q :
  (forall t w', idle (world s) w' -> now (world s) / 1000000 <= t <= now w' / 1000000 ->
     Q t (mk_st (glob s) w')) ->
  wp E time_ms Q s.
Proof.
  intros HQ. apply wp_remember, time_ms_wp. intros t w' Hq Ht Hrun. apply HQ; [|done]. split; [done|].
  unfold time_ms, bind, hcall in Hrun. destruct (sys_clock_gettime (world s)) as [ts w1] eqn:Hc.
  injection Hrun as _ <-. by eapply clock_spawned.
Qed.

Lemma sleep_idle_wp (E : fault -> Prop) ms s Q :
  0 <= ms ->
  (forall r w', idle (world s) w' ->
     now (world s) + ms * 1000000 <= now w' \/ (pending_signals w' < pending_signals (world s))%nat ->
     Q r (mk_st (glob s) w')) ->
  wp E (sleep_ms ms) Q s.
Proof.
  intros Hms HQ. apply wp_remember, sleep_ms_wp; [done|]. intros r w' Hq Ht Hrun. apply HQ; [|done].
  split; [done|]. unfold sleep_ms, hcall in Hrun.
  destruct (sys_nanosleep _ _ (world s)) as [r1 w1] eqn:Hc. injection Hrun as _ <-.
  by eapply nanosleep_spawned.
Qed.

Lemma idle_trans w1 w2 w3 : idle w1 w2 -> idle w2 w3 -> idle w1 w3.
Proof. intros [Hq1 H1] [Hq2 H2]. split; [by etrans|congruence]. Qed.

Lemma watched_idle w w1 pings w' :
  idle w w1 -> watched executable hostname w1 pings w' -> watched executable hostname w pings w'.
Proof.
  intros Hi Hw. destruct Hw as [w1 w' Hi'|w1 w2 w3 status pings w' Hi' Hr Hw].
  - apply watched_nil. by eapply idle_trans.
  - eapply watched_ping; [by eapply idle_trans|done|done].
Qed.

(** What the pings from here on show, an outage seen already or not. *)
Definition shows_recovery (saw : bool) (pings : list Z) : Prop :=
  if saw then exists down, pings = down ++ [0] /\ Forall (fun p => p <> 0) down
  else recovered pings.
Definition shows_nothing (saw : bool) (pings : list Z) : Prop :=
  if saw then Forall (fun p => p <> 0) pings else unconfirmed pings.

Lemma shows_recovery_cons saw p pings :
  ~ (p = 0 /\ saw = true) -> shows_recovery (saw || negb (p =? 0)) pings ->
  shows_recovery saw (p :: pings).
Proof.
  intros Hn Hs. destruct saw, (Z.eqb_spec p 0) as [->|Hp]; simpl in *; [by destruct Hn| | |].
  - destruct Hs as (down & -> & Hd). exists (p :: down). by split; [|constructor].
  - destruct Hs as (up & d & down & -> & Hu & Hd & Hdown). exists (0 :: up), d, down.
    split_and!; [done|by constructor|done|done].
  - destruct Hs as (down & -> & Hd). by exists [], p, down.
Qed.

Lemma shows_nothing_cons saw p pings :
  ~ (p = 0 /\ saw = true) -> shows_nothing (saw || negb (p =? 0)) pings ->
  shows_nothing saw (p :: pings).
Proof.
  intros Hn Hs. destruct saw, (Z.eqb_spec p 0) as [->|Hp]; simpl in *; [by destruct Hn| | |].
  - by constructor.
  - destruct Hs as (up & down & -> & Hu & Hd). exists (0 :: up), down.
    split_and!; [done|by constructor|done].
  - exists [], (p :: pings). split_and!; [done|done|by constructor].
Qed.

Lemma shows_nothing_nil saw : shows_nothing saw [].
Proof. destruct saw; [by constructor|]. exists [], []. by split_and!. Qed.

(** How the watching loop can end. *)
Definition watch_done (deadline : Z) (saw : bool) w (r : Z) w' : Prop :=
  exists pings, watched executable hostname w pings w'
    /\ (r = PS2CLIENT_EXIT_OK /\ shows_recovery saw pings
        \/ r = PS2CLIENT_EXIT_TIMEOUT /\ shows_nothing saw pings /\ deadline <= now w' / 1000000).

Lemma watch_done_cons deadline saw w w1 w2 w3 status r w' :
  idle w w1 -> ran executable hostname ping_command status w1 w2 -> idle w2 w3 ->
  ~ (status = 0 /\ saw = true) ->
  watch_done deadline (saw || negb (status =? 0)) w3 r w' -> watch_done deadline saw w r w'.
Proof.
  intros Hi Hran Hi3 Hn (pings & Hw & Hr). exists (status :: pings). split.
  - eapply watched_ping; [done|done|by eapply watched_idle].
  - destruct Hr as [[-> Hr]|(-> & Hr & Hd)]; [left|right]; split_and?; try done.
    + by apply shows_recovery_cons.
    + by apply shows_nothing_cons.
Qed.

Lemma pause_wp (E : fault -> Prop) deadline s Q :
  (forall w', idle (world s) w' ->
     deadline * 1000000 <= now w' \/ now (world s) + 150000000 <= now w'
     \/ (pending_signals w' < pending_signals (world s))%nat -> Q tt (mk_st (glob s) w')) ->
  wp E (pause deadline) Q s.
Proof.
  intros HQ. unfold pause. apply wp_bind, time_idle_wp. intros t w1 Hi Ht.
  destruct (Z.ltb_spec t deadline) as [Hlt|Hge].
  - apply wp_bind, sleep_idle_wp; [lia|]. simpl. intros _ w2 Hi2 Hs.
    pose proof Hi as [(_ & Hs1 & Hn1 & _) _].
    apply wp_ret, HQ; [by eapply idle_trans|]. right. lia.
  - apply wp_ret, HQ; [done|]. left. Z.div_mod_to_equations. lia.
Qed.

Lemma watch_loop_wp (E : fault -> Prop) deadline : forall n saw s Q,
  (forall w', Q None (mk_st (glob s) w')) \/ enough 150000000 n deadline (world s) ->
  (forall r w', watch_done deadline saw (world s) r w' -> Q (Some r) (mk_st (glob s) w')) ->
  wp E (watch_loop n executable hostname deadline saw) Q s.
Proof.
  induction n as [|n IH]; intros saw s Q Hn HQ; cbn [watch_loop].
  { apply wp_ret. destruct Hn as [Hn|Hn]; [by destruct s; apply Hn|by destruct (enough_zero _ _ _ Hn)]. }
  apply wp_bind, time_idle_wp. intros t w1 Hi1 Ht. destruct (Z.ltb_spec t deadline) as [Hlt|Hge].
  2: { apply wp_ret, HQ. exists []. split; [by apply watched_nil|right].
       split_and!; [done|apply shows_nothing_nil|lia]. }
  assert (Hbefore : now (world s) < deadline * 1000000) by (Z.div_mod_to_equations; lia).
  apply wp_bind, run_command_wp. simpl. intros status w2 Hran.
  assert (Hq12 : quiet (world s) w2) by (etrans; [apply Hi1|by eapply ran_quiet]).
  destruct (decide (status = 0 /\ saw = true)) as [[-> ->]|Hgo].
  { apply wp_ret, HQ. exists [0]. split; [|left; split; [done|by exists []]].
    eapply watched_ping; [done|done|apply watched_nil; by split]. }
  replace ((status =? PS2CLIENT_EXIT_OK) && saw) with false.
  2: { symmetry. apply andb_false_iff. destruct saw; [left|by right]. apply Z.eqb_neq. intros ->. by destruct Hgo. }
  apply wp_bind, pause_wp. simpl. intros w3 Hi3 Hpause.
  pose proof Hq12 as (_ & Hsig2 & Hnow2 & _). pose proof Hi3 as [(_ & Hsig3 & Hnow3 & _) _].
  apply IH; simpl.
  - destruct Hn as [Hn|Hn]; [by left|right]. eapply enough_step; [lia|exact Hn|done|lia|lia|].
    destruct Hpause as [|[|]]; lia.
  - intros r w' Hd. apply HQ. by eapply watch_done_cons.
Qed.

Lemma resetcheck_wp (E : fault -> Prop) n timeout s Q :
  (forall w', Q None (mk_st (glob s) w'))
  \/ (7 * Z.to_nat timeout + pending_signals (world s) < n)%nat ->
  (forall r w', resetcheck_result executable hostname timeout (world s) w' r ->
     Q (Some r) (mk_st (glob s) w')) ->
  wp E (ps2client_resetcheck n executable hostname timeout) Q s.
Proof.
  intros Hn HQ. unfold ps2client_resetcheck.
  destruct ((timeout <? 1) || (timeout >? 120)) eqn:Hrange.
  { apply wp_ret. destruct s as [g w]. apply HQ, rc_usage; [|done].
    apply orb_true_iff in Hrange. lia. }
  apply orb_false_iff in Hrange as [Hmin Hmax].
  apply wp_bind, run_command_wp. intros st1 w1 Hran1.
  destruct (Z.eqb_spec st1 PS2CLIENT_EXIT_OK) as [->|]; [|by eapply wp_ret, HQ, rc_not_responding].
  apply wp_bind, run_command_wp. simpl. intros st2 w2 Hran2.
  destruct (Z.eqb_spec st2 PS2CLIENT_EXIT_OK) as [->|]; [|by eapply wp_ret, HQ, rc_not_sent].
  simpl. apply wp_bind, time_idle_wp. simpl. intros t w3 Hi3 Ht.
  pose proof (ran_quiet _ _ _ _ Hran1) as (_ & Hs1 & _ & _).
  pose proof (ran_quiet _ _ _ _ Hran2) as (_ & Hs2 & _ & _).
  pose proof Hi3 as [(_ & Hs3 & Hn3 & _) _].
  apply watch_loop_wp; simpl.
  - destruct Hn as [|Hn]; [by left|right]. exists (7 * Z.to_nat timeout)%nat.
    split; [|lia]. Z.div_mod_to_equations. lia.
  - intros r w' (pings & Hw & Hr). apply (watched_idle _ _ _ _ Hi3) in Hw. apply HQ.
    destruct Hr as [[-> Hr]|(-> & Hr & Hd)]; [by eapply rc_recovered|eapply rc_unconfirmed; try done].
    Z.div_mod_to_equations. lia.
Qed.

(** The commands that were run. *)
Lemma watched_spawned w pings w' :
  watched executable hostname w pings w' ->
  exists k, (k <= length pings)%nat
    /\ spawned w' = spawned w ++ replicate k (child_args executable hostname ping_command).
Proof.
  induction 1 as [w w' [_ Hs]|w w1 w2 status pings w' [_ Hi] Hr Hw (k & Hk & IH)].
  - exists 0%nat. by rewrite app_nil_r.
  - rewrite IH. destruct (ran_spawned _ _ _ _ Hr) as [->|[-> _]]; rewrite Hi.
    + exists (S k). rewrite <- app_assoc. simpl. split; [lia|done].
    + exists k. simpl. split; [lia|done].
Qed.

Lemma ran_ok_spawned name w w' :
  ran executable hostname name 0 w w' ->
  spawned w' = spawned w ++ [child_args executable hostname name].
Proof. intros Hr. by destruct (ran_spawned _ _ _ _ Hr) as [|[_ ?]]. Qed.

(** At most one reset, and only after a ping was answered. *)
Lemma resetcheck_spawned timeout w w' r :
  resetcheck_result executable hostname timeout w w' r ->
  let ping := child_args executable hostname ping_command in
  let reset := child_args executable hostname reset_command in
  (exists k, (k <= 1)%nat /\ spawned w' = spawned w ++ replicate k ping)
  \/ exists k, spawned w' = spawned w ++ ping :: reset :: replicate k ping.
Proof.
  intros Hr ping reset. destruct Hr as [_ ->|status Hp _|w1 status Hp Hs _
    |w1 w2 pings Hp Hs Hw _|w1 w2 pings Hp Hs Hw _ _].
  - left. exists 0%nat. rewrite app_nil_r. auto.
  - left. destruct (ran_spawned _ _ _ _ Hp) as [->|[-> _]]; [by exists 1%nat|].
    exists 0%nat. rewrite app_nil_r. auto.
  - apply ran_ok_spawned in Hp.
    destruct (ran_spawned _ _ _ _ Hs) as [->|[-> _]]; rewrite Hp.
    + right. exists 0%nat. by rewrite <- app_assoc.
    + left. by exists 1%nat.
  - right. apply watched_spawned in Hw as (k & _ & ->). exists k.
    rewrite (ran_ok_spawned _ _ _ Hs), (ran_ok_spawned _ _ _ Hp), <- !app_assoc. done.
  - right. apply watched_spawned in Hw as (k & _ & ->). exists k.
    rewrite (ran_ok_spawned _ _ _ Hs), (ran_ok_spawned _ _ _ Hp), <- !app_assoc. done.
Qed.
End facts.

(** ** The properties of src/resetcheck.c *)

(** Children of the small operating system end with scripted statuses. *)
#[export] Instance sim_processes : Processes sim := {|
  sys_spawn := fun args _ w => (100, set_children (sim_exits w) (sim_spawned w ++ [args]) w);
  sys_waitpid := fun pid w =>
    match sim_exits w with
    | [] => ((SysRet pid 0, 0), w)
    | e :: exits => ((SysRet pid 0, Z.shiftl e 8), set_children exits (sim_spawned w) w)
    end;
  spawned := sim_spawned |}.

#[export] Instance sim_process_laws : ProcessLaws sim.
Proof.
  split; simpl.
  - intros args q w pid w' Hs. simplify_eq. by split.
  - intros pid w r status w' Hw. destruct (sim_exits w); simplify_eq/=; split_and!; try done.
  - intros w t w' Hc. by simplify_eq.
  - intros sec ns w r w' Hc. by simplify_eq.
Qed.

(** C19: resetcheck returns within seven pings per second of the timeout (plus
    one per signal), and its exit status is right: 64 for a timeout outside 1
    to 120 seconds, 69 when the first ping or the reset failed, 0 exactly when
    a ping failed after the reset and a later one was answered, and 124 when
    the time was over before that. *)
Theorem resetcheck_exit_status (G W : Type) `{PosixLaws W} `{!Processes W} `{!ProcessLaws W}
    (n : nat) (executable hostname : list Z) (timeout : Z) (s : st G W) :
  (7 * Z.to_nat timeout + pending_signals (world s) < n)%nat ->
  exists r w', ps2client_resetcheck n executable hostname timeout s
               = Ret (Some r, mk_st (glob s) w')
    /\ resetcheck_result executable hostname timeout (world s) w' r.
Proof.
  intros Hn. destruct (wp_run (ps2client_resetcheck n executable hostname timeout)
    (fun r s' => exists status, r = Some status /\ glob s' = glob s
       /\ resetcheck_result executable hostname timeout (world s) (world s') status) s)
    as (r & [g w'] & Hr & status & -> & Hg & Hres).
  { apply resetcheck_wp; [by right|]. intros r w' Hres. by exists r. }
  simpl in *. subst g. by exists status, w'.
Qed.

(** A PS2 that answers, is reset, is away for two pings and is back. *)
Definition reset_world : sim := set_children [0; 0; 0; 69; 69; 0] [] (sim_start [] 0 [] [] []).

Lemma resetcheck_exit_status_witness : exists w',
  ps2client_resetcheck 20 (bytes_of "ps2client") (bytes_of "ps2") 2 (mk_st tt reset_world)
    = Ret (Some 0, mk_st tt w')
  /\ resetcheck_result (bytes_of "ps2client") (bytes_of "ps2") 2 reset_world w' 0.
Proof.
  destruct (resetcheck_exit_status unit sim 20 (bytes_of "ps2client") (bytes_of "ps2") 2
    (mk_st tt reset_world)) as (r & w' & Hr & Hres); [vm_compute; lia|].
  assert (Hz : match ps2client_resetcheck 20 (bytes_of "ps2client") (bytes_of "ps2") 2
                       (mk_st tt reset_world) with Ret (o, _) => o | _ => None end = Some 0)
    by (vm_compute; reflexivity).
  rewrite Hr in Hz. injection Hz as ->. exists w'. split; [exact Hr|exact Hres].
Defined.

(** C20: resetcheck starts one reset at most, and only as the second
    child, after a ping; all its other children are pings. *)
Theorem resetcheck_resets_once (G W : Type) `{PosixLaws W} `{!Processes W} `{!ProcessLaws W}
    (n : nat) (executable hostname : list Z) (timeout : Z) (s : st G W) (r : Z) (s' : st G W) :
  ps2client_resetcheck n executable hostname timeout s = Ret (Some r, s') ->
  let ping := child_args executable hostname ping_command in
  let reset := child_args executable hostname reset_command in
  (exists k, (k <= 1)%nat /\ spawned (world s') = spawned (world s) ++ replicate k ping)
  \/ exists k, spawned (world s') = spawned (world s) ++ ping :: reset :: replicate k ping.
Proof.
  intros Hrun.
  assert (Hw : wp safe (ps2client_resetcheck n executable hostname timeout)
    (fun o x => forall v, o = Some v ->
       resetcheck_result executable hostname timeout (world s) (world x) v) s).
  { apply resetcheck_wp; [by left|]. intros v w' Hres ? [= <-]. exact Hres. }
  unfold wp in Hw. rewrite Hrun in Hw. by eapply resetcheck_spawned, Hw.
Qed.

Lemma resetcheck_resets_once_witness : exists s' k,
  ps2client_resetcheck 20 (bytes_of "ps2client") (bytes_of "ps2") 2 (mk_st tt reset_world)
    = Ret (Some 0, s')
  /\ sim_spawned (world s') = child_args (bytes_of "ps2client") (bytes_of "ps2") ping_command
      :: child_args (bytes_of "ps2client") (bytes_of "ps2") reset_command
      :: replicate k (child_args (bytes_of "ps2client") (bytes_of "ps2") ping_command).
Proof.
  destruct (ps2client_resetcheck 20 (bytes_of "ps2client") (bytes_of "ps2") 2 (mk_st tt reset_world))
    as [[[r|] s']| |] eqn:Hrun; try (exfalso; vm_compute in Hrun; discriminate).
  assert (Hr0 : r = 0) by (vm_compute in Hrun; congruence). subst r.
  assert (Hlen : (2 <= length (sim_spawned (world s')))%nat)
    by (vm_compute in Hrun; injection Hrun as <-; vm_compute; lia).
  destruct (resetcheck_resets_once unit sim 20 (bytes_of "ps2client") (bytes_of "ps2") 2
    (mk_st tt reset_world) 0 s' Hrun) as [(k & Hk & Hs)|(k & Hs)].
  - exfalso. change (spawned (world s')) with (sim_spawned (world s')) in Hs. rewrite Hs in Hlen.
    change (spawned (world (mk_st tt reset_world))) with (@nil (list (list Z))) in Hlen.
    rewrite app_nil_l, length_replicate in Hlen. lia.
  - exists s', k. split; [reflexivity|exact Hs].
Defined.
