(* ===== verification/Ps2client.v ===== *)
(** * src/ps2client.c: the command line and the program

    [preflight] is what main checks before it opens anything, [invocation]
    what is left of a command line then; [main] connects, waits for the PS2
    where the command needs files, sends the command and waits in the main
    loop. A loop that waits is run for at most [n] iterations ([None]: still
    waiting). The messages are left out. *)

From S2P Require Import Prelude CLib Posix Sim Utility Network Link Response Request Wire Command Console Session Resetcheck.

(** ** The table of commands *)

Inductive command_id :=
| CMD_RESET | CMD_RESETCHECK | CMD_EXECIOP | CMD_EXECEE | CMD_POWEROFF | CMD_SCRDUMP | CMD_NETDUMP
| CMD_DUMPMEM | CMD_STARTVU | CMD_STOPVU | CMD_DUMPREG | CMD_GSEXEC | CMD_WRITEMEM | CMD_IOPEXCEP
| CMD_LISTEN | CMD_PING | CMD_CONSOLE.

#[global] Instance command_id_eq_dec : EqDecision command_id.
Proof. solve_decision. Defined.

Definition NEEDS_HOST : Z := 1.
Definition NO_WAIT : Z := 2.

Record entry := mk_entry { name : list Z; id : command_id; args : nat; flags : Z }.

Definition commands : list entry :=
  [mk_entry (bytes_of "reset") CMD_RESET 0 NO_WAIT;
   mk_entry (bytes_of "resetcheck") CMD_RESETCHECK 0 NO_WAIT;
   mk_entry (bytes_of "execiop") CMD_EXECIOP 1 NEEDS_HOST;
   mk_entry (bytes_of "execee") CMD_EXECEE 1 NEEDS_HOST;
   mk_entry (bytes_of "poweroff") CMD_POWEROFF 0 NO_WAIT;
   mk_entry (bytes_of "scrdump") CMD_SCRDUMP 0 NO_WAIT;
   mk_entry (bytes_of "netdump") CMD_NETDUMP 0 NO_WAIT;
   mk_entry (bytes_of "dumpmem") CMD_DUMPMEM 3 NEEDS_HOST;
   mk_entry (bytes_of "startvu") CMD_STARTVU 1 NO_WAIT;
   mk_entry (bytes_of "stopvu") CMD_STOPVU 1 NO_WAIT;
   mk_entry (bytes_of "dumpreg") CMD_DUMPREG 2 NEEDS_HOST;
   mk_entry (bytes_of "gsexec") CMD_GSEXEC 2 NEEDS_HOST;
   mk_entry (bytes_of "writemem") CMD_WRITEMEM 3 NEEDS_HOST;
   mk_entry (bytes_of "iopexcep") CMD_IOPEXCEP 0 NO_WAIT;
   mk_entry (bytes_of "listen") CMD_LISTEN 0 0;
   mk_entry (bytes_of "ping") CMD_PING 0 NEEDS_HOST;
   mk_entry (bytes_of "console") CMD_CONSOLE 0 0].

Definition regtypes : list (list Z) :=
  map bytes_of ["dma"; "intc"; "timer"; "gs"; "sif"; "fifo"; "gif"; "vif0"; "vif1"; "ipu"; "all";
                "vu0"; "vu1"]%string.

Definition CONNECT_TIMEOUT_MS : Z := 3000.
Definition HANDSHAKE_TIMEOUT_MS : Z := 3000.

(** ** Arguments *)

(** The result and the value: strtoul is cut to an unsigned int. *)
Definition parse_number (s : list Z) : Z * Z :=
  let '(value, end_) := strtoul0 s in
  (if bool_decide (s = []) || bool_decide (end_ < length s)%nat then -1 else 0, u32 value).

(** The first index at which a string is found. *)
Fixpoint index_of (s : list Z) (names : list (list Z)) (i : Z) : option Z :=
  match names with
  | [] => None
  | n :: names => if strcmp_eq s n then Some i else index_of s names (i + 1)
  end.

Definition parse_regtype (s : list Z) : Z :=
  match index_of s regtypes 0 with
  | Some i => i
  | None => let '(r, value) := parse_number s in if r =? 0 then s32 value else -1
  end.

(** hostname, timeout and marker. *)
Record options := mk_options { hostname : list Z; timeout : Z; marker : option (list Z) }.

(** snprintf(hostname, sizeof(hostname), "%s", value) *)
Definition set_hostname (value : list Z) (o : options) : options :=
  mk_options (take 255 value) (timeout o) (marker o).
Definition set_timeout (value : Z) (o : options) : options :=
  mk_options (hostname o) value (marker o).
Definition set_end_marker (value : list Z) (o : options) : options :=
  mk_options (hostname o) (timeout o) (Some value).

Definition default_options : options := mk_options (bytes_of "192.168.0.10") (-1) None.

Fixpoint parse_env (env : list (list Z)) (o : options) : options :=
  match env with
  | [] => o
  | e :: env =>
      parse_env env
        (if strncmp_eq e (bytes_of "PS2HOSTNAME=") 12 then set_hostname (drop 12 e) o else o)
  end.

(** The options at the start of the arguments: the settings and what follows,
    [None] when the value of one is missing. *)
Fixpoint parse_options (argv : list (list Z)) (o : options) : option (options * list (list Z)) :=
  match argv with
  | [] => Some (o, [])
  | a :: rest =>
      if strcmp_eq a (bytes_of "-h") then
        match rest with [] => None | v :: rest => parse_options rest (set_hostname v o) end
      else if strcmp_eq a (bytes_of "-t") then
        match rest with [] => None | v :: rest => parse_options rest (set_timeout (atoi v) o) end
      else if strcmp_eq a (bytes_of "-e") then
        match rest with
        | [] => None
        | v :: rest => if bool_decide (v = []) then None else parse_options rest (set_end_marker v o)
        end
      else Some (o, argv)
  end.

Fixpoint find_command (n : list Z) (table : list entry) : option entry :=
  match table with
  | [] => None
  | e :: table => if strcmp_eq n (name e) then Some e else find_command n table
  end.

Definition arg (argv : list (list Z)) (i : nat) : list Z := nth i argv [].

(** The length execiop and execee need: strnlen(argv[i], 257) + 1 each. *)
Definition exec_length (argv : list (list Z)) : Z :=
  fold_right Z.add 0 (map (fun a => Z.min (Z.of_nat (length a)) 257 + 1) argv).

(** The checks of a command's arguments: number0 and number1. *)
Definition check_arguments (i : command_id) (argv : list (list Z)) : option (Z * Z) :=
  match i with
  | CMD_DUMPMEM | CMD_WRITEMEM =>
      let '(r0, number0) := parse_number (arg argv 0) in
      if r0 <? 0 then None
      else let '(r1, number1) := parse_number (arg argv 1) in
           if r1 <? 0 then None else Some (number0, number1)
  | CMD_DUMPREG =>
      let number0 := parse_regtype (arg argv 0) in
      if number0 <? 0 then None else Some (number0, 0)
  | CMD_EXECIOP | CMD_EXECEE => if exec_length argv >? 256 then None else Some (0, 0)
  | CMD_STARTVU | CMD_STOPVU | CMD_GSEXEC =>
      let '(r0, number0) := parse_number (arg argv 0) in
      if r0 <? 0 then None else Some (number0, 0)
  | _ => Some (0, 0)
  end.

Record invocation := mk_invocation {
  inv_options : options; inv_command : entry; inv_args : list (list Z);
  number0 : Z; number1 : Z }.

(** Up to the first side effect; [None] is PS2CLIENT_EXIT_USAGE. [argv] is
    without the name of the program. *)
Definition preflight (env argv : list (list Z)) : option invocation :=
  if bool_decide (argv = []) then None
  else
    match parse_options argv (parse_env env default_options) with
    | None | Some (_, []) => None
    | Some (o, c :: rest) =>
        match find_command c commands with
        | None => None
        | Some e =>
            if bool_decide (length rest < args e)%nat then None
            else
              match check_arguments (id e) rest with
              | None => None
              | Some (n0, n1) =>
                  if bool_decide (id e = CMD_RESETCHECK) && negb (bool_decide (rest = [])) then None
                  else Some (mk_invocation o e rest n0 n1)
              end
        end
    end.

(** ** The program *)

Definition has_flag (e : entry) (f : Z) : bool := negb (Z.land (flags e) f =? 0).

(** What the connection is set up for. *)
Definition what_for (e : entry) : Z :=
  Z.lor (if bool_decide (id e <> CMD_CONSOLE) then PS2LINK_CONNECT_COMMAND else 0)
    (Z.lor (if has_flag e NEEDS_HOST || bool_decide (id e = CMD_LISTEN)
            then PS2LINK_CONNECT_REQUEST else 0)
       (if negb (has_flag e NO_WAIT) && bool_decide (id e <> CMD_PING)
        then PS2LINK_CONNECT_CONSOLE else 0)).

Section defs.
Context {W : Type} `{Posix W} `{!OtherThreads W} `{!Processes W}.

(** The result of an int operation: an overflow is undefined. *)
Definition int_result (z : Z) : M link W Z :=
  if bool_decide (is_s32 z) then ret z else fail SignedOverflow.

(** int limit = timeout > 0 ? timeout * 1000 : 2000 *)
Definition ping_limit (t : Z) : M link W Z :=
  if t >? 0 then int_result (t * 1000) else ret 2000.

Definition main_ping (n : nat) (o : options) (what : Z) : M link W (option Z) :=
  let! limit := ping_limit (timeout o) in
  let! start := time_ms in
  let! result := ps2link_connect (hostname o) what limit in
  if negb (result =? 0) then ret (Some result)
  else
    let! t := time_ms in
    let! rest := int_result (limit - s32 (t - start)) in
    let! result := ps2link_handshake n rest in
    match result with
    | None => ret None
    | Some result =>
        ps2link_disconnect ;;;
        ret (Some (if result <? 0 then PS2CLIENT_EXIT_NOCONNECT else PS2CLIENT_EXIT_OK))
    end.

(** The switch over the commands. *)
Definition perform (v : invocation) : M link W Z :=
  let argv := inv_args v in
  let argc := Z.of_nat (length argv) in
  match id (inv_command v) with
  | CMD_RESET => ps2link_command_reset
  | CMD_EXECIOP => ps2link_command_execiop argc argv
  | CMD_EXECEE => ps2link_command_execee argc argv
  | CMD_POWEROFF => ps2link_command_poweroff
  | CMD_SCRDUMP => ps2link_command_scrdump
  | CMD_NETDUMP => ps2link_command_netdump
  | CMD_DUMPMEM => ps2link_command_dumpmem (number0 v) (number1 v) (Some (arg argv 2))
  | CMD_STARTVU => ps2link_command_startvu (number0 v)
  | CMD_STOPVU => ps2link_command_stopvu (number0 v)
  | CMD_DUMPREG => ps2link_command_dumpreg (number0 v) (Some (arg argv 1))
  | CMD_GSEXEC => ps2link_command_gsexec (number0 v) (Some (arg argv 1))
  | CMD_WRITEMEM => ps2link_command_writemem (number0 v) (number1 v) (Some (arg argv 2))
  | CMD_IOPEXCEP => ps2link_command_iopexcep
  | CMD_LISTEN | CMD_CONSOLE | CMD_PING | CMD_RESETCHECK => ret 0
  end.

(** ps2link answers, where the command needs files; [None]: still waiting. *)
Definition await_host (n : nat) (what : Z) : M link W (option bool) :=
  if wants what PS2LINK_CONNECT_REQUEST then
    let! r := ps2link_handshake n HANDSHAKE_TIMEOUT_MS in
    ret ((fun r => negb (r <? 0)) <$> r)
  else ret (Some true).

(** Disconnect and return. *)
Definition leave (status : Z) : M link W (option Z) := ps2link_disconnect ;;; ret (Some status).

Definition main_command (n : nat) (v : invocation) (what limit : Z) : M link W (option Z) :=
  ps2link_set_marker (marker (inv_options v)) ;;;
  let! result := ps2link_connect (hostname (inv_options v)) what CONNECT_TIMEOUT_MS in
  if negb (result =? 0) then ret (Some result)
  else
    let! ready := await_host n what in
    match ready with
    | None => ret None
    | Some false => leave PS2CLIENT_EXIT_NOCONNECT
    | Some true =>
        let! result := perform v in
        if result <? 0 then leave PS2CLIENT_EXIT_NOCONNECT
        else
          let! status := ps2link_mainloop n limit in
          match status with
          | None => ret None
          | Some status => leave status
          end
    end.

(** main on a command line that passed the checks. *)
Definition main_run (n : nat) (executable : list Z) (v : invocation) : M link W (option Z) :=
  let e := inv_command v in
  let o := inv_options v in
  if bool_decide (id e = CMD_RESETCHECK) then
    ps2client_resetcheck n executable (hostname o) (if timeout o <? 0 then 10 else timeout o)
  else
    let limit := if has_flag e NO_WAIT then 0 else timeout o in
    let what := what_for e in
    let! r := network_startup in
    if r <? 0 then ret (Some PS2CLIENT_EXIT_NOCONNECT)
    else if bool_decide (id e = CMD_PING) then main_ping n o what
    else main_command n v what limit.

Definition main (n : nat) (env : list (list Z)) (executable : list Z) (argv : list (list Z))
    : M link W (option Z) :=
  match preflight env argv with
  | None => ret (Some PS2CLIENT_EXIT_USAGE)
  | Some v => main_run n executable v
  end.
End defs.

(** ** What a command line asks for *)

Definition meaning (v : invocation) : option command :=
  let argv := inv_args v in
  match id (inv_command v) with
  | CMD_RESET => Some Reset
  | CMD_EXECIOP => Some (Execiop argv)
  | CMD_EXECEE => Some (Execee argv)
  | CMD_POWEROFF => Some Poweroff
  | CMD_SCRDUMP => Some Scrdump
  | CMD_NETDUMP => Some Netdump
  | CMD_DUMPMEM => Some (Dumpmem (number0 v) (number1 v) (arg argv 2))
  | CMD_STARTVU => Some (Startvu (number0 v))
  | CMD_STOPVU => Some (Stopvu (number0 v))
  | CMD_DUMPREG => Some (Dumpreg (number0 v) (arg argv 1))
  | CMD_GSEXEC => Some (Gsexec (number0 v) (arg argv 1))
  | CMD_WRITEMEM => Some (Writemem (number0 v) (number1 v) (arg argv 2))
  | CMD_IOPEXCEP => Some Iopexcep
  | CMD_LISTEN | CMD_CONSOLE | CMD_PING | CMD_RESETCHECK => None
  end.

(** The idle timeout of the main loop. *)
Definition loop_timeout (v : invocation) : Z :=
  if has_flag (inv_command v) NO_WAIT then 0 else timeout (inv_options v).

(** How long ping tries, in ms. *)
Definition ping_time (v : invocation) : Z :=
  if timeout (inv_options v) >? 0 then timeout (inv_options v) * 1000 else 2000.

Section spec.
Context {W : Type} `{Posix W} `{!OtherThreads W} `{!Processes W}.
Implicit Types (s : st link W).

(** The phases of a run, each from one state to the next. *)
Definition with_marker (v : invocation) s : st link W :=
  mk_st (set_marker (marker (inv_options v)) (glob s)) (world s).

Definition connects (v : invocation) (timeout_ms : Z) : st link W -> st link W -> Z -> Prop :=
  connect_result (hostname (inv_options v)) (what_for (inv_command v)) timeout_ms.

(** ps2link has answered, where files are asked for. *)
Definition awaited (what : Z) s s' : Prop :=
  if wants what PS2LINK_CONNECT_REQUEST
  then exists r, handshake_result HANDSHAKE_TIMEOUT_MS s s' r /\ 0 <= r
  else s' = s.

(** The one packet of the command was sent, with result [r]. *)
Definition issued (v : invocation) s (r : Z) s' : Prop :=
  match meaning v with
  | None => r = 0 /\ s' = s
  | Some c => glob s' = glob s /\ exists obj w, length obj = command_size c /\ quiet (world s) w
      /\ sent (command_socket (glob s)) (command_packet obj c) r w (world s')
  end.

(** The main loop has ended, or there is no waiting. *)
Definition looped (v : invocation) s s' (status : Z) : Prop :=
  if loop_timeout v =? 0
  then status = PS2CLIENT_EXIT_OK /\ quiet (world s) (world s')
    /\ glob s' = set_command_socket (closed (command_socket (glob s))) (glob s)
  else exit_status (loop_timeout v) (now (world s) / 1000000) s' status.

(** All sockets were closed, and nothing else happened. *)
Definition disconnected s s' : Prop :=
  quiet (world s) (world s')
  /\ glob s' = set_sockets (closed (console_socket (glob s))) (closed (request_socket (glob s)))
                 (closed (command_socket (glob s))) (glob s).

(** Why a command ends with a status. *)
Inductive command_status (v : invocation) s s' : Z -> Prop :=
| cmd_no_connection status :
    connects v CONNECT_TIMEOUT_MS (with_marker v s) s' status -> status <> 0 ->
    command_status v s s' status
| cmd_no_answer s1 s2 r :
    connects v CONNECT_TIMEOUT_MS (with_marker v s) s1 0 ->
    wants (what_for (inv_command v)) PS2LINK_CONNECT_REQUEST = true ->
    handshake_result HANDSHAKE_TIMEOUT_MS s1 s2 r -> r < 0 -> disconnected s2 s' ->
    command_status v s s' PS2CLIENT_EXIT_NOCONNECT
| cmd_not_sent s1 s2 r s3 :
    connects v CONNECT_TIMEOUT_MS (with_marker v s) s1 0 -> awaited (what_for (inv_command v)) s1 s2 ->
    issued v s2 r s3 -> r < 0 -> disconnected s3 s' ->
    command_status v s s' PS2CLIENT_EXIT_NOCONNECT
| cmd_done s1 s2 r s3 s4 status :
    connects v CONNECT_TIMEOUT_MS (with_marker v s) s1 0 -> awaited (what_for (inv_command v)) s1 s2 ->
    issued v s2 r s3 -> 0 <= r -> looped v s3 s4 status -> disconnected s4 s' ->
    command_status v s s' status.

(** And a ping: [start] and [t] are the clock before and after connecting. *)
Inductive ping_status (v : invocation) s s' : Z -> Prop :=
| ping_no_connection start s0 status :
    time_ms s = Ret (start, s0) -> connects v (ping_time v) s0 s' status -> status <> 0 ->
    ping_status v s s' status
| ping_done start s0 s1 t s2 s3 r :
    time_ms s = Ret (start, s0) -> connects v (ping_time v) s0 s1 0 -> time_ms s1 = Ret (t, s2) ->
    handshake_result (ping_time v - s32 (t - start)) s2 s3 r -> disconnected s3 s' ->
    ping_status v s s' (if r <? 0 then PS2CLIENT_EXIT_NOCONNECT else PS2CLIENT_EXIT_OK).

(** Why main returns a status, on a command line that passed the checks. *)
Inductive run_status (executable : list Z) (v : invocation) s s' : Z -> Prop :=
| run_resetcheck status : id (inv_command v) = CMD_RESETCHECK ->
    resetcheck_result executable (hostname (inv_options v))
      (if timeout (inv_options v) <? 0 then 10 else timeout (inv_options v)) (world s) (world s') status ->
    run_status executable v s s' status
| run_ping status : id (inv_command v) = CMD_PING -> ping_status v s s' status ->
    run_status executable v s s' status
| run_command_status status : id (inv_command v) <> CMD_RESETCHECK -> id (inv_command v) <> CMD_PING ->
    command_status v s s' status -> run_status executable v s s' status.

(** The undefined behaviour of main: an int of a ping leaves its range. The
    timeout is too big to be multiplied by 1000, or the clock has advanced so
    far while connecting (2^31 ms, 24 days, or more) that the rest of the time
    cannot be computed. *)
Definition ping_overflow (v : invocation) s (f : fault) : Prop :=
  f = SignedOverflow /\ id (inv_command v) = CMD_PING
  /\ (2 ^ 31 - 1 < timeout (inv_options v) * 1000
      \/ exists start s0 s1 t s2, time_ms s = Ret (start, s0)
           /\ ps2link_connect (hostname (inv_options v)) (what_for (inv_command v)) (ping_time v) s0
              = Ret (0, s1)
           /\ time_ms s1 = Ret (t, s2) /\ start + 2 ^ 31 <= t).
End spec.

(** ** Facts about the table and the checks *)

(** A property of every entry of the table, by computation. *)
Ltac by_table :=
  match goal with
  | |- forall e, e ∈ commands -> @?P e =>
      apply (proj1 (Forall_forall P commands)); unfold commands;
      repeat (constructor; [simpl; intros; first [reflexivity | discriminate | by eauto]|]); constructor
  end.

Lemma find_command_table n table e :
  find_command n table = Some e -> e ∈ table /\ name e = n.
Proof.
  induction table as [|x table IH]; simpl; [done|]. unfold strcmp_eq. case_bool_decide as Hn.
  - intros [= <-]. split; [by left|done].
  - intros He. destruct (IH He). split; [by right|done].
Qed.

Lemma ping_wants_request :
  forall e, e ∈ commands -> id e = CMD_PING -> wants (what_for e) PS2LINK_CONNECT_REQUEST = true.
Proof. by_table. Qed.

(** What the checks let through. *)
Record accepted (env argv : list (list Z)) (v : invocation) : Prop := {
  acc_table : inv_command v ∈ commands;
  acc_parsed : parse_options argv (parse_env env default_options)
               = Some (inv_options v, name (inv_command v) :: inv_args v);
  acc_count : (args (inv_command v) <= length (inv_args v))%nat;
  acc_arguments : check_arguments (id (inv_command v)) (inv_args v) = Some (number0 v, number1 v) }.

Lemma preflight_accepted env argv v : preflight env argv = Some v -> accepted env argv v.
Proof.
  unfold preflight. case_bool_decide; [done|].
  destruct (parse_options argv _) as [[o [|c rest]]|] eqn:Hp; try done.
  destruct (find_command c commands) as [e|] eqn:He; [|done].
  apply find_command_table in He as [He Hn]. case_bool_decide; [done|].
  destruct (check_arguments (id e) rest) as [[n0 n1]|] eqn:Ha; [|done].
  case_match; [done|]. intros [= <-]. split; simpl; try done; [by rewrite Hn|lia].
Qed.

Section facts.
Context {W : Type} `{PosixLaws W} `{!OtherThreads W} `{!Interference W}
  `{!Processes W} `{!ProcessLaws W}.
Implicit Types (s : st link W) (w : W).

Lemma perform_issue v c : meaning v = Some c -> perform (W := W) v = issue_command c.
Proof. unfold meaning, perform. destruct (id (inv_command v)); intros; by simplify_eq. Qed.

Lemma perform_none v : meaning v = None -> perform (W := W) v = ret 0.
Proof. unfold meaning, perform. by destruct (id (inv_command v)). Qed.

(** The arguments of the command fit the packet. *)
Definition fits (v : invocation) : Prop := forall c, meaning v = Some c -> argv_fits c = true.

Lemma perform_wp (E : fault -> Prop) v s Q :
  fits v -> (forall r s', glob s' = glob s -> issued v s r s' -> Q r s') -> wp E (perform v) Q s.
Proof.
  intros Hf HQ. unfold issued in HQ. destruct (meaning v) as [c|] eqn:Hm.
  - rewrite (perform_issue v c Hm). apply issue_command_wp; [by apply Hf|].
    intros obj w1 r w' Hq Ho Hs. apply HQ; [done|]. split; [done|]. by exists obj, w1.
  - rewrite (perform_none v Hm). by apply wp_ret, HQ.
Qed.

Lemma leave_wp (E : fault -> Prop) status s Q :
  (forall s', disconnected s s' -> Q (Some status) s') -> wp E (leave status) Q s.
Proof.
  intros HQ. unfold leave. eapply wp_bind_spec; [apply disconnect_wp|].
  intros r s' (-> & Hq & Hg). by apply wp_ret, HQ.
Qed.

Lemma await_host_wp (E : fault -> Prop) n what s Q :
  ready (glob s) -> (forall s' r, rely (glob s) (glob s') ->
     (r = Some true -> awaited what s s') ->
     (r = Some false -> wants what PS2LINK_CONNECT_REQUEST = true
        /\ exists res, handshake_result HANDSHAKE_TIMEOUT_MS s s' res /\ res < 0) ->
     (wants what PS2LINK_CONNECT_REQUEST = false -> r = Some true /\ s' = s) -> Q r s') ->
  wp E (await_host n what) Q s.
Proof.
  intros Hrd HQ. unfold await_host, awaited in *. destruct (wants what PS2LINK_CONNECT_REQUEST) eqn:Hw.
  - eapply wp_bind_spec; [by apply handshake_safe_wp|]. intros r s' [Hr Hres]. apply wp_ret.
    apply HQ; [done| | |done]; intros Hz; destruct r as [r|]; simplify_eq/=; specialize (Hres r eq_refl);
      destruct (Z.ltb_spec r 0); try done; [by exists r|]. split; [done|]. by exists r.
  - apply wp_ret, HQ; [reflexivity|done|done|done].
Qed.

Lemma connect_frame_ready g g' : connect_frame g g' -> ready g -> ready g'.
Proof. intros ->. by intros ?%(ready_set_sockets (console_socket g') (request_socket g') (command_socket g'))%(ready_set_activity (ps2link_activity g')). Qed.

(** The globals are in order and a status has its reason. *)
Definition ended_well (executable : list Z) (v : invocation) s (r : option Z) s' : Prop :=
  ready (glob s') /\ forall status, r = Some status -> run_status executable v s s' status.

(** Disconnecting at the end of a run. *)
Lemma leave_well_wp (E : fault -> Prop) executable v s status s1 :
  ready (glob s1) -> (forall s', disconnected s1 s' -> run_status executable v s s' status) ->
  wp E (leave status) (ended_well executable v s) s1.
Proof.
  intros Hrd Hst. apply leave_wp. intros s' Hd. split; [|intros ? [= <-]; by apply Hst].
  destruct Hd as [_ ->]. by apply ready_set_sockets.
Qed.

(** The main loop, or its absence. *)
Lemma looped_wp (E : fault -> Prop) n v s :
  ready (glob s) ->
  wp E (ps2link_mainloop n (loop_timeout v))
    (fun r s' => ready (glob s') /\ forall status, r = Some status -> looped v s s' status) s.
Proof.
  intros Hrd. unfold looped. destruct (Z.eqb_spec (loop_timeout v) 0) as [Hz|Hnz].
  - unfold ps2link_mainloop. rewrite Hz. apply wp_bind, close_command_wp. intros w4 Hq.
    apply wp_ret. split; [by apply ready_set_sockets|]. by intros status [= <-].
  - eapply wp_mono; [by apply mainloop_wp|done|]. intros r s' [Hst Hr]. split; [|done].
    by apply (rely_ready _ _ Hr), ready_set_sockets.
Qed.

Lemma main_command_wp (E : fault -> Prop) n executable v s :
  ready (glob s) -> fits v -> id (inv_command v) <> CMD_RESETCHECK -> id (inv_command v) <> CMD_PING ->
  wp E (main_command n v (what_for (inv_command v)) (loop_timeout v)) (ended_well executable v s) s.
Proof.
  intros Hrd Hfit Hreset Hping.
  assert (Hst : forall s' status, command_status v s s' status -> run_status executable v s s' status)
    by (intros; by apply run_command_status).
  unfold main_command, ps2link_set_marker. wp_step.
  eapply wp_bind_spec; [apply connect_wp|]. simpl. intros r1 s1 (Hcon & Hfr & _).
  assert (Hrd1 : ready (glob s1)) by (eapply connect_frame_ready; [done|by apply ready_set_marker]).
  destruct (Z.eqb_spec r1 0) as [->|Hr1]; simpl.
  2: { apply wp_ret. split; [done|]. intros status [= <-]. by apply Hst, cmd_no_connection. }
  apply wp_bind, await_host_wp; [done|]. intros s2 answer Hr2 Hans Hno _.
  pose proof (rely_ready _ _ Hr2 Hrd1) as Hrd2. destruct answer as [[|]|]; [| |by apply wp_ret].
  2: { apply leave_well_wp; [done|]. intros s3 Hd. destruct (Hno eq_refl) as (Hw & res & Hres & Hneg).
       by eapply Hst, cmd_no_answer. }
  specialize (Hans eq_refl). apply wp_bind, perform_wp; [done|]. intros r3 s3 Hg3 Hiss.
  assert (Hrd3 : ready (glob s3)) by (by rewrite Hg3). destruct (Z.ltb_spec r3 0).
  { apply leave_well_wp; [done|]. intros s4 Hd. by eapply Hst, cmd_not_sent. }
  eapply wp_bind_spec; [by apply looped_wp|]. intros r4 s4 [Hrd4 Hl].
  destruct r4 as [status|]; [|by apply wp_ret].
  apply leave_well_wp; [done|]. intros s5 Hd. eapply Hst, cmd_done; try done. by apply Hl.
Qed.

Lemma int_result_wp (E : fault -> Prop) z s Q :
  (is_s32 z -> Q z s) -> (~ is_s32 z -> E SignedOverflow) -> wp E (int_result z) Q s.
Proof.
  intros HQ HE. unfold int_result. case_bool_decide as Hz; [by apply wp_ret, HQ|by apply wp_fail, HE].
Qed.

Lemma ping_limit_wp (E : fault -> Prop) v s :
  (2 ^ 31 - 1 < timeout (inv_options v) * 1000 -> E SignedOverflow) ->
  wp E (ping_limit (timeout (inv_options v)))
    (fun limit s' => limit = ping_time v /\ s' = s /\ 0 <= limit < 2 ^ 31) s.
Proof.
  intros HE. unfold ping_limit, ping_time. destruct (Z.gtb_spec (timeout (inv_options v)) 0).
  - apply int_result_wp.
    + intros Hz. split_and!; [done|done|lia|]. unfold is_s32 in Hz. lia.
    + intros Hz. apply HE. unfold is_s32 in Hz. lia.
  - by apply wp_ret.
Qed.

Lemma main_ping_wp n executable v s :
  ready (glob s) -> id (inv_command v) = CMD_PING ->
  wp (ping_overflow v s) (main_ping n (inv_options v) (what_for (inv_command v))) (ended_well executable v s) s.
Proof.
  intros Hrd Hid. assert (Hst : forall s' status, ping_status v s s' status -> run_status executable v s s' status)
    by (intros; by apply run_ping).
  unfold main_ping. eapply wp_bind_spec; [apply ping_limit_wp; intros; split_and!; by auto|].
  intros limit ? (-> & -> & Hlim). apply wp_bind, wp_remember, time_ms_wp. intros start w1 _ Hs Hstart.
  eapply wp_bind_spec; [apply wp_remember; eapply wp_mono; [apply connect_wp|done|]; intros r s' Hc Hrun;
    exact (conj Hc Hrun)|].
  simpl. intros r1 s1 ((Hcon & Hfr & Hq) & Hconn).
  pose proof (connect_frame_ready _ _ Hfr Hrd) as Hrd1. destruct (Z.eqb_spec r1 0) as [->|Hr1]; simpl.
  2: { apply wp_ret. split; [done|]. intros status [= <-]. by eapply Hst, ping_no_connection. }
  apply wp_bind, wp_remember, time_ms_wp. intros t w2 _ Ht Hread.
  assert (Hle : start <= t) by (destruct Hq as (_ & _ & Hn & _); apply (Z.div_le_mono _ _ 1000000) in Hn; simpl in Hn; lia).
  apply wp_bind, int_result_wp.
  2: { intros Hov. split_and!; [done|done|right]. exists start, (mk_st (glob s) w1), s1, t, (mk_st (glob s1) w2).
       split_and!; [done|done|done|]. clear -Hle Hlim Hov. word_lia. }
  intros _. eapply wp_bind_spec; [by apply handshake_safe_wp|]. intros r s3 [Hr Hres].
  pose proof (rely_ready _ _ Hr Hrd1) as Hrd3. destruct r as [r|]; [|by apply wp_ret].
  apply leave_well_wp; [done|]. intros s4 Hd. eapply Hst, ping_done; try done. by apply Hres.
Qed.

Lemma main_run_wp n executable v s :
  fits v -> ready (glob s) ->
  wp (ping_overflow v s) (main_run n executable v) (ended_well executable v s) s.
Proof.
  intros Hfit Hrd. unfold main_run. case_bool_decide as Hreset.
  - apply resetcheck_wp; [by left|]. intros r w' Hres. split; [done|]. intros status [= <-].
    by apply run_resetcheck.
  - unfold network_startup. wp_step. cbn [Z.ltb Z.compare].
    case_bool_decide as Hping; [by apply main_ping_wp|by apply main_command_wp].
Qed.

(** Every status fits in the byte the shell sees. *)
Lemma connect_status_range hostname what timeout_ms s s' status :
  connect_result (W := W) hostname what timeout_ms s s' status -> 0 <= status < 256.
Proof. destruct 1; unfold PS2CLIENT_EXIT_NOCONNECT, PS2CLIENT_EXIT_PORTBUSY; lia. Qed.

Lemma exit_status_range timeout since s status :
  exit_status (W := W) timeout since s status -> 0 <= status < 256.
Proof.
  destruct 1; [|unfold PS2CLIENT_EXIT_CONNLOST; lia|
    case_match; unfold PS2CLIENT_EXIT_OK, PS2CLIENT_EXIT_TIMEOUT; lia].
  unfold marker_exit. change 255 with (Z.ones 8). rewrite Z.land_ones by lia. apply Z.mod_pos_bound. lia.
Qed.

Lemma run_status_range executable v s s' status :
  run_status executable v s s' status -> 0 <= status < 256.
Proof.
  destruct 1 as [status _ Hr|status _ Hp|status _ _ Hc].
  - destruct Hr; unfold PS2CLIENT_EXIT_NOCONNECT, PS2CLIENT_EXIT_OK, PS2CLIENT_EXIT_USAGE,
      PS2CLIENT_EXIT_TIMEOUT; lia.
  - destruct Hp; [by eapply connect_status_range|].
    case_match; unfold PS2CLIENT_EXIT_NOCONNECT, PS2CLIENT_EXIT_OK; lia.
  - destruct Hc as [? Hc _| | |s1 s2 r s3 s4 status _ _ _ _ Hl _]; [by eapply connect_status_range| | |];
      try (unfold PS2CLIENT_EXIT_NOCONNECT; lia).
    unfold looped in Hl. destruct (_ =? 0); [|by eapply exit_status_range].
    destruct Hl as [-> _]. unfold PS2CLIENT_EXIT_OK. lia.
Qed.

(** ** Commands that do not wait *)

Lemma connect_command_only hostname timeout_ms s s' r :
  connect_result (W := W) hostname PS2LINK_CONNECT_COMMAND timeout_ms s s' r ->
  r = 0 \/ r = PS2CLIENT_EXIT_NOCONNECT.
Proof. destruct 1 as [|? ? Hc| |]; [by left|by vm_compute in Hc|by right|by right]. Qed.

Lemma main_command_no_wait n v c s Q :
  what_for (inv_command v) = PS2LINK_CONNECT_COMMAND -> meaning v = Some c ->
  (forall size path, c <> Gsexec size path) ->
  argv_fits c = true -> Forall is_string (command_strings c) ->
  (forall s', Q (Some PS2CLIENT_EXIT_NOCONNECT) s') ->
  ready (glob s) ->
  (forall s' sock packet w1, decode_command packet = Some (as_sent c) -> quiet (world s) w1 ->
     quiet_but (Some sock) w1 (world s') -> tx (world s') sock = tx w1 sock ++ packet ->
     Q (Some PS2CLIENT_EXIT_OK) s') ->
  wp safe (main_command n v PS2LINK_CONNECT_COMMAND 0) Q s.
Proof.
  intros Hwhat Hm Hng Hf Hs HQ Hrd HQ0. unfold main_command, ps2link_set_marker. wp_step.
  eapply wp_bind_spec; [apply connect_wp|]. simpl. intros r1 [g1 w1] (Hcon & Hfr & Hq1).
  apply connect_command_only in Hcon as [->| ->]; [|by apply wp_ret].
  apply wp_bind, await_host_wp; [by eapply connect_frame_ready; [|apply ready_set_marker]|].
  intros s2 answer _ _ _ [-> ->]; [done|].
  apply wp_bind. rewrite (perform_issue v c Hm). apply issue_command_wp; [done|].
  simpl in *. intros obj w2 r3 w3 Hq2 Hobj [Hq3 _ (k & Htx & Hr)].
  destruct (Z.ltb_spec r3 0) as [|Hpos].
  { apply leave_wp. intros. apply HQ. }
  assert (Hk : take k (command_packet obj c) = command_packet obj c).
  { destruct Hr as [[_ ->]|[-> _]]; [apply firstn_all|lia]. }
  rewrite Hk in Htx. apply wp_bind. unfold ps2link_mainloop.
  apply wp_bind, close_command_wp. intros w4 Hq4. apply wp_ret, leave_wp. intros s5 [Hq5 _].
  simpl in *. apply (HQ0 s5 (command_socket g1) (command_packet obj c) w2).
  - assert (Hread : readable c /\ as_read c = as_sent c) by (destruct c; try done; by destruct (Hng size path)).
    destruct Hread as [? <-]. by apply decode_command_packet.
  - by etrans.
  - etrans; [exact Hq3|]. apply quiet_weaken. by etrans.
  - by rewrite (quiet_tx _ _ _ Hq5), (quiet_tx _ _ _ Hq4).
Qed.
End facts.

(** The length that main allows is the one the command needs. *)
Lemma length_pack_argv_cons a argv :
  length (pack_argv (a :: argv)) = (length a + 1 + length (pack_argv argv))%nat.
Proof. change (pack_argv (a :: argv)) with ((a ++ [0]) ++ pack_argv argv). rewrite !length_app. done. Qed.

Lemma exec_length_nonneg argv : 0 <= exec_length argv.
Proof. induction argv as [|a argv IH]; unfold exec_length in *; simpl; lia. Qed.

Lemma exec_length_fits argv :
  (exec_length argv <=? 256) = bool_decide (length (pack_argv argv) <= 256)%nat.
Proof.
  assert (Hle : exec_length argv <= 256 <-> (length (pack_argv argv) <= 256)%nat).
  { cut (exec_length argv = Z.of_nat (length (pack_argv argv))
         \/ 256 < exec_length argv /\ (256 < length (pack_argv argv))%nat); [lia|].
    induction argv as [|a argv IH]; [by left|]. rewrite length_pack_argv_cons.
    pose proof (exec_length_nonneg argv). unfold exec_length in *. simpl. lia. }
  case_bool_decide; [apply Z.leb_le|apply Z.leb_gt]; lia.
Qed.

(** ** Options, as a grammar *)

Inductive setting := SetHost (v : list Z) | SetTimeout (v : list Z) | SetMarker (v : list Z).

Definition render_setting (x : setting) : list (list Z) :=
  match x with
  | SetHost v => [bytes_of "-h"; v]
  | SetTimeout v => [bytes_of "-t"; v]
  | SetMarker v => [bytes_of "-e"; v]
  end.

Definition apply_setting (o : options) (x : setting) : options :=
  match x with
  | SetHost v => set_hostname v o
  | SetTimeout v => set_timeout (atoi v) o
  | SetMarker v => set_end_marker v o
  end.

(** The value of -e is not empty. *)
Definition setting_ok (x : setting) : Prop := match x with SetMarker v => v <> [] | _ => True end.

(** What can follow the options. *)
Definition no_option (argv : list (list Z)) : Prop :=
  match argv with
  | [] => True
  | a :: _ => a <> bytes_of "-h" /\ a <> bytes_of "-t" /\ a <> bytes_of "-e"
  end.

Lemma parse_options_stop argv o : no_option argv -> parse_options argv o = Some (o, argv).
Proof.
  destruct argv as [|a argv]; [done|]. intros (Hh & Ht & He). simpl. unfold strcmp_eq.
  by rewrite !bool_decide_eq_false_2.
Qed.

Lemma parse_options_setting x argv o :
  setting_ok x -> parse_options (render_setting x ++ argv) o = parse_options argv (apply_setting o x).
Proof. destruct x as [v|v|v]; simpl; try done. intros Hv. by rewrite bool_decide_eq_false_2. Qed.

Lemma parse_options_render settings : forall argv o,
  Forall setting_ok settings ->
  parse_options (concat (map render_setting settings) ++ argv) o
  = parse_options argv (fold_left apply_setting settings o).
Proof.
  induction settings as [|x settings IH]; intros argv o Hok; [done|]. inversion Hok.
  cbn [map concat fold_left]. rewrite <- app_assoc, parse_options_setting by done. by apply IH.
Qed.

(** Two arguments at a time. *)
Lemma parse_options_complete m : forall argv o o' rest,
  (length argv <= m)%nat -> parse_options argv o = Some (o', rest) ->
  exists settings, argv = concat (map render_setting settings) ++ rest
    /\ Forall setting_ok settings /\ no_option rest /\ o' = fold_left apply_setting settings o.
Proof.
  induction m as [m IH] using lt_wf_ind. intros argv o o' rest Hl.
  assert (Hstep : forall x argv', argv = render_setting x ++ argv' -> setting_ok x ->
    parse_options argv' (apply_setting o x) = Some (o', rest) ->
    exists settings, argv = concat (map render_setting settings) ++ rest
      /\ Forall setting_ok settings /\ no_option rest /\ o' = fold_left apply_setting settings o).
  { intros x argv' -> Hok Hp. rewrite length_app in Hl.
    assert (Hx : length (render_setting x) = 2%nat) by (by destruct x).
    destruct (IH (m - 2)%nat ltac:(lia) argv' (apply_setting o x) o' rest ltac:(lia) Hp)
      as (settings & -> & Hs & Hn & Ho).
    exists (x :: settings). cbn [map concat fold_left]. rewrite <- app_assoc.
    split_and!; [done|by constructor|done|done]. }
  destruct argv as [|a argv]; simpl.
  { intros [= <- <-]. exists []. split_and!; try done. }
  unfold strcmp_eq.
  case_bool_decide as Hh; [subst a; destruct argv as [|v argv]; [done|]; by apply (Hstep (SetHost v))|].
  case_bool_decide as Ht; [subst a; destruct argv as [|v argv]; [done|]; by apply (Hstep (SetTimeout v))|].
  case_bool_decide as He.
  - subst a. destruct argv as [|v argv]; [done|]. case_bool_decide; [done|]. by apply (Hstep (SetMarker v)).
  - intros [= <- <-]. exists []. split_and!; try done.
Qed.

(** ** Numbers *)

(** The numbers of the comment on parse_number: decimal, or hexadecimal
    behind 0x. *)
Inductive literal := Zero | Decimal (ds : list Z) | Hexadecimal (ds : list Z).

Definition literal_text (l : literal) : list Z :=
  match l with
  | Zero => bytes_of "0"
  | Decimal ds => numeral ds
  | Hexadecimal ds => bytes_of "0x" ++ numeral ds
  end.

Definition literal_value (l : literal) : Z :=
  match l with
  | Zero => 0
  | Decimal ds => value_of 10 ds 0
  | Hexadecimal ds => value_of 16 ds 0
  end.

(** A decimal numeral does not begin with 0. *)
Definition literal_ok (l : literal) : Prop :=
  match l with
  | Zero => True
  | Decimal ds => Forall (fun d => 0 <= d < 10) ds /\ exists d, head ds = Some d /\ d <> 0
  | Hexadecimal ds => Forall (fun d => 0 <= d < 16) ds /\ ds <> []
  end.

(** What cannot belong to the number. *)
Definition literal_ends (l : literal) (rest : list Z) : Prop :=
  match l with
  | Zero => rest = []
  | Decimal _ => stops 10 rest
  | Hexadecimal _ => stops 16 rest
  end.

(** A number that starts with a digit has no space and no sign before it. *)
Lemma scan_number_digit c s base pre mag n :
  48 <= c <= 57 -> base_of (c :: s) = (base, pre) ->
  digits base 0 0 (drop pre (c :: s)) = (mag, n) -> n <> 0%nat ->
  scan_number 0 (c :: s) = mk_scanned false mag (pre + n)%nat.
Proof.
  intros Hc Hb Hd Hn. unfold scan_number.
  assert (Hsp : isspace c = false).
  { unfold isspace. apply orb_false_iff. split; [by apply Z.eqb_neq; lia|].
    apply andb_false_iff. right. apply Z.leb_gt. lia. }
  cbn [skip_spaces]. rewrite Hsp. cbn [drop sign_of].
  rewrite (proj2 (Z.eqb_neq c 45)), (proj2 (Z.eqb_neq c 43)) by lia. cbn [drop Z.eqb].
  rewrite Hb, Hd. rewrite bool_decide_eq_false_2 by done. done.
Qed.

Lemma base_of_decimal c s : 48 < c <= 57 -> base_of (c :: s) = (10, 0%nat).
Proof.
  intros Hc. assert (Hn : (c =? 48) = false) by (apply Z.eqb_neq; lia).
  destruct s as [|? [|? ?]]; simpl; by rewrite Hn.
Qed.

Lemma scan_literal l rest :
  literal_ok l -> literal_ends l rest ->
  scan_number 0 (literal_text l ++ rest) = mk_scanned false (literal_value l) (length (literal_text l)).
Proof.
  destruct l as [|ds|ds]; simpl; [by intros _ ->| |].
  - intros [Hds (d & Hd & Hnz)] Hr. destruct ds as [|d0 ds]; [done|]. injection Hd as ->.
    pose proof (digits_numeral_app 10 (d :: ds) rest ltac:(lia) Hds Hr 0 0) as Hdig. inversion Hds.
    assert (Hc : digit_char d = 48 + d) by (unfold digit_char; by rewrite (proj2 (Z.ltb_lt d 10)) by lia).
    simpl in *. erewrite scan_number_digit; [| |apply base_of_decimal; lia|exact Hdig|done]; [|lia].
    f_equal. unfold numeral. by rewrite length_map.
  - intros [Hds Hne] Hr. destruct ds as [|d ds]; [done|].
    pose proof (digits_numeral_app 16 (d :: ds) rest ltac:(lia) Hds Hr 0 0) as Hdig. inversion Hds.
    erewrite (scan_number_digit 48 _ 16 2); [|lia| |exact Hdig|done].
    + f_equal. simpl. unfold numeral. by rewrite length_map.
    + simpl. rewrite digit_value_char by lia. by rewrite (proj2 (Z.ltb_lt d 16)) by lia.
Qed.

(** The value does not change with what is behind it. *)
Lemma strtoul_literal l rest :
  literal_ok l -> literal_ends l rest -> literal_value l < 2 ^ 32 ->
  strtoul0 (literal_text l ++ rest) = (literal_value l, length (literal_text l)).
Proof.
  intros Hok He Hv. unfold strtoul0. rewrite scan_literal by done. cbn [sc_mag sc_neg sc_end].
  unfold ULONG_MAX. by rewrite (proj2 (Z.ltb_ge _ _)) by lia.
Qed.

Lemma literal_text_ne l : literal_ok l -> literal_text l <> [].
Proof. by destruct l as [|[]|[]]; simpl; [|intros [_ (? & ? & _)]| | |]. Qed.

Lemma literal_value_nonneg l : literal_ok l -> 0 <= literal_value l.
Proof. destruct l; simpl; [done| |]; intros [Hds _]; apply value_of_nonneg; (lia || done). Qed.

Lemma parse_number_literal l :
  literal_ok l -> literal_value l < 2 ^ 32 -> parse_number (literal_text l) = (0, literal_value l).
Proof.
  intros Hok Hv. unfold parse_number. rewrite <- (app_nil_r (literal_text l)), strtoul_literal by (by destruct l).
  rewrite app_nil_r, (bool_decide_eq_false_2 (_ = [])) by (by apply literal_text_ne).
  rewrite bool_decide_eq_false_2 by lia. pose proof (literal_value_nonneg l Hok).
  by rewrite u32_small by (unfold is_u32; lia).
Qed.

(** Trailing characters are refused. *)
Lemma parse_number_trailing l rest :
  literal_ok l -> literal_value l < 2 ^ 32 -> literal_ends l rest -> rest <> [] ->
  (parse_number (literal_text l ++ rest)).1 = -1.
Proof.
  intros Hok Hv He Hne. unfold parse_number. rewrite strtoul_literal by done.
  rewrite (bool_decide_eq_true_2 (_ < _)%nat); [by rewrite orb_true_r|].
  rewrite length_app. destruct rest; [done|simpl; lia].
Qed.

(** ** Accepted command lines *)

Lemma accepted_strings env argv v :
  accepted env argv v -> Forall is_string argv -> Forall is_string (inv_args v).
Proof.
  intros Ha Hs. destruct (parse_options_complete _ _ _ _ _ (le_n _) (acc_parsed _ _ _ Ha))
    as (settings & Hargv & _). rewrite Hargv, Forall_app, Forall_cons in Hs. apply Hs.
Qed.

Lemma arg_string argv i : Forall is_string argv -> is_string (arg argv i).
Proof.
  intros Hs. unfold arg. destruct (decide (i < length argv)%nat) as [Hi|].
  - rewrite Forall_nth in Hs. by apply Hs.
  - rewrite nth_overflow by lia. by constructor.
Qed.

Lemma accepted_fits env argv v : accepted env argv v -> fits v.
Proof.
  intros Ha c Hm. pose proof (acc_arguments _ _ _ Ha) as Hc. unfold meaning in Hm.
  destruct (id (inv_command v)); simplify_eq; cbn [argv_fits check_arguments] in *; try done;
    rewrite Z.gtb_ltb in Hc; destruct (Z.ltb_spec 256 (exec_length (inv_args v))); try done;
    rewrite <- exec_length_fits; by apply Z.leb_le.
Qed.

Lemma accepted_command_strings env argv v c :
  accepted env argv v -> Forall is_string argv -> meaning v = Some c ->
  Forall is_string (command_strings c).
Proof.
  intros Ha Hs Hm. pose proof (accepted_strings _ _ _ Ha Hs) as Hargs. unfold meaning in Hm.
  destruct (id (inv_command v)); simplify_eq; cbn [command_strings] in *; try done;
    repeat constructor; by apply arg_string.
Qed.

Lemma no_wait_facts :
  forall e, e ∈ commands -> has_flag e NO_WAIT = true /\ id e <> CMD_RESETCHECK ->
  what_for e = PS2LINK_CONNECT_COMMAND /\ id e <> CMD_PING
  /\ id e <> CMD_LISTEN /\ id e <> CMD_CONSOLE /\ id e <> CMD_GSEXEC.
Proof.
  assert (Hf : Forall (fun e => has_flag e NO_WAIT = true /\ id e <> CMD_RESETCHECK ->
    what_for e = PS2LINK_CONNECT_COMMAND /\ id e <> CMD_PING
    /\ id e <> CMD_LISTEN /\ id e <> CMD_CONSOLE /\ id e <> CMD_GSEXEC) commands).
  { unfold commands. repeat (constructor; [simpl; intros [Hf Hi]; first [discriminate Hf
      | by destruct Hi | by split_and!]|]). constructor. }
  exact (proj1 (Forall_forall _ commands) Hf).
Qed.

(** The usage text has a line for every command: its name, and then a space or
    the end of the line. *)
Definition usage_line_of (n l : list Z) : bool :=
  bool_decide (take (3 + length n) l = bytes_of "   " ++ n)
  && bool_decide (byte_at l (3 + length n) = 32 \/ byte_at l (3 + length n) = 10).

Lemma usage_lists_commands :
  Forall (fun e => existsb (usage_line_of (name e)) usage = true) commands.
Proof. repeat constructor. Qed.

(** ** The properties of src/ps2client.c *)

(** What a run of main shows. *)
Definition main_result {W} `{Posix W} `{!OtherThreads W} `{!Processes W} (env argv : list (list Z)) (executable : list Z)
    (w : W) (o : outcome (option Z * st link W)) : Prop :=
  match o with
  | Ret (r, s') => ready (glob s') /\ forall status, r = Some status -> 0 <= status < 256
      /\ match preflight env argv with
         | None => status = PS2CLIENT_EXIT_USAGE /\ s' = mk_st link_init w
         | Some v => run_status executable v (mk_st link_init w) s' status
         end
  | Fault f => exists v, preflight env argv = Some v /\ ping_overflow v (mk_st link_init w) f
  | OutOfFuel => False
  end.

Lemma main_has_result {W} `{PosixLaws W} `{!OtherThreads W} `{!Interference W}
    `{!Processes W} `{!ProcessLaws W} (n : nat) (env argv : list (list Z)) (executable : list Z) (w : W) :
  main_result env argv executable w (main n env executable argv (mk_st link_init w)).
Proof.
  unfold main_result, main. destruct (preflight env argv) as [v|] eqn:Hp.
  2: { split; [apply ready_init|]. intros status [= <-]. split; [unfold PS2CLIENT_EXIT_USAGE; lia|done]. }
  apply preflight_accepted in Hp as Ha.
  pose proof (main_run_wp n executable v (mk_st link_init w) (accepted_fits _ _ _ Ha) ready_init) as Hw.
  unfold wp in Hw. destruct (main_run n executable v (mk_st link_init w)) as [[r s']|f|]; [|by exists v|done].
  destruct Hw as [Hrd Hw]. split; [done|].
  intros status Hr. specialize (Hw status Hr). split; [|exact Hw]. by eapply run_status_range.
Qed.

(** C5: whatever the command line, the environment, the PS2, the network and
    the other threads do, an exit status of main has its reason in the calls
    that were made, and fits in a byte. A command line that fails the checks
    is 64, with nothing done. Otherwise the run goes from state to state:
    connecting, 69 or 75 with the call that failed; where files are needed
    waiting for ps2link, 69 when it had not answered and the time was up or
    the connection lost; sending the one packet of the command, 69 when a
    send took a part only; the main loop, with its marker, its lost
    connection or its idle time by the clock; and closing every socket. A
    ping waits for what the clock left of its time after connecting and is 0
    when ps2link answered. resetcheck has its own result. The one undefined
    behaviour is an int of ping that leaves its range: a timeout times 1000,
    or the rest of the time when connecting took 24 days of the clock. *)
Theorem main_exit_status (W : Type) `{PosixLaws W} `{!OtherThreads W} `{!Interference W}
    `{!Processes W} `{!ProcessLaws W} (n : nat) (env argv : list (list Z)) (executable : list Z) (w : W) :
  match main n env executable argv (mk_st link_init w) with
  | Ret (r, s') => forall status, r = Some status -> 0 <= status < 256
      /\ match preflight env argv with
         | None => status = PS2CLIENT_EXIT_USAGE /\ s' = mk_st link_init w
         | Some v => run_status executable v (mk_st link_init w) s' status
         end
  | Fault f => exists v, preflight env argv = Some v /\ ping_overflow v (mk_st link_init w) f
  | OutOfFuel => False
  end.
Proof.
  pose proof (main_has_result n env argv executable w) as Hm. unfold main_result in Hm.
  destruct (main n env executable argv (mk_st link_init w)) as [[r s']|f|]; [by destruct Hm|done|done].
Qed.

Definition ping_line : list (list Z) := [bytes_of "-h"; bytes_of "ps2"; bytes_of "-t"; bytes_of "1"; bytes_of "ping"].
Definition status_of (o : outcome (option Z * st link sim)) : option Z :=
  match o with Ret (r, _) => r | _ => None end.

Lemma main_exit_status_witness :
  exists s' v, main 300 [] (bytes_of "ps2client") ping_line (mk_st link_init (sim_start [] 0 [] [] []))
               = Ret (Some 69, s')
    /\ run_status (bytes_of "ps2client") v (mk_st link_init (sim_start [] 0 [] [] [])) s' 69.
Proof.
  assert (Hz : status_of (main 300 [] (bytes_of "ps2client") ping_line
    (mk_st link_init (sim_start [] 0 [] [] []))) = Some 69) by (vm_compute; reflexivity).
  pose proof (main_exit_status sim 300 [] ping_line (bytes_of "ps2client") (sim_start [] 0 [] [] [])) as Hm.
  destruct (main 300 [] (bytes_of "ps2client") ping_line (mk_st link_init (sim_start [] 0 [] [] [])))
    as [[r s']|f|]; [|discriminate Hz|discriminate Hz].
  cbn [status_of] in Hz. subst r. destruct (Hm 69 eq_refl) as [_ Hs].
  destruct (preflight [] ping_line) as [v|] eqn:Hp.
  - exists s', v. split; [reflexivity|exact Hs].
  - exfalso. vm_compute in Hp. discriminate.
Defined.

(** C15: the commands that do not wait (reset, poweroff, scrdump, netdump,
    startvu, stopvu, iopexcep) never do: main returns without an iteration of
    any waiting loop, with 0 exactly after having sent one packet, from which
    ps2link reads back the command of the command line, and with 69 if it
    could not connect or send; which call failed then is what the status
    stands for in the run as a whole. *)
Theorem no_wait_sends_one_packet (W : Type) `{PosixLaws W} `{!OtherThreads W} `{!Interference W}
    `{!Processes W} `{!ProcessLaws W} (n : nat) (env argv : list (list Z)) (executable : list Z)
    (w : W) (v : invocation) :
  preflight env argv = Some v -> Forall is_string argv ->
  has_flag (inv_command v) NO_WAIT = true -> id (inv_command v) <> CMD_RESETCHECK ->
  exists status s', main n env executable argv (mk_st link_init w) = Ret (Some status, s')
    /\ run_status executable v (mk_st link_init w) s' status
    /\ (status = PS2CLIENT_EXIT_NOCONNECT
        \/ status = PS2CLIENT_EXIT_OK /\ exists c sock packet w1, meaning v = Some c
           /\ quiet w w1 /\ quiet_but (Some sock) w1 (world s')
           /\ tx (world s') sock = tx w1 sock ++ packet /\ decode_command packet = Some (as_sent c)).
Proof.
  intros Hp Hs Hnw Hid. apply preflight_accepted in Hp as Ha.
  destruct (no_wait_facts _ (acc_table _ _ _ Ha) (conj Hnw Hid)) as (Hwhat & Hping & Hlisten & Hcon & Hgs).
  assert (Hm : exists c, meaning v = Some c /\ forall size path, c <> Gsexec size path).
  { unfold meaning. destruct (id (inv_command v)); eauto; done. }
  destruct Hm as (c & Hm & Hng). pose proof (accepted_fits _ _ _ Ha c Hm) as Hf.
  pose proof (accepted_command_strings _ _ _ _ Ha Hs Hm) as Hstr.
  pose proof (main_has_result n env argv executable w) as Hres.
  assert (Hw : wp safe (main n env executable argv) (fun r s' => exists status, r = Some status
    /\ (status = PS2CLIENT_EXIT_NOCONNECT
        \/ status = PS2CLIENT_EXIT_OK /\ exists c sock packet w1, meaning v = Some c
           /\ quiet w w1 /\ quiet_but (Some sock) w1 (world s')
           /\ tx (world s') sock = tx w1 sock ++ packet /\ decode_command packet = Some (as_sent c)))
    (mk_st link_init w)).
  { unfold main. rewrite Hp. unfold main_run. rewrite bool_decide_eq_false_2 by done.
    unfold network_startup. wp_step. cbn [Z.ltb Z.compare].
    rewrite bool_decide_eq_false_2, Hwhat, Hnw by done.
    apply (main_command_no_wait _ _ c); try done; simpl; [|apply ready_init|].
    - intros s'. eexists. split; [done|by left].
    - intros s' sock packet w1 Hd Hq Hqb Htx. eexists. split; [done|right; split; [done|]].
      by exists c, sock, packet, w1. }
  destruct (wp_run _ _ _ Hw) as (r & s' & Hrun & status & -> & Hst). exists status, s'.
  split_and!; [done| |done]. rewrite Hrun in Hres. unfold main_result in Hres. rewrite Hp in Hres.
  by destruct Hres as [_ [_ Hres]%(fun h => h status eq_refl)].
Qed.

Lemma no_wait_sends_one_packet_witness :
  exists s' packet sock w1,
    main 0 [] (bytes_of "ps2client") [bytes_of "startvu"; bytes_of "0x1"]
      (mk_st link_init (sim_start [] 0 [] [] [])) = Ret (Some 0, s')
    /\ tx (world s') sock = tx (W := sim) w1 sock ++ packet
    /\ decode_command packet = Some (Startvu 1).
Proof.
  pose (v := mk_invocation default_options (mk_entry (bytes_of "startvu") CMD_STARTVU 1 NO_WAIT)
    [bytes_of "0x1"] 1 0).
  destruct (no_wait_sends_one_packet sim 0 [] [bytes_of "startvu"; bytes_of "0x1"]
    (bytes_of "ps2client") (sim_start [] 0 [] [] []) v) as (status & s' & Hrun & Hst).
  - vm_compute. reflexivity.
  - apply (bool_decide_eq_true (Forall is_string _)). vm_compute. reflexivity.
  - reflexivity.
  - done.
  - assert (Hz : match main 0 [] (bytes_of "ps2client") [bytes_of "startvu"; bytes_of "0x1"]
      (mk_st link_init (sim_start [] 0 [] [] [])) with Ret (o, _) => o | _ => None end = Some 0)
      by (vm_compute; reflexivity).
    rewrite Hrun in Hz. injection Hz as ->.
    destruct Hst as [_ [|(_ & c & sock & packet & w1 & Hm & _ & _ & Htx & Hd)]]; [done|].
    injection Hm as <-. exists s', packet, sock, w1. split; [exact Hrun|]. split; [exact Htx|exact Hd].
Defined.

(** C37: the check of execiop and execee before connecting is the one their
    packet needs. A command line that names one of them with a filename is
    accepted, as that command with all its arguments, exactly when the
    arguments with their nulls fit in the 256 bytes of the packet; fix_argv
    then packs them into whatever the field held, so that the same arguments
    are read back. Otherwise it is a usage error. *)
Theorem exec_arguments_checked (env argv : list (list Z)) (o : options) (n : list Z) (rest : list (list Z)) :
  parse_options argv (parse_env env default_options) = Some (o, n :: rest) ->
  n = bytes_of "execiop" \/ n = bytes_of "execee" -> rest <> [] -> Forall is_string argv ->
  if bool_decide (length (pack_argv rest) <= 256)%nat
  then exists v, preflight env argv = Some v /\ inv_options v = o
    /\ meaning v = Some (if bool_decide (n = bytes_of "execiop") then Execiop rest else Execee rest)
    /\ forall field, length field = 256%nat ->
         (fix_argv field 256 rest).1 = 0 /\ length (fix_argv field 256 rest).2 = 256%nat
         /\ unpack_argv (length rest) (fix_argv field 256 rest).2 = Some rest
  else preflight env argv = None.
Proof.
  intros Hp Hn Hne Hs.
  assert (Hargv : argv <> []) by (by intros ->).
  assert (Hrest : Forall is_string rest).
  { destruct (parse_options_complete _ _ _ _ _ (le_n _) Hp) as (settings & -> & _).
    by apply Forall_app in Hs as [_ ?%Forall_inv_tail]. }
  assert (Hpre : exists e, preflight env argv
    = (if bool_decide (length (pack_argv rest) <= 256)%nat then Some (mk_invocation o e rest 0 0) else None)
    /\ forall n0 n1, meaning (mk_invocation o e rest n0 n1)
         = Some (if bool_decide (n = bytes_of "execiop") then Execiop rest else Execee rest)).
  { unfold preflight. rewrite bool_decide_eq_false_2, Hp by done.
    destruct Hn as [-> | ->];
      [exists (mk_entry (bytes_of "execiop") CMD_EXECIOP 1 NEEDS_HOST)
      |exists (mk_entry (bytes_of "execee") CMD_EXECEE 1 NEEDS_HOST)];
      (split; [|reflexivity]);
      (match goal with |- context [find_command ?n commands] =>
         match goal with |- context [mk_invocation o ?e rest] =>
           change (find_command n commands) with (Some e) end end);
      cbn [id args check_arguments]; rewrite Z.gtb_ltb, Z.ltb_antisym, exec_length_fits;
      (rewrite (bool_decide_eq_false_2 (length rest < 1)%nat) by (destruct rest; [done|simpl; lia]));
      by case_bool_decide. }
  destruct Hpre as (e & -> & Hm). destruct (bool_decide (length (pack_argv rest) <= 256)%nat) eqn:Hfit; [|done].
  eexists. split_and!; [done|done|by apply Hm|]. intros field Hl.
  pose proof (fix_argv_field field rest Hl) as Hf. rewrite Hfit in Hf.
  apply bool_decide_eq_true in Hfit. rewrite Hf. cbn [fst snd]. split_and!; [done| |by apply unpack_pack_argv].
  rewrite length_app, length_replicate. lia.
Qed.

Lemma exec_arguments_checked_witness :
  preflight [] [bytes_of "execee"; replicate 256 65] = None.
Proof.
  refine (exec_arguments_checked [] [bytes_of "execee"; replicate 256 65] default_options
    (bytes_of "execee") [replicate 256 65] _ _ _ _).
  - vm_compute. reflexivity.
  - right. reflexivity.
  - discriminate.
  - apply (bool_decide_eq_true (Forall is_string _)). vm_compute. reflexivity.
Defined.

(** C34: the options are read as their grammar says: a run of -h, -t and -e,
    each with a value (not empty for -e), in any order and number, the later
    ones overriding the earlier ones, up to the first argument that is none
    of them; everything else is refused. *)
Theorem parse_options_grammar (argv rest : list (list Z)) (o o' : options) :
  parse_options argv o = Some (o', rest)
  <-> exists settings, argv = concat (map render_setting settings) ++ rest
      /\ Forall setting_ok settings /\ no_option rest /\ o' = fold_left apply_setting settings o.
Proof.
  split; [by apply parse_options_complete with (m := length argv)|].
  intros (settings & -> & Hs & Hn & ->). rewrite parse_options_render by done.
  by apply parse_options_stop.
Qed.

(** C38: parse_number does what its comment says of the numbers it names,
    decimal ones without a leading 0 and hexadecimal ones after 0x: it reads
    back each one of 32 bits, with whatever digits it is written, and refuses
    it with -1 if it is followed by anything that is not a digit of it. What
    it makes of other literals is in [parse_number_octal_and_wrap]. *)
Theorem parse_number_reads (l : literal) (rest : list Z) :
  literal_ok l -> literal_value l < 2 ^ 32 -> literal_ends l rest ->
  if bool_decide (rest = []) then parse_number (literal_text l ++ rest) = (0, literal_value l)
  else (parse_number (literal_text l ++ rest)).1 = -1.
Proof.
  intros Hok Hv He. case_bool_decide as Hr; [|by apply parse_number_trailing].
  subst rest. rewrite app_nil_r. by apply parse_number_literal.
Qed.

Lemma parse_number_reads_witness :
  parse_number (bytes_of "0x70000000") = (0, 1879048192) /\ (parse_number (bytes_of "12,")).1 = -1.
Proof.
  split.
  - refine (parse_number_reads (Hexadecimal [7; 0; 0; 0; 0; 0; 0; 0]) [] _ _ _); [|vm_compute; reflexivity|exact I].
    split; [|done]. repeat constructor; lia.
  - refine (parse_number_reads (Decimal [1; 2]) (bytes_of ",") _ _ _); [|vm_compute; reflexivity|intros d Hd; discriminate Hd].
    split; [repeat constructor; lia|by exists 1].
Defined.

(** Parse_number does not do what its comment says in two ways: a number
    with a leading 0 is read as octal, and one of 33 bits or more is not
    refused but loses its high bits (up to the limit of unsigned long). *)
Theorem parse_number_octal_and_wrap :
  parse_number (bytes_of "010") = (0, 8)
  /\ forall ds, literal_ok (Hexadecimal ds) -> value_of 16 ds 0 <= ULONG_MAX ->
     parse_number (bytes_of "0x" ++ numeral ds) = (0, value_of 16 ds 0 mod 2 ^ 32).
Proof.
  split; [reflexivity|]. intros ds Hok Hmax. unfold parse_number, strtoul0.
  change (bytes_of "0x" ++ numeral ds) with (literal_text (Hexadecimal ds)).
  pose proof (scan_literal (Hexadecimal ds) [] Hok I) as Hscan. rewrite app_nil_r in Hscan.
  rewrite Hscan. cbn [sc_mag sc_neg sc_end literal_value].
  rewrite (proj2 (Z.ltb_ge _ _)) by lia. rewrite (bool_decide_eq_false_2 (_ < _)%nat) by lia.
  by rewrite bool_decide_eq_false_2.
Qed.
