(* ===== verification/System.v ===== *)
(** * The program as one system: main and its two threads

    The file Session proves the main thread correct beside any other threads
    that keep the promise [Interference]; Threads shows that the iterations of
    the request and the console thread keep it. Here the two are put together:
    [system] is a world that holds the kernel and the local objects of the two
    threads, and in which a schedule decides which thread runs how often each
    time the main thread lets others run. The theorems of main then hold of
    the program, for every schedule, with no assumption about its threads.

    The threads' objects have types of their own: a packet object has 518
    bytes, the console's buffer 65536. *)

From S2P Require Import Prelude CLib Posix Sim Utility Network Link Response Request Service Handlers Wire RequestThread Command Console Session Threads Resetcheck Ps2client.

(** ** The state *)

Definition packet_object : Type := { p : list Z | length p = PACKET_SIZE /\ Forall is_byte p }.
Definition buffer_object : Type := { b : list Z | length b = CONSOLE_BUFFER_SIZE }.

Inductive thread := TRequest | TConsole.

(** The request thread has ended when it has no packet object any more. A
    thread that does something undefined leaves its fault in [crashed]. *)
Record system (W : Type) := mk_system {
  kernel : W; packet : option packet_object; buffer : buffer_object;
  schedule : list (list thread); crashed : option fault }.
Arguments mk_system {W} kernel packet buffer schedule crashed.
Arguments kernel {W} s.
Arguments packet {W} s.
Arguments buffer {W} s.
Arguments schedule {W} s.
Arguments crashed {W} s.

Section state.
Context {W : Type}.

Definition set_kernel (k : W) (w : system W) : system W :=
  mk_system k (packet w) (buffer w) (schedule w) (crashed w).
Definition set_packet (p : option packet_object) (w : system W) : system W :=
  mk_system (kernel w) p (buffer w) (schedule w) (crashed w).
Definition set_buffer (b : buffer_object) (w : system W) : system W :=
  mk_system (kernel w) (packet w) b (schedule w) (crashed w).
Definition set_schedule (l : list (list thread)) (w : system W) : system W :=
  mk_system (kernel w) (packet w) (buffer w) l (crashed w).
Definition set_crashed (f : fault) (w : system W) : system W :=
  mk_system (kernel w) (packet w) (buffer w) (schedule w) (Some f).

(** A call into the kernel. *)
Definition on_kernel {A} (f : W -> A * W) (w : system W) : A * system W :=
  let '(a, k) := f (kernel w) in (a, set_kernel k w).
End state.

#[export] Instance system_posix {W} `{Posix W} : Posix (system W) := {|
  sys_gethostbyname := fun a => on_kernel (sys_gethostbyname a);
  sys_socket := fun a => on_kernel (sys_socket a);
  sys_nodelay := fun a => on_kernel (sys_nodelay a);
  sys_connect := fun a b c => on_kernel (sys_connect a b c);
  sys_bind := fun a b => on_kernel (sys_bind a b);
  sys_select_read := fun a b => on_kernel (sys_select_read a b);
  sys_select_connect := fun a b c => on_kernel (sys_select_connect a b c);
  sys_so_error := fun a => on_kernel (sys_so_error a);
  sys_getfl := fun a => on_kernel (sys_getfl a);
  sys_setfl := fun a b => on_kernel (sys_setfl a b);
  sys_send := fun a b => on_kernel (sys_send a b);
  sys_recvfrom := fun a b => on_kernel (sys_recvfrom a b);
  sys_close := fun a => on_kernel (sys_close a);
  sys_open := fun a b c => on_kernel (sys_open a b c);
  sys_read := fun a b => on_kernel (sys_read a b);
  sys_write := fun a b => on_kernel (sys_write a b);
  sys_lseek := fun a b c => on_kernel (sys_lseek a b c);
  sys_stat := fun a => on_kernel (sys_stat a);
  sys_opendir := fun a => on_kernel (sys_opendir a);
  sys_readdir := fun a => on_kernel (sys_readdir a);
  sys_closedir := fun a => on_kernel (sys_closedir a);
  sys_remove := fun a => on_kernel (sys_remove a);
  sys_mkdir := fun a b => on_kernel (sys_mkdir a b);
  sys_rmdir := fun a => on_kernel (sys_rmdir a);
  sys_localtime := fun a => on_kernel (sys_localtime a);
  sys_stdout := fun a => on_kernel (sys_stdout a);
  sys_stderr := fun a => on_kernel (sys_stderr a);
  sys_malloc := fun a => on_kernel (sys_malloc a);
  sys_auto := fun a => on_kernel (sys_auto a);
  sys_auto_stat := on_kernel sys_auto_stat;
  sys_clock_gettime := on_kernel sys_clock_gettime;
  sys_nanosleep := fun a b => on_kernel (sys_nanosleep a b);
  tx := fun w => tx (kernel w);
  rx := fun w => rx (kernel w);
  out := fun w => out (kernel w);
  err := fun w => err (kernel w);
  now := fun w => now (kernel w);
  pending_signals := fun w => pending_signals (kernel w) |}.

#[export] Instance system_processes {W} `{Processes W} : Processes (system W) := {|
  sys_spawn := fun a b => on_kernel (sys_spawn a b);
  sys_waitpid := fun a => on_kernel (sys_waitpid a);
  spawned := fun w => spawned (kernel w) |}.

(** A law of the kernel is one of the system. *)
Ltac kernel_law law :=
  intros; simpl in *; unfold on_kernel in *;
  match goal with Hc : match ?call with _ => _ end = _ |- _ =>
    let Hk := fresh "Hk" in destruct call eqn:Hk; simplify_eq/=; eapply law in Hk; [exact Hk|exact _..]
  end.

#[export] Instance system_laws {W} `{PosixLaws W} : PosixLaws (system W).
Proof.
  split; [kernel_law @send_law
  |kernel_law @recvfrom_law
  |kernel_law @read_law
  |kernel_law @write_law
  |kernel_law @malloc_law
  |kernel_law @auto_law
  |kernel_law @clock_law
  |kernel_law @nanosleep_law
  |kernel_law @gethostbyname_law
  |kernel_law @socket_law
  |kernel_law @nodelay_law
  |kernel_law @connect_law
  |kernel_law @bind_law
  |kernel_law @select_read_law
  |kernel_law @select_connect_law
  |kernel_law @so_error_law
  |kernel_law @getfl_law
  |kernel_law @setfl_law
  |kernel_law @close_law
  |kernel_law @open_law
  |kernel_law @lseek_law
  |kernel_law @stat_law
  |kernel_law @opendir_law
  |kernel_law @readdir_law
  |kernel_law @closedir_law
  |kernel_law @remove_law
  |kernel_law @mkdir_law
  |kernel_law @rmdir_law
  |kernel_law @localtime_law
  |kernel_law @stdout_law
  |kernel_law @stderr_law
  |kernel_law @auto_stat_law].
Qed.

#[export] Instance system_process_laws {W} `{PosixLaws W} `{!Processes W} `{!ProcessLaws W} :
  ProcessLaws (system W).
Proof.
  split; [kernel_law @spawn_law|kernel_law @waitpid_law|kernel_law @clock_spawned|kernel_law @nanosleep_spawned].
Qed.

(** ** The threads run *)

#[export] Instance packet_dec p : Decision (length p = PACKET_SIZE /\ Forall is_byte p).
Proof. apply _. Defined.

(** The object a thread's iteration has left. An object keeps its size: the
    other case does not occur from globals in order ([others_steps]). *)
Definition as_packet (old : packet_object) (p : list Z) : packet_object :=
  match decide (length p = PACKET_SIZE /\ Forall is_byte p) with left Hp => exist _ p Hp | right _ => old end.
Definition as_buffer (old : buffer_object) (b : list Z) : buffer_object :=
  match decide (length b = CONSOLE_BUFFER_SIZE) with left Hb => exist _ b Hb | right _ => old end.

Section run.
Context {W : Type} `{Posix W}.
Implicit Types (s : st link (system W)).

Definition in_kernel s : st link W := mk_st (glob s) (kernel (world s)).

(** An iteration of ps2link_thread_request, if it was started and has not
    ended. *)
Definition run_request s : st link (system W) :=
  match packet (world s) with
  | None => s
  | Some p =>
      if request_socket (glob s) <? 0 then s
      else match request_iteration (proj1_sig p) (in_kernel s) with
           | Ret (Some p', s') =>
               mk_st (glob s') (set_packet (Some (as_packet p p')) (set_kernel (world s') (world s)))
           | Ret (None, s') =>
               mk_st (set_lost true (glob s')) (set_packet None (set_kernel (world s') (world s)))
           | Fault f => mk_st (glob s) (set_crashed f (world s))
           | OutOfFuel => s
           end
  end.

(** An iteration of ps2link_thread_console, if it was started. *)
Definition run_console s : st link (system W) :=
  if console_socket (glob s) <? 0 then s
  else match console_iteration (proj1_sig (buffer (world s))) (in_kernel s) with
       | Ret (b, s') =>
           mk_st (glob s') (set_buffer (as_buffer (buffer (world s)) b) (set_kernel (world s') (world s)))
       | Fault f => mk_st (glob s) (set_crashed f (world s))
       | OutOfFuel => s
       end.

Definition run_thread (t : thread) s : st link (system W) :=
  match crashed (world s) with
  | Some _ => s
  | None => match t with TRequest => run_request s | TConsole => run_console s end
  end.

Definition run_block (block : list thread) s : st link (system W) := foldl (fun s t => run_thread t s) s block.

(** What the threads do the next time the main thread lets them. *)
#[export] Instance system_threads : OtherThreads (system W) := fun s =>
  match schedule (world s) with
  | [] => s
  | block :: rest => run_block block (mk_st (glob s) (set_schedule rest (world s)))
  end.

(** The threads of a system. *)
Definition view s : threads W :=
  mk_threads (proj1_sig <$> packet (world s)) (proj1_sig (buffer (world s))) (in_kernel s).
End run.

(** ** The composition *)

Section facts.
Context {W : Type} `{PosixLaws W}.
Implicit Types (s : st link (system W)).

Lemma as_packet_id old p : length p = PACKET_SIZE -> Forall is_byte p -> proj1_sig (as_packet old p) = p.
Proof. intros Hl Hb. unfold as_packet. case_decide as Hd; [done|]. by destruct Hd. Qed.
Lemma as_buffer_id old b : length b = CONSOLE_BUFFER_SIZE -> proj1_sig (as_buffer old b) = b.
Proof. intros Hl. unfold as_buffer. by case_decide. Qed.

Lemma view_ok s : ready (glob s) -> threads_ok (view s).
Proof.
  intros Hr. split; simpl; [|apply (proj2_sig (buffer (world s)))|done].
  destruct (packet (world s)) as [[p Hp]|]; simpl; [|done]. by intros ? [= <-].
Qed.

(** A fault of the request thread has a request to blame. *)
Definition blamed (t : threads W) (f : fault) : Prop :=
  exists p v enc w1, t_packet t = Some p /\ svc_rel (glob (t_state t)) v
    /\ arrives (request_socket (glob (t_state t))) enc (world (t_state t)) w1 /\ faulty (after p enc) v f.

(** A thread's run is a step of it, or it crashes with someone to blame. *)
Definition runs s s' : Prop :=
  rtc threads_step (view s) (view s')
  /\ forall f, crashed (world s') = Some f -> crashed (world s) = Some f \/ blamed (view s) f.

Lemma runs_refl s : runs s s.
Proof. split; [done|by left]. Qed.

Lemma run_request_runs s : ready (glob s) -> runs s (run_request s).
Proof.
  intros Hr. unfold run_request. destruct (packet (world s)) as [[p [Hl Hb]]|] eqn:Hp; [|apply runs_refl].
  destruct (request_socket (glob s) <? 0); [apply runs_refl|]. cbn [proj1_sig].
  assert (Hview : view s = mk_threads (Some p) (proj1_sig (buffer (world s))) (in_kernel s))
    by (unfold view; by rewrite Hp).
  destruct (request_iteration p (in_kernel s)) as [[[p'|] s']|f|] eqn:Hrun; [| | |apply runs_refl].
  - destruct (request_iteration_effect p (in_kernel s) _ _ Hl Hb Hr Hrun) as (_ & _ & Hl' & Hb').
    split; [|by left]. apply rtc_once. rewrite Hview. unfold view; simpl. rewrite as_packet_id by done.
    by apply step_request.
  - split; [|by left]. apply rtc_once. rewrite Hview. by apply step_request_end.
  - split; [by unfold view|]. simpl. intros ? [= <-]. right. destruct Hr as [_ [v Hv]].
    assert (Hwp : wp (fun f => exists enc w1, arrives (request_socket (glob s)) enc (kernel (world s)) w1
      /\ faulty (after p enc) v f) (request_iteration p) (fun _ _ => True) (in_kernel s))
      by (by apply (request_iteration_wp p (in_kernel s) v)).
    unfold wp in Hwp. rewrite Hrun in Hwp. destruct Hwp as (enc & w1 & Ha & Hf).
    exists p, v, enc, w1. rewrite Hview. by split_and!.
Qed.

Lemma run_console_runs s : ready (glob s) -> runs s (run_console s).
Proof.
  intros [[k Hk] _]. unfold run_console. destruct (console_socket (glob s) <? 0); [apply runs_refl|].
  pose proof (proj2_sig (buffer (world s))) as Hl. simpl in Hl.
  pose proof (console_iteration_wp safe k _ (in_kernel s) (fun b _ => length b = CONSOLE_BUFFER_SIZE)
    Hl Hk (fun _ _ h _ => h)) as Hwp. unfold wp in Hwp.
  destruct (console_iteration _ (in_kernel s)) as [[b s']|f|] eqn:Hrun; [|done|done].
  split; [|by left]. apply rtc_once. unfold view; simpl. rewrite as_buffer_id by done.
  by apply step_console.
Qed.

Lemma run_thread_runs t s : ready (glob s) -> runs s (run_thread t s).
Proof.
  intros Hr. unfold run_thread. destruct (crashed (world s)); [apply runs_refl|].
  destruct t; [by apply run_request_runs|by apply run_console_runs].
Qed.

(** A run of threads in order leaves them in order. *)
Lemma runs_ready s s' : runs s s' -> ready (glob s) -> ready (glob s') /\ interferes (in_kernel s) (in_kernel s').
Proof.
  intros [Hsteps _] Hr. destruct (threads_steps_ok _ _ Hsteps (view_ok _ Hr)) as [[_ _ Hr'] Hi]. by split.
Qed.

(** Blame somewhere on the way. *)
Definition blamed_from s (f : fault) : Prop :=
  exists t, rtc threads_step (view s) t /\ blamed t f.

Lemma run_block_runs block : forall s, ready (glob s) ->
  rtc threads_step (view s) (view (run_block block s))
  /\ forall f, crashed (world (run_block block s)) = Some f -> crashed (world s) = Some f \/ blamed_from s f.
Proof.
  induction block as [|t block IH]; intros s Hr; simpl; [split; [done|by left]|].
  pose proof (run_thread_runs t s Hr) as Hrun. destruct (runs_ready _ _ Hrun Hr) as [Hr' _].
  destruct Hrun as [H1 C1]. destruct (IH (run_thread t s) Hr') as [H2 C2]. split; [by etrans|].
  intros f Hf. destruct (C2 f Hf) as [Hc|(t' & Hs & Hb)].
  - destruct (C1 f Hc) as [?|Hb]; [by left|right]. by exists (view s).
  - right. exists t'. split; [by etrans|done].
Qed.

(** What the main thread sees of the threads is steps of theirs. *)
Lemma others_steps s : ready (glob s) ->
  rtc threads_step (view s) (view (others s))
  /\ forall f, crashed (world (others s)) = Some f -> crashed (world s) = Some f \/ blamed_from s f.
Proof.
  intros Hr. unfold others, system_threads. destruct (schedule (world s)) as [|block rest]; [split; [done|by left]|].
  by apply (run_block_runs block (mk_st (glob s) (set_schedule rest (world s)))).
Qed.

#[export] Instance system_interference : Interference (system W).
Proof.
  intros s Hr. destruct (others_steps s Hr) as [Hsteps _].
  by destruct (threads_steps_ok _ _ Hsteps (view_ok _ Hr)) as [_ Hi].
Qed.
End facts.

(** What is always true of the globals' objects: the line buffer of the
    scanner has its size and a place for the null behind the line, the table
    of directories has its ten entries, and an open one has a name. *)
Record well_typed (g : link) : Prop := {
  wt_line : length (ps2link_line g) = LINE_SIZE;
  wt_length : (ps2link_line_length g < LINE_SIZE)%nat;
  wt_text : Forall (fun b => b <> 0) (take (ps2link_line_length g) (ps2link_line g));
  wt_dd : length (ps2link_dd g) = DD_SIZE;
  wt_slots : Forall slot_ok (ps2link_dd g) }.

Lemma ready_well_typed g : ready g -> well_typed g.
Proof. intros [[k [Hl Hb Ht Hn _]] [v [_ _ Hd Hok _]]]. split; try done. by rewrite Ht. Qed.

(** ** The properties of the composed program *)

(** C12: each time the main thread lets others run, what the threads of the
    system do is a sequence of steps of the request and the console thread;
    their local objects keep their types; and if one of them crashes, a
    request that arrived is to blame: a pathname without a null, or one of the
    unchecked pointers and buffers. *)
Theorem system_refines_threads (W : Type) `{PosixLaws W} (s : st link (system W)) :
  ready (glob s) ->
  rtc threads_step (view s) (view (others s)) /\ threads_ok (view (others s))
  /\ forall f, crashed (world (others s)) = Some f -> crashed (world s) = Some f \/ blamed_from s f.
Proof.
  intros Hr. destruct (others_steps s Hr) as [Hsteps Hc]. split; [done|]. split; [|done].
  by destruct (threads_steps_ok _ _ Hsteps (view_ok _ Hr)).
Qed.

Lemma blank_packet_ok : length (replicate PACKET_SIZE 0) = PACKET_SIZE /\ Forall is_byte (replicate PACKET_SIZE 0).
Proof. split; [apply length_replicate|]. apply Forall_replicate. unfold is_byte. lia. Qed.
Definition blank_packet : packet_object := exist _ _ blank_packet_ok.
Definition blank_buffer : buffer_object := exist _ (replicate CONSOLE_BUFFER_SIZE 0) (length_replicate _ _).

(** A PS2 that opens and closes the handshake's file, then prints a line with
    the marker; the threads' turns. *)
Definition demo_system : system sim :=
  mk_system (sim_start [encode_request (ReqOpen 2 PS2LINK_PING_PATHNAME); encode_request (ReqClose 5);
                        bytes_of "result @@ status=3" ++ [10]] 0 [] [] [])
    (Some blank_packet) blank_buffer [[TRequest]; [TRequest]; [TConsole]] None.
Definition demo_state : st link (system sim) := mk_st (set_sockets 8 9 10 link_init) demo_system.

Lemma system_refines_threads_witness :
  rtc threads_step (view demo_state) (view (others demo_state)).
Proof.
  apply (system_refines_threads sim demo_state). apply ready_set_sockets, ready_init.
Defined.

(** C13: the composed program has the exit status its documentation says, with
    no assumption about its threads: whatever the command line, the PS2, the
    network and the schedule, and whatever the threads' objects held at the
    start, a status fits in a byte and has its reason in the calls the run
    made: the connecting call that failed, a handshake that was not answered in
    its time or lost, the send that took a part only, the marker, the lost
    connection or the idle time of the main loop ([run_status]). The only
    undefined behaviour of the main thread is an int of ping out of its range. *)
Theorem composed_exit_status (W : Type) `{PosixLaws W} `{!Processes W} `{!ProcessLaws W}
    (n : nat) (env argv : list (list Z)) (executable : list Z) (k : W) (p : packet_object)
    (b : buffer_object) (turns : list (list thread)) :
  let start := mk_system k (Some p) b turns None in
  match main n env executable argv (mk_st link_init start) with
  | Ret (r, s') => forall status, r = Some status -> 0 <= status < 256
      /\ match preflight env argv with
         | None => status = PS2CLIENT_EXIT_USAGE /\ s' = mk_st link_init start
         | Some v => run_status executable v (mk_st link_init start) s' status
         end
  | Fault f => exists v, preflight env argv = Some v /\ ping_overflow v (mk_st link_init start) f
  | OutOfFuel => False
  end.
Proof.
  intros start. pose proof (main_has_result n env argv executable start) as Hm. unfold main_result in Hm.
  destruct (main n env executable argv (mk_st link_init start)) as [[r s']|f|]; [by destruct Hm|done|done].
Qed.

Definition demo_line : list (list Z) := [bytes_of "-e"; bytes_of "@@"; bytes_of "listen"].
Definition exit_of (o : outcome (option Z * st link (system sim))) : option Z :=
  match o with Ret (r, _) => r | _ => None end.

(** The run ends with the status that the PS2 printed. *)
Lemma composed_exit_status_witness : exists s' v,
  main 20 [] (bytes_of "ps2client") demo_line (mk_st link_init demo_system) = Ret (Some 3, s')
  /\ run_status (bytes_of "ps2client") v (mk_st link_init demo_system) s' 3.
Proof.
  assert (Hz : exit_of (main 20 [] (bytes_of "ps2client") demo_line (mk_st link_init demo_system)) = Some 3)
    by (vm_compute; reflexivity).
  pose proof (composed_exit_status sim 20 [] demo_line (bytes_of "ps2client") (kernel demo_system)
    blank_packet blank_buffer (schedule demo_system)) as Hm.
  change (mk_system (kernel demo_system) (Some blank_packet) blank_buffer (schedule demo_system) None)
    with demo_system in Hm. cbv zeta in Hm.
  destruct (main 20 [] (bytes_of "ps2client") demo_line (mk_st link_init demo_system))
    as [[r s']|f|]; [|discriminate Hz|discriminate Hz].
  cbn [exit_of] in Hz. subst r. destruct (Hm 3 eq_refl) as [_ Hs].
  destruct (preflight [] demo_line) as [v|] eqn:Hp.
  - exists s', v. split; [reflexivity|exact Hs].
  - exfalso. vm_compute in Hp. discriminate.
Defined.

(** C14: the globals are well typed in every state the composed program
    reaches between two looks of the main thread, and at its end: for any
    number of iterations of its loops, any schedule and any PS2, the line
    buffer, the line in it and the table of directories keep their sizes and
    shapes. *)
Theorem composed_well_typed (W : Type) `{PosixLaws W} `{!Processes W} `{!ProcessLaws W}
    (n : nat) (env argv : list (list Z)) (executable : list Z) (k : W) (p : packet_object)
    (b : buffer_object) (turns : list (list thread)) (r : option Z) (s' : st link (system W)) :
  main n env executable argv (mk_st link_init (mk_system k (Some p) b turns None)) = Ret (r, s') ->
  well_typed (glob s').
Proof.
  intros Hrun. pose proof (main_has_result n env argv executable (mk_system k (Some p) b turns None)) as Hm.
  unfold main_result in Hm. rewrite Hrun in Hm. destruct Hm as [Hrd _]. by apply ready_well_typed.
Qed.

Lemma composed_well_typed_witness : exists r s',
  main 20 [] (bytes_of "ps2client") demo_line (mk_st link_init demo_system) = Ret (r, s')
  /\ well_typed (glob s').
Proof.
  assert (Hz : exit_of (main 20 [] (bytes_of "ps2client") demo_line (mk_st link_init demo_system)) = Some 3)
    by (vm_compute; reflexivity).
  destruct (main 20 [] (bytes_of "ps2client") demo_line (mk_st link_init demo_system)) as [[r s']|f|] eqn:Hm;
    [|discriminate Hz|discriminate Hz].
  exists r, s'. split; [reflexivity|].
  apply (composed_well_typed sim 20 [] demo_line (bytes_of "ps2client") (kernel demo_system) blank_packet
    blank_buffer (schedule demo_system) r s'). exact Hm.
Defined.
