(* ===== verification/Addr2line.v ===== *)
(** * Asking addr2line (resolve_symbol in tools/ps2symbolize.c)

    A symbol comes from a child process: addr2line is started on a pipe with
    posix_spawnp, its first line is read, and it is waited for. These calls
    are the class [Subprocess], what the theorems use of them
    [SubprocessLaws]; [shell] is an instance. The class also keeps the
    descriptors that are open, the children nobody has waited for, and the
    arguments of the children so far: what a function can leak, and what it
    has asked; and the last pipe and the last child with its file actions,
    which decide whose output is read from a descriptor. *)

From S2P Require Import Prelude CLib Posix.

(** ** The system calls *)

(** posix_spawn_file_actions_adddup2 and _addclose. *)
Inductive file_action := ADup2 (fd newfd : Z) | AClose (fd : Z).

#[global] Instance file_action_eq_dec : EqDecision file_action.
Proof. solve_decision. Defined.

Definition STDOUT_FILENO : Z := 1.

(** sizeof(symbol) in annotate_line. *)
Definition SYMBOL_SIZE : nat := Z.to_nat 1024.

(** A stream is named by its descriptor. *)
Class Subprocess (W : Type) := {
  sys_pipe : W -> option (Z * Z) * W;                  (* the read and the write end *)
  sys_file_actions_init : W -> bool * W;               (* whether it returned 0 *)
  sys_posix_spawnp : list file_action -> list Z -> list (list Z) -> W -> option Z * W;  (* the pid *)
  sys_close_pipe : Z -> W -> unit * W;                 (* close *)
  sys_fdopen : Z -> W -> bool * W;
  sys_fgets : Z -> nat -> W -> option (list Z) * W;    (* stream, size *)
  sys_fclose : Z -> W -> unit * W;
  sys_wait : Z -> W -> option Z * W;                   (* waitpid: the status word *)
  open_fds : W -> gset Z;
  unreaped : W -> gset Z;
  invoked : W -> list (list (list Z));
  (* the last pipe, and the last child: its file actions and arguments *)
  plumbing : W -> option (Z * Z) * option (list file_action * list (list Z)) }.

(** Only descriptors and children change, and these as said. *)
Definition resources {W} `{Subprocess W} (w : W) : gset Z * gset Z * list (list (list Z)) :=
  (open_fds w, unreaped w, invoked w).

Class SubprocessLaws (W : Type) `{Subprocess W} : Prop := {
  pipe_law : forall w o w', sys_pipe w = (o, w') ->
    match o with
    | None => resources w' = resources w
    | Some (r, wr) => r <> wr /\ (r ∉ open_fds w) /\ (wr ∉ open_fds w)
        /\ resources w' = (({[r; wr]} : gset Z) ∪ open_fds w, unreaped w, invoked w)
    end;
  file_actions_init_law : forall w ok w', sys_file_actions_init w = (ok, w') ->
    resources w' = resources w;
  spawnp_law : forall acts file argv w o w', sys_posix_spawnp acts file argv w = (o, w') ->
    match o with
    | None => resources w' = resources w
    | Some pid => (pid ∉ unreaped w)
        /\ resources w' = (open_fds w, ({[pid]} : gset Z) ∪ unreaped w, invoked w ++ [argv])
    end;
  close_pipe_law : forall fd w u w', sys_close_pipe fd w = (u, w') ->
    resources w' = (open_fds w ∖ {[fd]}, unreaped w, invoked w);
  fdopen_law : forall fd w ok w', sys_fdopen fd w = (ok, w') -> resources w' = resources w;
  (* a line: what there is up to its newline or to the size of the array *)
  fgets_law : forall fd n w o w', sys_fgets fd n w = (o, w') ->
    resources w' = resources w
    /\ forall line, o = Some line -> (length line < n)%nat /\ line <> [] /\ Forall is_byte line;
  fclose_law : forall fd w u w', sys_fclose fd w = (u, w') ->
    resources w' = (open_fds w ∖ {[fd]}, unreaped w, invoked w);
  wait_law : forall pid w o w', sys_wait pid w = (o, w') ->
    resources w' = (open_fds w, if o is Some _ then unreaped w ∖ {[pid]} else unreaped w, invoked w) }.

(** ** Library functions of this file *)

(** A line as a string ends at its first null. *)
Fixpoint until_null (line : list Z) : list Z :=
  match line with
  | [] => []
  | c :: line => if c =? 0 then [] else c :: until_null line
  end.

(** strcspn(s, reject) *)
Fixpoint strcspn (s reject : list Z) : nat :=
  match s with
  | [] => 0%nat
  | c :: s => if bool_decide (c ∈ reject) then 0%nat else S (strcspn s reject)
  end.

(** The last [n] hexadecimal digits of a number. *)
Fixpoint hex_digits (n : nat) (z : Z) : list Z :=
  match n with
  | O => []
  | S n => hex_digits n (z / 16) ++ [z mod 16]
  end.

(** ** resolve_symbol *)

(** snprintf(pc, sizeof(pc), "0x%08x", address) with a uint32_t: eight digits,
    which fit. *)
Definition format_pc (address : Z) : list Z := bytes_of "0x" ++ numeral (hex_digits 8 address).

Definition addr2line_argv (tool elf pc : list Z) : list (list Z) :=
  [tool; bytes_of "-f"; bytes_of "-C"; bytes_of "-p"; bytes_of "-e"; elf; pc].

(** A carriage return and a newline. *)
Definition eol : list Z := [13; 10].

(** What the first line means: the value and the symbol. *)
Definition interpret (output : list Z) : Z * list Z :=
  let output := take (strcspn output eol) output in
  if bool_decide (output = []) || strncmp_eq output (bytes_of "??") 2 then (0, output) else (1, output).

Section defs.
Context {W : Type} `{Subprocess W}.

(** A callback of annotate_line: tool, ELF file, address and the size of the
    output array to a value and, if it is positive, a symbol. *)
Definition resolve_fn : Type := list Z -> list Z -> Z -> nat -> W -> (Z * list Z) * W.

(** From the running child on: read, close, wait. *)
Definition read_answer (fd pid : Z) (capacity : nat) (w : W) : (Z * list Z) * W :=
  let '(opened, w) := sys_fdopen fd w in
  if negb opened then
    let '(_, w) := sys_close_pipe fd w in
    let '(_, w) := sys_wait pid w in ((-1, []), w)
  else
    let '(line, w) := sys_fgets fd capacity w in
    let output := until_null (default [] line) in
    let '(_, w) := sys_fclose fd w in
    let '(status, w) := sys_wait pid w in
    match status with
    | None => ((-1, output), w)
    | Some status =>
        if negb (WIFEXITED status) || negb (WEXITSTATUS status =? 0) then ((-1, output), w)
        else (interpret output, w)
    end.

Definition resolve_symbol : resolve_fn := fun tool elf address capacity w =>
  let pc := format_pc address in
  let '(pipefd, w) := sys_pipe w in
  match pipefd with
  | None => ((-1, []), w)
  | Some (rd, wr) =>
      let '(ok, w) := sys_file_actions_init w in
      if negb ok then
        let '(_, w) := sys_close_pipe rd w in
        let '(_, w) := sys_close_pipe wr w in ((-1, []), w)
      else
        let actions := [ADup2 wr STDOUT_FILENO; AClose rd; AClose wr] in
        let '(pid, w) := sys_posix_spawnp actions tool (addr2line_argv tool elf pc) w in
        let '(_, w) := sys_close_pipe wr w in
        match pid with
        | None => let '(_, w) := sys_close_pipe rd w in ((-1, []), w)
        | Some pid => read_answer rd pid capacity w
        end
  end.
End defs.
Arguments resolve_fn W : clear implicits.

(** ** The address, there and back *)

Lemma hex_digits_length n : forall z, length (hex_digits n z) = n.
Proof. induction n as [|n IH]; intros z; simpl; [done|]. rewrite length_app, IH. simpl. lia. Qed.

Lemma hex_digits_ok n : forall z, Forall (fun d => 0 <= d < 16) (hex_digits n z).
Proof.
  induction n as [|n IH]; intros z; simpl; [constructor|]. apply Forall_app. split; [apply IH|].
  constructor; [apply Z.mod_pos_bound; lia|constructor].
Qed.

Lemma value_of_app base ds ds' acc :
  value_of base (ds ++ ds') acc = value_of base ds' (value_of base ds acc).
Proof. apply fold_left_app. Qed.

Lemma value_hex_digits n : forall z, 0 <= z < 16 ^ Z.of_nat n -> value_of 16 (hex_digits n z) 0 = z.
Proof.
  induction n as [|n IH]; intros z Hz; [simpl in *; lia|]. cbn [hex_digits].
  rewrite Nat2Z.inj_succ, Z.pow_succ_r in Hz by lia.
  rewrite value_of_app, IH.
  - simpl. pose proof (Z.div_mod z 16 ltac:(lia)). lia.
  - split; [apply Z.div_pos; lia|]. apply Z.div_lt_upper_bound; lia.
Qed.

(** The tool reads the address that was meant. *)
Lemma format_pc_reads address : is_u32 address -> strtoul0 (format_pc address) = (address, 10%nat).
Proof.
  intros Ha. pose proof (hex_digits_length 8 address) as Hl. pose proof (hex_digits_ok 8 address) as Hd.
  pose proof (value_hex_digits 8 address) as Hv. unfold strtoul0.
  assert (Hscan : scan_number 0 (format_pc address) = mk_scanned false address 10).
  { unfold format_pc. destruct (hex_digits 8 address) as [|d ds] eqn:Hds; [done|].
    pose proof Hd as [Hd0 _]%Forall_cons. unfold scan_number.
    change (skip_spaces (bytes_of "0x" ++ numeral (d :: ds))) with 0%nat. cbv zeta. rewrite drop_0.
    change (sign_of (bytes_of "0x" ++ numeral (d :: ds))) with (false, 0%nat). cbv beta iota. rewrite drop_0.
    assert (Hb : base_of (bytes_of "0x" ++ numeral (d :: ds)) = (16, 2%nat)).
    { simpl. rewrite digit_value_char by done. by rewrite (proj2 (Z.ltb_lt d 16)) by lia. }
    change (0 =? 0) with true. cbv beta iota. rewrite Hb.
    change (drop 2 (bytes_of "0x" ++ numeral (d :: ds))) with (numeral (d :: ds)).
    rewrite digits_numeral by (done || lia).
    rewrite Hv by (unfold is_u32 in Ha; simpl; lia). by rewrite Hl. }
  rewrite Hscan. cbn [sc_mag sc_neg sc_end]. rewrite (proj2 (Z.ltb_ge _ _)); [done|].
  unfold is_u32 in Ha. unfold ULONG_MAX. lia.
Qed.

(** ** The first line *)

Lemma until_null_id line : Forall (fun b => b <> 0) line -> until_null line = line.
Proof.
  induction 1 as [|c line Hc Hl IH]; simpl; [done|]. rewrite (proj2 (Z.eqb_neq c 0)) by done. by rewrite IH.
Qed.

Lemma until_null_string line : Forall is_byte line -> is_string (until_null line).
Proof.
  induction 1 as [|c line Hc Hl IH]; simpl; [constructor|]. destruct (Z.eqb_spec c 0); [constructor|].
  constructor; [|done]. unfold is_byte in Hc. lia.
Qed.

Lemma until_null_length line : (length (until_null line) <= length line)%nat.
Proof. induction line as [|c line IH]; simpl; [lia|]. destruct (c =? 0); simpl; lia. Qed.

Lemma take_strcspn s reject : Forall (fun b => b ∉ reject) (take (strcspn s reject) s).
Proof.
  induction s as [|c s IH]; simpl; [constructor|]. case_bool_decide; simpl; [constructor|by constructor].
Qed.

Lemma strcspn_app s rest reject :
  Forall (fun b => b ∉ reject) s -> (forall c, head rest = Some c -> c ∈ reject) ->
  strcspn (s ++ rest) reject = length s.
Proof.
  intros Hs Hr. induction Hs as [|c s Hc Hs IH]; simpl.
  - destruct rest as [|c rest]; [done|]. simpl. by rewrite bool_decide_eq_true_2 by (by apply Hr).
  - by rewrite bool_decide_eq_false_2, IH.
Qed.

(** A symbol: one line of text that is not the tool's question marks. *)
Record symbol_text (capacity : nat) (s : list Z) : Prop := {
  sym_string : is_string s;
  sym_line : Forall (fun b => b ∉ eol) s;
  sym_length : (0 < length s < capacity)%nat;
  sym_known : take 2 s <> bytes_of "??" }.

Lemma interpret_cases capacity output value symbol :
  is_string output -> (length output < capacity)%nat -> interpret output = (value, symbol) ->
  value = 0 \/ value = 1 /\ symbol_text capacity symbol.
Proof.
  unfold interpret, strncmp_eq. intros Hs Hl.
  pose proof (take_strcspn output eol) as Hline.
  pose proof (Forall_take _ (strcspn output eol) _ Hs) as Hstr.
  assert (Hlen : (length (take (strcspn output eol) output) < capacity)%nat)
    by (rewrite length_take; lia).
  destruct (take (strcspn output eol) output) as [|c s]; [intros [= <- <-]; by left|].
  rewrite (bool_decide_eq_false_2 (c :: s = [])) by done. simpl orb.
  case_bool_decide as Hq; intros [= <- <-]; [by left|right]. split; [done|].
  split; [done|done|simpl in *; lia|exact Hq].
Qed.

(** The symbol of a first line that has one. *)
Lemma interpret_symbol capacity s rest :
  symbol_text capacity s -> (forall c, head rest = Some c -> c ∈ eol) ->
  interpret (s ++ rest) = (1, s).
Proof.
  intros [_ Hl Hn Hk] Hr. unfold interpret, strncmp_eq. rewrite strcspn_app, take_app_length by done.
  rewrite bool_decide_eq_false_2 by (intros ->; simpl in Hn; lia).
  rewrite bool_decide_eq_false_2; [done|]. exact Hk.
Qed.

(** ** Every path through the calls *)

Section facts.
Context {W : Type} `{SubprocessLaws W}.
Implicit Types (w : W).

Lemma resources_eq w fds children runs :
  resources w = (fds, children, runs) -> open_fds w = fds /\ unreaped w = children /\ invoked w = runs.
Proof. by intros [= -> -> ->]. Qed.

(** The last call was a waitpid for the child, and it failed. *)
Definition wait_failed (pid : Z) w' : Prop := exists w1, sys_wait pid w1 = (None, w').

(** What a call for [tool] leaves behind, [fd] being the descriptor it may
    still have open and [pid] its child. *)
Lemma read_answer_spec fd pid capacity w value symbol w' :
  (0 < capacity)%nat -> read_answer fd pid capacity w = ((value, symbol), w') ->
  (value = 1 /\ symbol_text capacity symbol \/ value = 0 \/ value = -1)
  /\ open_fds w' = open_fds w ∖ {[fd]} /\ invoked w' = invoked w
  /\ (unreaped w' = unreaped w ∖ {[pid]}
      \/ value = -1 /\ unreaped w' = unreaped w /\ wait_failed pid w').
Proof.
  intros Hpos. unfold read_answer. destruct (sys_fdopen fd w) as [opened w1] eqn:Ho. apply fdopen_law in Ho.
  destruct opened; simpl negb; cbv iota.
  - destruct (sys_fgets fd capacity w1) as [line w2] eqn:Hg. apply fgets_law in Hg as [Hg Hline].
    destruct (sys_fclose fd w2) as [u w3] eqn:Hc. apply fclose_law in Hc.
    destruct (sys_wait pid w3) as [status w4] eqn:Hwait. apply wait_law in Hwait as Hw.
    apply resources_eq in Ho as (O1 & U1 & I1), Hg as (O2 & U2 & I2), Hc as (O3 & U3 & I3), Hw as (O4 & U4 & I4).
    assert (Hstr : is_string (until_null (default [] line))).
    { apply until_null_string. destruct line as [line|]; [by apply Hline|constructor]. }
    assert (Hlen : (length (until_null (default [] line)) < capacity)%nat).
    { pose proof (until_null_length (default [] line)).
      destruct line as [line|]; simpl in *; [destruct (Hline line eq_refl); lia|lia]. }
    destruct status as [status|].
    2: { intros [= <- <- <-]. split_and!; [by right; right|congruence|congruence|right].
         split_and!; [done|congruence|by exists w3]. }
    intros Hi. assert (w4 = w') as <- by (by destruct (_ || _); congruence).
    split_and!; [|congruence|congruence|left; congruence].
    destruct (_ || _); [injection Hi as <- <-; by right; right|]. injection Hi as Hi.
    destruct (interpret_cases _ _ _ _ Hstr Hlen Hi); auto.
  - destruct (sys_close_pipe fd w1) as [u w2] eqn:Hc. apply close_pipe_law in Hc.
    destruct (sys_wait pid w2) as [status w3] eqn:Hwait. apply wait_law in Hwait as Hw.
    apply resources_eq in Ho as (O1 & U1 & I1), Hc as (O3 & U3 & I3), Hw as (O4 & U4 & I4).
    intros [= <- <- <-]. split_and!; [by right; right|congruence|congruence|].
    destruct status; [left; congruence|right]. split_and!; [done|congruence|by exists w2].
Qed.

Definition resolved (capacity : nat) (tool elf : list Z) (address : Z) w (r : (Z * list Z) * W) : Prop :=
  let '((value, symbol), w') := r in
  (value = 1 /\ symbol_text capacity symbol \/ value = 0 \/ value = -1)
  /\ open_fds w' = open_fds w
  /\ (unreaped w' = unreaped w
      \/ value = -1 /\ exists pid, unreaped w' = {[pid]} ∪ unreaped w /\ wait_failed pid w')
  /\ (invoked w' = invoked w ++ [addr2line_argv tool elf (format_pc address)]
      \/ value = -1 /\ invoked w' = invoked w).

Lemma close_both (X : gset Z) r wr :
  r ∉ X -> wr ∉ X -> ({[r; wr]} ∪ X) ∖ {[wr]} ∖ {[r]} = X /\ ({[r; wr]} ∪ X) ∖ {[r]} ∖ {[wr]} = X.
Proof. intros. split; apply set_eq; set_solver. Qed.

Lemma reap (X : gset Z) pid : pid ∉ X -> ({[pid]} ∪ X) ∖ {[pid]} = X.
Proof. intros. apply set_eq. set_solver. Qed.

Lemma resolve_symbol_spec capacity tool elf address w :
  (0 < capacity)%nat -> resolved capacity tool elf address w (resolve_symbol tool elf address capacity w).
Proof.
  intros Hpos. unfold resolve_symbol. cbv zeta.
  destruct (sys_pipe w) as [[[r wr]|] w1] eqn:Hp; apply pipe_law in Hp.
  2: { apply resources_eq in Hp as (O & U & I). split_and!; auto. }
  destruct Hp as (Hne & Hr & Hwr & Hp). destruct (close_both _ _ _ Hr Hwr) as [Hc1 Hc2].
  destruct (sys_file_actions_init w1) as [ok w2] eqn:Hi. apply file_actions_init_law in Hi.
  apply resources_eq in Hp as (O1 & U1 & I1), Hi as (O2 & U2 & I2). destruct ok; simpl negb; cbv iota.
  - destruct (sys_posix_spawnp _ tool _ w2) as [pid w3] eqn:Hs. apply spawnp_law in Hs.
    destruct (sys_close_pipe wr w3) as [u w4] eqn:Hc. apply close_pipe_law in Hc.
    apply resources_eq in Hc as (O4 & U4 & I4). destruct pid as [pid|].
    + destruct Hs as [Hpid (O3 & U3 & I3)%resources_eq].
      destruct (read_answer r pid capacity w4) as [[value symbol] w'] eqn:Ha.
      apply read_answer_spec in Ha as (Hv & O5 & I5 & U5); [|done]. split; [done|]. split; [congruence|].
      rewrite U4, U3, U2, U1 in U5. split; [|left; congruence]. destruct U5 as [->|(-> & -> & Hfail)].
      * left. apply reap. by rewrite <- U1, <- U2.
      * right. split; [done|]. by exists pid.
    + destruct (sys_close_pipe r w4) as [u' w5] eqn:Hc5. apply close_pipe_law in Hc5.
      apply resources_eq in Hs as (O3 & U3 & I3), Hc5 as (O5 & U5 & I5).
      split_and!; [by right; right|congruence|left; congruence|right; split; [done|congruence]].
  - destruct (sys_close_pipe r w2) as [u w3] eqn:Hc3. apply close_pipe_law in Hc3.
    destruct (sys_close_pipe wr w3) as [u' w4] eqn:Hc4. apply close_pipe_law in Hc4.
    apply resources_eq in Hc3 as (O3 & U3 & I3), Hc4 as (O4 & U4 & I4).
    split_and!; [by right; right|congruence|left; congruence|right; split; [done|congruence]].
Qed.
End facts.

(** ** A tool that works *)

(** What fgets takes from the start of a stream: up to a newline or [room]
    bytes. *)
Fixpoint first_line (room : nat) (s : list Z) : list Z :=
  match room, s with
  | S room, c :: s => if c =? 10 then [c] else c :: first_line room s
  | _, _ => []
  end.

(** The calls succeed and addr2line, a function of its arguments, prints and
    exits with 0. What it prints is read from a descriptor if that is the read
    end of the last pipe and the file actions of the child made the write end
    its standard output. *)
Class WorkingTool (W : Type) `{Subprocess W} (addr2line : list (list Z) -> list Z) : Prop := {
  pipe_works : forall w, exists r wr w',
    sys_pipe w = (Some (r, wr), w') /\ plumbing w' = (Some (r, wr), (plumbing w).2);
  file_actions_works : forall w, exists w', sys_file_actions_init w = (true, w') /\ plumbing w' = plumbing w;
  spawnp_works : forall acts file argv w, exists pid w',
    sys_posix_spawnp acts file argv w = (Some pid, w') /\ plumbing w' = ((plumbing w).1, Some (acts, argv));
  close_works : forall fd w, plumbing (sys_close_pipe fd w).2 = plumbing w;
  fdopen_works : forall fd w, exists w', sys_fdopen fd w = (true, w') /\ plumbing w' = plumbing w;
  fgets_works : forall fd n wr acts argv w, plumbing w = (Some (fd, wr), Some (acts, argv)) ->
    ADup2 wr STDOUT_FILENO ∈ acts ->
    let line := first_line (n - 1) (addr2line argv) in
    (sys_fgets fd n w).1 = if bool_decide (line = []) then None else Some line;
  wait_works : forall pid w, (sys_wait pid w).1 = Some 0 }.

Lemma first_line_app s rest room :
  Forall (fun b => b ∉ eol) s -> (length s <= room)%nat ->
  exists more, first_line room (s ++ 10 :: rest) = s ++ more /\ (more = [] \/ more = [10]).
Proof.
  intros Hs. revert room. induction Hs as [|c s Hc Hs IH]; intros room Hl; simpl in *.
  - destruct room; simpl; eauto.
  - destruct room as [|room]; [lia|]. simpl. destruct (IH room ltac:(lia)) as (more & Hf & Hm).
    rewrite (proj2 (Z.eqb_neq c 10)) by (intros ->; apply Hc; set_solver).
    exists more. by rewrite Hf.
Qed.

Lemma interpret_first_line capacity s rest :
  symbol_text capacity s ->
  interpret (until_null (first_line (capacity - 1) (s ++ 10 :: rest))) = (1, s)
  /\ first_line (capacity - 1) (s ++ 10 :: rest) <> [].
Proof.
  intros Hs. pose proof Hs as [Hstr Hl Hn _].
  destruct (first_line_app s rest (capacity - 1) Hl ltac:(lia)) as (more & -> & Hm).
  assert (Hnz : Forall (fun b => b <> 0) (s ++ more)).
  { apply Forall_app. split; [by apply is_string_nonzero|].
    destruct Hm as [->| ->]; [constructor|by repeat constructor]. }
  rewrite until_null_id by done. split.
  - apply (interpret_symbol capacity); [done|]. intros c Hc.
    destruct Hm as [->| ->]; [done|]. simpl in Hc. simplify_eq. set_solver.
  - destruct s; [simpl in Hn; lia|done].
Qed.

Section works.
Context {W : Type} `{SubprocessLaws W} (addr2line : list (list Z) -> list Z) `{!WorkingTool W addr2line}.

Lemma resolve_symbol_works capacity tool elf address w s rest :
  symbol_text capacity s ->
  addr2line (addr2line_argv tool elf (format_pc address)) = s ++ 10 :: rest ->
  exists w', resolve_symbol tool elf address capacity w = ((1, s), w').
Proof.
  intros Hs Hprint. unfold resolve_symbol. cbv zeta.
  destruct (pipe_works w) as (r & wr & w1 & -> & P1).
  destruct (file_actions_works w1) as (w2 & -> & P2). simpl negb. cbv iota.
  set (acts := [_; _; _]). set (argv := addr2line_argv _ _ _) in *.
  destruct (spawnp_works acts tool argv w2) as (pid & w3 & -> & P3).
  pose proof (close_works wr w3) as P4. destruct (sys_close_pipe wr w3) as [u w4]. unfold read_answer.
  destruct (fdopen_works r w4) as (w5 & -> & P5). simpl negb. cbv iota. simpl in P4.
  assert (Hpl : plumbing w5 = (Some (r, wr), Some (acts, argv))) by (by rewrite P5, P4, P3, P2, P1).
  pose proof (fgets_works r capacity wr acts argv w5 Hpl ltac:(by left)) as Hg. cbv zeta in Hg.
  rewrite Hprint in Hg. destruct (interpret_first_line capacity s rest Hs) as [Hint Hne].
  rewrite bool_decide_eq_false_2 in Hg by done.
  destruct (sys_fgets r capacity w5) as [line w6]. simpl in Hg. subst line.
  destruct (sys_fclose r w6) as [u' w7]. pose proof (wait_works pid w7) as Hw.
  destruct (sys_wait pid w7) as [status w8]. simpl in Hw. subst status. cbn [default].
  exists w8. simpl. by rewrite Hint.
Qed.
End works.

(** ** A shell with such a tool *)

Record shell := mk_shell { sh_fds : gset Z; sh_children : gset Z; sh_runs : list (list (list Z));
  sh_plumbing : option (Z * Z) * option (list file_action * list (list Z)) }.

Definition shell_start : shell := mk_shell {[0; 1; 2]} ∅ [] (None, None).

(** It knows one symbol. *)
Definition demo_addr2line (argv : list (list Z)) : list Z :=
  map u8 (if bool_decide (last argv = Some (bytes_of "0x00100008")) then bytes_of "main at main.c:7" ++ [10]
          else bytes_of "??:0" ++ [10]).

(** What is to be read from a descriptor. *)
Definition sh_output (fd : Z) (w : shell) : list Z :=
  match sh_plumbing w with
  | (Some (rd, wr), Some (acts, argv)) =>
      if bool_decide (fd = rd /\ ADup2 wr STDOUT_FILENO ∈ acts) then demo_addr2line argv else []
  | _ => []
  end.

#[export] Instance shell_subprocess : Subprocess shell := {|
  sys_pipe := fun w =>
    let r := fresh (sh_fds w) in
    let wr := fresh ({[r]} ∪ sh_fds w) in
    (Some (r, wr), mk_shell ({[r; wr]} ∪ sh_fds w) (sh_children w) (sh_runs w) (Some (r, wr), (sh_plumbing w).2));
  sys_file_actions_init := fun w => (true, w);
  sys_posix_spawnp := fun acts _ argv w =>
    let pid := fresh (sh_children w) in
    (Some pid, mk_shell (sh_fds w) ({[pid]} ∪ sh_children w) (sh_runs w ++ [argv])
                 ((sh_plumbing w).1, Some (acts, argv)));
  sys_close_pipe := fun fd w => (tt, mk_shell (sh_fds w ∖ {[fd]}) (sh_children w) (sh_runs w) (sh_plumbing w));
  sys_fdopen := fun _ w => (true, w);
  sys_fgets := fun fd n w =>
    let line := first_line (n - 1) (sh_output fd w) in (if bool_decide (line = []) then None else Some line, w);
  sys_fclose := fun fd w => (tt, mk_shell (sh_fds w ∖ {[fd]}) (sh_children w) (sh_runs w) (sh_plumbing w));
  sys_wait := fun pid w => (Some 0, mk_shell (sh_fds w) (sh_children w ∖ {[pid]}) (sh_runs w) (sh_plumbing w));
  open_fds := sh_fds; unreaped := sh_children; invoked := sh_runs; plumbing := sh_plumbing |}.

Lemma first_line_length room s : (length (first_line room s) <= room)%nat.
Proof.
  revert s. induction room as [|room IH]; intros [|c s]; simpl; try lia.
  destruct (c =? 10); simpl; [lia|]. specialize (IH s). lia.
Qed.

Lemma first_line_bytes room s : Forall is_byte s -> Forall is_byte (first_line room s).
Proof.
  intros Hs. revert room. induction Hs as [|c s Hc Hs IH]; intros [|room]; cbn [first_line]; try constructor.
  destruct (c =? 10); constructor; [done|constructor|done|apply IH].
Qed.

#[export] Instance shell_laws : SubprocessLaws shell.
Proof.
  split; simpl; intros; simplify_eq; try done.
  - pose proof (is_fresh (sh_fds w)) as H1.
    pose proof (is_fresh ({[fresh (sh_fds w)]} ∪ sh_fds w)) as [H2 H3]%not_elem_of_union.
    rewrite elem_of_singleton in H2. split_and!; try done; congruence.
  - split; [apply is_fresh|done].
  - split; [done|]. intros line. case_bool_decide as Hne; intros Hl; [done|]. apply (inj Some) in Hl.
    destruct n as [|n]; [done|].
    pose proof (first_line_length (S n - 1) (sh_output fd w')) as Hlen.
    rewrite Hl in *. split_and!; [lia|done|]. rewrite <- Hl. apply first_line_bytes. unfold sh_output.
    repeat case_match; try constructor. apply Forall_map, Forall_true. intros b. apply u8_range.
Qed.

#[export] Instance shell_works : WorkingTool shell demo_addr2line.
Proof.
  split; simpl; intros; eauto 10.
  unfold sh_output. match goal with Hp : sh_plumbing _ = _ |- _ => rewrite Hp end.
  by rewrite (bool_decide_eq_true_2 (_ /\ _)).
Qed.

(** ** The properties of resolve_symbol *)

(** C28: whatever fails on the way, resolve_symbol closes every descriptor it has
    opened, and it has waited for the child it started. The one case with a
    child left is that waitpid itself, called for this child, failed (it is the
    last call then), and the result is the error -1. *)
Theorem resolve_symbol_releases (W : Type) `{SubprocessLaws W} (tool elf symbol : list Z)
    (address value : Z) (capacity : nat) (w w' : W) :
  (0 < capacity)%nat -> resolve_symbol tool elf address capacity w = ((value, symbol), w') ->
  open_fds w' = open_fds w
  /\ (unreaped w' = unreaped w
      \/ value = -1 /\ exists pid w1, unreaped w' = {[pid]} ∪ unreaped w /\ sys_wait pid w1 = (None, w')).
Proof.
  intros Hc Hr. pose proof (resolve_symbol_spec capacity tool elf address w Hc) as Hs.
  rewrite Hr in Hs. destruct Hs as (_ & Ho & Hu & _). split; [done|].
  destruct Hu as [|(Hv & pid & Hu & w1 & Hw)]; [by left|right]. split; [done|]. by exists pid, w1.
Qed.

Lemma resolve_symbol_releases_witness : exists w',
  resolve_symbol (bytes_of "addr2line") (bytes_of "a.elf") 1048584 SYMBOL_SIZE shell_start
    = ((1, bytes_of "main at main.c:7"), w')
  /\ open_fds w' = ({[0; 1; 2]} : gset Z).
Proof.
  destruct (resolve_symbol (bytes_of "addr2line") (bytes_of "a.elf") 1048584 SYMBOL_SIZE shell_start)
    as [[value symbol] w'] eqn:Hr.
  assert (Hv : (value, symbol) = (1, bytes_of "main at main.c:7")).
  { change (value, symbol) with ((value, symbol), w').1. rewrite <- Hr. vm_compute. reflexivity. }
  exists w'. split; [by rewrite Hv|].
  refine (proj1 (resolve_symbol_releases shell (bytes_of "addr2line") (bytes_of "a.elf") symbol 1048584 value
    SYMBOL_SIZE shell_start w' _ Hr)). unfold SYMBOL_SIZE. lia.
Defined.

(** C27: resolve_symbol asks for the right address and only hands out proper
    symbols: unless it reports an error it has started the tool once, with
    arguments that name the ELF file and a text from which strtoul reads the
    address back; and the symbol of a positive result is one line of text that
    fits the array and is not the tool's question marks. *)
Theorem resolve_symbol_asks (W : Type) `{SubprocessLaws W} (tool elf symbol : list Z)
    (address value : Z) (capacity : nat) (w w' : W) :
  (0 < capacity)%nat -> is_u32 address ->
  resolve_symbol tool elf address capacity w = ((value, symbol), w') ->
  (value = 1 /\ symbol_text capacity symbol \/ value = 0 \/ value = -1)
  /\ (value = -1 /\ invoked w' = invoked w
      \/ exists pc, invoked w' = invoked w ++ [addr2line_argv tool elf pc]
                   /\ strtoul0 pc = (address, length pc)).
Proof.
  intros Hc Ha Hr. pose proof (resolve_symbol_spec capacity tool elf address w Hc) as Hs.
  rewrite Hr in Hs. destruct Hs as (Hv & _ & _ & Hi). split; [done|].
  destruct Hi as [Hi|Hi]; [right|by left]. exists (format_pc address). split; [done|].
  rewrite format_pc_reads by done. unfold format_pc, numeral.
  by rewrite length_app, length_map, hex_digits_length.
Qed.

Lemma resolve_symbol_asks_witness : exists w' pc,
  resolve_symbol (bytes_of "addr2line") (bytes_of "a.elf") 1048584 SYMBOL_SIZE shell_start
    = ((1, bytes_of "main at main.c:7"), w')
  /\ invoked w' = [addr2line_argv (bytes_of "addr2line") (bytes_of "a.elf") pc]
  /\ strtoul0 pc = (1048584, length pc).
Proof.
  destruct (resolve_symbol (bytes_of "addr2line") (bytes_of "a.elf") 1048584 SYMBOL_SIZE shell_start)
    as [[value symbol] w'] eqn:Hr.
  assert (Hv : (value, symbol) = (1, bytes_of "main at main.c:7")).
  { change (value, symbol) with ((value, symbol), w').1. rewrite <- Hr. vm_compute. reflexivity. }
  injection Hv as -> ->.
  destruct (resolve_symbol_asks shell (bytes_of "addr2line") (bytes_of "a.elf") (bytes_of "main at main.c:7")
    1048584 1 SYMBOL_SIZE shell_start w') as [_ [[Hm _]|(pc & Hi & Hpc)]];
    [unfold SYMBOL_SIZE; lia|unfold is_u32; lia|exact Hr|discriminate Hm|].
  exists w', pc. split; [reflexivity|]. split; [exact Hi|exact Hpc].
Defined.
