(* ===== verification/Symbolize.v ===== *)
(** * tools/ps2symbolize.c: symbols for the exceptions in a log

    The tool copies a log and puts a line with the symbol of the program
    counter behind the line of an exception that shows it. [annotate_line] is
    the function of the source; the callback it takes, which runs addr2line,
    is its argument here too, and so are the files of the main program. A
    line is the list of its bytes up to its null. *)

From S2P Require Import Prelude CLib Posix Addr2line.

(** ** Data *)

Record symbolizer := mk_symbolizer {
  ee_elf : option (list Z);
  ee_tool : list Z;
  iop_tool : list Z;
  modules : list (list Z * list Z);       (* name and ELF file *)
  exception : Z;                          (* 0 none, 1 EE, 2 IOP *)
  errors : Z }.

(** sizeof modules[0].name, the size of modules and of the line. *)
Definition NAME_SIZE : nat := 128.
Definition MAX_MODULES : nat := 64.
Definition LINE_BUFFER : nat := Z.to_nat 8192.

Definition set_exception (v : Z) (c : symbolizer) : symbolizer :=
  mk_symbolizer (ee_elf c) (ee_tool c) (iop_tool c) (modules c) v (errors c).
Definition add_error (c : symbolizer) : symbolizer :=
  mk_symbolizer (ee_elf c) (ee_tool c) (iop_tool c) (modules c) (exception c) (errors c + 1).

(** ** Library functions of this file *)

(** tolower in the C locale. *)
Definition tolower (c : Z) : Z := if (65 <=? c) && (c <=? 90) then c + 32 else c.

Fixpoint equals_ignore_case (a b : list Z) : bool :=
  match a, b with
  | x :: a, y :: b => if tolower x =? tolower y then equals_ignore_case a b else false
  | [], [] => true
  | _, _ => false
  end.

Definition skip_0x (s : list Z) : list Z :=
  match s with
  | c0 :: c1 :: rest => if (c0 =? 48) && ((c1 =? 120) || (c1 =? 88)) then rest else s
  | _ => s
  end.

(** The %x of sscanf: white space, a sign, 0x, digits. A 0x without a digit
    behind it is no match. *)
Definition sscanf_hex (s : list Z) : option Z :=
  let s := drop (skip_spaces s) s in
  let '(neg, sg) := sign_of s in
  let s := drop sg s in
  let '(mag, n) := digits 16 0 0 (skip_0x s) in
  if bool_decide (n = 0%nat) then None
  else if ULONG_MAX <? mag then Some (u32 ULONG_MAX)
  else Some (u32 (if neg then - mag else mag)).

(** A literal of a format. *)
Definition match_literal (literal s : list Z) : option (list Z) :=
  if bool_decide (take (length literal) s = literal) then Some (drop (length literal) s) else None.

(** A space of a format. *)
Definition match_space (s : list Z) : list Z := drop (skip_spaces s) s.

Definition quote : Z := 34.

(** The %127[^q] with q the quote: the name and what is behind it. *)
Fixpoint scan_name (n : nat) (s : list Z) : list Z * list Z :=
  match n, s with
  | S n, c :: rest =>
      if c =? quote then ([], s) else let '(name, rest) := scan_name n rest in (c :: name, rest)
  | _, _ => ([], s)
  end.

(** The two formats. *)
Definition sscanf_ee (s : list Z) : option Z :=
  match match_literal (bytes_of "EPC") s with
  | Some s => sscanf_hex (match_space s)
  | None => None
  end.

(** White space, then a literal. *)
Definition match_word (word s : list Z) : option (list Z) := match_literal word (match_space s).

(** Matching on, while it works. *)
Definition and_then {A B} (o : option A) (f : A -> option B) : option B :=
  match o with Some a => f a | None => None end.

(** Up to the name, and from behind the name. *)
Definition sscanf_iop_start (s : list Z) : option (list Z) :=
  and_then (match_literal (bytes_of "Module") s) (fun s =>
  and_then (match_word (bytes_of "Name") s) (fun s => match_word [quote] s)).

Definition sscanf_iop_end (s : list Z) : option Z :=
  and_then (match_literal [quote] s) (fun s =>
  and_then (match_word (bytes_of "Relative") s) (fun s =>
  and_then (match_word (bytes_of "EPC") s) (fun s => sscanf_hex (match_space s)))).

Definition sscanf_iop (s : list Z) : option (list Z * Z) :=
  and_then (sscanf_iop_start s) (fun s =>
    let '(name, s) := scan_name 127 s in
    if bool_decide (name = []) then None
    else and_then (sscanf_iop_end s) (fun pc => Some (name, pc))).

Definition contains (line needle : list Z) : bool := bool_decide (is_Some (strstr line needle)).

(** ** annotate_line *)

Definition EE_HEADER : list Z := bytes_of "EE Exception handler:".
Definition IOP_HEADER : list Z := bytes_of "IOP Exception handler:".
Definition EE_EPC : list Z := bytes_of "EPC ".
Definition IOP_MODULE : list Z := bytes_of "Module Name " ++ [quote].
Definition newline : Z := 10.

Definition note_exception (line : list Z) (c : symbolizer) : symbolizer :=
  let c := if contains line EE_HEADER then set_exception 1 c else c in
  if contains line IOP_HEADER then set_exception 2 c else c.

(** The first module with the name. *)
Fixpoint find_module (name : list Z) (ms : list (list Z * list Z)) : option (list Z) :=
  match ms with
  | [] => None
  | (n, elf) :: ms => if equals_ignore_case name n then Some elf else find_module name ms
  end.

Definition ee_line (symbol : list Z) : list Z := bytes_of "  [EE symbol] " ++ symbol ++ [newline].
Definition iop_line (name symbol : list Z) : list Z :=
  bytes_of "  [IOP " ++ name ++ bytes_of " symbol] " ++ symbol ++ [newline].

(** From the line to the symbol to look up: the module name (empty for the
    EE), the tool, the ELF file if there is one, and the address. *)
Definition find_pc (c : symbolizer) (line : list Z) : option (list Z * list Z * option (list Z) * Z) :=
  if (exception c =? 1) && bool_decide (is_Some (ee_elf c)) then
    match strstr line EE_EPC with
    | None => None
    | Some at_ =>
        match sscanf_ee (drop at_ line) with
        | None => None
        | Some pc => Some ([], ee_tool c, ee_elf c, pc)
        end
    end
  else if exception c =? 2 then
    match strstr line IOP_MODULE with
    | None => None
    | Some at_ =>
        match sscanf_iop (drop at_ line) with
        | None => None
        | Some (name, pc) => Some (name, iop_tool c, find_module name (modules c), pc)
        end
    end
  else None.

Section annotate.
Context {W : Type}.

(** The state afterwards and what is written to the output behind the line;
    [w] is what the callback runs in. *)
Definition annotation (resolve : resolve_fn W) (c : symbolizer) (line : list Z) (w : W)
    : symbolizer * list Z * W :=
  let c := note_exception line c in
  match find_pc c line with
  | None => (c, [], w)
  | Some (name, tool, elf, pc) =>
      let c := set_exception 0 c in
      match elf with
      | None => (c, [], w)
      | Some elf =>
          let '((value, symbol), w) := resolve tool elf pc SYMBOL_SIZE w in
          if value >? 0 then
            (c, if bool_decide (name = []) then ee_line symbol else iop_line name symbol, w)
          else if value <? 0 then (add_error c, [], w)
          else (c, [], w)
      end
  end.

Definition annotate_line (resolve : resolve_fn W) (c : symbolizer) (line : list Z) (w : W)
    : symbolizer * list Z * W :=
  let '(c, note, w) := annotation resolve c line w in (c, line ++ note, w).

(** The loop of main over the lines. *)
Fixpoint annotate_lines (resolve : resolve_fn W) (c : symbolizer) (lines : list (list Z)) (w : W)
    : symbolizer * list Z * W :=
  match lines with
  | [] => (c, [], w)
  | line :: lines =>
      let '(c, out1, w) := annotate_line resolve c (until_null line) w in
      let '(c, out2, w) := annotate_lines resolve c lines w in (c, out1 ++ out2, w)
  end.
End annotate.

(** ** main *)

(** The pieces fgets cuts a file into: up to a newline or 8191 bytes. *)
Fixpoint fgets_lines (room : nat) (line : list Z) (input : list Z) : list (list Z) :=
  match input with
  | [] => if bool_decide (line = []) then [] else [line]
  | c :: input =>
      if (c =? newline) || (room <=? 1)%nat then (line ++ [c]) :: fgets_lines (LINE_BUFFER - 1) [] input
      else fgets_lines (room - 1) (line ++ [c]) input
  end.

(** strchr(pair, '=') *)
Fixpoint split_equals (s : list Z) : option (list Z * list Z) :=
  match s with
  | [] => None
  | c :: s =>
      if c =? 61 then Some ([], s)
      else match split_equals s with Some (a, b) => Some (c :: a, b) | None => None end
  end.

(** The arguments: the exit status of a usage message, or what to do. *)
Inductive arguments :=
| Exit (status : Z)
| Run (config : symbolizer) (log_path : option (list Z)).

Definition add_module (pair : list Z) (c : symbolizer) : option symbolizer :=
  match split_equals pair with
  | None => None
  | Some (name, elf) =>
      if bool_decide (name = []) || (NAME_SIZE <=? length name)%nat || bool_decide (elf = [])
         || (length (modules c) =? MAX_MODULES)%nat
      then None
      else Some (mk_symbolizer (ee_elf c) (ee_tool c) (iop_tool c) (modules c ++ [(name, elf)])
                   (exception c) (errors c))
  end.

Fixpoint parse_args (argv : list (list Z)) (c : symbolizer) (log_path : option (list Z)) : arguments :=
  match argv with
  | [] => Run c log_path
  | a :: rest =>
      if strcmp_eq a (bytes_of "--ee") then
        match rest with
        | [] => Exit 2
        | v :: rest => parse_args rest (mk_symbolizer (Some v) (ee_tool c) (iop_tool c) (modules c)
                                          (exception c) (errors c)) log_path
        end
      else if strcmp_eq a (bytes_of "--ee-tool") then
        match rest with
        | [] => Exit 2
        | v :: rest => parse_args rest (mk_symbolizer (ee_elf c) v (iop_tool c) (modules c)
                                          (exception c) (errors c)) log_path
        end
      else if strcmp_eq a (bytes_of "--iop-tool") then
        match rest with
        | [] => Exit 2
        | v :: rest => parse_args rest (mk_symbolizer (ee_elf c) (ee_tool c) v (modules c)
                                          (exception c) (errors c)) log_path
        end
      else if strcmp_eq a (bytes_of "--iop") then
        match rest with
        | [] => Exit 2
        | v :: rest => match add_module v c with
                       | None => Exit 2
                       | Some c => parse_args rest c log_path
                       end
        end
      else if strcmp_eq a (bytes_of "--help") then Exit 0
      else if bool_decide (log_path = None)
              && (negb (bool_decide (head a = Some 45)) || strcmp_eq a (bytes_of "-"))
      then parse_args rest c (Some a)
      else Exit 2
  end.

Definition initial_symbolizer : symbolizer :=
  mk_symbolizer None (bytes_of "mips64r5900el-ps2-elf-addr2line") (bytes_of "mipsel-none-elf-addr2line")
    [] 0 0.

Definition read_log (fopen : list Z -> option (list Z)) (stdin : list Z) (log_path : option (list Z))
    : option (list Z) :=
  match log_path with
  | Some p => if strcmp_eq p (bytes_of "-") then Some stdin else fopen p
  | None => Some stdin
  end.

(** The program with any callback: the exit status and the output. [fopen] is
    the contents of a file. *)
Definition run_main {W} (resolve : resolve_fn W) (fopen : list Z -> option (list Z)) (stdin : list Z)
    (argv : list (list Z)) (w : W) : Z * list Z * W :=
  match parse_args argv initial_symbolizer None with
  | Exit status => (status, [], w)
  | Run c log_path =>
      if bool_decide (ee_elf c = None) && bool_decide (modules c = []) then (2, [], w)
      else
        match read_log fopen stdin log_path with
        | None => (1, [], w)
        | Some input =>
            let '(c, out, w) := annotate_lines resolve c (fgets_lines (LINE_BUFFER - 1) [] input) w in
            (if errors c =? 0 then 0 else 1, out, w)
        end
  end.

(** The program: the callback is resolve_symbol. *)
Definition main {W} `{Subprocess W} (fopen : list Z -> option (list Z)) (stdin : list Z)
    (argv : list (list Z)) (w : W) : Z * list Z * W :=
  run_main resolve_symbol fopen stdin argv w.

Example symbolize_example :
  (annotate_lines resolve_symbol (mk_symbolizer (Some (bytes_of "a.elf")) [] [] [] 0 0)
    [bytes_of "EE Exception handler: x"; bytes_of "PC: EPC 00100008 y"] shell_start).1
  = (mk_symbolizer (Some (bytes_of "a.elf")) [] [] [] 0 0,
     bytes_of "EE Exception handler: xPC: EPC 00100008 y  [EE symbol] main at main.c:7" ++ [10]).
Proof. vm_compute. reflexivity. Qed.

(** ** Library functions, specified *)

Lemma equals_ignore_case_spec a : forall b,
  equals_ignore_case a b = bool_decide (map tolower a = map tolower b).
Proof.
  induction a as [|x a IH]; intros [|y b]; try reflexivity. simpl.
  destruct (Z.eqb_spec (tolower x) (tolower y)) as [He|He].
  - rewrite IH. apply bool_decide_ext. split; [by intros ->; rewrite He|by intros [= _ ->]].
  - rewrite bool_decide_eq_false_2; [done|]. by intros [= ? _].
Qed.

(** The first module whose name is the same but for its case. *)
Lemma find_module_spec name before n elf after :
  Forall (fun m => map tolower m.1 <> map tolower name) before -> map tolower n = map tolower name ->
  find_module name (before ++ (n, elf) :: after) = Some elf.
Proof.
  intros Hb Hn. induction Hb as [|[n0 elf0] before Hne _ IH]; simpl; rewrite equals_ignore_case_spec.
  - by rewrite bool_decide_eq_true_2.
  - rewrite bool_decide_eq_false_2; [exact IH|]. simpl in Hne. congruence.
Qed.

Lemma match_literal_app literal s : match_literal literal (literal ++ s) = Some s.
Proof.
  unfold match_literal. rewrite take_app_length, drop_app_length. by rewrite bool_decide_eq_true_2.
Qed.

(** No x and no digit behind a hexadecimal numeral. *)
Definition hex_ends (rest : list Z) : Prop :=
  stops 16 rest /\ head rest <> Some 120 /\ head rest <> Some 88.

Lemma skip_0x_numeral d ds rest :
  Forall (fun d => 0 <= d < 16) ds -> head rest <> Some 120 -> head rest <> Some 88 ->
  skip_0x (numeral (d :: ds) ++ rest) = numeral (d :: ds) ++ rest.
Proof.
  intros Hds Hx HX. destruct ds as [|d2 ds]; simpl.
  - destruct rest as [|c rest]; [done|]. simpl in Hx, HX.
    rewrite (proj2 (Z.eqb_neq c 120)), (proj2 (Z.eqb_neq c 88)) by congruence. by rewrite andb_false_r.
  - inversion Hds as [|? ? Hd2 _]. pose proof (digit_char_range d2 Hd2).
    rewrite (proj2 (Z.eqb_neq _ 120)), (proj2 (Z.eqb_neq _ 88)) by lia. by rewrite andb_false_r.
Qed.

Lemma skip_spaces_numeral d ds rest :
  0 <= d < 16 -> skip_spaces (numeral (d :: ds) ++ rest) = 0%nat.
Proof. intros Hd. simpl. by rewrite isspace_digit. Qed.

Lemma sscanf_hex_numeral ds rest :
  Forall (fun d => 0 <= d < 16) ds -> ds <> [] -> hex_ends rest -> value_of 16 ds 0 < 2 ^ 32 ->
  sscanf_hex (numeral ds ++ rest) = Some (value_of 16 ds 0).
Proof.
  intros Hds Hne (Hst & Hx & HX) Hv. destruct ds as [|d ds]; [done|].
  pose proof Hds as [Hd Hds']%Forall_cons.
  pose proof (value_of_nonneg 16 (d :: ds) ltac:(lia) Hds 0 ltac:(lia)) as H0.
  unfold sscanf_hex. rewrite skip_spaces_numeral, drop_0 by done.
  assert (Hsign : sign_of (numeral (d :: ds) ++ rest) = (false, 0%nat)) by (by apply sign_of_digit).
  cbv zeta. rewrite Hsign, drop_0, skip_0x_numeral, digits_numeral_app by (done || lia).
  rewrite bool_decide_eq_false_2 by done. unfold ULONG_MAX.
  rewrite (proj2 (Z.ltb_ge _ _)) by lia. by rewrite u32_small by (unfold is_u32; lia).
Qed.

Lemma sscanf_ee_numeral ds rest :
  Forall (fun d => 0 <= d < 16) ds -> ds <> [] -> hex_ends rest -> value_of 16 ds 0 < 2 ^ 32 ->
  sscanf_ee (EE_EPC ++ numeral ds ++ rest) = Some (value_of 16 ds 0).
Proof.
  intros Hds Hne He Hv. unfold sscanf_ee.
  change (EE_EPC ++ numeral ds ++ rest) with (bytes_of "EPC" ++ 32 :: numeral ds ++ rest).
  rewrite match_literal_app. unfold match_space.
  destruct ds as [|d ds]; [done|]. inversion Hds; subst.
  change (skip_spaces (32 :: numeral (d :: ds) ++ rest)) with
    (S (skip_spaces (numeral (d :: ds) ++ rest))).
  assert (Hsp : skip_spaces (numeral (d :: ds) ++ rest) = 0%nat) by (simpl; by rewrite isspace_digit).
  rewrite Hsp. cbn [drop]. by apply sscanf_hex_numeral.
Qed.

Lemma scan_name_app name rest n :
  Forall (fun b => b <> quote) name -> (length name <= n)%nat -> (length name = n \/ head rest = Some quote) ->
  scan_name n (name ++ rest) = (name, rest).
Proof.
  intros Hq. revert n. induction Hq as [|c name Hc Hq IH]; intros n Hn Hr; simpl.
  - destruct n as [|n]; [done|]. destruct Hr as [Hr|Hr]; [done|].
    destruct rest as [|c rest]; [done|]. simpl in Hr. simplify_eq. done.
  - destruct n as [|n]; simpl in *; [lia|]. rewrite (proj2 (Z.eqb_neq c quote)) by done.
    rewrite IH; [done|lia|]. destruct Hr; [left; lia|by right].
Qed.

(** What ps2link prints for a module. *)
Definition module_text (name ds rest : list Z) : list Z :=
  IOP_MODULE ++ name ++ quote :: bytes_of " Relative EPC " ++ numeral ds ++ rest.

Lemma sscanf_iop_text name ds rest :
  Forall (fun b => b <> quote) name -> name <> [] -> (length name < NAME_SIZE)%nat ->
  Forall (fun d => 0 <= d < 16) ds -> ds <> [] -> hex_ends rest ->
  value_of 16 ds 0 < 2 ^ 32 ->
  sscanf_iop (module_text name ds rest) = Some (name, value_of 16 ds 0).
Proof.
  intros Hq Hne Hl Hds Hdn He Hv. unfold sscanf_iop, module_text.
  assert (Hstart : forall s, sscanf_iop_start (IOP_MODULE ++ s) = Some s).
  { intros s. unfold sscanf_iop_start.
    change (IOP_MODULE ++ s) with (bytes_of "Module" ++ bytes_of " Name" ++ 32 :: quote :: s).
    rewrite match_literal_app. reflexivity. }
  assert (Hend : sscanf_iop_end (quote :: bytes_of " Relative EPC " ++ numeral ds ++ rest)
                 = Some (value_of 16 ds 0)).
  { rewrite <- (sscanf_ee_numeral ds rest Hds Hdn He Hv). unfold sscanf_iop_end, sscanf_ee.
    change (EE_EPC ++ numeral ds ++ rest) with (bytes_of "EPC" ++ 32 :: numeral ds ++ rest).
    rewrite match_literal_app. reflexivity. }
  rewrite Hstart. cbn [and_then]. unfold NAME_SIZE in Hl. rewrite scan_name_app; [|done|lia|by right].
  rewrite bool_decide_eq_false_2 by done. by rewrite Hend.
Qed.

(** ** The annotations of a log *)

Fixpoint notes {W} (resolve : resolve_fn W) (c : symbolizer) (lines : list (list Z)) (w : W)
    : list (list Z) :=
  match lines with
  | [] => []
  | line :: lines =>
      let '(c, note, w) := annotation resolve c (until_null line) w in note :: notes resolve c lines w
  end.

(** An annotation is a line with a symbol; the line is the log's, for the name
    of the module. *)
Definition module_name (line name : list Z) : Prop :=
  name <> [] /\ (length name < NAME_SIZE)%nat /\ exists pre post, line = pre ++ name ++ quote :: post.
Definition is_annotation (line note : list Z) : Prop :=
  exists symbol, symbol_text SYMBOL_SIZE symbol
    /\ (note = bytes_of "  [EE symbol] " ++ symbol ++ [10]
        \/ exists name, module_name line name
             /\ note = bytes_of "  [IOP " ++ name ++ bytes_of " symbol] " ++ symbol ++ [10]).

(** A callback whose positive results have a proper symbol. *)
Definition sound {W} (resolve : resolve_fn W) : Prop :=
  forall tool elf pc w value symbol w',
    resolve tool elf pc SYMBOL_SIZE w = ((value, symbol), w') -> 0 < value ->
    symbol_text SYMBOL_SIZE symbol.

Lemma resolve_symbol_sound {W} `{SubprocessLaws W} : sound (W := W) resolve_symbol.
Proof.
  intros tool elf pc w value symbol w' Hr Hv.
  assert (Hpos : (0 < SYMBOL_SIZE)%nat) by (unfold SYMBOL_SIZE; lia).
  pose proof (resolve_symbol_spec SYMBOL_SIZE tool elf pc w Hpos) as Hs. rewrite Hr in Hs.
  destruct Hs as ([[_ ?]|[?|?]] & _); [done|lia|lia].
Qed.

Definition is_header (line : list Z) : bool := contains line EE_HEADER || contains line IOP_HEADER.

(** How many lines announce an exception, how many are annotated. *)
Fixpoint count_headers (lines : list (list Z)) : nat :=
  match lines with
  | [] => 0
  | line :: lines => (if is_header (until_null line) then 1 else 0) + count_headers lines
  end.
Fixpoint count_notes (ns : list (list Z)) : nat :=
  match ns with [] => 0 | n :: ns => (if bool_decide (n = []) then 0 else 1) + count_notes ns end.

(** An exception waits for its line. *)
Definition armed (c : symbolizer) : nat := if exception c =? 0 then 0 else 1.

Lemma annotate_lines_notes {W} (resolve : resolve_fn W) lines : forall c w,
  (annotate_lines resolve c lines w).1.2
  = concat (zip_with (fun line note => until_null line ++ note) lines (notes resolve c lines w)).
Proof.
  induction lines as [|line lines IH]; intros c w; simpl; [done|]. unfold annotate_line.
  destruct (annotation resolve c (until_null line) w) as [[c' note] w1]. specialize (IH c' w1).
  destruct (annotate_lines resolve c' lines w1) as [[c2 out2] w2]. simpl in *. by rewrite IH.
Qed.

Lemma armed_note_exception line c :
  (armed (note_exception line c) <= armed c + (if is_header line then 1 else 0))%nat.
Proof.
  unfold note_exception, is_header, armed. destruct (contains line EE_HEADER), (contains line IOP_HEADER);
    simpl; repeat case_match; lia.
Qed.

Lemma find_pc_armed c line x : find_pc c line = Some x -> armed c = 1%nat.
Proof.
  unfold find_pc, armed. destruct (Z.eqb_spec (exception c) 0) as [->|]; [done|]. done.
Qed.

Lemma armed_reset c : armed (set_exception 0 c) = 0%nat.
Proof. done. Qed.
Lemma armed_reset_error c : armed (add_error (set_exception 0 c)) = 0%nat.
Proof. done. Qed.

(** Where the name of a module comes from. *)
Lemma match_literal_Some literal s rest : match_literal literal s = Some rest -> s = literal ++ rest.
Proof.
  unfold match_literal. case_bool_decide as Ht; intros [= <-]. by rewrite <- Ht at 1; rewrite take_drop.
Qed.

Lemma match_word_Some word s rest : match_word word s = Some rest -> exists pre, s = pre ++ rest.
Proof.
  unfold match_word, match_space. intros Hm%match_literal_Some.
  exists (take (skip_spaces s) s ++ word). by rewrite <- app_assoc, <- Hm, take_drop.
Qed.

Lemma scan_name_Some n : forall s name rest, scan_name n s = (name, rest) -> s = name ++ rest.
Proof.
  induction n as [|n IH]; intros s name rest; simpl; [by intros [= <- <-]|].
  destruct s as [|c s]; [by intros [= <- <-]|]. destruct (c =? quote); [by intros [= <- <-]|].
  destruct (scan_name n s) as [name' rest'] eqn:Hs. intros [= <- <-]. simpl. f_equal. by apply IH.
Qed.

Lemma scan_name_length n : forall s, (length (scan_name n s).1 <= n)%nat.
Proof.
  induction n as [|n IH]; intros [|c s]; simpl; try lia. destruct (c =? quote); simpl; [lia|].
  specialize (IH s). destruct (scan_name n s). simpl in *. lia.
Qed.

Lemma sscanf_iop_name s name pc : sscanf_iop s = Some (name, pc) -> module_name s name.
Proof.
  unfold sscanf_iop, sscanf_iop_start.
  destruct (match_literal _ s) as [s1|] eqn:H1; [|done]. apply match_literal_Some in H1. cbn [and_then].
  destruct (match_word _ s1) as [s2|] eqn:H2; [|done]. apply match_word_Some in H2 as [p2 H2]. cbn [and_then].
  destruct (match_word _ s2) as [s3|] eqn:H3; [|done]. apply match_word_Some in H3 as [p3 H3]. cbn [and_then].
  pose proof (scan_name_length 127 s3) as Hlen.
  destruct (scan_name 127 s3) as [name' s4] eqn:H4. apply scan_name_Some in H4.
  case_bool_decide as Hne; [done|]. unfold sscanf_iop_end.
  destruct (match_literal _ s4) as [s5|] eqn:H5; [|done]. apply match_literal_Some in H5. cbn [and_then].
  intros Hend. assert (name' = name) as ->.
  { destruct (match_word _ s5) as [s6|]; [|done]. cbn [and_then] in Hend.
    destruct (match_word _ s6) as [s7|]; [|done]. cbn [and_then] in Hend.
    destruct (sscanf_hex _); [|done]. cbn [and_then] in Hend. by simplify_eq. }
  split; [done|]. split; [simpl in Hlen; unfold NAME_SIZE; lia|]. exists (bytes_of "Module" ++ p2 ++ p3), s5.
  by rewrite H1, H2, H3, H4, H5, <- !app_assoc.
Qed.

Lemma find_pc_name c line name tool elf pc :
  find_pc c line = Some (name, tool, elf, pc) -> name = [] \/ module_name line name.
Proof.
  unfold find_pc. destruct (_ && _).
  - destruct (strstr line EE_EPC) as [at_|]; [|done]. destruct (sscanf_ee _); [|done].
    intros [= <- _ _ _]. by left.
  - destruct (exception c =? 2); [|done]. destruct (strstr line IOP_MODULE) as [at_|]; [|done].
    destruct (sscanf_iop _) as [[name' pc']|] eqn:Hs; [|done]. intros [= <- _ _ _]. right.
    apply sscanf_iop_name in Hs as (Hne & Hl & pre & post & Hs). split; [done|]. split; [done|].
    exists (take at_ line ++ pre), post. by rewrite <- app_assoc, <- Hs, take_drop.
Qed.

Lemma annotation_step {W} (resolve : resolve_fn W) c line w c' note w' :
  sound resolve -> annotation resolve c line w = (c', note, w') ->
  (note = [] \/ is_annotation line note)
  /\ ((if bool_decide (note = []) then 0 else 1) + armed c'
      <= armed c + (if is_header line then 1 else 0))%nat.
Proof.
  intros Hsound. unfold annotation. pose proof (armed_note_exception line c) as Ha.
  destruct (find_pc (note_exception line c) line) as [[[[name tool] elf] pc]|] eqn:Hf.
  2: { intros [= <- <- _]. split; [by left|]. simpl. lia. }
  pose proof (find_pc_name _ _ _ _ _ _ Hf) as Hname.
  apply find_pc_armed in Hf. rewrite Hf in Ha.
  destruct elf as [elf|].
  2: { intros [= <- <- _]. split; [by left|]. rewrite armed_reset. simpl. lia. }
  destruct (resolve tool elf pc SYMBOL_SIZE w) as [[value symbol] w1] eqn:Hr.
  destruct (Z.gtb_spec value 0).
  - intros [= <- <- _]. split.
    + right. exists symbol. split; [by eapply Hsound|]. case_bool_decide; [by left|right].
      exists name. by destruct Hname.
    + rewrite armed_reset. case_bool_decide; lia.
  - destruct (value <? 0); intros [= <- <- _];
      (split; [by left|rewrite ?armed_reset, ?armed_reset_error; simpl; lia]).
Qed.

Lemma notes_facts {W} (resolve : resolve_fn W) lines : sound resolve -> forall c w,
  Forall2 (fun line note => note = [] \/ is_annotation (until_null line) note) lines
    (notes resolve c lines w)
  /\ (count_notes (notes resolve c lines w) <= armed c + count_headers lines)%nat.
Proof.
  intros Hs. induction lines as [|line lines IH]; intros c w; simpl; [split; [constructor|lia]|].
  destruct (annotation resolve c (until_null line) w) as [[c' note] w1] eqn:Ha.
  apply annotation_step in Ha as [Hn Hc]; [|done]. destruct (IH c' w1) as [Hf Hcount]. simpl.
  split; [by constructor|]. lia.
Qed.

(** fgets cuts a file into lines and loses nothing. *)
Lemma concat_fgets_lines input : forall room line,
  concat (fgets_lines room line input) = line ++ input.
Proof.
  induction input as [|c input IH]; intros room line; simpl.
  - destruct line; simpl; by rewrite ?app_nil_r.
  - case_match; simpl; rewrite IH; rewrite <- app_assoc; done.
Qed.

Lemma fgets_lines_bound input : forall room line,
  (length line + room <= LINE_BUFFER - 1)%nat -> (1 <= room)%nat ->
  Forall (fun l => (length l <= LINE_BUFFER - 1)%nat) (fgets_lines room line input).
Proof.
  assert (HB : (1 <= LINE_BUFFER - 1)%nat) by (unfold LINE_BUFFER; lia).
  induction input as [|c input IH]; intros room line Hl Hr; cbn [fgets_lines].
  - destruct line; [by constructor|]. constructor; [lia|by constructor].
  - destruct ((c =? newline) || (room <=? 1)%nat) eqn:Hc.
    + constructor; [rewrite length_app; cbn [length]; lia|]. apply IH; cbn [length]; lia.
    + apply orb_false_iff in Hc as [_ Hroom%Nat.leb_gt].
      apply IH; [rewrite length_app; cbn [length]; lia|lia].
Qed.

(** What fgets makes of a file with a buffer of 8192 bytes: lines, each with
    its newline; a longer line in pieces of 8191 bytes; what is behind the last
    newline. *)
Definition no_newline (s : list Z) : Prop := Forall (fun b => b <> newline) s.

Inductive lines_of : list Z -> list (list Z) -> Prop :=
| lines_end : lines_of [] []
| lines_whole body rest ls : no_newline body -> (length body < LINE_BUFFER - 1)%nat -> lines_of rest ls ->
    lines_of (body ++ newline :: rest) ((body ++ [newline]) :: ls)
| lines_long body rest ls : no_newline body -> length body = (LINE_BUFFER - 1)%nat -> lines_of rest ls ->
    lines_of (body ++ rest) (body :: ls)
| lines_last body : no_newline body -> body <> [] -> (length body < LINE_BUFFER - 1)%nat -> lines_of body [body].

Lemma fgets_lines_of input : forall room line,
  no_newline line -> (length line + room = LINE_BUFFER - 1)%nat -> (1 <= room)%nat ->
  lines_of (line ++ input) (fgets_lines room line input).
Proof.
  assert (Hnil : no_newline []) by constructor.
  induction input as [|c input IH]; intros room line Hn Hl Hr; cbn [fgets_lines].
  - rewrite app_nil_r. case_bool_decide as Hne; [subst line; constructor|constructor; [done|done|lia]].
  - destruct (Z.eqb_spec c newline) as [->|Hc]; cbn [orb].
    { constructor; [done|lia|]. apply (IH _ []); [done|cbn [length]; lia|lia]. }
    assert (Hn' : no_newline (line ++ [c])) by (apply Forall_app; by repeat constructor).
    replace (line ++ c :: input) with ((line ++ [c]) ++ input) by (by rewrite <- app_assoc).
    destruct (Nat.leb_spec room 1).
    + constructor; [done|rewrite length_app; cbn [length]; lia|]. apply (IH _ []); [done|cbn [length]; lia|lia].
    + apply IH; [done|rewrite length_app; cbn [length]; lia|lia].
Qed.

Lemma log_lines input : lines_of input (fgets_lines (LINE_BUFFER - 1) [] input).
Proof. apply (fgets_lines_of input (LINE_BUFFER - 1) []); [constructor|done|unfold LINE_BUFFER; lia]. Qed.

(** A newline is nowhere but at the end of a piece. *)
Definition piece (line : list Z) : Prop := exists body b, line = body ++ [b] /\ no_newline body.

Lemma lines_of_pieces input ls : lines_of input ls -> Forall piece ls.
Proof.
  assert (Hpiece : forall body, no_newline body -> body <> [] -> piece body).
  { intros body Hn Hne. destruct body as [|b body _] using rev_ind; [done|].
    apply Forall_app in Hn as [? _]. by exists body, b. }
  induction 1 as [|body rest ls Hn _ _ IH|body rest ls Hn Hl _ IH|body Hn Hne _]; constructor; try done; eauto.
  - by exists body, newline.
  - apply Hpiece; [done|]. by intros ->.
Qed.

(** ** Taking the annotations away again *)

Definition EE_NOTE : list Z := bytes_of "  [EE symbol] ".
Definition IOP_NOTE : list Z := bytes_of "  [IOP ".

Definition ordinary (line : list Z) : bool :=
  negb (bool_decide (take (length EE_NOTE) line = EE_NOTE))
  && negb (bool_decide (take (length IOP_NOTE) line = IOP_NOTE)).

(** Reading the lines of a log and leaving out those of the tool. *)
Definition strip_annotations (output : list Z) : list Z :=
  concat (filter (fun line => ordinary line = true) (fgets_lines (LINE_BUFFER - 1) [] output)).

(** A line that one fgets reads. *)
Definition whole_line (line : list Z) : Prop :=
  exists body, line = body ++ [newline] /\ Forall (fun b => b <> newline) body
    /\ (length body < LINE_BUFFER - 1)%nat.

Lemma fgets_lines_body body : Forall (fun b => b <> newline) body -> forall room line rest,
  (length body < room)%nat ->
  fgets_lines room line (body ++ newline :: rest)
  = (line ++ body ++ [newline]) :: fgets_lines (LINE_BUFFER - 1) [] rest.
Proof.
  induction 1 as [|c body Hc Hb IH]; intros room line rest Hl; cbn [app fgets_lines length] in *.
  - by rewrite Z.eqb_refl.
  - rewrite (proj2 (Z.eqb_neq c newline)), (proj2 (Nat.leb_gt room 1)) by (done || lia). cbv beta iota delta [orb].
    rewrite IH by lia. by rewrite <- app_assoc.
Qed.

Lemma fgets_lines_cons line rest :
  whole_line line ->
  fgets_lines (LINE_BUFFER - 1) [] (line ++ rest) = line :: fgets_lines (LINE_BUFFER - 1) [] rest.
Proof. intros (body & -> & Hb & Hl). rewrite <- app_assoc. by apply fgets_lines_body. Qed.

Lemma fgets_lines_whole lines :
  Forall whole_line lines -> fgets_lines (LINE_BUFFER - 1) [] (concat lines) = lines.
Proof.
  induction 1 as [|line lines Hw _ IH]; [done|]. cbn [concat]. by rewrite fgets_lines_cons, IH.
Qed.

(** What is before another byte is before the last one. *)
Lemma before_last (P : Z -> Prop) (pre name post body : list Z) (q b : Z) :
  pre ++ name ++ q :: post = body ++ [b] -> Forall P body -> Forall P name.
Proof.
  intros Heq Hb. destruct post as [|c post _] using rev_ind.
  - rewrite app_assoc in Heq. apply app_inj_tail in Heq as [<- _]. by apply Forall_app in Hb as [_ ?].
  - replace (pre ++ name ++ q :: post ++ [c]) with ((pre ++ name ++ q :: post) ++ [c]) in Heq
      by (by rewrite <- !app_assoc).
    apply app_inj_tail in Heq as [<- _]. rewrite !Forall_app in Hb. by destruct Hb as (_ & ? & _).
Qed.

Lemma whole_line_piece line : whole_line line -> piece line.
Proof. intros (body & -> & Hb & _). by exists body, newline. Qed.

Lemma symbol_text_line symbol :
  symbol_text SYMBOL_SIZE symbol ->
  Forall (fun b => b <> newline) symbol /\ (length symbol < SYMBOL_SIZE)%nat.
Proof.
  intros [_ Hl [_ Hn] _]. split; [|done]. eapply Forall_impl; [exact Hl|]. simpl.
  intros b Hb ->. apply Hb. unfold eol, newline. set_solver.
Qed.

(** An annotation is a line of its own that can be told from the log's. *)
Lemma annotation_line line note :
  piece line -> is_annotation line note -> whole_line note /\ ordinary note = false.
Proof.
  intros (body & b & Hline & Hb) (symbol & [Hnl Hs]%symbol_text_line & Hnote).
  unfold SYMBOL_SIZE in Hs. destruct Hnote as [->|(name & (_ & Hn & pre & post & Hname) & ->)].
  - split; [|reflexivity]. exists (EE_NOTE ++ symbol). split; [by rewrite <- app_assoc|]. split.
    + apply Forall_app. split; [by repeat constructor|done].
    + rewrite length_app. unfold LINE_BUFFER. change (length EE_NOTE) with 14%nat. lia.
  - split; [|reflexivity]. exists (IOP_NOTE ++ name ++ bytes_of " symbol] " ++ symbol).
    split; [by rewrite <- !app_assoc|]. rewrite !Forall_app, !length_app. unfold NAME_SIZE in Hn. split.
    + rewrite Hname in Hline. split_and!; [by repeat constructor| |by repeat constructor|done].
      by eapply before_last; [exact Hline|].
    + unfold LINE_BUFFER. change (length IOP_NOTE) with 7%nat.
      change (length (bytes_of " symbol] ")) with 9%nat. lia.
Qed.

Lemma strip_notes lines ns :
  Forall whole_line lines -> Forall (fun line => ordinary line = true) lines ->
  Forall2 (fun line note => note = [] \/ is_annotation line note) lines ns ->
  strip_annotations (concat (zip_with app lines ns)) = concat lines.
Proof.
  intros Hw Ho Hn. unfold strip_annotations. induction Hn as [|line note lines ns Hnote _ IH]; [done|].
  apply Forall_cons in Hw as [Hw Hws], Ho as [Ho Hos]. cbn [zip_with concat]. rewrite <- app_assoc.
  rewrite fgets_lines_cons, filter_cons_True by done. cbn [concat]. f_equal.
  destruct Hnote as [->|Hnote]; [by apply IH|].
  destruct (annotation_line _ _ (whole_line_piece _ Hw) Hnote) as [Hwn Hon].
  rewrite fgets_lines_cons, filter_cons_False by (done || by rewrite Hon). by apply IH.
Qed.

(** ** One exception *)

(** A line that neither announces an exception nor has the needle. *)
Definition plain (needle line : list Z) : Prop :=
  Forall (fun b => b <> 0) line /\ is_header line = false /\ contains line needle = false.

Lemma annotate_lines_app {W} (resolve : resolve_fn W) lines1 lines2 : forall c w,
  annotate_lines resolve c (lines1 ++ lines2) w
  = let '(c1, out1, w1) := annotate_lines resolve c lines1 w in
    let '(c2, out2, w2) := annotate_lines resolve c1 lines2 w1 in (c2, out1 ++ out2, w2).
Proof.
  induction lines1 as [|line lines1 IH]; intros c w; simpl.
  - by destruct (annotate_lines resolve c lines2 w) as [[? ?] ?].
  - destruct (annotate_line resolve c (until_null line) w) as [[c' out] w']. rewrite IH.
    destruct (annotate_lines resolve c' lines1 w') as [[c1 out1] w1].
    destruct (annotate_lines resolve c1 lines2 w1) as [[c2 out2] w2]. by rewrite app_assoc.
Qed.

Lemma note_exception_plain needle line c : plain needle line -> note_exception line c = c.
Proof.
  intros (_ & Hh & _). unfold is_header in Hh. apply orb_false_iff in Hh as [H1 H2].
  unfold note_exception. by rewrite H1, H2.
Qed.

Lemma contains_false line needle : contains line needle = false -> strstr line needle = None.
Proof.
  unfold contains. intros Hc%bool_decide_eq_false. destruct (strstr line needle); [|done].
  destruct Hc. by eexists.
Qed.

(** Lines without what is looked for are copied. *)
Lemma annotate_plain {W} (resolve : resolve_fn W) needle c lines w :
  (exception c = 1 /\ ee_elf c <> None /\ needle = EE_EPC \/ exception c = 2 /\ needle = IOP_MODULE) ->
  Forall (plain needle) lines -> annotate_lines resolve c lines w = (c, concat lines, w).
Proof.
  intros Hc. induction 1 as [|line lines Hp Hl IH]; [done|]. pose proof Hp as (Hnz & _ & Hn).
  cbn [annotate_lines concat]. rewrite until_null_id by done. unfold annotate_line, annotation.
  rewrite (note_exception_plain _ _ _ Hp).
  assert (Hf : find_pc c line = None).
  { unfold find_pc. apply contains_false in Hn. destruct Hc as [(-> & Helf & ->)|[-> ->]].
    - rewrite bool_decide_eq_true_2 by (destruct (ee_elf c); [by eexists|done]). simpl. by rewrite Hn.
    - simpl. by rewrite Hn. }
  rewrite Hf. cbn [app]. by rewrite app_nil_r, IH.
Qed.

(** The last line of an exception: its symbol is looked up and written. *)
Lemma annotate_found {W} (resolve : resolve_fn W) c line name tool elf pc value symbol w w' :
  Forall (fun b => b <> 0) line -> is_header line = false ->
  find_pc c line = Some (name, tool, Some elf, pc) ->
  resolve tool elf pc SYMBOL_SIZE w = ((value, symbol), w') -> 0 < value ->
  annotate_lines resolve c [line] w
  = (set_exception 0 c,
     line ++ (if bool_decide (name = []) then ee_line symbol else iop_line name symbol), w').
Proof.
  intros Hnz Hh Hf Hr Hv. cbn [annotate_lines]. rewrite until_null_id by done.
  unfold is_header in Hh. apply orb_false_iff in Hh as [H1 H2].
  unfold annotate_line, annotation, note_exception. rewrite H1, H2, Hf, Hr.
  rewrite Z.gtb_ltb, (proj2 (Z.ltb_lt 0 value)) by done. by rewrite app_nil_r.
Qed.

(** An exception from its first to its last line. *)
Lemma annotate_exception {W} (resolve : resolve_fn W) c header mid line which needle name tool elf pc
    value symbol w w' :
  Forall (fun b => b <> 0) header -> Forall (fun b => b <> 0) line -> is_header line = false ->
  note_exception header c = set_exception which c -> contains header needle = false ->
  (which = 1 /\ ee_elf c <> None /\ needle = EE_EPC \/ which = 2 /\ needle = IOP_MODULE) ->
  Forall (plain needle) mid ->
  find_pc (set_exception which c) line = Some (name, tool, Some elf, pc) ->
  resolve tool elf pc SYMBOL_SIZE w = ((value, symbol), w') -> 0 < value ->
  annotate_lines resolve c (header :: mid ++ [line]) w
  = (set_exception 0 c, header ++ concat mid ++ line
       ++ (if bool_decide (name = []) then ee_line symbol else iop_line name symbol), w').
Proof.
  intros Hh Hl Hhl Hne Hno Hw Hmid Hf Hr Hv. cbn [annotate_lines].
  rewrite until_null_id by done. unfold annotate_line, annotation. rewrite Hne.
  assert (Hnone : find_pc (set_exception which c) header = None).
  { unfold find_pc. apply contains_false in Hno. destruct Hw as [(-> & Helf & ->)|[-> ->]]; simpl.
    - rewrite bool_decide_eq_true_2 by (destruct (ee_elf c); [by eexists|done]). by rewrite Hno.
    - by rewrite Hno. }
  rewrite Hnone, annotate_lines_app, (annotate_plain _ needle) by done.
  rewrite (annotate_found _ _ _ _ _ _ _ _ _ _ _ Hl Hhl Hf Hr Hv). by rewrite app_nil_r.
Qed.

(** ** Arguments *)

(** What the arguments can set up: names that fit their arrays, no more
    modules than there are places. *)
Record config_ok (c : symbolizer) : Prop := {
  ok_state : exception c = 0 /\ errors c = 0;
  ok_count : (length (modules c) <= MAX_MODULES)%nat;
  ok_modules : Forall (fun m => m.1 <> [] /\ (length m.1 < NAME_SIZE)%nat /\ m.2 <> []) (modules c) }.

Lemma add_module_ok pair c c' : add_module pair c = Some c' -> config_ok c -> config_ok c'.
Proof.
  unfold add_module. destruct (split_equals pair) as [[name elf]|]; [|done].
  destruct (bool_decide (name = []) || (NAME_SIZE <=? length name)%nat || bool_decide (elf = [])
    || (length (modules c) =? MAX_MODULES)%nat) eqn:Hc; [done|]. intros [= <-] [Hs Hn Hm].
  rewrite !orb_false_iff in Hc. destruct Hc as [[[H1%bool_decide_eq_false H2%Nat.leb_gt] H3%bool_decide_eq_false]
    H4%Nat.eqb_neq].
  split; simpl; [done|rewrite length_app; simpl; lia|]. apply Forall_app. split; [done|].
  by constructor; [|constructor].
Qed.

Lemma parse_args_ok m : forall argv c p c' p', (length argv <= m)%nat ->
  config_ok c -> parse_args argv c p = Run c' p' -> config_ok c'.
Proof.
  induction m as [|m IH]; intros argv c p c' p' Hl Hok; destruct argv as [|a argv]; simpl in *;
    try lia; try (by intros [= <- <-]).
  assert (Hset : forall e t i, config_ok (mk_symbolizer e t i (modules c) (exception c) (errors c)))
    by (intros; by destruct Hok).
  repeat (case_match; try done; [destruct argv as [|v argv]; [done|]; simpl in *; by apply IH; [lia|]|]).
  case_match; [destruct argv as [|v argv]; [done|]; simpl in *|].
  { destruct (add_module v c) as [c1|] eqn:Ha; [|done]. apply IH; [lia|]. by eapply add_module_ok. }
  case_match; [done|]. case_match; [|done]. apply IH; [lia|done].
Qed.

Lemma initial_ok : config_ok initial_symbolizer.
Proof. split; [done|simpl; lia|constructor]. Qed.

(** ** The properties of tools/ps2symbolize.c *)

(** The run of the program on a log it can read. *)
Lemma main_run {W} `{SubprocessLaws W} fopen stdin argv c p input (w : W) :
  parse_args argv initial_symbolizer None = Run c p -> ee_elf c <> None \/ modules c <> [] ->
  read_log fopen stdin p = Some input -> Forall (fun b => b <> 0) input ->
  exists status annotations w',
    let lines := fgets_lines (LINE_BUFFER - 1) [] input in
    main fopen stdin argv w = (status, concat (zip_with app lines annotations), w')
    /\ concat lines = input
    /\ Forall2 (fun line note => note = [] \/ is_annotation line note) lines annotations
    /\ (count_notes annotations <= count_headers lines)%nat.
Proof.
  intros Hp Hc Hin Hnz. pose proof (parse_args_ok _ _ _ _ _ _ (le_n _) initial_ok Hp) as [[Hex _] _ _].
  unfold main, run_main. rewrite Hp, Hin.
  replace (bool_decide (ee_elf c = None) && bool_decide (modules c = [])) with false.
  2: { symmetry. apply andb_false_iff. rewrite !bool_decide_eq_false. done. }
  set (lines := fgets_lines (LINE_BUFFER - 1) [] input).
  pose proof (concat_fgets_lines input (LINE_BUFFER - 1) []) as Hcat. fold lines in Hcat. simpl in Hcat.
  assert (Hid : Forall (fun line => until_null line = line) lines).
  { rewrite <- Hcat in Hnz. clear -Hnz. induction lines as [|line lines IH]; [constructor|].
    cbn [concat] in Hnz. apply Forall_app in Hnz as [H1 H2]. constructor; [by apply until_null_id|by apply IH]. }
  pose proof (annotate_lines_notes resolve_symbol lines c w) as Hout.
  destruct (notes_facts resolve_symbol lines resolve_symbol_sound c w) as [Hn Hcount].
  destruct (annotate_lines resolve_symbol c lines w) as [[c' out] w']. simpl in Hout.
  exists (if errors c' =? 0 then 0 else 1), (notes resolve_symbol c lines w), w'. cbv zeta.
  unfold armed in Hcount. rewrite Hex in Hcount. split_and!; [|done| |exact Hcount].
  - f_equal. f_equal. rewrite Hout. f_equal. clear -Hid. revert Hid.
    generalize (notes resolve_symbol c lines w). induction lines as [|line lines IH]; intros [|n ns] Hid;
      simpl; try done. apply Forall_cons in Hid as [-> Hid]. by rewrite IH.
  - clear -Hn Hid. induction Hn as [|line note lines ns Hnote _ IH]; [constructor|].
    apply Forall_cons in Hid as [Hl Hid]. rewrite Hl in Hnote. constructor; [done|by apply IH].
Qed.

(** C25: a log without null bytes comes out unchanged but for whole lines of
    annotation: the output is the input as fgets cuts it up, in order, each
    piece followed by at most one annotation, which is a line of its own (it
    ends with a newline and has no other) with a symbol that is one line of
    text; without them it is the input, byte for byte, whatever addr2line does.
    The pieces are the lines of the log, so that an annotation stands between
    two lines; only a line of more than 8191 bytes is read in pieces, and can
    have an annotation in its middle. There are no more annotations than pieces
    that announce an exception. *)
Theorem symbolize_keeps_log (W : Type) `{SubprocessLaws W} (fopen : list Z -> option (list Z))
    (stdin : list Z) (argv : list (list Z)) (c : symbolizer) (p : option (list Z)) (input : list Z) (w : W) :
  parse_args argv initial_symbolizer None = Run c p -> ee_elf c <> None \/ modules c <> [] ->
  read_log fopen stdin p = Some input -> Forall (fun b => b <> 0) input ->
  exists status lines annotations w',
    main fopen stdin argv w = (status, concat (zip_with app lines annotations), w')
    /\ lines_of input lines /\ concat lines = input
    /\ Forall2 (fun line note => note = [] \/ is_annotation line note /\ whole_line note) lines annotations
    /\ (count_notes annotations <= count_headers lines)%nat.
Proof.
  intros Hp Hc Hin Hnz.
  destruct (main_run _ stdin _ _ _ _ w Hp Hc Hin Hnz) as (status & ns & w' & Hrun & Hcat & Hn & Hcount).
  pose proof (log_lines input) as Hlines. pose proof (lines_of_pieces _ _ Hlines) as Hpieces.
  eexists status, _, ns, w'. split_and!; [exact Hrun|exact Hlines|exact Hcat| |exact Hcount].
  clear -Hn Hpieces. induction Hn as [|line note lines ns Hnote _ IH]; [constructor|].
  apply Forall_cons in Hpieces as [Hpiece Hpieces]. constructor; [|by apply IH].
  destruct Hnote as [->|Hnote]; [by left|right]. split; [done|]. by apply (annotation_line line).
Qed.

Definition demo_log : list (list Z) :=
  [bytes_of "boot" ++ [10]; bytes_of "EE Exception handler: TLB" ++ [10];
   bytes_of "EPC 00100008 BadVAddr 0" ++ [10]].
Definition demo_args : list (list Z) := [bytes_of "--ee"; bytes_of "a.elf"; bytes_of "-"].
Definition demo_config : symbolizer :=
  mk_symbolizer (Some (bytes_of "a.elf")) (ee_tool initial_symbolizer) (iop_tool initial_symbolizer) [] 0 0.

Lemma symbolize_keeps_log_witness :
  exists status lines annotations w',
    main (fun _ => None) (concat demo_log) demo_args shell_start
      = (status, concat (zip_with app lines annotations), w')
    /\ concat lines = concat demo_log /\ (count_notes annotations <= count_headers lines)%nat.
Proof.
  destruct (symbolize_keeps_log shell (fun _ => None) (concat demo_log) demo_args demo_config
    (Some (bytes_of "-")) (concat demo_log) shell_start)
    as (status & lines & annotations & w' & Hm & _ & Hcat & _ & Hcount).
  - vm_compute. reflexivity.
  - left. done.
  - vm_compute. reflexivity.
  - apply (bool_decide_eq_true (Forall _ _)). vm_compute. reflexivity.
  - exists status, lines, annotations, w'. split; [exact Hm|]. split; [exact Hcat|exact Hcount].
Defined.

(** C26: the annotations can be taken away again: reading the output line by
    line and leaving out the lines that begin like an annotation gives the log
    back, if its own lines do not begin like one and fit the buffer. *)
Theorem symbolize_log_recovered (W : Type) `{SubprocessLaws W} (fopen : list Z -> option (list Z))
    (stdin : list Z) (argv : list (list Z)) (c : symbolizer) (p : option (list Z))
    (log : list (list Z)) (w : W) :
  parse_args argv initial_symbolizer None = Run c p -> ee_elf c <> None \/ modules c <> [] ->
  read_log fopen stdin p = Some (concat log) ->
  Forall whole_line log -> Forall (fun line => ordinary line = true) log ->
  Forall (fun b => b <> 0) (concat log) ->
  exists status output w', main fopen stdin argv w = (status, output, w')
    /\ strip_annotations output = concat log.
Proof.
  intros Hp Hc Hin Hw Ho Hnz.
  destruct (main_run _ stdin _ _ _ _ w Hp Hc Hin Hnz) as (status & ns & w' & Hrun & _ & Hn & _).
  rewrite fgets_lines_whole in Hrun, Hn by done. eexists status, _, w'. split; [exact Hrun|].
  by apply strip_notes.
Qed.

Lemma symbolize_log_recovered_witness :
  exists status output w', main (fun _ => None) (concat demo_log) demo_args shell_start
                           = (status, output, w')
    /\ output <> concat demo_log /\ strip_annotations output = concat demo_log.
Proof.
  destruct (symbolize_log_recovered shell (fun _ => None) (concat demo_log) demo_args demo_config
    (Some (bytes_of "-")) demo_log shell_start) as (status & output & w' & Hm & Hs).
  - vm_compute. reflexivity.
  - left. done.
  - vm_compute. reflexivity.
  - repeat constructor; (eexists; split; [reflexivity|]); split;
      [by repeat constructor|unfold LINE_BUFFER; simpl; lia|by repeat constructor|unfold LINE_BUFFER; simpl; lia
      |by repeat constructor|unfold LINE_BUFFER; simpl; lia].
  - repeat constructor.
  - apply (bool_decide_eq_true (Forall _ _)). vm_compute. reflexivity.
  - exists status, output, w'. split; [exact Hm|]. split; [|exact Hs]. intros Heq.
    assert (Hn : length output = length (concat demo_log)) by (by rewrite Heq).
    change output with ((status, output, w').1.2) in Hn. rewrite <- Hm in Hn. vm_compute in Hn. discriminate.
Defined.

(** C29: an EE exception is annotated with the symbol of its EPC: from the
    line that announces it, over any lines without an EPC, to the first line
    with one, behind which comes what addr2line prints for the hexadecimal
    number there in the ELF file. The state is as before the exception then. *)
Theorem ee_exception_annotated (W : Type) `{SubprocessLaws W} (addr2line : list (list Z) -> list Z)
    `{!WorkingTool W addr2line} (c : symbolizer) (header : list Z) (mid : list (list Z))
    (before ds rest elf symbol more : list Z) (w : W) :
  ee_elf c = Some elf -> Forall (fun b => b <> 0) header -> contains header EE_HEADER = true ->
  contains header IOP_HEADER = false -> contains header EE_EPC = false ->
  Forall (plain EE_EPC) mid ->
  let line := before ++ EE_EPC ++ numeral ds ++ rest in
  Forall (fun b => b <> 0) line -> is_header line = false ->
  strstr line EE_EPC = Some (length before) ->
  Forall (fun d => 0 <= d < 16) ds -> ds <> [] -> hex_ends rest -> value_of 16 ds 0 < 2 ^ 32 ->
  symbol_text SYMBOL_SIZE symbol ->
  addr2line (addr2line_argv (ee_tool c) elf (format_pc (value_of 16 ds 0))) = symbol ++ newline :: more ->
  exists w', annotate_lines resolve_symbol c (header :: mid ++ [line]) w
    = (set_exception 0 c, header ++ concat mid ++ line ++ ee_line symbol, w').
Proof.
  intros Helf Hh Hee Hiop Hnepc Hmid line Hl Hlh Hat Hds Hdn He Hv Hsym Hr.
  destruct (resolve_symbol_works addr2line SYMBOL_SIZE (ee_tool c) elf _ w symbol more Hsym Hr) as [w' Hw].
  exists w'. rewrite (annotate_exception resolve_symbol c header mid line 1 EE_EPC [] (ee_tool c) elf
    (value_of 16 ds 0) 1 symbol w w'); try done.
  - unfold note_exception. by rewrite Hee, Hiop.
  - left. by rewrite Helf.
  - unfold find_pc. simpl. rewrite Helf, bool_decide_eq_true_2 by (by eexists). simpl.
    rewrite Hat. unfold line. rewrite drop_app_length, sscanf_ee_numeral by done. done.
Qed.

(** The symbol the tool of [shell] knows. *)
Definition demo_symbol : list Z := bytes_of "main at main.c:7".

Lemma demo_symbol_text : symbol_text SYMBOL_SIZE demo_symbol.
Proof.
  split; [by repeat constructor| |unfold SYMBOL_SIZE; simpl; lia|done].
  apply (bool_decide_eq_true (Forall _ _)). vm_compute. reflexivity.
Qed.

Lemma ee_exception_annotated_witness :
  let c := mk_symbolizer (Some (bytes_of "a.elf")) (bytes_of "tool") [] [] 0 0 in
  exists w', annotate_lines resolve_symbol c
    (bytes_of "EE Exception handler:" :: [bytes_of "TLB miss"]
       ++ [bytes_of "pc " ++ EE_EPC ++ numeral [0; 0; 1; 0; 0; 0; 0; 8] ++ bytes_of " ra"]) shell_start
  = (c, bytes_of "EE Exception handler:TLB misspc EPC 00100008 ra" ++ ee_line demo_symbol, w').
Proof.
  intros c. refine (ee_exception_annotated shell demo_addr2line c (bytes_of "EE Exception handler:")
    [bytes_of "TLB miss"] (bytes_of "pc ") [0; 0; 1; 0; 0; 0; 0; 8] (bytes_of " ra") (bytes_of "a.elf")
    demo_symbol [] shell_start eq_refl _ _ _ _ _ _ _ _ _ _ _ _ demo_symbol_text _).
  all: try (vm_compute; reflexivity).
  - apply (bool_decide_eq_true (Forall _ _)). vm_compute. reflexivity.
  - constructor; [|constructor]. split; [|vm_compute; done].
    apply (bool_decide_eq_true (Forall _ _)). vm_compute. reflexivity.
  - apply (bool_decide_eq_true (Forall _ _)). vm_compute. reflexivity.
  - repeat constructor; lia.
  - done.
  - split; [|by split]. simpl. intros d Hd. vm_compute in Hd. discriminate.
Defined.

(** C30: an IOP exception is annotated with the symbol of its address in the
    right ELF file, the first one given for a module whose name is the
    printed one, upper and lower case apart. *)
Theorem iop_exception_annotated (W : Type) `{SubprocessLaws W} (addr2line : list (list Z) -> list Z)
    `{!WorkingTool W addr2line} (c : symbolizer) (header : list Z) (mid : list (list Z))
    (before name ds rest symbol more : list Z) (ms1 ms2 : list (list Z * list Z)) (n elf : list Z) (w : W) :
  modules c = ms1 ++ (n, elf) :: ms2 ->
  Forall (fun m => map tolower m.1 <> map tolower name) ms1 -> map tolower n = map tolower name ->
  Forall (fun b => b <> 0) header -> contains header IOP_HEADER = true ->
  contains header IOP_MODULE = false -> Forall (plain IOP_MODULE) mid ->
  let line := before ++ module_text name ds rest in
  Forall (fun b => b <> 0) line -> is_header line = false ->
  strstr line IOP_MODULE = Some (length before) ->
  Forall (fun b => b <> quote) name -> name <> [] -> (length name < NAME_SIZE)%nat ->
  Forall (fun d => 0 <= d < 16) ds -> ds <> [] -> hex_ends rest -> value_of 16 ds 0 < 2 ^ 32 ->
  symbol_text SYMBOL_SIZE symbol ->
  addr2line (addr2line_argv (iop_tool c) elf (format_pc (value_of 16 ds 0))) = symbol ++ newline :: more ->
  exists w', annotate_lines resolve_symbol c (header :: mid ++ [line]) w
    = (set_exception 0 c, header ++ concat mid ++ line ++ iop_line name symbol, w').
Proof.
  intros Hms Hb Hn Hh Hiop Hno Hmid line Hl Hlh Hat Hq Hnn Hnl Hds Hdn He Hv Hsym Hr.
  destruct (resolve_symbol_works addr2line SYMBOL_SIZE (iop_tool c) elf _ w symbol more Hsym Hr) as [w' Hw].
  exists w'. rewrite (annotate_exception resolve_symbol c header mid line 2 IOP_MODULE name (iop_tool c) elf
    (value_of 16 ds 0) 1 symbol w w'); try done.
  - by rewrite bool_decide_eq_false_2.
  - unfold note_exception. rewrite Hiop. by destruct (contains header EE_HEADER).
  - by right.
  - unfold find_pc. simpl. rewrite Hat. unfold line.
    rewrite drop_app_length, sscanf_iop_text by done. by rewrite Hms, find_module_spec.
Qed.

Lemma iop_exception_annotated_witness :
  let c := mk_symbolizer None [] (bytes_of "tool") [(bytes_of "a", bytes_of "a.irx"); (bytes_of "PADMAN", bytes_of "p.irx")] 0 0 in
  exists w', annotate_lines resolve_symbol c
    (bytes_of "IOP Exception handler:" :: []
       ++ [bytes_of " " ++ module_text (bytes_of "padman") [1; 0; 0; 0; 0; 8] []]) shell_start
  = (c, bytes_of "IOP Exception handler:" ++ bytes_of " "
        ++ module_text (bytes_of "padman") [1; 0; 0; 0; 0; 8] []
        ++ iop_line (bytes_of "padman") demo_symbol, w').
Proof.
  intros c. refine (iop_exception_annotated shell demo_addr2line c (bytes_of "IOP Exception handler:") []
    (bytes_of " ") (bytes_of "padman") [1; 0; 0; 0; 0; 8] [] demo_symbol [] [(bytes_of "a", bytes_of "a.irx")] []
    (bytes_of "PADMAN") (bytes_of "p.irx") shell_start eq_refl _ _ _ _ _ _ _ _ _ _ _ _ _ _ _ _
    demo_symbol_text _).
  all: try (vm_compute; reflexivity).
  - constructor; [|constructor]. done.
  - apply (bool_decide_eq_true (Forall _ _)). vm_compute. reflexivity.
  - constructor.
  - apply (bool_decide_eq_true (Forall _ _)). vm_compute. reflexivity.
  - apply (bool_decide_eq_true (Forall _ _)). vm_compute. reflexivity.
  - done.
  - simpl. unfold NAME_SIZE. lia.
  - repeat constructor; lia.
  - done.
  - by split.
Defined.

(** The arguments cannot overflow the tables of the tool: every module
    name that is accepted fits in its 128 bytes with its null, there are 64
    modules at most, and none has an empty name or file. *)
Theorem arguments_fit_tables (argv : list (list Z)) (c : symbolizer) (p : option (list Z)) :
  parse_args argv initial_symbolizer None = Run c p -> config_ok c.
Proof. apply (parse_args_ok _ _ _ _ _ _ (le_n _) initial_ok). Qed.

Lemma arguments_fit_tables_witness :
  config_ok (mk_symbolizer None (ee_tool initial_symbolizer) (iop_tool initial_symbolizer)
               [(bytes_of "padman", bytes_of "p.irx")] 0 0).
Proof.
  apply (arguments_fit_tables [bytes_of "--iop"; bytes_of "padman=p.irx"] _ None).
  vm_compute. reflexivity.
Defined.
